(* ===== verification/_CoqProject ===== *)
-Q . S2P
Prelude.v
CppStd.v
External.v
Common.v
Samples.v
Verifier.v
Dcap.v
Sgx2Verifier.v
TdxVerifier.v
Path.v
YaclCrypto.v
Tasks.v
CryptoFile.v
Footprint.v
Hygon.v
CsvVerifier.v
VerifierWrapper.v
Host.v
IntelGenerator.v
CsvGenerator.v
GeneratorWrapper.v
SampleProgram.v
RustCrate.v
Bindings.v
ProxyCommon.v
RaProxy.v
Jose.v
Envelope.v
CapsuleManagerClient.v
Directory.v
Tree.v
OssClient.v
DataCapsuleProxy.v
Concurrent.v
ConcurrentInput.v
Utils.v
Programs.v
