(* ===== verification/Prelude.v ===== *)
(** * TrustFlow: verification development

    TrustFlow generates and verifies remote attestation reports of trusted
    execution environments (Intel SGX and TDX, Hygon CSV) and runs two proxies
    next to an enclave application: one hands out reports, the other fetches
    data keys and encrypts or decrypts the application's files.  This library
    models its C++ code (under [src/trustflow]) as Rocq functions and proves
    what they promise to each other and to their users.

    ** How the program is modelled

    - A piece of C++ code is a function into [outcome]: a value, an exception
      ([exn]: its class, its format text and arguments) or undefined behaviour
      ([UB]: an access outside an object).  Code that changes state is a
      function [st S A] from the state to an outcome and the next state, so what
      was done before an exception stays done.
    - [std::string] is [string], byte buffers are lists of bytes; reads and
      [memcpy] go through [read_at] and [memcpy_at], which are [UB] out of
      bounds.  [uint32_t] and [uint64_t] arithmetic is [Z] with [u32] and [u64]
      written where the code computes.
    - Code outside the repository (Abseil, cppcodec, protobuf, fmt, yacl,
      OpenSSL, Intel's and Hygon's headers and libraries, brpc, gRPC, devices) is
      a parameter: a class with the functions at the types they are used at, and
      a class in [Prop] with the documented behaviour that proofs rely on.  Each
      has a concrete instance [sample_...] whose laws are proved; the witness of
      a theorem runs the code with them.  The C++ standard library is defined.
    - Protobuf messages are records with the fields the code reads or writes.
    - No recursion needs fuel but two loops: decimal printing ([digits], fuel
      [log2 n + 1], one per digit at least) and the DER loop ([read_der], one
      read more than there are bytes); both are proved to end with the result.

    ** Files, in order

    - [Prelude]: bytes, outcomes, state passing, memory, machine integers, the
      tactics [inv_ok], [inv_st], [solve_defined] and the hint database
      [trustflow].  [CppStd]: [to_string], [stoi], [strlen], [strncpy], letter
      case.  [External], [Samples]: library parameters shared by all parts.
    - [Common]: [attestation/common], [attestation/utils/json2pb.h], messages.
    - [Verifier]: [verification/interface/verifier.cc], the comparison of report
      attributes with a policy, and the class [AttestationVerifier] that the
      platform verifiers implement.
    - [Dcap], [Sgx2Verifier], [TdxVerifier]: Intel's structures and library, and
      [verification/sgx2], [verification/tdx].
    - [Path]: [std::filesystem::path] on its text.  [YaclCrypto]: files,
      directories, streams and AES-GCM; a file can be opened for writing only where
      its parent directory is there and no directory has its name.  [Tasks]:
      programs that run beside others.  [CryptoFile]: the encrypted file container
      of [proxy/utils/crypto_util.cc].  [Footprint]: [EncryptFile] and
      [DecryptFile] change their destination and nothing else.
    - [Hygon], [CsvVerifier]: Hygon's structures with SM2, and
      [verification/csv].
    - [VerifierWrapper]: [verification/verifier_factory.h], the status wrapper and
      the C functions.
    - [Host], [IntelGenerator], [CsvGenerator], [GeneratorWrapper]: devices, quote
      libraries and certificate server; [collateral], [generation/sgx2],
      [generation/tdx], [generation/csv]; selection of the generator and its C
      functions.  [SampleProgram]: [sample/generation/main.cc], a client of them.
    - [RustCrate], [Bindings]: the C functions as seen from Rust
      ([src/cargo/trustflow-attestation-rs/src/lib.rs]) and the C++ functions as
      exported to Python ([generator_modules.cc], [verifier_modules.cc] under
      [src/pylib]) and WebAssembly ([verification/wasm_binding.cc]).
    - [ProxyCommon], [RaProxy]: brpc methods; [proxy/utils/ra_util.cc] and
      [proxy/ra_proxy].
    - [Jose], [Envelope]: RSA, X.509 and base64url; the JWS and JWE envelopes of
      [proxy/utils/crypto_util.h].
    - [CapsuleManagerClient]: [proxy/data_capsule_proxy/capsule_manager_client.cc].
    - [Directory], [Tree]: operations on directories, [EncryptToDir] and
      [DecryptToDir] of [proxy/utils/crypto_util.cc] with their [std::async]
      tasks; what they make of a whole tree.
    - [OssClient]: [proxy/data_capsule_proxy/oss_client.cc].
    - [DataCapsuleProxy]: [proxy/data_capsule_proxy/data_capsule_proxy.cc], the
      two methods over files, object store, capsule manager and response.
      [Concurrent], [ConcurrentInput]: what calls leave alone, and calls of either
      method that others do not disturb.
    - [Utils], [Programs]: [proxy/utils/io_util.cc], [proxy/utils/log.cc] and the
      main functions of the two proxies.

    Code that runs beside other code is a program ([prog] in [Tasks]): a sequence
    of operations on the shared state, with computation in between.  [perform]
    runs a program alone; in a pool ([pool_step]) any program may do its next
    operation.  The operations are calls on a stream or the random generator, tests
    and changes of the file system, requests to the object store and exchanges with
    the capsule manager.  A directory operation runs its [std::async] tasks inside
    a transition system ([step], [walk_step]): a step is a turn of the loop
    ([Visit]) or one operation of a task ([Run i]); [EncryptToDir] and
    [DecryptToDir] take the schedule, any list of such events, as an argument; what
    it leaves open happens at the end, as [future.get] and the destructors of the
    futures see to.  So service calls interleave down to the single operations of
    their tasks.  The theorems hold for all schedules and all interleavings.
    Proofs about one program among others use [wp] (others leave its source and
    destination alone) and [wp_rely] with [guarantees] (others keep to a relation,
    and so do their operations).  A program is a finite tree by construction: that
    the loops of a call end is part of the translation and not a theorem, which is
    why no theorem claims that calls terminate.

    ** What is proved

    The claim ids are those of the comments above the theorems.

    - Policies ([Verifier]): what an accepted report satisfies, and which entries
      of a longer policy are tried (a text mismatch ends the search); a single
      entry is decided exactly, and nothing undefined happens.
    - Intel verifiers ([Sgx2Verifier], [TdxVerifier]): quotes are read in bounds
      (with the one case of a version 5 TDX quote that is not), exactly the six
      accepted results of Intel's library pass, and what an accepted SGX or TDX
      report shows.
    - File container ([CryptoFile]): [DecryptFile] succeeds exactly on
      well-formed containers with authentic packets and refines that abstract
      format, encryption followed by decryption is the identity, sizes, errors,
      and the freedom an attacker keeps (packet order, version bytes).
    - Directories ([Tree]): an invariant of every moment of [EncryptToDir] on
      non-empty files with room in the target, and the round trip of such a tree.
    - Object store ([OssClient]): the round trip of a tree of at most 100 files.
    - Data capsule proxy ([DataCapsuleProxy], [Concurrent], [ConcurrentInput]): the
      round trip through both methods and the store and what a failed call leaves;
      for calls served at the same time, that the key a capsule in the store opens
      with is the key that the capsule manager has registered for it, that an input
      is opened with the first key the capsule manager gave out for it, and that a
      result arrives in the store, and an input in its directory, whole when the
      other calls work elsewhere (a result may arrive under another call's key when
      two calls share a source).
    - CSV verifier ([CsvVerifier]): the certificate chain from Hygon's root key,
      bounds, the fields of the quote, what is not authenticated, and that a report
      that passes the platform check is read past the end of a field, so that the
      verification of a CSV report has no defined accepting result.
    - Wrapper ([VerifierWrapper]): status codes, what code 0 means for Intel
      reports, that CSV reports reach undefined behaviour or are refused,
      agreement of the C and the C++ function, output buffers.
    - Generators ([IntelGenerator], [CsvGenerator], [GeneratorWrapper]): layout
      and bounds of report data, release of devices and buffers on every path,
      generated reports read back by the verifiers, collateral texts, output
      buffers of the C function; the exit code of the sample program
      ([SampleProgram]).
    - Other languages ([RustCrate], [Bindings]): the functions of the Rust crate
      agree with the C++ ones on every path and never panic; Python and Rust get
      the same reports.
    - Remote attestation service ([RaProxy]): its answers on every path and what
      the report of an answer attests under a policy.
    - Envelopes and client ([Envelope], [CapsuleManagerClient]): the peer reads
      the request and its signature, keys come only out of such an exchange, and
      the DER loop ends.
    - Logs and programs ([Utils], [Programs]): both loggers or an error, exit
      codes, and what a program has done when it ends with 0: calls that arrived
      were served from the state after start-up, interleaved on its files, the
      store and the capsule manager, and had all ended.

    Bounds in hypotheses are those of the C++ types: file lengths below [2 ^ 62],
    buffer lengths below [2 ^ 32]; 100 is the default length of an OSS listing,
    of which the code asks for one.

    ** What is not modelled

    The Python data classes over the bindings, the bindgen program of the Rust
    crate and the data management component for Kuscia ([src/dm_component], Python
    and Rust), which are glue to other systems.  Allocation failure and log output
    are left out throughout; deadlines, timeouts and numbers of retries are computed
    and handed to brpc and gRPC, whose business it is to act on them.  Paths are
    text: two spellings of a path are two names, [relative] is lexical, there are no
    symbolic links and no permissions but [permitted]; a directory
    walk sees what was there when it started; a turn of the loop of a directory
    operation, [std::filesystem::copy], [remove_all] and the transfer of one object
    are one step each, and streams write through (no buffering).
    What a download by one call may do to another is not bounded in [Concurrent]:
    it may write outside its destination ([DownloadFromOss_neighbour]).
    The brpc server is a parameter that gives the calls that arrive and the order
    of their operations; in [Programs] a call of the attestation service is one
    operation and the answers of the calls are not kept. *)

From stdpp Require Export base gmap strings list.
From Stdlib Require Export Ascii.
From coqutil Require Export Byte Word.LittleEndianList.
From Stdlib Require Export Lia ZArith.

#[global] Open Scope Z_scope.

(** ** Bytes and C++ strings

    [std::vector<uint8_t>], [uint8_t[]] and [yacl::ByteContainerView] are lists
    of bytes; [std::string] is [string].  A cast between the two ([data()],
    [reinterpret_cast<char*>]) is one of the two conversions below. *)

Abbreviation bytes := (list Init.Byte.byte).
Abbreviation s2b := String.list_byte_of_string.
Abbreviation b2s := String.string_of_list_byte.

Lemma length_s2b s : length (s2b s) = String.length s.
Proof.
  unfold String.list_byte_of_string. rewrite length_map.
  induction s as [|c s IH]; [done|]. cbn. by rewrite IH.
Qed.

Lemma b2s_s2b s : b2s (s2b s) = s.
Proof. apply String.string_of_list_byte_of_string. Qed.

#[global] Instance byte_eq_dec : EqDecision Init.Byte.byte := Byte.byte_eq_dec.

Definition zero_bytes (n : nat) : bytes := replicate n Byte.x00.

Definition len {A} (l : list A) : Z := Z.of_nat (length l).

(** ** Errors

    A C++ exception is its class, as far as the [catch] clauses of the code
    tell classes apart, and the arguments of its message.  [fmt_arg] is what
    the code passes to [fmt]; the rendered text is a function of these that
    belongs to [fmt] and [yacl] (see [External]). *)

Inductive fmt_arg := FStr (s : string) | FInt (z : Z) | FList (l : list string).

(** [EnforceNotMet] is what [YACL_ENFORCE*] throws and [RuntimeError] what
    [YACL_THROW] throws; both derive from [yacl::Exception], as do
    [ArgumentError] and [InvalidFormat].  [StdException] is any other class
    derived from [std::exception]. *)
Inductive exn_class :=
  | ArgumentError | InvalidFormat | EnforceNotMet | RuntimeError
  | OtherYaclException | StdException (name : string).

Record exn := mk_exn {
  exn_cls : exn_class;
  exn_fmt : string;
  exn_args : list fmt_arg
}.

(** The outcome of a piece of C++ code: a value, an exception, or undefined
    behaviour (an access outside an object). *)
Inductive outcome (A : Type) :=
  | Ok (a : A)
  | Throw (e : exn)
  | UB (where_ : string).
Arguments Ok {A} a.
Arguments Throw {A} e.
Arguments UB {A} where_.

#[global] Instance outcome_ret : MRet outcome := fun A a => Ok a.
#[global] Instance outcome_bind : MBind outcome := fun A B f m =>
  match m with Ok a => f a | Throw e => Throw e | UB w => UB w end.

(** [YACL_ENFORCE(b, fmt, args...)] and [YACL_THROW(fmt, args...)]. *)
Definition YACL_ENFORCE (b : bool) (fmt : string) (args : list fmt_arg) : outcome unit :=
  if b then Ok tt else Throw (mk_exn EnforceNotMet fmt args).
Definition YACL_THROW {A} (fmt : string) (args : list fmt_arg) : outcome A :=
  Throw (mk_exn RuntimeError fmt args).

Definition is_ok {A} (m : outcome A) : bool :=
  match m with Ok _ => true | _ => false end.
Definition is_throw {A} (m : outcome A) : bool :=
  match m with Throw _ => true | _ => false end.
Definition defined {A} (m : outcome A) : Prop :=
  match m with UB _ => False | _ => True end.

#[global] Instance defined_dec {A} (m : outcome A) : Decision (defined m).
Proof. destruct m; apply _. Defined.

Lemma bind_Ok {A B} (m : outcome A) (f : A -> outcome B) b :
  (m ≫= f) = Ok b <-> exists a, m = Ok a /\ f a = Ok b.
Proof. destruct m as [a'|e|w]; split; [eauto|intros (?&[= ->]&?); done|done|by intros (?&?&?)|done|by intros (?&?&?)]. Qed.

Lemma bind_Ok_l {A B} (a : A) (f : A -> outcome B) : (Ok a ≫= f) = f a.
Proof. reflexivity. Qed.

Lemma bind_assoc {A B C} (m : outcome A) (f : A -> outcome B) (g : B -> outcome C) :
  ((m ≫= f) ≫= g) = (m ≫= fun a => f a ≫= g).
Proof. destruct m; reflexivity. Qed.

Lemma bind_defined {A B} (m : outcome A) (f : A -> outcome B) :
  defined m -> (forall a, m = Ok a -> defined (f a)) -> defined (m ≫= f).
Proof. destruct m; naive_solver. Qed.

Lemma bind_no_throw {A B} (m : outcome A) (f : A -> outcome B) :
  is_throw m = false -> (forall a, is_throw (f a) = false) -> is_throw (m ≫= f) = false.
Proof. destruct m; cbn; auto. Qed.

Lemma YACL_ENFORCE_Ok b fmt args u : YACL_ENFORCE b fmt args = Ok u <-> b = true.
Proof. destruct b, u; naive_solver. Qed.

Lemma YACL_ENFORCE_true b fmt args : b = true -> YACL_ENFORCE b fmt args = Ok tt.
Proof. by intros ->. Qed.

Lemma YACL_ENFORCE_false b fmt args :
  b = false -> YACL_ENFORCE b fmt args = Throw (mk_exn EnforceNotMet fmt args).
Proof. by intros ->. Qed.

Lemma YACL_ENFORCE_defined b fmt args : defined (YACL_ENFORCE b fmt args).
Proof. by destruct b. Qed.

(** ** Code that changes state

    A statement takes the state and returns its outcome with the state it
    leaves: what was done before an exception stays done. *)

Definition st (S A : Type) : Type := S -> outcome A * S.

#[global] Instance st_ret {S} : MRet (st S) := fun A a s => (Ok a, s).
#[global] Instance st_bind {S} : MBind (st S) := fun A B f m s =>
  match m s with
  | (Ok a, s') => f a s'
  | (Throw e, s') => (Throw e, s')
  | (UB w, s') => (UB w, s')
  end.

(** A statement that does not touch the state. *)
Definition pure {S A} (m : outcome A) : st S A := fun s => (m, s).

Lemma st_bind_Ok {S A B} (m : st S A) (f : A -> st S B) s b s2 :
  (m ≫= f) s = (Ok b, s2) <-> exists a s1, m s = (Ok a, s1) /\ f a s1 = (Ok b, s2).
Proof.
  unfold mbind, st_bind. destruct (m s) as [[a|e|w] s1]; split.
  - intros E. by exists a, s1.
  - by intros (? & ? & [= <- <-] & ?).
  - done.
  - by intros (? & ? & ? & _).
  - done.
  - by intros (? & ? & ? & _).
Qed.

Lemma st_bind_step {S A B} (m : st S A) (f : A -> st S B) s a s1 :
  m s = (Ok a, s1) -> (m ≫= f) s = f a s1.
Proof. unfold mbind, st_bind. by intros ->. Qed.

Lemma pure_bind_step {S A B} (m : outcome A) (f : A -> st S B) s a :
  m = Ok a -> ((pure m ≫= f) : st S B) s = f a s.
Proof. by intros ->. Qed.

Lemma pure_enforce_bind {S A} b fmt args (k : unit -> st S A) s :
  (pure (YACL_ENFORCE b fmt args) ≫= k) s =
    if b then k tt s else (Throw (mk_exn EnforceNotMet fmt args), s).
Proof. by destruct b. Qed.

Lemma pure_Ok {S A} (m : outcome A) (s s' : S) a : pure m s = (Ok a, s') <-> m = Ok a /\ s' = s.
Proof. unfold pure. split; [by intros [= -> ->]|by intros [-> ->]]. Qed.

(** A statement that keeps a property of the state, however it ends. *)
Definition keeps {S A} (P : S -> Prop) (m : st S A) : Prop := forall s, P s -> P (m s).2.

Lemma keeps_ret {S A} (P : S -> Prop) (a : A) : keeps P (mret a : st S A).
Proof. by intros s. Qed.

Lemma keeps_pure {S A} (P : S -> Prop) (m : outcome A) : keeps P (pure m : st S A).
Proof. by intros s. Qed.

Lemma keeps_bind {S A B} (P : S -> Prop) (m : st S A) (f : A -> st S B) :
  keeps P m -> (forall a, keeps P (f a)) -> keeps P (m ≫= f).
Proof.
  intros Hm Hf s Hs. unfold mbind, st_bind. specialize (Hm s Hs).
  destruct (m s) as [[a|e|w] s1]; [|done|done]. by apply Hf.
Qed.

(** ** Automation *)

Create HintDb trustflow.
#[export] Hint Resolve keeps_ret keeps_pure keeps_bind : trustflow.
#[export] Hint Resolve YACL_ENFORCE_defined : trustflow.
#[export] Hint Extern 1 (defined (Ok _)) => exact I : trustflow.
#[export] Hint Extern 1 (defined (Throw _)) => exact I : trustflow.
#[export] Hint Extern 1 (defined (mret _)) => exact I : trustflow.
#[export] Hint Extern 1 (defined (YACL_THROW _ _)) => exact I : trustflow.

(** [inv_ok] takes apart every hypothesis that says a sequence of statements
    ran to its end. *)
Ltac inv_ok :=
  repeat match goal with
  | H : (_ ≫= _) = Ok _ |- _ =>
      let x := fresh "x" in let H1 := fresh "H" in let H2 := fresh "H" in
      apply bind_Ok in H as (x & H1 & H2)
  | H : YACL_ENFORCE _ _ _ = Ok _ |- _ => apply YACL_ENFORCE_Ok in H
  | H : mret _ = Ok _ |- _ => injection H as H
  | H : Ok _ = Ok _ |- _ => injection H as H
  | H : YACL_THROW _ _ = Ok _ |- _ => discriminate H
  | H : Throw _ = Ok _ |- _ => discriminate H
  | H : UB _ = Ok _ |- _ => discriminate H
  end; subst.

(** The same for code that changes state. *)
Ltac inv_st :=
  repeat match goal with
  | H : (_ ≫= _) _ = (Ok _, _) |- _ =>
      let x := fresh "x" in let s := fresh "s" in
      let H1 := fresh "H" in let H2 := fresh "H" in
      apply st_bind_Ok in H as (x & s & H1 & H2)
  | H : pure _ _ = (Ok _, _) |- _ => apply pure_Ok in H as [H ?]
  | H : mret _ _ = (Ok _, _) |- _ => injection H as ??
  end; inv_ok.

(** [solve_defined] walks a sequence of statements whose pieces are known not
    to reach undefined behaviour. *)
Ltac solve_defined :=
  repeat first
    [ apply bind_defined; [ solve [eauto with trustflow] | intros ?? ]
    | progress cbn beta iota zeta
    | case_match ];
  eauto with trustflow.

(** [same_steps] proves two sequences of the same statements equal. *)
Ltac same_steps :=
  repeat first
    [ reflexivity
    | lazymatch goal with
      | |- (?m ≫= _) = (?m ≫= _) => destruct m; cbn [mbind outcome_bind]
      | |- (if ?b then _ else _) = _ => destruct b
      end ].

(** ** Memory

    [read_at buf off n] is a read of [n] bytes at [buf + off] and
    [memcpy_at dst off src] is [memcpy(dst + off, src.data(), src.size())]:
    outside the object both are undefined. *)

Definition slice {A} (l : list A) (off n : nat) : list A := take n (drop off l).

Definition splice {A} (l : list A) (off : nat) (new : list A) : list A :=
  take off l ++ new ++ drop (off + length new) l.

Definition read_at (buf : bytes) (off n : nat) : outcome bytes :=
  if decide (off + n <= length buf)%nat then Ok (slice buf off n) else UB "read".

Definition memcpy_at (dst : bytes) (off : nat) (src : bytes) : outcome bytes :=
  if decide (off + length src <= length dst)%nat
  then Ok (splice dst off src) else UB "memcpy".

Lemma length_slice {A} (l : list A) off n :
  (off + n <= length l)%nat -> length (slice l off n) = n.
Proof. unfold slice. rewrite length_take, length_drop. lia. Qed.

Lemma length_splice {A} (l : list A) off new :
  (off + length new <= length l)%nat -> length (splice l off new) = length l.
Proof. unfold splice. rewrite !length_app, length_take, length_drop. lia. Qed.

Lemma length_splice_eq {A} (l : list A) off new n :
  length l = n -> (off + length new <= n)%nat -> length (splice l off new) = n.
Proof. intros <- ?. by apply length_splice. Qed.

Lemma read_at_Ok buf off n bs :
  read_at buf off n = Ok bs <-> (off + n <= length buf)%nat /\ bs = slice buf off n.
Proof. unfold read_at. case_decide; split; [intros [= <-]; done|by intros [_ ->]|done|by intros []]. Qed.

Lemma read_at_in buf off n :
  (off + n <= length buf)%nat -> read_at buf off n = Ok (slice buf off n).
Proof. intros. by apply read_at_Ok. Qed.

(** One statement at a time. *)
Lemma bind_enforce {A} b fmt args (k : unit -> outcome A) :
  b = true -> (YACL_ENFORCE b fmt args ≫= k) = k tt.
Proof. by intros ->. Qed.

Lemma bind_enforce_dec {A} P `{Decision P} fmt args (k : unit -> outcome A) :
  P -> (YACL_ENFORCE (bool_decide P) fmt args ≫= k) = k tt.
Proof. intros. by rewrite bool_decide_eq_true_2. Qed.

Lemma bind_enforce_fails {A} b fmt args (k : unit -> outcome A) :
  b = false -> (YACL_ENFORCE b fmt args ≫= k) = Throw (mk_exn EnforceNotMet fmt args).
Proof. by intros ->. Qed.

Lemma bind_read {A} buf off n (k : bytes -> outcome A) :
  (off + n <= length buf)%nat -> (read_at buf off n ≫= k) = k (slice buf off n).
Proof. intros. by rewrite read_at_in. Qed.

Lemma read_at_out buf off n :
  (length buf < off + n)%nat -> read_at buf off n = UB "read".
Proof. unfold read_at. case_decide; [lia|done]. Qed.

Lemma read_at_no_throw buf off n : is_throw (read_at buf off n) = false.
Proof. unfold read_at. by case_decide. Qed.

Lemma memcpy_at_in dst off src :
  (off + length src <= length dst)%nat -> memcpy_at dst off src = Ok (splice dst off src).
Proof. unfold memcpy_at. by case_decide. Qed.

Lemma memcpy_at_Ok dst off src r :
  memcpy_at dst off src = Ok r ->
  (off + length src <= length dst)%nat /\ r = splice dst off src.
Proof. unfold memcpy_at. case_decide; [by intros [= <-]|done]. Qed.

Lemma read_at_defined buf off n : (off + n <= length buf)%nat -> defined (read_at buf off n).
Proof. intros. by rewrite read_at_in. Qed.

(** Reading back what was written, and what was not. *)
Lemma slice_splice_same {A} (l : list A) off new :
  (off <= length l)%nat -> slice (splice l off new) off (length new) = new.
Proof.
  intros. unfold slice, splice.
  rewrite drop_app_ge; rewrite length_take; [|lia].
  replace (off - off `min` length l)%nat with 0%nat by lia. rewrite drop_0.
  by rewrite take_app_length.
Qed.

Lemma slice_splice_in {A} (l : list A) off new o n :
  (off <= length l)%nat -> (o + n <= length new)%nat ->
  slice (splice l off new) (off + o) n = slice new o n.
Proof.
  intros. unfold slice, splice. rewrite <- drop_drop.
  rewrite drop_app_length' by (rewrite length_take; lia).
  rewrite drop_app_le by lia. apply take_app_le. rewrite length_drop. lia.
Qed.

Lemma slice_splice_before {A} (l : list A) off new o n :
  (o + n <= off)%nat -> (off <= length l)%nat ->
  slice (splice l off new) o n = slice l o n.
Proof.
  intros. unfold slice, splice.
  rewrite drop_app_le by (rewrite length_take; lia).
  rewrite take_app_le by (rewrite length_drop, length_take; lia).
  rewrite !take_drop_commute, take_take. do 2 f_equal. lia.
Qed.

Lemma slice_splice_after {A} (l : list A) off new o n :
  (off + length new <= o)%nat -> (off <= length l)%nat ->
  slice (splice l off new) o n = slice l o n.
Proof.
  intros. unfold slice, splice. f_equal.
  rewrite drop_app_ge by (rewrite length_take; lia).
  rewrite drop_app_ge by (rewrite length_take; lia).
  rewrite drop_drop, length_take. f_equal. lia.
Qed.

Lemma slice_slice {A} (l : list A) o n o' n' :
  (o' + n' <= n)%nat -> slice (slice l o n) o' n' = slice l (o + o') n'.
Proof.
  intros. unfold slice. rewrite (take_drop_commute _ n' o'), take_take.
  rewrite Nat.min_l by lia. rewrite <- take_drop_commute, drop_drop. done.
Qed.

Lemma slice_take {A} (l : list A) k o n : (o + n <= k)%nat -> slice (take k l) o n = slice l o n.
Proof. intros. unfold slice. rewrite skipn_firstn_comm, take_take. f_equal. lia. Qed.

Lemma slice_mid {A} (l1 l2 l3 : list A) o n :
  o = length l1 -> n = length l2 -> slice (l1 ++ l2 ++ l3) o n = l2.
Proof. intros -> ->. unfold slice. by rewrite drop_app_length, take_app_length. Qed.

Lemma slice_head {A} (l1 l2 : list A) n : n = length l1 -> slice (l1 ++ l2) 0 n = l1.
Proof. intros. by apply (slice_mid []). Qed.

Lemma slice_all {A} (l : list A) n : length l = n -> slice l 0 n = l.
Proof. intros <-. unfold slice. by rewrite drop_0, firstn_all. Qed.

(** Replacing the middle of a buffer by as many bytes. *)
Lemma memcpy_at_app l1 l2 l3 off src :
  off = length l1 -> length src = length l2 ->
  memcpy_at (l1 ++ l2 ++ l3) off src = Ok (l1 ++ src ++ l3).
Proof.
  intros -> Hl. rewrite memcpy_at_in by (rewrite !length_app; lia). unfold splice.
  rewrite take_app_length, Hl, <- drop_drop, !drop_app_length. done.
Qed.

Lemma memcpy_at_head l2 l3 src :
  length src = length l2 -> memcpy_at (l2 ++ l3) 0 src = Ok (src ++ l3).
Proof. intros. by apply (memcpy_at_app []). Qed.

#[export] Hint Resolve read_at_defined : trustflow.

(** ** Machine integers *)

Definition u32 (z : Z) : Z := z mod 2 ^ 32.
Definition u64 (z : Z) : Z := z mod 2 ^ 64.

Lemma u32_range z : 0 <= u32 z < 2 ^ 32.
Proof. apply Z.mod_pos_bound. lia. Qed.
Lemma u64_range z : 0 <= u64 z < 2 ^ 64.
Proof. apply Z.mod_pos_bound. lia. Qed.
Lemma u32_small z : 0 <= z < 2 ^ 32 -> u32 z = z.
Proof. apply Z.mod_small. Qed.
Lemma u64_small z : 0 <= z < 2 ^ 64 -> u64 z = z.
Proof. apply Z.mod_small. Qed.

(** The test [a * b / b == a] on [uint64_t] detects exactly the products that
    do not fit. *)
Lemma u64_mul_div_check a b :
  0 <= a -> 0 < b -> (u64 (a * b) / b =? a) = (a * b <? 2 ^ 64).
Proof.
  intros Ha Hb. destruct (Z.ltb_spec (a * b) (2 ^ 64)) as [H|H].
  - rewrite u64_small by nia. rewrite Z.div_mul by lia. apply Z.eqb_refl.
  - apply Z.eqb_neq. pose proof (u64_range (a * b)) as Hr.
    intros Heq. assert (u64 (a * b) / b * b <= u64 (a * b)).
    { rewrite Z.mul_comm. apply Z.mul_div_le. lia. }
    rewrite Heq in *. lia.
Qed.

(** Masking with one bit tests that bit. *)
Lemma land_pow2_testbit x n : 0 <= n -> (Z.land x (2 ^ n) =? 2 ^ n) = Z.testbit x n.
Proof.
  intros Hn. destruct (Z.testbit x n) eqn:Hbit.
  - apply Z.eqb_eq, Z.bits_inj'. intros i Hi. rewrite Z.land_spec.
    destruct (Z.eq_dec i n) as [->|Hne]; [by rewrite Hbit|].
    by rewrite Z.pow2_bits_false, andb_false_r by lia.
  - apply Z.eqb_neq. intros E. apply (f_equal (fun z => Z.testbit z n)) in E.
    by rewrite Z.land_spec, Hbit, Z.pow2_bits_true in E by lia.
Qed.

(** A byte string read as a little-endian integer, and written as one. *)
Definition le_bytes (n : nat) (z : Z) : bytes := le_split n z.
Definition le_int (bs : bytes) : Z := le_combine bs.

Lemma length_le_bytes n z : length (le_bytes n z) = n.
Proof. apply length_le_split. Qed.

Lemma le_int_bytes n z : 0 <= z < 2 ^ (8 * Z.of_nat n) -> le_int (le_bytes n z) = z.
Proof.
  intros. unfold le_int, le_bytes. rewrite le_combine_split.
  apply Z.mod_small. replace (Z.of_nat n * 8) with (8 * Z.of_nat n) by lia. done.
Qed.

Lemma le_int_range bs : 0 <= le_int bs < 2 ^ (8 * len bs).
Proof. apply le_combine_bound. Qed.

Lemma le_bytes_int bs : le_bytes (length bs) (le_int bs) = bs.
Proof. apply split_le_combine. Qed.
