(* ===== verification/CppStd.v ===== *)
(** * The C++ standard library functions the code calls

    [std::to_string], [std::stoi] and the C string functions [strlen] and
    [strncpy], with the facts the components use. *)

From S2P Require Import Prelude.

(** ** Decimal numbers *)

Definition digit_char (d : Z) : ascii := ascii_of_N (Z.to_N (48 + d)).

Definition digit_val (c : ascii) : option Z :=
  let n := Z.of_N (N_of_ascii c) in
  if (48 <=? n) && (n <=? 57) then Some (n - 48) else None.

Fixpoint digits_aux (fuel : nat) (n : Z) (acc : string) : string :=
  match fuel with
  | O => acc
  | S fuel =>
      let acc := String (digit_char (n mod 10)) acc in
      if n / 10 =? 0 then acc else digits_aux fuel (n / 10) acc
  end.

(** A number below [2 ^ (log2 n + 1)] has at most [log2 n + 1] decimal digits. *)
Definition digits (n : Z) : string := digits_aux (S (Z.to_nat (Z.log2 n))) n "".

(** [std::to_string(int)] *)
Definition to_string (z : Z) : string :=
  if z <? 0 then String "-" (digits (- z)) else digits z.

Definition is_space (c : ascii) : bool :=
  let n := N_of_ascii c in ((9 <=? n) && (n <=? 13) || (n =? 32))%N.

Fixpoint skip_spaces (s : string) : string :=
  match s with
  | String c r => if is_space c then skip_spaces r else s
  | EmptyString => s
  end.

Fixpoint strtol_digits (s : string) (acc : Z) : Z :=
  match s with
  | String c r =>
      match digit_val c with
      | Some d => strtol_digits r (acc * 10 + d)
      | None => acc
      end
  | EmptyString => acc
  end.

Definition int_min : Z := - 2 ^ 31.
Definition int_max : Z := 2 ^ 31 - 1.

Definition invalid_argument : exn := mk_exn (StdException "std::invalid_argument") "stoi" [].
Definition out_of_range : exn := mk_exn (StdException "std::out_of_range") "stoi" [].

Definition stoi_sign (s : string) : bool * string :=
  match s with
  | String "-" r => (true, r)
  | String "+" r => (false, r)
  | _ => (false, s)
  end.

(** [std::stoi(s)]: white space, an optional sign, the longest run of digits;
    what follows is ignored. *)
Definition stoi (s : string) : outcome Z :=
  let '(neg, s1) := stoi_sign (skip_spaces s) in
  match s1 with
  | String c _ =>
      match digit_val c with
      | None => Throw invalid_argument
      | Some _ =>
          let v := strtol_digits s1 0 in
          let v := if neg : bool then - v else v in
          if (int_min <=? v) && (v <=? int_max) then Ok v else Throw out_of_range
      end
  | EmptyString => Throw invalid_argument
  end.

(** [digit_cases Hd] splits on the ten values of a decimal digit. *)
Ltac digit_cases Hd :=
  match type of Hd with
  | 0 <= ?d < 10 =>
      let Hc := fresh in
      assert (d = 0 \/ d = 1 \/ d = 2 \/ d = 3 \/ d = 4 \/ d = 5 \/ d = 6 \/ d = 7 \/ d = 8
              \/ d = 9) as Hc by lia;
      clear Hd; repeat destruct Hc as [Hc|Hc]; subst d
  end.

Lemma digit_val_char d : 0 <= d < 10 -> digit_val (digit_char d) = Some d.
Proof. intros Hd. by digit_cases Hd. Qed.

Lemma digits_aux_spec fuel n acc :
  0 <= n < 2 ^ Z.of_nat fuel ->
  exists k, 0 <= k /\ forall a,
    strtol_digits (digits_aux fuel n acc) a = strtol_digits acc (a * 10 ^ k + n).
Proof.
  revert n acc. induction fuel as [|fuel IH]; intros n acc Hn; cbn [digits_aux].
  { exists 0. split; [lia|]. intros. f_equal. change (2 ^ Z.of_nat 0) with 1 in Hn. lia. }
  assert (0 <= n mod 10 < 10) by (apply Z.mod_pos_bound; lia).
  pose proof (Z.div_mod n 10 ltac:(lia)) as Hdm.
  destruct (Z.eqb_spec (n / 10) 0) as [Hz|Hz].
  - exists 1. split; [lia|]. intros a. cbn [strtol_digits].
    rewrite digit_val_char by done. f_equal. lia.
  - destruct (IH (n / 10) (String (digit_char (n mod 10)) acc)) as (k & Hk & Hs).
    { rewrite Nat2Z.inj_succ, Z.pow_succ_r in Hn by lia. lia. }
    exists (k + 1). split; [lia|]. intros a. rewrite Hs. cbn [strtol_digits].
    rewrite digit_val_char by done. f_equal. rewrite Z.pow_add_r by lia. lia.
Qed.

Lemma strtol_digits_digits n : 0 <= n -> strtol_digits (digits n) 0 = n.
Proof.
  intros Hn. unfold digits.
  destruct (digits_aux_spec (S (Z.to_nat (Z.log2 n))) n "") as (k & _ & Hs).
  { split; [done|]. rewrite Nat2Z.inj_succ, Z2Nat.id by apply Z.log2_nonneg.
    destruct (Z.eq_dec n 0) as [->|]; [done|]. apply Z.log2_spec. lia. }
  rewrite Hs. cbn. lia.
Qed.

Lemma digits_aux_head fuel n acc :
  (0 < fuel)%nat -> 0 <= n ->
  exists d r, 0 <= d < 10 /\ digits_aux fuel n acc = String (digit_char d) r.
Proof.
  revert n acc. induction fuel as [|fuel IH]; intros n acc Hf Hn; [lia|].
  cbn [digits_aux]. assert (0 <= n mod 10 < 10) by (apply Z.mod_pos_bound; lia).
  case_match; [by eexists _, _|]. destruct fuel as [|fuel]; [by eexists _, _|].
  apply IH; [lia|]. apply Z.div_pos; lia.
Qed.

Lemma digit_not_space d : 0 <= d < 10 -> is_space (digit_char d) = false.
Proof. intros Hd. by digit_cases Hd. Qed.

Lemma stoi_sign_digit d r : 0 <= d < 10 ->
  stoi_sign (String (digit_char d) r) = (false, String (digit_char d) r).
Proof. intros Hd. by digit_cases Hd. Qed.

(** Parsing what [to_string] printed gives the number back, for every number
    an [int] holds. *)
Lemma stoi_to_string n : 0 <= n <= int_max -> stoi (to_string n) = Ok n.
Proof.
  intros Hn. unfold to_string. case_match eqn:Hneg; [apply Z.ltb_lt in Hneg; lia|].
  unfold stoi.
  destruct (digits_aux_head (S (Z.to_nat (Z.log2 n))) n "") as (d & r & Hd & He); [lia..|].
  pose proof (strtol_digits_digits n ltac:(lia)) as Hs.
  unfold digits in *. rewrite He in *. cbn [skip_spaces].
  rewrite digit_not_space by done. rewrite stoi_sign_digit by done.
  rewrite digit_val_char by done. rewrite Hs.
  unfold int_min. replace (_ && _) with true; [done|].
  symmetry. apply andb_true_iff. split; apply Z.leb_le; lia.
Qed.

Lemma stoi_range s v : stoi s = Ok v -> int_min <= v <= int_max.
Proof.
  unfold stoi. destruct (stoi_sign _) as [neg [|c r]]; [done|].
  destruct (digit_val c); [|done]. case_match eqn:Hr; [|done]. intros [= <-].
  apply andb_true_iff in Hr as [H1%Z.leb_le H2%Z.leb_le]. done.
Qed.

Lemma stoi_cases s :
  (exists v, stoi s = Ok v) \/ stoi s = Throw invalid_argument \/ stoi s = Throw out_of_range.
Proof.
  unfold stoi. destruct (stoi_sign _) as [neg [|c r]]; [by auto|].
  destruct (digit_val c); [|by auto]. case_match; eauto.
Qed.

Lemma to_string_nonempty n : 0 <= n -> to_string n <> "".
Proof.
  intros Hn. unfold to_string. case_match; [done|]. unfold digits.
  destruct (digits_aux_head (S (Z.to_nat (Z.log2 n))) n "") as (d & r & Hd & ->); [lia..|done].
Qed.

Lemma to_string_inj n m :
  0 <= n <= int_max -> 0 <= m <= int_max -> to_string n = to_string m -> n = m.
Proof.
  intros Hn Hm He. pose proof (stoi_to_string n Hn) as H1.
  rewrite He, (stoi_to_string m Hm) in H1. by injection H1.
Qed.

(** ** Letter case, as the C locale defines it *)

Definition tolower (c : ascii) : ascii :=
  let n := N_of_ascii c in
  if ((65 <=? n) && (n <=? 90))%N then ascii_of_N (n + 32) else c.

Fixpoint lower (s : string) : string :=
  match s with
  | EmptyString => EmptyString
  | String c r => String (tolower c) (lower r)
  end.

Lemma length_lower s : String.length (lower s) = String.length s.
Proof. induction s as [|c s IH]; [done|]. cbn. by rewrite IH. Qed.

(** ** C strings

    A [char*] output buffer is the bytes it points at. *)

Fixpoint strlen (buf : bytes) : nat :=
  match buf with
  | [] => 0
  | b :: r => if decide (b = Byte.x00) then 0 else S (strlen r)
  end.

(** The bytes [c_str()] shows to a C function: up to the first NUL. *)
Definition c_str (s : string) : bytes := take (strlen (s2b s)) (s2b s).

(** [strncpy(dst, src, n)] writes exactly [n] bytes: the string, cut at [n],
    then NULs. *)
Definition strncpy (dst : bytes) (src : string) (n : nat) : outcome bytes :=
  let t := take n (c_str src) in
  memcpy_at dst 0 (t ++ zero_bytes (n - length t)).

Lemma strlen_le buf : (strlen buf <= length buf)%nat.
Proof. induction buf as [|b r IH]; cbn; [lia|]. case_decide; lia. Qed.

Lemma strlen_nul buf i : buf !! i = Some Byte.x00 -> (strlen buf <= i)%nat.
Proof.
  revert i. induction buf as [|b r IH]; intros i Hi; [done|].
  cbn. case_decide; [lia|]. destruct i as [|i]; [by injection Hi|].
  specialize (IH i Hi). lia.
Qed.

Lemma strlen_lookup buf : (strlen buf < length buf)%nat -> buf !! strlen buf = Some Byte.x00.
Proof.
  induction buf as [|b r IH]; cbn; [lia|]. case_decide; [by subst|].
  intros. apply IH. lia.
Qed.

Lemma strlen_app_nul t r : Forall (fun b => b <> Byte.x00) t -> strlen (t ++ Byte.x00 :: r) = length t.
Proof.
  induction 1 as [|b t Hb Ht IH]; cbn; [by case_decide|].
  case_decide; [done|]. by rewrite IH.
Qed.

Lemma take_strlen_nonul buf : Forall (fun b => b <> Byte.x00) (take (strlen buf) buf).
Proof.
  induction buf as [|b r IH]; cbn; [done|]. case_decide; [done|]. cbn. by constructor.
Qed.

Lemma c_str_nonul s : Forall (fun b => b <> Byte.x00) (c_str s).
Proof. apply take_strlen_nonul. Qed.

Lemma length_strncpy_src s n :
  length (take n (c_str s) ++ zero_bytes (n - length (take n (c_str s)))) = n.
Proof. unfold zero_bytes. rewrite length_app, length_replicate, length_take. lia. Qed.

Lemma strncpy_in dst src n :
  (n <= length dst)%nat ->
  strncpy dst src n =
    Ok (take n (c_str src) ++ zero_bytes (n - length (take n (c_str src))) ++ drop n dst).
Proof.
  intros. unfold strncpy. rewrite memcpy_at_in by (rewrite length_strncpy_src; lia).
  unfold splice. rewrite length_strncpy_src. cbn [Nat.add take]. by rewrite app_nil_l, app_assoc.
Qed.
