(* ===== verification/External.v ===== *)
(** * Code outside the repository

    The libraries the code calls are parameters: a class holds the functions
    with the types the code uses them at, and a second class in [Prop] holds
    the documented behaviour the theorems rely on.  [Samples] gives a concrete
    instance of every class, so no set of laws is contradictory. *)

From S2P Require Import Prelude CppStd.

(** A library call that can throw. *)
Definition result (A : Type) : Type := exn + A.

Definition call {A} (r : result A) : outcome A :=
  match r with inl e => Throw e | inr a => Ok a end.

Lemma call_Ok {A} (r : result A) a : call r = Ok a <-> r = inr a.
Proof. destruct r; cbn; split; congruence. Qed.

Lemma call_defined {A} (r : result A) : defined (call r).
Proof. by destruct r. Qed.

#[export] Hint Resolve call_defined : trustflow.

(** ** fmt and the text of an exception *)

Class Fmt := {
  fmt_format : string -> list fmt_arg -> string;
  what : exn -> string;
  stack_trace : exn -> string
}.

(** ** Abseil strings *)

Class Absl := {
  EqualsIgnoreCase : string -> string -> bool;
  BytesToHexString : bytes -> string;
  HexStringToBytes : string -> bytes
}.

(** [EqualsIgnoreCase] compares ASCII letters without their case; a byte is two
    hex digits; the decoder accepts both cases of a hex digit and drops an odd
    last one. *)
Class AbslLaws `{Absl} : Prop := {
  EqualsIgnoreCase_spec a b : EqualsIgnoreCase a b = true <-> lower a = lower b;
  length_BytesToHexString bs : String.length (BytesToHexString bs) = (2 * length bs)%nat;
  length_HexStringToBytes s : length (HexStringToBytes s) = (String.length s / 2)%nat;
  BytesToHexString_app a b :
    BytesToHexString (a ++ b) = (BytesToHexString a +:+ BytesToHexString b);
  HexStringToBytes_hex bs : HexStringToBytes (BytesToHexString bs) = bs;
  HexStringToBytes_lower s t : lower s = lower t -> HexStringToBytes s = HexStringToBytes t
}.

Section AbslFacts.
Context `{AbslLaws}.

Lemma EqualsIgnoreCase_refl a : EqualsIgnoreCase a a = true.
Proof. by apply EqualsIgnoreCase_spec. Qed.

(** Comparing hex text without case is comparing the bytes. *)
Lemma EqualsIgnoreCase_hex a b :
  EqualsIgnoreCase (BytesToHexString a) (BytesToHexString b) = true <-> a = b.
Proof.
  split; [|intros ->; apply EqualsIgnoreCase_refl].
  intros E%EqualsIgnoreCase_spec%HexStringToBytes_lower.
  by rewrite !HexStringToBytes_hex in E.
Qed.

(** Hex text of the expected bytes, in any case, matches exactly them. *)
Lemma EqualsIgnoreCase_hex_l s b :
  EqualsIgnoreCase s (BytesToHexString b) = true -> HexStringToBytes s = b.
Proof.
  intros E%EqualsIgnoreCase_spec%HexStringToBytes_lower. by rewrite HexStringToBytes_hex in E.
Qed.

Lemma BytesToHexString_empty bs : BytesToHexString bs = "" <-> bs = [].
Proof.
  split.
  - intros E. pose proof (length_BytesToHexString bs) as L. rewrite E in L.
    destruct bs; [done|]. cbn in L. lia.
  - intros ->. pose proof (length_BytesToHexString []) as L.
    destruct (BytesToHexString []); [done|]. cbn in L. lia.
Qed.
End AbslFacts.

(** ** cppcodec *)

Class Cppcodec := {
  base64_encode : bytes -> string;
  base64_decode : string -> result bytes
}.

Class CppcodecLaws `{Cppcodec} : Prop := {
  base64_decode_encode bs : base64_decode (base64_encode bs) = inr bs
}.

(** ** yacl hashes *)

Class Hashes := {
  Sha256 : bytes -> bytes;
  Sm3 : bytes -> bytes;
  HmacSm3 : bytes -> bytes -> bytes
}.

Class HashesLaws `{Hashes} : Prop := {
  length_Sha256 bs : length (Sha256 bs) = 32%nat;
  length_Sm3 bs : length (Sm3 bs) = 32%nat;
  length_HmacSm3 k bs : length (HmacSm3 k bs) = 32%nat
}.

(** ** protobuf JSON, for a message type [T]

    The left side is the text of a status that is not OK. *)

Class ProtoJson (T : Type) := {
  MessageToJsonString : T -> string + string;
  JsonStringToMessage : string -> string + T
}.

Class ProtoJsonLaws (T : Type) `{ProtoJson T} : Prop := {
  json_roundtrip (m : T) s : MessageToJsonString m = inr s -> JsonStringToMessage s = inr m
}.
