(* ===== verification/Common.v ===== *)
(** * Constants, status codes, messages and the JSON macros

    [trustflow/attestation/common] and [trustflow/attestation/utils/json2pb.h].
    The protobuf messages are generated from files outside the repository; a
    record here has the fields the code reads or writes. *)

From S2P Require Import Prelude CppStd External.

(** ** constants.h *)

Definition kReportVersion : string := "1.0".
Definition kReportMaxSize : Z := 40960.
Definition kAttributeMaxSize : Z := 40960.

Module ReportType.
Definition kReportTypeBgcheck : string := "BackgroundCheck".
Definition kReportTypePassport : string := "Passport".
End ReportType.

Module Platform.
Definition kPlatformSgxDcap : string := "SGX_DCAP".
Definition kPlatformTdx : string := "TDX".
Definition kPlatformCsv : string := "CSV".
End Platform.

(** ** status.h *)

Inductive ErrorCode :=
  | kOk | kArgumentError | kIndexOverflow | kNotFound | kLogicError | kPermissionError
  | kInvalidFormat | kAlreadyExist | kNotImplemented | kVersionMismatch | kNotReady
  | kNetworkError | kTimeout | kInternalError | kUnknown.

(** [static_cast<int>(code)] *)
Definition ErrorCode_int (c : ErrorCode) : Z :=
  match c with
  | kOk => 0 | kArgumentError => 1 | kIndexOverflow => 2 | kNotFound => 3 | kLogicError => 4
  | kPermissionError => 5 | kInvalidFormat => 6 | kAlreadyExist => 7 | kNotImplemented => 8
  | kVersionMismatch => 9 | kNotReady => 10 | kNetworkError => 11 | kTimeout => 12
  | kInternalError => 18 | kUnknown => 23
  end.

#[global] Instance ErrorCode_eq_dec : EqDecision ErrorCode.
Proof. solve_decision. Defined.

Record Status := mk_status { code : Z; message : string; details : string }.

(** ** Messages *)

Record UnifiedAttestationReport := mk_report {
  str_report_version : string;
  str_report_type : string;
  report_tee_platform : string;
  json_report : string
}.

Record UnifiedAttestationAttributes := mk_attrs {
  str_tee_platform : string;
  hex_platform_hw_version : string;
  hex_platform_sw_version : string;
  hex_secure_flags : string;
  hex_platform_measurement : string;
  hex_boot_measurement : string;
  hex_ta_measurement : string;
  hex_ta_dyn_measurement : string;
  hex_signer : string;
  hex_prod_id : string;
  str_min_isvsvn : string;
  bool_debug_disabled : string;
  hex_user_data : string;
  hex_hash_or_pem_pubkey : string;
  hex_nonce : string
}.

#[global] Instance attrs_eq_dec : EqDecision UnifiedAttestationAttributes.
Proof. solve_decision. Defined.

Definition default_attrs : UnifiedAttestationAttributes :=
  mk_attrs EmptyString EmptyString EmptyString EmptyString EmptyString EmptyString EmptyString EmptyString EmptyString EmptyString EmptyString EmptyString EmptyString EmptyString EmptyString.

Definition set_str_tee_platform (v : string) (a : UnifiedAttestationAttributes) :=
  mk_attrs v (a.(hex_platform_hw_version)) (a.(hex_platform_sw_version)) (a.(hex_secure_flags))
    (a.(hex_platform_measurement)) (a.(hex_boot_measurement)) (a.(hex_ta_measurement)) (a.(hex_ta_dyn_measurement))
    (a.(hex_signer)) (a.(hex_prod_id)) (a.(str_min_isvsvn)) (a.(bool_debug_disabled))
    (a.(hex_user_data)) (a.(hex_hash_or_pem_pubkey)) (a.(hex_nonce)).
Definition set_hex_platform_sw_version (v : string) (a : UnifiedAttestationAttributes) :=
  mk_attrs (a.(str_tee_platform)) (a.(hex_platform_hw_version)) v (a.(hex_secure_flags))
    (a.(hex_platform_measurement)) (a.(hex_boot_measurement)) (a.(hex_ta_measurement)) (a.(hex_ta_dyn_measurement))
    (a.(hex_signer)) (a.(hex_prod_id)) (a.(str_min_isvsvn)) (a.(bool_debug_disabled))
    (a.(hex_user_data)) (a.(hex_hash_or_pem_pubkey)) (a.(hex_nonce)).
Definition set_hex_secure_flags (v : string) (a : UnifiedAttestationAttributes) :=
  mk_attrs (a.(str_tee_platform)) (a.(hex_platform_hw_version)) (a.(hex_platform_sw_version)) v
    (a.(hex_platform_measurement)) (a.(hex_boot_measurement)) (a.(hex_ta_measurement)) (a.(hex_ta_dyn_measurement))
    (a.(hex_signer)) (a.(hex_prod_id)) (a.(str_min_isvsvn)) (a.(bool_debug_disabled))
    (a.(hex_user_data)) (a.(hex_hash_or_pem_pubkey)) (a.(hex_nonce)).
Definition set_hex_platform_measurement (v : string) (a : UnifiedAttestationAttributes) :=
  mk_attrs (a.(str_tee_platform)) (a.(hex_platform_hw_version)) (a.(hex_platform_sw_version)) (a.(hex_secure_flags))
    v (a.(hex_boot_measurement)) (a.(hex_ta_measurement)) (a.(hex_ta_dyn_measurement))
    (a.(hex_signer)) (a.(hex_prod_id)) (a.(str_min_isvsvn)) (a.(bool_debug_disabled))
    (a.(hex_user_data)) (a.(hex_hash_or_pem_pubkey)) (a.(hex_nonce)).
Definition set_hex_boot_measurement (v : string) (a : UnifiedAttestationAttributes) :=
  mk_attrs (a.(str_tee_platform)) (a.(hex_platform_hw_version)) (a.(hex_platform_sw_version)) (a.(hex_secure_flags))
    (a.(hex_platform_measurement)) v (a.(hex_ta_measurement)) (a.(hex_ta_dyn_measurement))
    (a.(hex_signer)) (a.(hex_prod_id)) (a.(str_min_isvsvn)) (a.(bool_debug_disabled))
    (a.(hex_user_data)) (a.(hex_hash_or_pem_pubkey)) (a.(hex_nonce)).
Definition set_hex_ta_measurement (v : string) (a : UnifiedAttestationAttributes) :=
  mk_attrs (a.(str_tee_platform)) (a.(hex_platform_hw_version)) (a.(hex_platform_sw_version)) (a.(hex_secure_flags))
    (a.(hex_platform_measurement)) (a.(hex_boot_measurement)) v (a.(hex_ta_dyn_measurement))
    (a.(hex_signer)) (a.(hex_prod_id)) (a.(str_min_isvsvn)) (a.(bool_debug_disabled))
    (a.(hex_user_data)) (a.(hex_hash_or_pem_pubkey)) (a.(hex_nonce)).
Definition set_hex_signer (v : string) (a : UnifiedAttestationAttributes) :=
  mk_attrs (a.(str_tee_platform)) (a.(hex_platform_hw_version)) (a.(hex_platform_sw_version)) (a.(hex_secure_flags))
    (a.(hex_platform_measurement)) (a.(hex_boot_measurement)) (a.(hex_ta_measurement)) (a.(hex_ta_dyn_measurement))
    v (a.(hex_prod_id)) (a.(str_min_isvsvn)) (a.(bool_debug_disabled))
    (a.(hex_user_data)) (a.(hex_hash_or_pem_pubkey)) (a.(hex_nonce)).
Definition set_hex_prod_id (v : string) (a : UnifiedAttestationAttributes) :=
  mk_attrs (a.(str_tee_platform)) (a.(hex_platform_hw_version)) (a.(hex_platform_sw_version)) (a.(hex_secure_flags))
    (a.(hex_platform_measurement)) (a.(hex_boot_measurement)) (a.(hex_ta_measurement)) (a.(hex_ta_dyn_measurement))
    (a.(hex_signer)) v (a.(str_min_isvsvn)) (a.(bool_debug_disabled))
    (a.(hex_user_data)) (a.(hex_hash_or_pem_pubkey)) (a.(hex_nonce)).
Definition set_str_min_isvsvn (v : string) (a : UnifiedAttestationAttributes) :=
  mk_attrs (a.(str_tee_platform)) (a.(hex_platform_hw_version)) (a.(hex_platform_sw_version)) (a.(hex_secure_flags))
    (a.(hex_platform_measurement)) (a.(hex_boot_measurement)) (a.(hex_ta_measurement)) (a.(hex_ta_dyn_measurement))
    (a.(hex_signer)) (a.(hex_prod_id)) v (a.(bool_debug_disabled))
    (a.(hex_user_data)) (a.(hex_hash_or_pem_pubkey)) (a.(hex_nonce)).
Definition set_bool_debug_disabled (v : string) (a : UnifiedAttestationAttributes) :=
  mk_attrs (a.(str_tee_platform)) (a.(hex_platform_hw_version)) (a.(hex_platform_sw_version)) (a.(hex_secure_flags))
    (a.(hex_platform_measurement)) (a.(hex_boot_measurement)) (a.(hex_ta_measurement)) (a.(hex_ta_dyn_measurement))
    (a.(hex_signer)) (a.(hex_prod_id)) (a.(str_min_isvsvn)) v
    (a.(hex_user_data)) (a.(hex_hash_or_pem_pubkey)) (a.(hex_nonce)).
Definition set_hex_user_data (v : string) (a : UnifiedAttestationAttributes) :=
  mk_attrs (a.(str_tee_platform)) (a.(hex_platform_hw_version)) (a.(hex_platform_sw_version)) (a.(hex_secure_flags))
    (a.(hex_platform_measurement)) (a.(hex_boot_measurement)) (a.(hex_ta_measurement)) (a.(hex_ta_dyn_measurement))
    (a.(hex_signer)) (a.(hex_prod_id)) (a.(str_min_isvsvn)) (a.(bool_debug_disabled))
    v (a.(hex_hash_or_pem_pubkey)) (a.(hex_nonce)).
Definition set_hex_hash_or_pem_pubkey (v : string) (a : UnifiedAttestationAttributes) :=
  mk_attrs (a.(str_tee_platform)) (a.(hex_platform_hw_version)) (a.(hex_platform_sw_version)) (a.(hex_secure_flags))
    (a.(hex_platform_measurement)) (a.(hex_boot_measurement)) (a.(hex_ta_measurement)) (a.(hex_ta_dyn_measurement))
    (a.(hex_signer)) (a.(hex_prod_id)) (a.(str_min_isvsvn)) (a.(bool_debug_disabled))
    (a.(hex_user_data)) v (a.(hex_nonce)).
Definition set_hex_nonce (v : string) (a : UnifiedAttestationAttributes) :=
  mk_attrs (a.(str_tee_platform)) (a.(hex_platform_hw_version)) (a.(hex_platform_sw_version)) (a.(hex_secure_flags))
    (a.(hex_platform_measurement)) (a.(hex_boot_measurement)) (a.(hex_ta_measurement)) (a.(hex_ta_dyn_measurement))
    (a.(hex_signer)) (a.(hex_prod_id)) (a.(str_min_isvsvn)) (a.(bool_debug_disabled))
    (a.(hex_user_data)) (a.(hex_hash_or_pem_pubkey)) v.

Record UnifiedAttestationPolicy := mk_policy {
  main_attributes : list UnifiedAttestationAttributes
}.

Record UnifiedAttestationReportParams := mk_report_params {
  params_hex_user_data : string;
  pem_public_key : string
}.

Record UnifiedAttestationGenerationParams := mk_gen_params {
  tee_identity : string;
  report_type : string;
  report_hex_nonce : string;
  report_params : UnifiedAttestationReportParams
}.

(** [DcapReport] and [IntelTdxReport] have the same two fields. *)
Record DcapReport := mk_dcap_report { b64_quote : string; json_collateral : string }.
Record IntelTdxReport := mk_tdx_report { tdx_b64_quote : string; tdx_json_collateral : string }.

Record SgxQlQveCollateral := mk_collateral {
  version : Z;
  pck_crl_issuer_chain : string;
  root_ca_crl : string;
  pck_crl : string;
  tcb_info_issuer_chain : string;
  tcb_info : string;
  qe_identity_issuer_chain : string;
  qe_identity : string;
  tee_type : Z
}.

Definition default_collateral : SgxQlQveCollateral :=
  mk_collateral 0 "" "" "" "" "" "" "" 0.

Record HygonCsvReport := mk_csv_report {
  csv_b64_quote : string;
  json_cert_chain : string;
  str_chip_id : string
}.

Record HygonCsvCertChain := mk_cert_chain { b64_hsk_cert : string; b64_cek_cert : string }.

(** Message equality is decidable, so that messages can be compared in
    computations. *)
#[global] Instance report_eq_dec : EqDecision UnifiedAttestationReport.
Proof. solve_decision. Defined.
#[global] Instance policy_eq_dec : EqDecision UnifiedAttestationPolicy.
Proof. solve_decision. Defined.
#[global] Instance dcap_report_eq_dec : EqDecision DcapReport.
Proof. solve_decision. Defined.
#[global] Instance csv_report_eq_dec : EqDecision HygonCsvReport.
Proof. solve_decision. Defined.
#[global] Instance cert_chain_eq_dec : EqDecision HygonCsvCertChain.
Proof. solve_decision. Defined.
#[global] Instance collateral_eq_dec : EqDecision SgxQlQveCollateral.
Proof. solve_decision. Defined.

(** ** json2pb.h *)

Definition PB2JSON {T} `{ProtoJson T} (pbmsg : T) : outcome string :=
  match MessageToJsonString pbmsg with
  | inr s => Ok s
  | inl status =>
      Throw (mk_exn EnforceNotMet "Parsing pb message to json failed, error: {}" [FStr status])
  end.

Definition JSON2PB {T} `{ProtoJson T} (jsonstr : string) : outcome T :=
  match JsonStringToMessage jsonstr with
  | inr m => Ok m
  | inl status =>
      Throw (mk_exn EnforceNotMet "Parsing json to pb message failed, json: {}, error: {}"
               [FStr jsonstr; FStr status])
  end.

Lemma PB2JSON_defined {T} `{ProtoJson T} (m : T) : defined (PB2JSON m).
Proof. unfold PB2JSON. by case_match. Qed.

Lemma JSON2PB_defined {T} `{ProtoJson T} s : defined (JSON2PB (T := T) s).
Proof. unfold JSON2PB. by case_match. Qed.

#[export] Hint Resolve PB2JSON_defined JSON2PB_defined : trustflow.

(** Parsing what was printed gives the message back. *)
Lemma PB2JSON_JSON2PB {T} `{ProtoJsonLaws T} (m : T) s :
  PB2JSON m = Ok s -> JSON2PB s = Ok m.
Proof.
  unfold PB2JSON, JSON2PB. destruct (MessageToJsonString m) as [|s'] eqn:E; [done|].
  intros [= <-]. by rewrite (json_roundtrip _ _ E).
Qed.
