(* ===== verification/Samples.v ===== *)
(** * Concrete instances of the library parameters

    One instance of each class of [External] with a proof of its laws.  The
    witnesses of the theorems use them: the hypotheses about the libraries can
    hold, and the definitions can be run.  The hex codec and the case-blind
    comparison are the real functions; the others are the simplest functions
    with the documented behaviour. *)

From S2P Require Import Prelude CppStd External Common.

(** ** Text *)

Definition sample_fmt : Fmt := {|
  fmt_format f args := f;
  what e := exn_fmt e;
  stack_trace e := "trace"
|}.

(** ** Hex *)

Definition nibble_char (n : N) : ascii :=
  if (n <? 10)%N then ascii_of_N (48 + n) else ascii_of_N (87 + n).

Definition nibble_val (c : ascii) : N :=
  let n := N_of_ascii c in
  (if (48 <=? n) && (n <=? 57) then n - 48
   else if (65 <=? n) && (n <=? 70) then n - 55
   else if (97 <=? n) && (n <=? 102) then n - 87
   else 0)%N.

Definition hex_pair (hi lo : ascii) : Init.Byte.byte :=
  match Byte.of_N (16 * nibble_val hi + nibble_val lo) with Some b => b | None => Byte.x00 end.

Fixpoint hex_encode (bs : bytes) : string :=
  match bs with
  | [] => ""
  | b :: r =>
      String (nibble_char (Byte.to_N b / 16))
        (String (nibble_char (Byte.to_N b mod 16)) (hex_encode r))
  end.

Fixpoint hex_decode (s : string) : bytes :=
  match s with
  | String hi (String lo r) => hex_pair hi lo :: hex_decode r
  | _ => []
  end.

Definition sample_absl : Absl := {|
  EqualsIgnoreCase a b := String.eqb (lower a) (lower b);
  BytesToHexString := hex_encode;
  HexStringToBytes := hex_decode
|}.

(** Induction two characters at a time. *)
Lemma string_ind2 (P : string -> Prop) :
  P "" -> (forall c, P (String c "")) -> (forall c d s, P s -> P (String c (String d s))) ->
  forall s, P s.
Proof.
  intros H0 H1 H2. fix IH 1. intros [|c [|d s]]; [done|apply H1|]. apply H2, IH.
Qed.

Lemma hex_decode_encode bs : hex_decode (hex_encode bs) = bs.
Proof. induction bs as [|b bs IH]; [done|]. cbn. rewrite IH. f_equal. by destruct b. Qed.

Lemma nibble_val_tolower c : nibble_val (tolower c) = nibble_val c.
Proof. by destruct c as [[][][][][][][][]]. Qed.

Lemma hex_decode_lower s : hex_decode (lower s) = hex_decode s.
Proof.
  induction s as [| |c d s IH] using string_ind2; [done..|].
  cbn. rewrite IH. unfold hex_pair. by rewrite !nibble_val_tolower.
Qed.

Lemma sample_absl_laws : @AbslLaws sample_absl.
Proof.
  split; cbn [EqualsIgnoreCase BytesToHexString HexStringToBytes sample_absl].
  - intros. apply String.eqb_eq.
  - intros bs. induction bs as [|b bs IH]; [done|]. cbn. rewrite IH. lia.
  - intros s. induction s as [| |c d s IH] using string_ind2; [done..|].
    cbn [hex_decode String.length length]. rewrite IH.
    replace (S (S (String.length s))) with (String.length s + 1 * 2)%nat by lia.
    by rewrite Nat.div_add, Nat.add_1_r by lia.
  - intros a b. induction a as [|c a IH]; [done|]. cbn. by rewrite IH.
  - apply hex_decode_encode.
  - intros s t E. by rewrite <- (hex_decode_lower s), <- (hex_decode_lower t), E.
Qed.

(** ** Codecs and hashes *)

Definition sample_cppcodec : Cppcodec := {|
  base64_encode := hex_encode;
  base64_decode s := inr (hex_decode s)
|}.

Lemma sample_cppcodec_laws : @CppcodecLaws sample_cppcodec.
Proof. split. intros. cbn. by rewrite hex_decode_encode. Qed.

Definition pad_to (n : nat) (bs : bytes) : bytes := take n (bs ++ zero_bytes n).

Lemma length_pad_to n bs : length (pad_to n bs) = n.
Proof. unfold pad_to, zero_bytes. rewrite length_take, length_app, length_replicate. lia. Qed.

Definition sample_hashes : Hashes := {|
  Sha256 := pad_to 32;
  Sm3 := pad_to 32;
  HmacSm3 k bs := pad_to 32 (k ++ bs)
|}.

Lemma sample_hashes_laws : @HashesLaws sample_hashes.
Proof. split; intros; apply length_pad_to. Qed.

(** ** JSON: the messages of a table, each with its text *)

Section Json.
Context {T : Type} `{EqDecision T}.

Definition sample_json (table : list (string * T)) : ProtoJson T := {|
  MessageToJsonString m :=
    match List.find (fun p => bool_decide (p.2 = m)) table with
    | Some p => inr p.1
    | None => inl "not in the table"
    end;
  JsonStringToMessage s :=
    match List.find (fun p => bool_decide (p.1 = s)) table with
    | Some p => inr p.2
    | None => inl "not in the table"
    end
|}.

Lemma sample_json_laws table : NoDup (table.*1) -> @ProtoJsonLaws T (sample_json table).
Proof.
  intros Hnd. split. cbn. intros m s.
  destruct (List.find _ table) as [p|] eqn:Ef; [|done]. intros [= <-].
  apply find_some in Ef as [Hin Hm%bool_decide_eq_true].
  destruct (List.find (fun q => bool_decide (q.1 = p.1)) table) as [q|] eqn:Eq.
  - apply find_some in Eq as [Hin' Hk%bool_decide_eq_true].
    apply list_elem_of_In, list_elem_of_lookup in Hin as [i Hi].
    apply list_elem_of_In, list_elem_of_lookup in Hin' as [j Hj].
    assert (i = j) as ->.
    { eapply NoDup_lookup; [done| |]; rewrite list_lookup_fmap; [by rewrite Hi|].
      rewrite Hj. cbn. by rewrite Hk. }
    rewrite Hi in Hj. injection Hj as <-. by rewrite Hm.
  - eapply find_none in Eq; [|done]. by rewrite bool_decide_eq_true_2 in Eq.
Qed.
End Json.
