(* ===== verification/Verifier.v ===== *)
(** * The verifier interface and the attribute policy

    [trustflow/attestation/verification/interface]: the comparison of a
    report's attributes with a policy and [VerifyReport], which every platform
    inherits.  The abstract specification of a policy entry is [satisfies]. *)

From S2P Require Import Prelude CppStd External Common Samples.

Definition kUaAttrPlatform : string := "PLATFORM".
Definition kUaAttrPlatformHwVer : string := "PLATFORMHWVERSION".
Definition kUaAttrPlatformSwVer : string := "PLATFORMSWVERSION".
Definition kUaAttrSecureFlags : string := "SECUREFLAGS".
Definition kUaAttrMrplatform : string := "MRPLATFORM".
Definition kUaAttrMrboot : string := "MRBOOT".
Definition kUaAttrMrTa : string := "MRTRUSTAPP".
Definition kUaAttrMrTaDyn : string := "MRTRUSTAPPDYN".
Definition kUaAttrSigner : string := "SIGNER".
Definition kUaAttrProdID : string := "PRODID".
Definition kUaAttrIsvSvn : string := "ISVSVN".
Definition kUaAttrDebugDisabled : string := "DEBUGDISABLED".
Definition kUaAttrUserData : string := "USERDATA".
Definition kUaAttrPublickey : string := "PUBLICKEY".
Definition kUaAttrNonce : string := "NONCE".

Definition is_empty (s : string) : bool := String.eqb s "".

Lemma is_empty_true s : is_empty s = true <-> s = "".
Proof. apply String.eqb_eq. Qed.

Lemma is_empty_false s : is_empty s = false <-> s <> "".
Proof. apply String.eqb_neq. Qed.

Section Model.
Context `{Fmt} `{Absl} `{Hashes}.

(** The argument [std::string* error_msg]: [None] is [nullptr], [Some s] points
    at a string that holds [s].  A check returns its result and the string. *)
Definition store_msg (error_msg : option string) (s : string) : option string :=
  match error_msg with Some _ => Some s | None => None end.

(** The message of a failed comparison. *)
Definition not_match : string := "{} is not match: actual {} vs expected {}.".

Definition IsStrEqual (name actual_value expected_value : string) (required : bool)
    (error_msg : option string) : outcome (bool * option string) :=
  let result :=
    (is_empty expected_value && negb required) || EqualsIgnoreCase expected_value actual_value in
  let args := [FStr name; FStr actual_value; FStr expected_value] in
  let error_msg := if negb result then store_msg error_msg (fmt_format not_match args)
                   else error_msg in
  _ ← YACL_ENFORCE result not_match args;
  mret (result, error_msg).

Definition StrToBoolean (bool_str : string) : bool :=
  EqualsIgnoreCase bool_str "true" || String.eqb bool_str "1".

Definition IsBoolEqual (name actual_value expected_value : string) (required : bool)
    (error_msg : option string) : outcome (bool * option string) :=
  let result :=
    (is_empty expected_value && negb required)
    || Bool.eqb (StrToBoolean expected_value) (StrToBoolean actual_value) in
  let error_msg :=
    if negb result
    then store_msg error_msg
           (fmt_format not_match [FStr name; FStr actual_value; FStr expected_value])
    else error_msg in
  mret (result, error_msg).

(** [*error_msg = ...] in a handler: the pointer is not tested. *)
Definition store_msg_unchecked (error_msg : option string) (s : string)
    : outcome (bool * option string) :=
  match error_msg with
  | Some _ => mret (false, Some s)
  | None => UB "null error_msg"
  end.

(** The two operands of [<=] are evaluated left to right. *)
Definition IsGreaterEqualThan (name actual_value expected_value : string) (required : bool)
    (error_msg : option string) : outcome (bool * option string) :=
  let args := [FStr actual_value; FStr expected_value] in
  let try_body :=
    if is_empty expected_value && negb required then mret true
    else x ← stoi expected_value; y ← stoi actual_value; mret (x <=? y) in
  match try_body with
  | Ok result =>
      mret (result,
            if negb result
            then store_msg error_msg
                   (fmt_format "{} is not match: actual {} is not large than expected {}."
                      (FStr name :: args))
            else error_msg)
  | Throw ex =>
      match exn_cls ex with
      | StdException "std::invalid_argument" =>
          store_msg_unchecked error_msg
            (fmt_format "std::invalid_argument, actual {} or expected {}" args)
      | StdException "std::out_of_range" =>
          store_msg_unchecked error_msg
            (fmt_format "std::out_of_range, actual {} or expected {}" args)
      | _ => Throw ex
      end
  | UB w => UB w
  end.

(** [if (!check(..., error_msg)) { return false; } rest] *)
Definition and_then (check rest : option string -> outcome (bool * option string))
    (error_msg : option string) : outcome (bool * option string) :=
  '(ok, error_msg) ← check error_msg;
  if ok : bool then rest error_msg else mret (false, error_msg).

Notation "c ;? k" := (and_then c k) (at level 60, right associativity).

Definition AttrsIsMatch (actual_attrs expected_attrs : UnifiedAttestationAttributes)
    : option string -> outcome (bool * option string) :=
  let a := actual_attrs in
  let e := expected_attrs in
  IsStrEqual kUaAttrPlatform a.(str_tee_platform) e.(str_tee_platform) false ;?
  IsStrEqual kUaAttrPlatformHwVer a.(hex_platform_hw_version) e.(hex_platform_hw_version) false ;?
  IsStrEqual kUaAttrPlatformSwVer a.(hex_platform_sw_version) e.(hex_platform_sw_version) false ;?
  IsStrEqual kUaAttrSecureFlags a.(hex_secure_flags) e.(hex_secure_flags) false ;?
  IsStrEqual kUaAttrMrplatform a.(hex_platform_measurement) e.(hex_platform_measurement) false ;?
  IsStrEqual kUaAttrMrboot a.(hex_boot_measurement) e.(hex_boot_measurement) false ;?
  IsStrEqual kUaAttrMrTa a.(hex_ta_measurement) e.(hex_ta_measurement) false ;?
  IsStrEqual kUaAttrMrTaDyn a.(hex_ta_dyn_measurement) e.(hex_ta_dyn_measurement) false ;?
  IsStrEqual kUaAttrSigner a.(hex_signer) e.(hex_signer) false ;?
  IsStrEqual kUaAttrProdID a.(hex_prod_id) e.(hex_prod_id) false ;?
  IsGreaterEqualThan kUaAttrIsvSvn a.(str_min_isvsvn) e.(str_min_isvsvn) false ;?
  IsBoolEqual kUaAttrDebugDisabled a.(bool_debug_disabled) e.(bool_debug_disabled) false ;?
  IsStrEqual kUaAttrUserData a.(hex_user_data) e.(hex_user_data) false ;?
  (fun error_msg =>
     if negb (is_empty e.(hex_hash_or_pem_pubkey)) then
       let expected_hash := Sha256 (s2b e.(hex_hash_or_pem_pubkey)) in
       let expected_hash_hex := BytesToHexString expected_hash in
       IsStrEqual kUaAttrPublickey a.(hex_hash_or_pem_pubkey) expected_hash_hex false error_msg
     else mret (true, error_msg)) ;?
  IsStrEqual kUaAttrNonce a.(hex_nonce) e.(hex_nonce) false ;?
  (fun error_msg => mret (true, error_msg)).

Definition msg_text (error_msg : option string) : string :=
  match error_msg with Some s => s | None => "" end.

(** The [for] loop from index [i] on. *)
Fixpoint verify_loop (actual_attrs : UnifiedAttestationAttributes) (i : Z)
    (entries : list UnifiedAttestationAttributes) (error_msgs : list string) : outcome unit :=
  match entries with
  | [] => YACL_THROW "Verify attributes failed:
 {}." [FList error_msgs]
  | expected_attrs :: rest =>
      '(matched, error_msg) ← AttrsIsMatch actual_attrs expected_attrs (Some "");
      if matched : bool then mret tt
      else verify_loop actual_attrs (i + 1) rest
             (error_msgs ++ [fmt_format "#{}: {}" [FInt i; FStr (msg_text error_msg)]])
  end.

Definition VerifyAttributes (actual_attrs : UnifiedAttestationAttributes)
    (policy : UnifiedAttestationPolicy) : outcome unit :=
  verify_loop actual_attrs 0 policy.(main_attributes) [].
End Model.

(** ** The abstract class

    [now] is what [time(NULL)] returns when [VerifyPlatform] asks for it. *)
Class AttestationVerifier (V : Type) := {
  ParseUnifiedReport : V -> UnifiedAttestationAttributes -> outcome UnifiedAttestationAttributes;
  VerifyPlatform : Z -> V -> outcome unit
}.

Definition VerifyReport `{Fmt} `{Absl} `{Hashes} {V} `{AttestationVerifier V}
    (now : Z) (v : V) (policy : UnifiedAttestationPolicy) : outcome unit :=
  _ ← VerifyPlatform now v;
  attrs ← ParseUnifiedReport v default_attrs;
  VerifyAttributes attrs policy.

(** ** What a policy entry means *)

(** A text field of an entry constrains the report only when it is set, and
    then up to letter case. *)
Definition field_ok (actual expected : string) : Prop :=
  expected <> "" -> lower expected = lower actual.

(** The security version is compared as a number: the report's is at least the
    one asked for. *)
Definition svn_ok (actual expected : string) : Prop :=
  expected <> "" -> exists x y, stoi expected = Ok x /\ stoi actual = Ok y /\ x <= y.

Definition flag_ok `{Absl} (actual expected : string) : Prop :=
  expected <> "" -> StrToBoolean expected = StrToBoolean actual.

(** A public key is given in the clear and compared by its SHA-256. *)
Definition pubkey_ok `{Absl} `{Hashes} (actual expected : string) : Prop :=
  expected <> "" -> lower (BytesToHexString (Sha256 (s2b expected))) = lower actual.

Record satisfies `{Absl} `{Hashes} (a e : UnifiedAttestationAttributes) : Prop := {
  sat_platform : field_ok a.(str_tee_platform) e.(str_tee_platform);
  sat_hw_version : field_ok a.(hex_platform_hw_version) e.(hex_platform_hw_version);
  sat_sw_version : field_ok a.(hex_platform_sw_version) e.(hex_platform_sw_version);
  sat_secure_flags : field_ok a.(hex_secure_flags) e.(hex_secure_flags);
  sat_platform_measurement :
    field_ok a.(hex_platform_measurement) e.(hex_platform_measurement);
  sat_boot_measurement : field_ok a.(hex_boot_measurement) e.(hex_boot_measurement);
  sat_ta_measurement : field_ok a.(hex_ta_measurement) e.(hex_ta_measurement);
  sat_ta_dyn_measurement : field_ok a.(hex_ta_dyn_measurement) e.(hex_ta_dyn_measurement);
  sat_signer : field_ok a.(hex_signer) e.(hex_signer);
  sat_prod_id : field_ok a.(hex_prod_id) e.(hex_prod_id);
  sat_isvsvn : svn_ok a.(str_min_isvsvn) e.(str_min_isvsvn);
  sat_debug_disabled : flag_ok a.(bool_debug_disabled) e.(bool_debug_disabled);
  sat_user_data : field_ok a.(hex_user_data) e.(hex_user_data);
  sat_pubkey : pubkey_ok a.(hex_hash_or_pem_pubkey) e.(hex_hash_or_pem_pubkey);
  sat_nonce : field_ok a.(hex_nonce) e.(hex_nonce)
}.

(** ** What the code makes of an entry

    A text field that differs stops the whole verification with an exception;
    a security version or debug flag that differs only makes the code go on to
    the next entry.  [verdict] says which of the three happens. *)

Section Verdict.
Context `{Absl} `{Hashes}.

Definition strb (actual expected : string) : bool :=
  is_empty expected || EqualsIgnoreCase expected actual.

Definition svnb (actual expected : string) : bool :=
  is_empty expected
  || match stoi expected, stoi actual with Ok x, Ok y => x <=? y | _, _ => false end.

Definition flagb (actual expected : string) : bool :=
  is_empty expected || Bool.eqb (StrToBoolean expected) (StrToBoolean actual).

Definition pubkeyb (actual expected : string) : bool :=
  is_empty expected || strb actual (BytesToHexString (Sha256 (s2b expected))).

(** The text fields compared before and after the two soft checks. *)
Definition prefixb (a e : UnifiedAttestationAttributes) : bool :=
  strb a.(str_tee_platform) e.(str_tee_platform)
  && strb a.(hex_platform_hw_version) e.(hex_platform_hw_version)
  && strb a.(hex_platform_sw_version) e.(hex_platform_sw_version)
  && strb a.(hex_secure_flags) e.(hex_secure_flags)
  && strb a.(hex_platform_measurement) e.(hex_platform_measurement)
  && strb a.(hex_boot_measurement) e.(hex_boot_measurement)
  && strb a.(hex_ta_measurement) e.(hex_ta_measurement)
  && strb a.(hex_ta_dyn_measurement) e.(hex_ta_dyn_measurement)
  && strb a.(hex_signer) e.(hex_signer)
  && strb a.(hex_prod_id) e.(hex_prod_id).

Definition softb (a e : UnifiedAttestationAttributes) : bool :=
  svnb a.(str_min_isvsvn) e.(str_min_isvsvn)
  && flagb a.(bool_debug_disabled) e.(bool_debug_disabled).

Definition suffixb (a e : UnifiedAttestationAttributes) : bool :=
  strb a.(hex_user_data) e.(hex_user_data)
  && pubkeyb a.(hex_hash_or_pem_pubkey) e.(hex_hash_or_pem_pubkey)
  && strb a.(hex_nonce) e.(hex_nonce).

Inductive verdict_t := Match | Mismatch | Abort.

Definition verdict (a e : UnifiedAttestationAttributes) : verdict_t :=
  if negb (prefixb a e) then Abort
  else if negb (softb a e) then Mismatch
  else if suffixb a e then Match else Abort.
End Verdict.

(** The declarative reading of the boolean tests. *)
Section VerdictSpec.
Context `{AbslLaws} `{HashesLaws}.

Lemma strb_spec actual expected : strb actual expected = true <-> field_ok actual expected.
Proof.
  unfold strb, field_ok.
  rewrite orb_true_iff, is_empty_true, EqualsIgnoreCase_spec.
  destruct (decide (expected = "")); naive_solver.
Qed.

Lemma svnb_spec actual expected : svnb actual expected = true <-> svn_ok actual expected.
Proof.
  unfold svnb, svn_ok. rewrite orb_true_iff, is_empty_true.
  destruct (decide (expected = "")) as [|Hne]; [naive_solver|]. split.
  - intros [|Hm] _; [done|]. destruct (stoi expected) as [x| |], (stoi actual) as [y| |]; try done.
    exists x, y. by apply Z.leb_le in Hm.
  - intros Hs. destruct (Hs Hne) as (x & y & -> & -> & Hle). right. by apply Z.leb_le.
Qed.

Lemma flagb_spec actual expected : flagb actual expected = true <-> flag_ok actual expected.
Proof.
  unfold flagb, flag_ok. rewrite orb_true_iff, is_empty_true, eqb_true_iff.
  destruct (decide (expected = "")); naive_solver.
Qed.

Lemma Sha256_hex_nonempty bs : BytesToHexString (Sha256 bs) <> "".
Proof.
  intros E%BytesToHexString_empty. pose proof (length_Sha256 bs) as L. by rewrite E in L.
Qed.

Lemma pubkeyb_spec actual expected : pubkeyb actual expected = true <-> pubkey_ok actual expected.
Proof.
  unfold pubkeyb, pubkey_ok. rewrite orb_true_iff, is_empty_true, strb_spec. unfold field_ok.
  pose proof (Sha256_hex_nonempty (s2b expected)).
  destruct (decide (expected = "")); naive_solver.
Qed.

Lemma verdict_Match a e : verdict a e = Match <-> satisfies a e.
Proof.
  assert (verdict a e = Match <->
          prefixb a e = true /\ softb a e = true /\ suffixb a e = true) as ->.
  { unfold verdict. destruct (prefixb a e), (softb a e), (suffixb a e); cbn; naive_solver. }
  unfold prefixb, softb, suffixb.
  rewrite !andb_true_iff, !strb_spec, svnb_spec, flagb_spec, pubkeyb_spec.
  split; [intros; destruct_and!; by constructor|intros []; tauto].
Qed.
End VerdictSpec.

(** ** The code computes the verdict *)
Section VerdictRefines.
Context `{Fmt} `{Absl} `{Hashes}.

Lemma and_then_eq c k em :
  and_then c k em = (c em ≫= fun r => if r.1 : bool then k r.2 else mret (false, r.2)).
Proof. unfold and_then. by destruct (c em) as [[]| |]. Qed.

Lemma IsStrEqual_eq name actual expected em :
  IsStrEqual name actual expected false em =
    if strb actual expected then Ok (true, em)
    else Throw (mk_exn EnforceNotMet not_match [FStr name; FStr actual; FStr expected]).
Proof.
  unfold IsStrEqual, strb. rewrite andb_true_r.
  by destruct (is_empty expected || EqualsIgnoreCase expected actual).
Qed.

Lemma IsBoolEqual_eq name actual expected em :
  exists em', IsBoolEqual name actual expected false (Some em) =
    Ok (flagb actual expected, Some em').
Proof.
  unfold IsBoolEqual, flagb. rewrite andb_true_r.
  destruct (is_empty expected || _); cbn; by eexists.
Qed.

Lemma IsGreaterEqualThan_eq name actual expected em :
  exists em', IsGreaterEqualThan name actual expected false (Some em) =
    Ok (svnb actual expected, Some em').
Proof.
  unfold IsGreaterEqualThan, svnb. rewrite andb_true_r.
  destruct (is_empty expected); cbn [orb]; [by eexists|].
  destruct (stoi_cases expected) as [[x ->]|[-> | ->]]; cbn; try by eexists.
  destruct (stoi_cases actual) as [[y ->]|[-> | ->]]; cbn; try by eexists.
  destruct (x <=? y); cbn; by eexists.
Qed.

(** Three outcomes, one for each verdict; there is no other, and none of them is
    undefined when [error_msg] is a valid pointer. *)
Definition refines_verdict (v : verdict_t) (r : outcome (bool * option string)) : Prop :=
  match v with
  | Match => exists em, r = Ok (true, Some em)
  | Mismatch => exists em, r = Ok (false, Some em)
  | Abort => exists ex, r = Throw ex /\ exn_cls ex = EnforceNotMet
  end.

Lemma AttrsIsMatch_verdict a e em :
  refines_verdict (verdict a e) (AttrsIsMatch a e (Some em)).
Proof.
  unfold AttrsIsMatch, verdict, prefixb.
  do 10 (rewrite and_then_eq, IsStrEqual_eq;
    destruct (strb _ _); cbn [andb negb mbind outcome_bind fst snd];
    [|by eexists]).
  unfold softb. rewrite and_then_eq.
  edestruct IsGreaterEqualThan_eq as [em1 ->]. cbn [mbind outcome_bind fst snd].
  destruct (svnb _ _); cbn [andb negb]; [|by eexists].
  rewrite and_then_eq. edestruct IsBoolEqual_eq as [em2 ->]. cbn [mbind outcome_bind fst snd].
  destruct (flagb _ _); cbn [andb negb]; [|by eexists].
  unfold suffixb. rewrite and_then_eq, IsStrEqual_eq.
  destruct (strb _ _); cbn [andb mbind outcome_bind fst snd]; [|by eexists].
  rewrite and_then_eq. unfold pubkeyb.
  destruct (is_empty e.(hex_hash_or_pem_pubkey)); cbn [negb orb];
    [cbn [mbind outcome_bind fst snd mret outcome_ret andb]
    |rewrite IsStrEqual_eq; destruct (strb _ _); cbn [andb mbind outcome_bind fst snd];
     [|by eexists]];
  rewrite and_then_eq, IsStrEqual_eq;
  (destruct (strb _ _); cbn [mbind outcome_bind fst snd]; by eexists).
Qed.

(** The loop stops at the first entry that is not a plain mismatch. *)
Lemma verify_loop_spec a entries i msgs :
  verify_loop a i entries msgs = Ok tt <->
  exists n e, entries !! n = Some e /\ verdict a e = Match /\
    forall j e', (j < n)%nat -> entries !! j = Some e' -> verdict a e' = Mismatch.
Proof.
  revert i msgs. induction entries as [|e rest IH]; intros i msgs; cbn [verify_loop].
  { split; [done|by intros (n & e & ? & _)]. }
  pose proof (AttrsIsMatch_verdict a e "") as Hv.
  destruct (verdict a e) eqn:Hve; destruct Hv as [x Hv].
  - rewrite Hv. split; [intros _|done].
    exists 0%nat, e. split; [done|]. split; [done|]. intros; lia.
  - rewrite Hv. cbn [mbind outcome_bind]. rewrite IH. split.
    + intros (n & e' & Hn & Hm & Hb). exists (S n), e'. do 2 (split; [done|]).
      intros [|j] e'' Hj Hl; [by injection Hl as <-|]. apply (Hb j); [lia|done].
    + intros ([|n] & e' & Hn & Hm & Hb); [injection Hn as <-; congruence|].
      exists n, e'. do 2 (split; [done|]). intros j e'' Hj Hl. apply (Hb (S j)); [lia|done].
  - destruct Hv as [Hv _]. rewrite Hv. split; [done|].
    intros ([|n] & e' & Hn & Hm & Hb); [injection Hn as <-; congruence|].
    specialize (Hb 0%nat e ltac:(lia) eq_refl). congruence.
Qed.

Lemma verify_loop_defined a entries i msgs : defined (verify_loop a i entries msgs).
Proof.
  revert i msgs. induction entries as [|e rest IH]; intros i msgs; cbn [verify_loop]; [done|].
  pose proof (AttrsIsMatch_verdict a e "") as Hv.
  destruct (verdict a e); destruct Hv as [x Hv]; [by rewrite Hv|rewrite Hv; apply IH|].
  destruct Hv as [-> _]. done.
Qed.

Lemma VerifyAttributes_defined a p : defined (VerifyAttributes a p).
Proof. apply verify_loop_defined. Qed.
End VerdictRefines.

#[export] Hint Resolve VerifyAttributes_defined : trustflow.

(** ** Reading the constraints of an entry *)

(** The boolean texts the verifiers write and policies ask for. *)
Lemma StrToBoolean_true `{AbslLaws} : StrToBoolean "true" = true.
Proof. unfold StrToBoolean. by rewrite EqualsIgnoreCase_refl. Qed.

Lemma StrToBoolean_false `{AbslLaws} : StrToBoolean "false" = false.
Proof.
  unfold StrToBoolean. destruct (EqualsIgnoreCase _ _) eqn:E; [|done].
  apply EqualsIgnoreCase_spec in E. done.
Qed.

(** A field written as hex text pins the bytes. *)
Lemma field_ok_hex `{AbslLaws} expected bs :
  field_ok (BytesToHexString bs) expected -> expected <> "" -> bs = HexStringToBytes expected.
Proof.
  intros Hf Hne. symmetry. apply EqualsIgnoreCase_hex_l, EqualsIgnoreCase_spec. by apply Hf.
Qed.

Lemma svn_ok_numbers n m :
  0 <= n <= int_max -> 0 <= m <= int_max -> svn_ok (to_string n) (to_string m) <-> m <= n.
Proof.
  intros Hn Hm. unfold svn_ok. rewrite !stoi_to_string by done.
  pose proof (to_string_nonempty m ltac:(lia)). naive_solver.
Qed.

Lemma VerifyReport_Ok `{Fmt} `{Absl} `{Hashes} {V} `{AttestationVerifier V} now (v : V) policy :
  VerifyReport now v policy = Ok tt ->
  VerifyPlatform now v = Ok tt /\
  exists attrs, ParseUnifiedReport v default_attrs = Ok attrs /\
    VerifyAttributes attrs policy = Ok tt.
Proof. intros Hv. unfold VerifyReport in Hv. inv_ok. destruct x. eauto. Qed.

(** ** Properties *)

(** C1. An accepted report satisfies an entry of the policy.  Whenever
    [VerifyAttributes] returns, one of the policy's [main_attributes] constrains
    the report's attributes and every constraint it sets holds: text fields are
    equal up to case, the security version is at least the one asked for, the
    debug flag agrees, and the public key hash is that of the given key. *)
Theorem VerifyAttributes_sound `{Fmt} `{AbslLaws} `{HashesLaws}
    (a : UnifiedAttestationAttributes) (p : UnifiedAttestationPolicy) :
  VerifyAttributes a p = Ok tt ->
  exists e, e ∈ p.(main_attributes) /\ satisfies a e.
Proof.
  intros (n & e & Hn & Hm & _)%verify_loop_spec. exists e.
  split; [by eapply list_elem_of_lookup_2|by apply verdict_Match].
Qed.

(** With a single entry the code decides exactly the specification: it
    returns if and only if the attributes satisfy the entry. *)
Theorem VerifyAttributes_single `{Fmt} `{AbslLaws} `{HashesLaws}
    (a e : UnifiedAttestationAttributes) :
  VerifyAttributes a (mk_policy [e]) = Ok tt <-> satisfies a e.
Proof.
  unfold VerifyAttributes. rewrite verify_loop_spec, <- verdict_Match. split.
  - intros ([|n] & e' & Hn & Hm & _); [by injection Hn as <-|done].
  - intros Hm. exists 0%nat, e. split; [done|]. split; [done|]. intros; lia.
Qed.

(** C19. Which reports pass a policy of several entries.  The code accepts
    exactly when some entry is satisfied and every entry before it fails at
    the security version or the debug flag only, with all text fields compared
    before those two equal. *)
Theorem VerifyAttributes_first_match `{Fmt} `{AbslLaws} `{HashesLaws}
    (a : UnifiedAttestationAttributes) (p : UnifiedAttestationPolicy) :
  VerifyAttributes a p = Ok tt <->
  exists n e, p.(main_attributes) !! n = Some e /\ satisfies a e /\
    forall j e', (j < n)%nat -> p.(main_attributes) !! j = Some e' ->
      prefixb a e' = true /\
      ~ (svn_ok a.(str_min_isvsvn) e'.(str_min_isvsvn)
         /\ flag_ok a.(bool_debug_disabled) e'.(bool_debug_disabled)).
Proof.
  unfold VerifyAttributes. rewrite verify_loop_spec. setoid_rewrite verdict_Match.
  assert (forall e', verdict a e' = Mismatch <-> prefixb a e' = true /\
      ~ (svn_ok a.(str_min_isvsvn) e'.(str_min_isvsvn)
         /\ flag_ok a.(bool_debug_disabled) e'.(bool_debug_disabled))) as Hmis.
  { intros e'. rewrite <- svnb_spec, <- flagb_spec, <- andb_true_iff, not_true_iff_false.
    fold (softb a e'). unfold verdict.
    destruct (prefixb a e'), (softb a e'), (suffixb a e'); cbn; naive_solver. }
  setoid_rewrite Hmis. reflexivity.
Qed.

(** An entry that differs in a text field hides the entries after it.  The
    loop over [main_attributes] is written to try every entry and collect their
    messages, but [IsStrEqual] throws: there are attributes and two entries such
    that the second is satisfied and the policy is refused, while the same
    entries in the other order are accepted. *)
Theorem VerifyAttributes_order_matters `{Fmt} `{AbslLaws} `{HashesLaws} :
  exists a e1 e2,
    satisfies a e2 /\
    is_throw (VerifyAttributes a (mk_policy [e1; e2])) = true /\
    VerifyAttributes a (mk_policy [e2; e1]) = Ok tt.
Proof.
  set (a := set_str_tee_platform "TDX" default_attrs).
  set (e1 := set_str_tee_platform "CSV" default_attrs).
  assert (forall x y, EqualsIgnoreCase x y = bool_decide (lower x = lower y)) as Heq.
  { intros x y. destruct (EqualsIgnoreCase x y) eqn:E.
    - apply EqualsIgnoreCase_spec in E. by rewrite bool_decide_eq_true_2.
    - rewrite bool_decide_eq_false_2; [done|]. intros E'%EqualsIgnoreCase_spec. congruence. }
  exists a, e1, a.
  assert (satisfies a a) as Hs by (split; by intros ?).
  split; [done|]. split.
  - unfold VerifyAttributes. cbn [main_attributes verify_loop].
    pose proof (AttrsIsMatch_verdict a e1 "") as Hv.
    replace (verdict a e1) with Abort in Hv; [by destruct Hv as (ex & -> & _)|].
    unfold verdict, prefixb, strb. cbn. by rewrite !Heq.
  - apply verify_loop_spec. exists 0%nat, a. split; [done|].
    split; [by apply verdict_Match|]. intros; lia.
Qed.

(** Attribute verification is total and fails closed.  For every policy it
    returns or throws, never reaching undefined behaviour (the unchecked
    [*error_msg] of the handlers included), and a policy without entries is
    refused. *)
Theorem VerifyAttributes_total `{Fmt} `{Absl} `{Hashes}
    (a : UnifiedAttestationAttributes) (p : UnifiedAttestationPolicy) :
  defined (VerifyAttributes a p) /\
  (p.(main_attributes) = [] -> is_throw (VerifyAttributes a p) = true).
Proof.
  split; [apply VerifyAttributes_defined|]. unfold VerifyAttributes. by intros ->.
Qed.

(** ** Witnesses *)

Module VerifierWitness.
#[local] Existing Instance sample_fmt.
#[local] Existing Instance sample_absl.
#[local] Existing Instance sample_hashes.
#[local] Existing Instance sample_absl_laws.
#[local] Existing Instance sample_hashes_laws.

(** A report of security version 7 and a policy that asks for 5 of it, in the
    other letter case. *)
Definition actual : UnifiedAttestationAttributes :=
  set_str_tee_platform "TDX" (set_hex_ta_measurement "00ff" (set_str_min_isvsvn "7" default_attrs)).
Definition expected : UnifiedAttestationAttributes :=
  set_str_tee_platform "TDX" (set_hex_ta_measurement "00FF" (set_str_min_isvsvn "5" default_attrs)).
Definition too_new : UnifiedAttestationAttributes := set_str_min_isvsvn "8" expected.

Lemma VerifyAttributes_sound_witness :
  exists e, e ∈ [too_new; expected] /\ satisfies actual e.
Proof. apply (VerifyAttributes_sound actual (mk_policy [too_new; expected])). reflexivity. Defined.

Lemma VerifyAttributes_single_witness : satisfies actual expected.
Proof. apply (VerifyAttributes_single actual expected). reflexivity. Defined.

Lemma VerifyAttributes_first_match_witness :
  prefixb actual too_new = true.
Proof.
  assert (VerifyAttributes actual (mk_policy [too_new; expected]) = Ok tt) as Ha by reflexivity.
  apply VerifyAttributes_first_match in Ha as (n & e & Hn & Hs & Hb).
  destruct n as [|[|n]]; [|exact (proj1 (Hb 0%nat too_new ltac:(lia) eq_refl))|done].
  injection Hn as <-. apply sat_isvsvn in Hs. exfalso.
  destruct (Hs ltac:(done)) as (x & y & Hx & Hy & Hle).
  vm_compute in Hx, Hy. injection Hx as <-. injection Hy as <-. lia.
Defined.

Lemma VerifyAttributes_order_matters_witness :
  exists a e1 e2, satisfies a e2 /\
    is_throw (VerifyAttributes a (mk_policy [e1; e2])) = true /\
    VerifyAttributes a (mk_policy [e2; e1]) = Ok tt.
Proof. apply VerifyAttributes_order_matters. Defined.

Lemma VerifyAttributes_total_witness :
  is_throw (VerifyAttributes actual (mk_policy [])) = true.
Proof. apply (VerifyAttributes_total actual (mk_policy [])). reflexivity. Defined.
End VerifierWitness.
