(* ===== verification/Dcap.v ===== *)
(** * Intel DCAP: the quote verification library and the quote layouts

    The quote verification library (QVL) and the headers of the SGX SDK are
    outside the repository.  [DcapQvl] has the functions the two verifiers
    call; [SgxQuote3], [Report2Body] and [TdxQuote] have the offsets and sizes
    of the structures they cast a quote to, with the C layout rules (a field
    lies inside its structure) as laws. *)

From S2P Require Import Prelude CppStd External Common Verifier.

(** The enumerators [sgx_ql_qv_result_t] the code names; [QV_RESULT_OTHER] is
    any other value of the type. *)
Inductive sgx_ql_qv_result_t :=
  | SGX_QL_QV_RESULT_OK
  | SGX_QL_QV_RESULT_CONFIG_NEEDED
  | SGX_QL_QV_RESULT_OUT_OF_DATE
  | SGX_QL_QV_RESULT_OUT_OF_DATE_CONFIG_NEEDED
  | SGX_QL_QV_RESULT_INVALID_SIGNATURE
  | SGX_QL_QV_RESULT_REVOKED
  | SGX_QL_QV_RESULT_UNSPECIFIED
  | SGX_QL_QV_RESULT_SW_HARDENING_NEEDED
  | SGX_QL_QV_RESULT_CONFIG_AND_SW_HARDENING_NEEDED
  | QV_RESULT_OTHER (value : Z).

#[global] Instance qv_result_eq_dec : EqDecision sgx_ql_qv_result_t.
Proof. solve_decision. Defined.

Definition SGX_QL_SUCCESS : Z := 0.

(** A pointer with its length, and the structure of such pairs handed to the
    QVL.  [cd_tee_type] is [None] while the field has not been written. *)
Record c_field := mk_c_field { cf_data : string; cf_size : Z }.

Record sgx_ql_qve_collateral_t := mk_collateral_data {
  cd_version : Z;
  cd_pck_crl_issuer_chain : c_field;
  cd_root_ca_crl : c_field;
  cd_pck_crl : c_field;
  cd_tcb_info_issuer_chain : c_field;
  cd_tcb_info : c_field;
  cd_qe_identity_issuer_chain : c_field;
  cd_qe_identity : c_field;
  cd_tee_type : option Z
}.

(** The return code and the two output parameters of [*_qv_verify_quote]. *)
Record qv_output := mk_qv_output {
  qv_ret : Z;
  qv_expiration_status : Z;
  qv_result : sgx_ql_qv_result_t
}.

Class DcapQvl := {
  sizeof_sgx_ql_qv_supplemental_t : Z;
  qv_result_value : sgx_ql_qv_result_t -> Z;
  (* return code and size *)
  sgx_qv_get_quote_supplemental_data_size : Z * Z;
  tdx_qv_get_quote_supplemental_data_size : Z * Z;
  (* quote, collateral, current time, size of the supplemental buffer *)
  sgx_qv_verify_quote : bytes -> sgx_ql_qve_collateral_t -> Z -> Z -> qv_output;
  tdx_qv_verify_quote : bytes -> sgx_ql_qve_collateral_t -> Z -> Z -> qv_output
}.

(** ** What the verifiers show to the QVL, and take from it *)

(** Every text of the collateral is set; [collateral_texts] lists them. *)
Definition collateral_texts (c : SgxQlQveCollateral) : list string :=
  [c.(pck_crl_issuer_chain); c.(root_ca_crl); c.(pck_crl); c.(tcb_info_issuer_chain);
   c.(tcb_info); c.(qe_identity_issuer_chain); c.(qe_identity)].

Definition collateral_complete (c : SgxQlQveCollateral) : Prop :=
  Forall (fun s => s <> "") (collateral_texts c).

Definition c_field_of (s : string) : c_field :=
  mk_c_field s (u32 (Z.of_nat (String.length s) + 1)).

Definition collateral_data_of (c : SgxQlQveCollateral) : sgx_ql_qve_collateral_t :=
  mk_collateral_data c.(version)
    (c_field_of c.(pck_crl_issuer_chain)) (c_field_of c.(root_ca_crl))
    (c_field_of c.(pck_crl)) (c_field_of c.(tcb_info_issuer_chain)) (c_field_of c.(tcb_info))
    (c_field_of c.(qe_identity_issuer_chain)) (c_field_of c.(qe_identity)) None.

(** The verification results the code lets through. *)
Definition accepted (r : sgx_ql_qv_result_t) : bool :=
  match r with
  | SGX_QL_QV_RESULT_OK | SGX_QL_QV_RESULT_CONFIG_NEEDED | SGX_QL_QV_RESULT_OUT_OF_DATE
  | SGX_QL_QV_RESULT_OUT_OF_DATE_CONFIG_NEEDED | SGX_QL_QV_RESULT_SW_HARDENING_NEEDED
  | SGX_QL_QV_RESULT_CONFIG_AND_SW_HARDENING_NEEDED => true
  | _ => false
  end.

(** The debug attribute as the text of [bool_debug_disabled]. *)
Definition debug_flag (attributes flag : Z) : string :=
  if Z.land attributes flag =? flag then "false" else "true".

Lemma flag_ok_debug `{AbslLaws} attributes flag :
  flag_ok (debug_flag attributes flag) "true" <-> Z.land attributes flag <> flag.
Proof.
  unfold flag_ok, debug_flag. rewrite StrToBoolean_true.
  destruct (Z.eqb_spec (Z.land attributes flag) flag);
    rewrite ?StrToBoolean_true, ?StrToBoolean_false; naive_solver.
Qed.

(** ** Layouts *)

(** [sgx_quote3_t] and the fields of its [report_body]. *)
Class SgxQuote3 := {
  sizeof_sgx_quote3_t : nat;
  sizeof_sgx_measurement_t : nat;
  sizeof_sgx_report_data_t : nat;
  off_mr_enclave : nat;
  off_mr_signer : nat;
  off_isv_prod_id : nat;
  off_isv_svn : nat;
  off_report_data : nat;
  off_attributes_flags : nat
}.

(** The [DEBUG] mask of [sgx_attributes.h]. *)
Class SgxAttributes := { SGX_FLAGS_DEBUG : Z }.

Class SgxQuote3Laws `{SgxQuote3} : Prop := {
  mr_enclave_in : (off_mr_enclave + sizeof_sgx_measurement_t <= sizeof_sgx_quote3_t)%nat;
  mr_signer_in : (off_mr_signer + sizeof_sgx_measurement_t <= sizeof_sgx_quote3_t)%nat;
  isv_prod_id_in : (off_isv_prod_id + 2 <= sizeof_sgx_quote3_t)%nat;
  isv_svn_in : (off_isv_svn + 2 <= sizeof_sgx_quote3_t)%nat;
  report_data_in : (off_report_data + sizeof_sgx_report_data_t <= sizeof_sgx_quote3_t)%nat;
  attributes_flags_in : (off_attributes_flags + 8 <= sizeof_sgx_quote3_t)%nat
}.

(** [sgx_report2_body_t]: offsets inside the body. *)
Class Report2Body := {
  sizeof_sgx_report2_body_t : nat;
  sizeof_tee_measurement_t : nat;
  sizeof_tdx_report_data_t : nat;
  off_mr_seam : nat;
  off_mrsigner_seam : nat;
  off_td_attributes : nat;
  off_mr_td : nat;
  off_mr_config_id : nat;
  off_mr_owner : nat;
  off_mr_owner_config : nat;
  off_rt_mr : nat;
  off_report2_data : nat
}.

Class Report2BodyLaws `{Report2Body} : Prop := {
  mr_seam_in : (off_mr_seam + sizeof_tee_measurement_t <= sizeof_sgx_report2_body_t)%nat;
  mrsigner_seam_in :
    (off_mrsigner_seam + sizeof_tee_measurement_t <= sizeof_sgx_report2_body_t)%nat;
  td_attributes_in : (off_td_attributes + 8 <= sizeof_sgx_report2_body_t)%nat;
  mr_td_in : (off_mr_td + sizeof_tee_measurement_t <= sizeof_sgx_report2_body_t)%nat;
  mr_config_id_in :
    (off_mr_config_id + sizeof_tee_measurement_t <= sizeof_sgx_report2_body_t)%nat;
  mr_owner_in : (off_mr_owner + sizeof_tee_measurement_t <= sizeof_sgx_report2_body_t)%nat;
  mr_owner_config_in :
    (off_mr_owner_config + sizeof_tee_measurement_t <= sizeof_sgx_report2_body_t)%nat;
  rt_mr_in : (off_rt_mr + 4 * sizeof_tee_measurement_t <= sizeof_sgx_report2_body_t)%nat;
  report2_data_in :
    (off_report2_data + sizeof_tdx_report_data_t <= sizeof_sgx_report2_body_t)%nat
}.

(** [sgx_quote4_t] and [sgx_quote5_t]: a common header, then the report body
    inline (version 4) or as a variable-length array [body] (version 5). *)
Class TdxQuote := {
  sizeof_sgx_quote4_t : nat;
  sizeof_sgx_quote5_t : nat;
  off_header_version : nat;
  off_header_tee_type : nat;
  off_report_body4 : nat;
  off_body5 : nat
}.

Class TdxQuoteLaws `{Report2Body} `{TdxQuote} : Prop := {
  header_version_in : (off_header_version + 2 <= sizeof_sgx_quote4_t)%nat;
  header_tee_type_in : (off_header_tee_type + 4 <= sizeof_sgx_quote4_t)%nat;
  report_body4_in : (off_report_body4 + sizeof_sgx_report2_body_t <= sizeof_sgx_quote4_t)%nat
}.

(** ** The layouts of the SDK headers, for the witnesses *)

Definition sample_quote3 : SgxQuote3 := {|
  sizeof_sgx_quote3_t := 436;
  sizeof_sgx_measurement_t := 32;
  sizeof_sgx_report_data_t := 64;
  off_attributes_flags := 96;
  off_mr_enclave := 112;
  off_mr_signer := 176;
  off_isv_prod_id := 304;
  off_isv_svn := 306;
  off_report_data := 368
|}.

Definition sample_attributes : SgxAttributes := {| SGX_FLAGS_DEBUG := 2 |}.

Lemma sample_quote3_laws : @SgxQuote3Laws sample_quote3.
Proof. split; cbn; lia. Qed.

Definition sample_report2_body : Report2Body := {|
  sizeof_sgx_report2_body_t := 584;
  sizeof_tee_measurement_t := 48;
  sizeof_tdx_report_data_t := 64;
  off_mr_seam := 16;
  off_mrsigner_seam := 64;
  off_td_attributes := 120;
  off_mr_td := 136;
  off_mr_config_id := 184;
  off_mr_owner := 232;
  off_mr_owner_config := 280;
  off_rt_mr := 328;
  off_report2_data := 520
|}.

Lemma sample_report2_body_laws : @Report2BodyLaws sample_report2_body.
Proof. split; cbn; lia. Qed.

Definition sample_tdx_quote : TdxQuote := {|
  sizeof_sgx_quote4_t := 636;
  sizeof_sgx_quote5_t := 54;
  off_header_version := 0;
  off_header_tee_type := 4;
  off_report_body4 := 48;
  off_body5 := 54
|}.

Lemma sample_tdx_quote_laws : @TdxQuoteLaws sample_report2_body sample_tdx_quote.
Proof. split; cbn; lia. Qed.

(** A verification library that answers every quote with one result. *)
Definition sample_qvl (r : sgx_ql_qv_result_t) : DcapQvl := {|
  sizeof_sgx_ql_qv_supplemental_t := 1;
  qv_result_value _ := 0;
  sgx_qv_get_quote_supplemental_data_size := (0, 1);
  tdx_qv_get_quote_supplemental_data_size := (0, 1);
  sgx_qv_verify_quote _ _ _ _ := mk_qv_output 0 1 r;
  tdx_qv_verify_quote _ _ _ _ := mk_qv_output 0 1 r
|}.
