(* ===== verification/Sgx2Verifier.v ===== *)
(** * The SGX verifier

    [trustflow/attestation/verification/sgx2]: [Init], [VerifyPlatform] and
    [ParseUnifiedReport] of [Sgx2AttestationVerifier]. *)

From S2P Require Import Prelude CppStd External Common Samples Verifier Dcap.

Definition kReportDataSize : Z := 64.

(** [report_], [quote_] and [collateral_]. *)
Record Sgx2AttestationVerifier := mk_sgx2 {
  sgx2_report : UnifiedAttestationReport;
  sgx2_quote : bytes;
  sgx2_collateral : SgxQlQveCollateral
}.

(** [*length = value.size() + 1] stores a [size_t] in a [uint32_t]. *)
Definition SetCollateral (name value : string) : outcome c_field :=
  _ ← YACL_ENFORCE (negb (is_empty value)) "Invlaid collateral data: {}" [FStr name];
  mret (mk_c_field value (u32 (Z.of_nat (String.length value) + 1))).

Definition InitializeCollateralData (collateral : SgxQlQveCollateral)
    : outcome sgx_ql_qve_collateral_t :=
  pck_issuer ← SetCollateral "pck_crl_issuer_chain" collateral.(pck_crl_issuer_chain);
  root_crl ← SetCollateral "root_ca_crl" collateral.(root_ca_crl);
  pck ← SetCollateral "pck_crl" collateral.(pck_crl);
  tcb_issuer ← SetCollateral "tcb_info_issuer_chain" collateral.(tcb_info_issuer_chain);
  tcb ← SetCollateral "tcb_info" collateral.(tcb_info);
  qe_issuer ← SetCollateral "qe_identity_issuer_chain" collateral.(qe_identity_issuer_chain);
  qe ← SetCollateral "qe_identity" collateral.(qe_identity);
  mret (mk_collateral_data collateral.(version) pck_issuer root_crl pck tcb_issuer tcb
          qe_issuer qe None).

Section Model.
Context `{Absl} `{Cppcodec} `{ProtoJson DcapReport} `{ProtoJson SgxQlQveCollateral}.
Context `{DcapQvl} `{SgxQuote3} `{SgxAttributes}.

(** The constructor's call of [Init] on a report. *)
Definition Init (report : UnifiedAttestationReport) : outcome Sgx2AttestationVerifier :=
  _ ← YACL_ENFORCE (String.eqb report.(str_report_version) kReportVersion)
        "Only version {} is supported, but {}"
        [FStr kReportVersion; FStr report.(str_report_version)];
  _ ← YACL_ENFORCE (String.eqb report.(str_report_type) ReportType.kReportTypePassport)
        "Only {} is supported now, but {}"
        [FStr ReportType.kReportTypePassport; FStr report.(str_report_type)];
  _ ← YACL_ENFORCE (String.eqb report.(report_tee_platform) Platform.kPlatformSgxDcap)
        "It's not {} platfrom, input platform is {}"
        [FStr Platform.kPlatformSgxDcap; FStr report.(report_tee_platform)];
  dcap_report ← JSON2PB (T := DcapReport) report.(json_report);
  quote ← call (base64_decode dcap_report.(b64_quote));
  collateral ← (if negb (is_empty dcap_report.(json_collateral))
                then JSON2PB (T := SgxQlQveCollateral) dcap_report.(json_collateral)
                else mret default_collateral);
  mret (mk_sgx2 report quote collateral).

Definition parse_unified_report (v : Sgx2AttestationVerifier)
    (attrs : UnifiedAttestationAttributes) : outcome UnifiedAttestationAttributes :=
  let attrs := set_str_tee_platform v.(sgx2_report).(report_tee_platform) attrs in
  let quote := v.(sgx2_quote) in
  _ ← YACL_ENFORCE (bool_decide (sizeof_sgx_quote3_t <= length quote)%nat)
        "quote size:{} is less than sgx_quote3_t:{}"
        [FInt (len quote); FInt (Z.of_nat sizeof_sgx_quote3_t)];
  mr_enclave ← read_at quote off_mr_enclave sizeof_sgx_measurement_t;
  mr_signer ← read_at quote off_mr_signer sizeof_sgx_measurement_t;
  prod_id ← read_at quote off_isv_prod_id 2;
  svn ← read_at quote off_isv_svn 2;
  _ ← YACL_ENFORCE (kReportDataSize =? Z.of_nat sizeof_sgx_report_data_t)
        "Report data size is not {}" [FInt kReportDataSize];
  let half_report_data_size := Z.to_nat (Z.shiftr kReportDataSize 1) in
  user_data ← read_at quote off_report_data half_report_data_size;
  public_key_hash ←
    read_at quote (off_report_data + half_report_data_size) half_report_data_size;
  let attrs := set_hex_ta_measurement (BytesToHexString mr_enclave) attrs in
  let attrs := set_hex_signer (BytesToHexString mr_signer) attrs in
  let attrs := set_hex_prod_id (to_string (le_int prod_id)) attrs in
  let attrs := set_str_min_isvsvn (to_string (le_int svn)) attrs in
  let attrs := set_hex_user_data (BytesToHexString user_data) attrs in
  let attrs := set_hex_hash_or_pem_pubkey (BytesToHexString public_key_hash) attrs in
  flags ← read_at quote off_attributes_flags 8;
  if Z.land (le_int flags) SGX_FLAGS_DEBUG =? SGX_FLAGS_DEBUG
  then mret (set_bool_debug_disabled "false" attrs)
  else mret (set_bool_debug_disabled "true" attrs).

Definition verify_platform (current_time : Z) (v : Sgx2AttestationVerifier) : outcome unit :=
  collateral_data ← InitializeCollateralData v.(sgx2_collateral);
  let '(dcap_ret, supplemental_data_size) := sgx_qv_get_quote_supplemental_data_size in
  _ ← YACL_ENFORCE (dcap_ret =? SGX_QL_SUCCESS)
        "Fail to get supplemental data size, error code: {}" [FInt dcap_ret];
  _ ← YACL_ENFORCE (supplemental_data_size =? sizeof_sgx_ql_qv_supplemental_t)
        "Size is not same with header definition in SGX SDK, please make sure you are using same version of SGX SDK and DCAP QVL." [];
  let out :=
    sgx_qv_verify_quote v.(sgx2_quote) collateral_data current_time supplemental_data_size in
  _ ← YACL_ENFORCE (out.(qv_ret) =? SGX_QL_SUCCESS)
        "Fail to verify dcap quote, error code: {0:#x}" [FInt out.(qv_ret)];
  match out.(qv_result) with
  | SGX_QL_QV_RESULT_OK => mret tt
  | SGX_QL_QV_RESULT_CONFIG_NEEDED
  | SGX_QL_QV_RESULT_OUT_OF_DATE
  | SGX_QL_QV_RESULT_OUT_OF_DATE_CONFIG_NEEDED
  | SGX_QL_QV_RESULT_SW_HARDENING_NEEDED
  | SGX_QL_QV_RESULT_CONFIG_AND_SW_HARDENING_NEEDED => mret tt
  | SGX_QL_QV_RESULT_INVALID_SIGNATURE
  | SGX_QL_QV_RESULT_REVOKED
  | SGX_QL_QV_RESULT_UNSPECIFIED
  | _ => YACL_THROW "Fail to verify dcap quote, quote verification result: {}"
           [FInt (qv_result_value out.(qv_result))]
  end.

#[export] Instance Sgx2_AttestationVerifier : AttestationVerifier Sgx2AttestationVerifier := {|
  ParseUnifiedReport := parse_unified_report;
  VerifyPlatform := verify_platform
|}.
End Model.

(** ** What the collateral looks like to the QVL *)

Lemma SetCollateral_Ok name value f :
  SetCollateral name value = Ok f <-> value <> "" /\ f = c_field_of value.
Proof.
  unfold SetCollateral. rewrite bind_Ok. setoid_rewrite YACL_ENFORCE_Ok.
  setoid_rewrite negb_true_iff. setoid_rewrite is_empty_false.
  split; [intros ([] & ? & [= <-])|intros [? ->]; exists tt]; done.
Qed.

Lemma SetCollateral_set name value :
  value <> "" -> SetCollateral name value = Ok (c_field_of value).
Proof. intros. by apply SetCollateral_Ok. Qed.

Lemma SetCollateral_defined name value : defined (SetCollateral name value).
Proof. unfold SetCollateral. solve_defined. Qed.

#[export] Hint Resolve SetCollateral_defined : trustflow.

Lemma InitializeCollateralData_defined c : defined (InitializeCollateralData c).
Proof. unfold InitializeCollateralData. solve_defined. Qed.

#[export] Hint Resolve InitializeCollateralData_defined : trustflow.

Lemma InitializeCollateralData_Ok c d :
  InitializeCollateralData c = Ok d <-> collateral_complete c /\ d = collateral_data_of c.
Proof.
  unfold InitializeCollateralData, collateral_complete, collateral_texts. split.
  - intros Hi. inv_ok. repeat match goal with
      | H : SetCollateral _ _ = Ok _ |- _ => apply SetCollateral_Ok in H as [? ->] end.
    split; [by repeat constructor|done].
  - intros [Hc ->]. rewrite !Forall_cons in Hc. destruct_and! Hc.
    by rewrite !SetCollateral_set by done.
Qed.

(** ** What a quote says *)

Section Facts.
Context `{Absl} `{Cppcodec} `{ProtoJson DcapReport} `{ProtoJson SgxQlQveCollateral}.
Context `{DcapQvl} `{SgxQuote3} {HL : SgxQuote3Laws} `{SgxAttributes}.

(** The attributes of a quote that is long enough. *)
Definition quote3_attrs (platform : string) (quote : bytes)
    (attrs : UnifiedAttestationAttributes) : UnifiedAttestationAttributes :=
  let field off n := slice quote off n in
  set_bool_debug_disabled (debug_flag (le_int (field off_attributes_flags 8%nat)) SGX_FLAGS_DEBUG)
  (set_hex_hash_or_pem_pubkey (BytesToHexString (field (off_report_data + 32)%nat 32%nat))
  (set_hex_user_data (BytesToHexString (field off_report_data 32%nat))
  (set_str_min_isvsvn (to_string (le_int (field off_isv_svn 2%nat)))
  (set_hex_prod_id (to_string (le_int (field off_isv_prod_id 2%nat)))
  (set_hex_signer (BytesToHexString (field off_mr_signer sizeof_sgx_measurement_t))
  (set_hex_ta_measurement (BytesToHexString (field off_mr_enclave sizeof_sgx_measurement_t))
  (set_str_tee_platform platform attrs))))))).

Lemma parse_unified_report_long v attrs :
  sizeof_sgx_report_data_t = 64%nat ->
  (sizeof_sgx_quote3_t <= length v.(sgx2_quote))%nat ->
  parse_unified_report v attrs =
    Ok (quote3_attrs v.(sgx2_report).(report_tee_platform) v.(sgx2_quote) attrs).
Proof.
  intros Hrd Hlen. destruct HL. unfold parse_unified_report.
  rewrite bind_enforce by (by apply bool_decide_eq_true_2).
  rewrite !bind_read by lia. rewrite bind_enforce by (by rewrite Hrd).
  change (Z.to_nat (Z.shiftr kReportDataSize 1)) with 32%nat.
  rewrite !bind_read by lia.
  unfold quote3_attrs, debug_flag. by case_match.
Qed.

Lemma parse_unified_report_short v attrs :
  (length v.(sgx2_quote) < sizeof_sgx_quote3_t)%nat ->
  is_throw (parse_unified_report v attrs) = true.
Proof.
  intros Hlen. unfold parse_unified_report.
  by rewrite bind_enforce_fails by (apply bool_decide_eq_false_2; lia).
Qed.

Lemma verify_platform_Ok now v :
  verify_platform now v = Ok tt <->
  collateral_complete v.(sgx2_collateral) /\
  sgx_qv_get_quote_supplemental_data_size = (SGX_QL_SUCCESS, sizeof_sgx_ql_qv_supplemental_t) /\
  let out := sgx_qv_verify_quote v.(sgx2_quote) (collateral_data_of v.(sgx2_collateral)) now
               sizeof_sgx_ql_qv_supplemental_t in
  out.(qv_ret) = SGX_QL_SUCCESS /\ accepted out.(qv_result) = true.
Proof.
  unfold verify_platform. split.
  - intros Hv. apply bind_Ok in Hv as (cd & [Hc ->]%InitializeCollateralData_Ok & Hv).
    destruct sgx_qv_get_quote_supplemental_data_size as [ret size]. inv_ok.
    repeat match goal with H : (_ =? _) = true |- _ => apply Z.eqb_eq in H end. subst.
    split; [done|]. split; [done|]. split; [done|]. by destruct (qv_result _).
  - intros (Hc & Hs & Hr & Ha). rewrite Hs.
    rewrite (proj2 (InitializeCollateralData_Ok _ _) (conj Hc eq_refl)), bind_Ok_l.
    rewrite !bind_enforce by (by apply Z.eqb_eq).
    by destruct (qv_result _).
Qed.

Lemma verify_platform_defined now v : defined (verify_platform now v).
Proof. unfold verify_platform. case_match. solve_defined. Qed.

Lemma Init_defined r : defined (Init r).
Proof. unfold Init. solve_defined. Qed.

Lemma Init_Ok r v :
  Init r = Ok v ->
  v.(sgx2_report) = r /\ r.(str_report_version) = kReportVersion /\
  r.(str_report_type) = ReportType.kReportTypePassport /\
  r.(report_tee_platform) = Platform.kPlatformSgxDcap.
Proof.
  unfold Init. intros Hi. inv_ok.
  repeat match goal with H : String.eqb _ _ = true |- _ => apply String.eqb_eq in H end. done.
Qed.
End Facts.

#[export] Hint Resolve verify_platform_defined Init_defined : trustflow.

(** C21. Parsing a quote reads only inside it.  With the SDK's layout
    [ParseUnifiedReport] never reads outside the decoded quote, whatever its
    size: a quote of at least [sizeof(sgx_quote3_t)] bytes yields exactly the
    attributes its fields spell out, and a shorter one is refused. *)
Theorem sgx2_parse_in_bounds `{Absl} `{SgxQuote3Laws} `{SgxAttributes}
    (Hrd : sizeof_sgx_report_data_t = 64%nat)
    (v : Sgx2AttestationVerifier) (attrs : UnifiedAttestationAttributes) :
  if decide (sizeof_sgx_quote3_t <= length v.(sgx2_quote))%nat
  then parse_unified_report v attrs =
         Ok (quote3_attrs v.(sgx2_report).(report_tee_platform) v.(sgx2_quote) attrs)
  else is_throw (parse_unified_report v attrs) = true.
Proof.
  case_decide; [by apply parse_unified_report_long|apply parse_unified_report_short; lia].
Qed.

(** C22. Which quotes the platform check accepts.  [VerifyPlatform] returns
    exactly when every text of the collateral is set, the QVL reports the
    supplemental data size of the header, verifies the quote against that
    collateral without an error, and its result is one of the six the code
    lets through.  Each text is passed with its length plus one for the
    terminating NUL, as the QVL expects; the collateral's expiration status
    plays no part. *)
Theorem sgx2_verify_platform_spec `{DcapQvl} (now : Z) (v : Sgx2AttestationVerifier) :
  verify_platform now v = Ok tt <->
  collateral_complete v.(sgx2_collateral) /\
  sgx_qv_get_quote_supplemental_data_size = (SGX_QL_SUCCESS, sizeof_sgx_ql_qv_supplemental_t) /\
  let out := sgx_qv_verify_quote v.(sgx2_quote) (collateral_data_of v.(sgx2_collateral)) now
               sizeof_sgx_ql_qv_supplemental_t in
  out.(qv_ret) = SGX_QL_SUCCESS /\ accepted out.(qv_result) = true.
Proof. apply verify_platform_Ok. Qed.

(** C13. What acceptance of an SGX report means.  If [VerifyReport] accepts a
    report under a policy entry, the QVL verified the quote and the quote's own
    bytes are those the entry names: MRENCLAVE, MRSIGNER and the user data
    equal the decoded hex of the fields that are set, the security version of
    the quote is at least the one asked for, and if the entry asks for a
    production enclave the quote's DEBUG attribute is clear. *)
Theorem sgx2_accept_means `{Fmt} `{AbslLaws} `{HashesLaws} `{DcapQvl} `{SgxQuote3Laws}
    `{SgxAttributes} (Hrd : sizeof_sgx_report_data_t = 64%nat)
    (now : Z) (v : Sgx2AttestationVerifier) (e : UnifiedAttestationAttributes) :
  VerifyReport now v (mk_policy [e]) = Ok tt ->
  let quote := v.(sgx2_quote) in
  accepted (qv_result (sgx_qv_verify_quote quote (collateral_data_of v.(sgx2_collateral)) now
    sizeof_sgx_ql_qv_supplemental_t)) = true /\
  (e.(hex_ta_measurement) <> "" ->
   slice quote off_mr_enclave sizeof_sgx_measurement_t
   = HexStringToBytes e.(hex_ta_measurement)) /\
  (e.(hex_signer) <> "" ->
   slice quote off_mr_signer sizeof_sgx_measurement_t = HexStringToBytes e.(hex_signer)) /\
  (e.(hex_user_data) <> "" ->
   slice quote off_report_data 32 = HexStringToBytes e.(hex_user_data)) /\
  (forall n, 0 <= n <= int_max -> e.(str_min_isvsvn) = to_string n ->
   n <= le_int (slice quote off_isv_svn 2)) /\
  (e.(bool_debug_disabled) = "true" ->
   Z.land (le_int (slice quote off_attributes_flags 8)) SGX_FLAGS_DEBUG <> SGX_FLAGS_DEBUG).
Proof.
  intros (Hp & attrs & Hparse & Hattrs)%VerifyReport_Ok quote.
  apply verify_platform_Ok in Hp as (_ & _ & _ & Hacc). split; [done|].
  destruct (decide (sizeof_sgx_quote3_t <= length quote)%nat) as [Hlen|Hlen].
  2: { pose proof (parse_unified_report_short v default_attrs ltac:(subst quote; lia)) as Ht.
       cbn in Hparse. by rewrite Hparse in Ht. }
  cbn in Hparse. rewrite parse_unified_report_long in Hparse by done. injection Hparse as <-.
  apply verify_loop_spec in Hattrs as ([|n] & e' & Hn & Hm & _); [injection Hn as <-|done].
  apply verdict_Match in Hm as Hs. destruct Hs. cbn in *.
  split; [by apply field_ok_hex|]. split; [by apply field_ok_hex|].
  split; [by apply field_ok_hex|]. split.
  - intros n Hn He. rewrite He in *. apply svn_ok_numbers in sat_isvsvn; [done| |done].
    pose proof (le_int_range (slice quote off_isv_svn 2)) as Hr. subst quote.
    unfold len in Hr. rewrite length_slice in Hr by (pose proof isv_svn_in; lia).
    unfold int_max. lia.
  - intros He. rewrite He in *. by apply flag_ok_debug.
Qed.

(** ** Witnesses *)

Module Sgx2Witness.
#[local] Existing Instance sample_fmt.
#[local] Existing Instance sample_absl.
#[local] Existing Instance sample_hashes.
#[local] Existing Instance sample_absl_laws.
#[local] Existing Instance sample_hashes_laws.
#[local] Existing Instance sample_quote3.
#[local] Existing Instance sample_quote3_laws.
#[local] Existing Instance sample_attributes.
#[local] Instance qvl : DcapQvl := sample_qvl SGX_QL_QV_RESULT_OUT_OF_DATE.

(** A quote of security version 7 with MRENCLAVE [2a00...]. *)
Definition quote : bytes :=
  splice (splice (zero_bytes 440) 112 [Byte.x2a]) 306 [Byte.x07].
Definition report : UnifiedAttestationReport :=
  mk_report kReportVersion ReportType.kReportTypePassport Platform.kPlatformSgxDcap "json".
Definition verifier : Sgx2AttestationVerifier :=
  mk_sgx2 report quote (mk_collateral 3 "a" "b" "c" "d" "e" "f" "g" 0).
Definition entry : UnifiedAttestationAttributes :=
  set_hex_ta_measurement "2A00000000000000000000000000000000000000000000000000000000000000"
  (set_str_min_isvsvn "5" (set_bool_debug_disabled "true" default_attrs)).

Lemma sgx2_parse_in_bounds_witness :
  is_ok (parse_unified_report verifier default_attrs) = true.
Proof.
  pose proof (sgx2_parse_in_bounds eq_refl verifier default_attrs) as Hp.
  rewrite decide_True in Hp by (vm_compute; lia). by rewrite Hp.
Defined.

Lemma sgx2_verify_platform_spec_witness : verify_platform 0 verifier = Ok tt.
Proof.
  apply sgx2_verify_platform_spec. split; [|done]. repeat constructor; done.
Defined.

Lemma sgx2_accept_means_witness :
  5 <= le_int (slice quote off_isv_svn 2).
Proof.
  assert (VerifyReport 0 verifier (mk_policy [entry]) = Ok tt) as Hv by (vm_compute; reflexivity).
  apply sgx2_accept_means in Hv as (_ & _ & _ & _ & Hsvn & _); [|reflexivity].
  apply (Hsvn 5); [unfold int_max; lia|reflexivity].
Defined.
End Sgx2Witness.
