(* ===== verification/TdxVerifier.v ===== *)
(** * The TDX verifier

    [trustflow/attestation/verification/tdx]: [Init], [VerifyPlatform] and
    [ParseUnifiedReport] of [TdxAttestationVerifier]. *)

From S2P Require Import Prelude CppStd External Common Samples Verifier Dcap Sgx2Verifier.

Definition kReportDataSize : Z := 64.
Definition kIntelTeeTypeTdx : Z := 0x81.
Definition kIntelTeeTypeSgx : Z := 0.

(** [report_], [quote_] and [collateral_]. *)
Record TdxAttestationVerifier := mk_tdx {
  tdx_report : UnifiedAttestationReport;
  tdx_quote : bytes;
  tdx_collateral : SgxQlQveCollateral
}.

(** [*length = value.size() + 1] stores a [size_t] in a [uint32_t]. *)
Definition SetCollateral (name value : string) : outcome c_field :=
  _ ← YACL_ENFORCE (negb (is_empty value)) "Invlaid collateral data: {}" [FStr name];
  mret (mk_c_field value (u32 (Z.of_nat (String.length value) + 1))).

Definition InitializeCollateralData (collateral : SgxQlQveCollateral)
    : outcome sgx_ql_qve_collateral_t :=
  pck_issuer ← SetCollateral "pck_crl_issuer_chain" collateral.(pck_crl_issuer_chain);
  root_crl ← SetCollateral "root_ca_crl" collateral.(root_ca_crl);
  pck ← SetCollateral "pck_crl" collateral.(pck_crl);
  tcb_issuer ← SetCollateral "tcb_info_issuer_chain" collateral.(tcb_info_issuer_chain);
  tcb ← SetCollateral "tcb_info" collateral.(tcb_info);
  qe_issuer ← SetCollateral "qe_identity_issuer_chain" collateral.(qe_identity_issuer_chain);
  qe ← SetCollateral "qe_identity" collateral.(qe_identity);
  mret (mk_collateral_data collateral.(version) pck_issuer root_crl pck tcb_issuer tcb
          qe_issuer qe None).

Section Model.
Context `{Absl} `{Cppcodec} `{ProtoJson DcapReport} `{ProtoJson SgxQlQveCollateral}.
Context `{DcapQvl} `{Report2Body} `{TdxQuote} `{SgxAttributes}.

(** A pointer into the quote is an offset; [GetMrHex] is given the address of a
    measurement. *)
Definition GetMrHex (quote : bytes) (mr : nat) : outcome string :=
  m ← read_at quote mr sizeof_tee_measurement_t;
  mret (BytesToHexString m).

Definition ParseReportBodyPfMeasurements (quote : bytes) (report_body : nat) : outcome string :=
  mr_seam ← GetMrHex quote (report_body + off_mr_seam);
  mrsigner_seam ← GetMrHex quote (report_body + off_mrsigner_seam);
  mr_td ← GetMrHex quote (report_body + off_mr_td);
  mr_config_id ← GetMrHex quote (report_body + off_mr_config_id);
  mr_owner ← GetMrHex quote (report_body + off_mr_owner);
  mr_owner_config ← GetMrHex quote (report_body + off_mr_owner_config);
  mret (mr_seam +:+ mrsigner_seam +:+ mr_td +:+ mr_config_id +:+ mr_owner +:+ mr_owner_config).

(** [&(report_body->rt_mr[i])] *)
Definition rt_mr (report_body i : nat) : nat :=
  (report_body + off_rt_mr + i * sizeof_tee_measurement_t)%nat.

Definition ParseReportBodyBootMeasurements (quote : bytes) (report_body : nat) : outcome string :=
  rt_mr0 ← GetMrHex quote (rt_mr report_body 0);
  rt_mr1 ← GetMrHex quote (rt_mr report_body 1);
  mret (rt_mr0 +:+ rt_mr1).

Definition ParseReportBodyTaMeasurements (quote : bytes) (report_body : nat) : outcome string :=
  rt_mr2 ← GetMrHex quote (rt_mr report_body 2);
  rt_mr3 ← GetMrHex quote (rt_mr report_body 3);
  mret (rt_mr2 +:+ rt_mr3).

Definition Init (report : UnifiedAttestationReport) : outcome TdxAttestationVerifier :=
  _ ← YACL_ENFORCE (String.eqb report.(str_report_version) kReportVersion)
        "Only version {} is supported, but {}"
        [FStr kReportVersion; FStr report.(str_report_version)];
  _ ← YACL_ENFORCE (String.eqb report.(str_report_type) ReportType.kReportTypePassport)
        "Only {} is supported now, but {}"
        [FStr ReportType.kReportTypePassport; FStr report.(str_report_type)];
  _ ← YACL_ENFORCE (String.eqb report.(report_tee_platform) Platform.kPlatformTdx)
        "It's not {} platfrom, input platform is {}"
        [FStr Platform.kPlatformTdx; FStr report.(report_tee_platform)];
  dcap_report ← JSON2PB (T := DcapReport) report.(json_report);
  quote ← call (base64_decode dcap_report.(b64_quote));
  collateral ← (if negb (is_empty dcap_report.(json_collateral))
                then JSON2PB (T := SgxQlQveCollateral) dcap_report.(json_collateral)
                else mret default_collateral);
  mret (mk_tdx report quote collateral).

Definition parse_unified_report (v : TdxAttestationVerifier)
    (attrs : UnifiedAttestationAttributes) : outcome UnifiedAttestationAttributes :=
  let attrs := set_str_tee_platform v.(tdx_report).(report_tee_platform) attrs in
  let quote := v.(tdx_quote) in
  _ ← YACL_ENFORCE (bool_decide (sizeof_sgx_quote4_t <= length quote)%nat)
        "quote size:{} is less than sgx_quote4_t:{}"
        [FInt (len quote); FInt (Z.of_nat sizeof_sgx_quote4_t)];
  _ ← YACL_ENFORCE (bool_decide (sizeof_sgx_quote5_t <= length quote)%nat)
        "quote size:{} is less than sgx_quote5_t:{}"
        [FInt (len quote); FInt (Z.of_nat sizeof_sgx_quote5_t)];
  tee_type ← read_at quote off_header_tee_type 4;
  _ ← YACL_ENFORCE (le_int tee_type =? kIntelTeeTypeTdx)
        "Error tee_type in quote: {0:#X}" [FInt (le_int tee_type)];
  version ← read_at quote off_header_version 2;
  let quote_version := le_int version in
  report_body ← (if quote_version =? 4 then mret off_report_body4
                 else if quote_version =? 5 then mret off_body5
                 else YACL_THROW "Error version in TDX quote: {}" [FInt quote_version]);
  pf ← ParseReportBodyPfMeasurements quote report_body;
  let attrs := set_hex_platform_measurement pf attrs in
  boot ← ParseReportBodyBootMeasurements quote report_body;
  let attrs := set_hex_boot_measurement boot attrs in
  ta ← ParseReportBodyTaMeasurements quote report_body;
  let attrs := set_hex_ta_measurement ta attrs in
  _ ← YACL_ENFORCE (kReportDataSize =? Z.of_nat sizeof_tdx_report_data_t)
        "Report data size is not {}" [FInt kReportDataSize];
  let half_report_data_size := Z.to_nat (Z.shiftr kReportDataSize 1) in
  user_data ← read_at quote (report_body + off_report2_data) half_report_data_size;
  public_key_hash ←
    read_at quote (report_body + off_report2_data + half_report_data_size)
      half_report_data_size;
  let attrs := set_hex_user_data (BytesToHexString user_data) attrs in
  let attrs := set_hex_hash_or_pem_pubkey (BytesToHexString public_key_hash) attrs in
  flags ← read_at quote (report_body + off_td_attributes) 8;
  if Z.land (le_int flags) SGX_FLAGS_DEBUG =? SGX_FLAGS_DEBUG
  then mret (set_bool_debug_disabled "false" attrs)
  else mret (set_bool_debug_disabled "true" attrs).

Definition verify_platform (current_time : Z) (v : TdxAttestationVerifier) : outcome unit :=
  collateral_data ← InitializeCollateralData v.(tdx_collateral);
  let '(dcap_ret, supplemental_data_size) := tdx_qv_get_quote_supplemental_data_size in
  _ ← YACL_ENFORCE (dcap_ret =? SGX_QL_SUCCESS)
        "Fail to get supplemental data size, error code: {}" [FInt dcap_ret];
  _ ← YACL_ENFORCE (supplemental_data_size =? sizeof_sgx_ql_qv_supplemental_t)
        "Size is not same with header definition in SGX SDK, please make sure you are using same version of SGX SDK and DCAP QVL." [];
  let out :=
    tdx_qv_verify_quote v.(tdx_quote) collateral_data current_time supplemental_data_size in
  _ ← YACL_ENFORCE (out.(qv_ret) =? SGX_QL_SUCCESS)
        "Fail to verify dcap quote, error code: {0:#x}" [FInt out.(qv_ret)];
  match out.(qv_result) with
  | SGX_QL_QV_RESULT_OK => mret tt
  | SGX_QL_QV_RESULT_CONFIG_NEEDED
  | SGX_QL_QV_RESULT_OUT_OF_DATE
  | SGX_QL_QV_RESULT_OUT_OF_DATE_CONFIG_NEEDED
  | SGX_QL_QV_RESULT_SW_HARDENING_NEEDED
  | SGX_QL_QV_RESULT_CONFIG_AND_SW_HARDENING_NEEDED => mret tt
  | SGX_QL_QV_RESULT_INVALID_SIGNATURE
  | SGX_QL_QV_RESULT_REVOKED
  | SGX_QL_QV_RESULT_UNSPECIFIED
  | _ => YACL_THROW "Fail to verify dcap quote, quote verification result: {}"
           [FInt (qv_result_value out.(qv_result))]
  end.

#[export] Instance Tdx_AttestationVerifier : AttestationVerifier TdxAttestationVerifier := {|
  ParseUnifiedReport := parse_unified_report;
  VerifyPlatform := verify_platform
|}.
End Model.

(** ** The copied collateral code

    [SetCollateral] and [InitializeCollateralData] are the SGX verifier's. *)

Lemma tdx_InitializeCollateralData_eq c :
  InitializeCollateralData c = Sgx2Verifier.InitializeCollateralData c.
Proof. reflexivity. Qed.

(** ** What a quote says *)

Section Facts.
Context `{Absl} `{Cppcodec} `{ProtoJson DcapReport} `{ProtoJson SgxQlQveCollateral}.
Context `{DcapQvl} `{HR : Report2Body} `{HT : TdxQuote} `{SgxAttributes}.

Lemma bind_GetMrHex {A} quote mr (k : string -> outcome A) :
  (mr + sizeof_tee_measurement_t <= length quote)%nat ->
  (GetMrHex quote mr ≫= k) = k (BytesToHexString (slice quote mr sizeof_tee_measurement_t)).
Proof. intros. unfold GetMrHex. by rewrite bind_read. Qed.

(** The measurements at the given offsets of a body, one after the other. *)
Definition body_mrs (quote : bytes) (body : nat) (offs : list nat) : bytes :=
  concat (map (fun off => slice quote (body + off) sizeof_tee_measurement_t) offs).

Definition pf_mrs : list nat :=
  [off_mr_seam; off_mrsigner_seam; off_mr_td; off_mr_config_id; off_mr_owner;
   off_mr_owner_config].
Definition boot_mrs : list nat := [off_rt_mr; off_rt_mr + sizeof_tee_measurement_t]%nat.
Definition ta_mrs : list nat :=
  [off_rt_mr + 2 * sizeof_tee_measurement_t; off_rt_mr + 3 * sizeof_tee_measurement_t]%nat.

(** The attributes of a quote whose report body starts at [body]. *)
Definition body_attrs (platform : string) (quote : bytes) (body : nat)
    (attrs : UnifiedAttestationAttributes) : UnifiedAttestationAttributes :=
  set_bool_debug_disabled
    (debug_flag (le_int (slice quote (body + off_td_attributes) 8)) SGX_FLAGS_DEBUG)
  (set_hex_hash_or_pem_pubkey
    (BytesToHexString (slice quote (body + off_report2_data + 32) 32))
  (set_hex_user_data (BytesToHexString (slice quote (body + off_report2_data) 32))
  (set_hex_ta_measurement (BytesToHexString (body_mrs quote body ta_mrs))
  (set_hex_boot_measurement (BytesToHexString (body_mrs quote body boot_mrs))
  (set_hex_platform_measurement (BytesToHexString (body_mrs quote body pf_mrs))
  (set_str_tee_platform platform attrs)))))).

(** The part of [ParseUnifiedReport] after the choice of the body. *)
Definition parse_body (quote : bytes) (report_body : nat)
    (attrs : UnifiedAttestationAttributes) : outcome UnifiedAttestationAttributes :=
  pf ← ParseReportBodyPfMeasurements quote report_body;
  boot ← ParseReportBodyBootMeasurements quote report_body;
  ta ← ParseReportBodyTaMeasurements quote report_body;
  _ ← YACL_ENFORCE (kReportDataSize =? Z.of_nat sizeof_tdx_report_data_t)
        "Report data size is not {}" [FInt kReportDataSize];
  user_data ← read_at quote (report_body + off_report2_data) 32;
  public_key_hash ← read_at quote (report_body + off_report2_data + 32) 32;
  flags ← read_at quote (report_body + off_td_attributes) 8;
  let attrs := set_hex_ta_measurement ta (set_hex_boot_measurement boot
                 (set_hex_platform_measurement pf attrs)) in
  let attrs := set_hex_hash_or_pem_pubkey (BytesToHexString public_key_hash)
                 (set_hex_user_data (BytesToHexString user_data) attrs) in
  mret (set_bool_debug_disabled (debug_flag (le_int flags) SGX_FLAGS_DEBUG) attrs).

Lemma parse_unified_report_eq v attrs :
  parse_unified_report v attrs =
    (let quote := v.(tdx_quote) in
     _ ← YACL_ENFORCE (bool_decide (sizeof_sgx_quote4_t <= length quote)%nat)
           "quote size:{} is less than sgx_quote4_t:{}"
           [FInt (len quote); FInt (Z.of_nat sizeof_sgx_quote4_t)];
     _ ← YACL_ENFORCE (bool_decide (sizeof_sgx_quote5_t <= length quote)%nat)
           "quote size:{} is less than sgx_quote5_t:{}"
           [FInt (len quote); FInt (Z.of_nat sizeof_sgx_quote5_t)];
     tee_type ← read_at quote off_header_tee_type 4;
     _ ← YACL_ENFORCE (le_int tee_type =? kIntelTeeTypeTdx)
           "Error tee_type in quote: {0:#X}" [FInt (le_int tee_type)];
     version ← read_at quote off_header_version 2;
     report_body ← (if le_int version =? 4 then mret off_report_body4
                    else if le_int version =? 5 then mret off_body5
                    else YACL_THROW "Error version in TDX quote: {}" [FInt (le_int version)]);
     parse_body quote report_body
       (set_str_tee_platform v.(tdx_report).(report_tee_platform) attrs)).
Proof.
  unfold parse_unified_report, parse_body, debug_flag.
  change (Z.to_nat (Z.shiftr kReportDataSize 1)) with 32%nat.
  same_steps.
Qed.

(** The reads of the body are inside the quote when the whole body is. *)
Lemma parse_body_long `{!AbslLaws} `{!Report2BodyLaws} quote body platform attrs :
  sizeof_tdx_report_data_t = 64%nat ->
  (body + sizeof_sgx_report2_body_t <= length quote)%nat ->
  parse_body quote body (set_str_tee_platform platform attrs) =
    Ok (body_attrs platform quote body attrs).
Proof.
  intros Hrd Hlen.
  pose proof mr_seam_in. pose proof mrsigner_seam_in. pose proof td_attributes_in.
  pose proof mr_td_in. pose proof mr_config_id_in. pose proof mr_owner_in.
  pose proof mr_owner_config_in. pose proof rt_mr_in. pose proof report2_data_in.
  unfold parse_body, ParseReportBodyPfMeasurements, ParseReportBodyBootMeasurements,
    ParseReportBodyTaMeasurements, rt_mr.
  rewrite !bind_assoc, !bind_GetMrHex, !bind_Ok_l by lia.
  rewrite bind_enforce by (by rewrite Hrd). rewrite !bind_read by lia.
  unfold body_attrs, body_mrs, pf_mrs, boot_mrs, ta_mrs. cbn [map concat].
  rewrite !app_nil_r, !BytesToHexString_app, ?Nat.mul_0_l, ?Nat.mul_1_l, ?Nat.add_0_r,
    ?Nat.add_assoc. done.
Qed.
End Facts.

(** Where the report body of a quote starts: its header says which layout. *)
Definition quote_version `{TdxQuote} (quote : bytes) : Z :=
  le_int (slice quote off_header_version 2).
Definition quote_tee_type `{TdxQuote} (quote : bytes) : Z :=
  le_int (slice quote off_header_tee_type 4).
Definition body_offset `{TdxQuote} (quote : bytes) : option nat :=
  if quote_version quote =? 4 then Some off_report_body4
  else if quote_version quote =? 5 then Some off_body5
  else None.

Section HeaderFacts.
Context `{Absl} `{HR : Report2Body} `{HT : TdxQuote} {HL : TdxQuoteLaws} `{SgxAttributes}.

(** [ParseUnifiedReport] after the size checks and the header. *)
Lemma parse_unified_report_header v attrs :
  let quote := v.(tdx_quote) in
  (sizeof_sgx_quote4_t <= length quote)%nat -> (sizeof_sgx_quote5_t <= length quote)%nat ->
  parse_unified_report v attrs =
    if quote_tee_type quote =? kIntelTeeTypeTdx then
      match body_offset quote with
      | Some body => parse_body quote body
                       (set_str_tee_platform v.(tdx_report).(report_tee_platform) attrs)
      | None => YACL_THROW "Error version in TDX quote: {}" [FInt (quote_version quote)]
      end
    else Throw (mk_exn EnforceNotMet "Error tee_type in quote: {0:#X}"
                  [FInt (quote_tee_type quote)]).
Proof.
  intros quote H4 H5. rewrite parse_unified_report_eq. cbn zeta. fold quote.
  pose proof header_version_in. pose proof header_tee_type_in.
  rewrite !bind_enforce by (by apply bool_decide_eq_true_2).
  rewrite bind_read by lia. fold (quote_tee_type quote).
  destruct (quote_tee_type quote =? kIntelTeeTypeTdx) eqn:Ht; [|done].
  rewrite bind_enforce, bind_read by first [lia|done]. fold (quote_version quote).
  unfold body_offset. repeat case_match; done.
Qed.

Lemma parse_unified_report_small v attrs :
  (length v.(tdx_quote) < sizeof_sgx_quote4_t)%nat \/
  (length v.(tdx_quote) < sizeof_sgx_quote5_t)%nat ->
  is_throw (parse_unified_report v attrs) = true.
Proof.
  intros Hs. rewrite parse_unified_report_eq. cbn zeta.
  destruct (decide (sizeof_sgx_quote4_t <= length v.(tdx_quote))%nat).
  - rewrite bind_enforce by (by apply bool_decide_eq_true_2).
    rewrite bind_enforce_fails; [done|]. apply bool_decide_eq_false_2. lia.
  - rewrite bind_enforce_fails; [done|]. by apply bool_decide_eq_false_2.
Qed.

Lemma parse_body_reads quote body attrs r :
  parse_body quote body attrs = Ok r ->
  (body + off_report2_data + 64 <= length quote)%nat /\
  r.(bool_debug_disabled) =
    debug_flag (le_int (slice quote (body + off_td_attributes) 8)) SGX_FLAGS_DEBUG.
Proof.
  unfold parse_body. intros Hp. inv_ok.
  repeat match goal with H : read_at _ _ _ = Ok _ |- _ => apply read_at_Ok in H as [? ->] end.
  split; [lia|done].
Qed.

(** No statement of [parse_body] throws once the report data has its size. *)
Lemma parse_body_no_throw quote body attrs :
  sizeof_tdx_report_data_t = 64%nat -> is_throw (parse_body quote body attrs) = false.
Proof.
  intros Hrd.
  unfold parse_body, ParseReportBodyPfMeasurements, ParseReportBodyBootMeasurements,
    ParseReportBodyTaMeasurements, GetMrHex.
  rewrite YACL_ENFORCE_true by (by rewrite Hrd).
  repeat (apply bind_no_throw; [|intros ?]); apply read_at_no_throw || done.
Qed.
End HeaderFacts.

Section PlatformFacts.
Context `{Cppcodec} `{ProtoJson DcapReport} `{ProtoJson SgxQlQveCollateral} `{DcapQvl}.

Lemma tdx_verify_platform_Ok now v :
  verify_platform now v = Ok tt <->
  collateral_complete v.(tdx_collateral) /\
  tdx_qv_get_quote_supplemental_data_size = (SGX_QL_SUCCESS, sizeof_sgx_ql_qv_supplemental_t) /\
  let out := tdx_qv_verify_quote v.(tdx_quote) (collateral_data_of v.(tdx_collateral)) now
               sizeof_sgx_ql_qv_supplemental_t in
  out.(qv_ret) = SGX_QL_SUCCESS /\ accepted out.(qv_result) = true.
Proof.
  unfold verify_platform. rewrite tdx_InitializeCollateralData_eq. split.
  - intros Hv. apply bind_Ok in Hv as (cd & [Hc ->]%InitializeCollateralData_Ok & Hv).
    destruct tdx_qv_get_quote_supplemental_data_size as [ret size]. inv_ok.
    repeat match goal with H : (_ =? _) = true |- _ => apply Z.eqb_eq in H end. subst.
    split; [done|]. split; [done|]. split; [done|]. by destruct (qv_result _).
  - intros (Hc & Hs & Hr & Ha). rewrite Hs.
    rewrite (proj2 (InitializeCollateralData_Ok _ _) (conj Hc eq_refl)), bind_Ok_l.
    rewrite !bind_enforce by (by apply Z.eqb_eq). by destruct (qv_result _).
Qed.

Lemma tdx_verify_platform_defined now v : defined (verify_platform now v).
Proof.
  unfold verify_platform. rewrite tdx_InitializeCollateralData_eq. case_match. solve_defined.
Qed.

Lemma tdx_Init_defined r : defined (Init r).
Proof. unfold Init. solve_defined. Qed.

Lemma tdx_Init_Ok r v :
  Init r = Ok v ->
  v.(tdx_report) = r /\ r.(str_report_version) = kReportVersion /\
  r.(str_report_type) = ReportType.kReportTypePassport /\
  r.(report_tee_platform) = Platform.kPlatformTdx.
Proof.
  unfold Init. intros Hi. inv_ok.
  repeat match goal with H : String.eqb _ _ = true |- _ => apply String.eqb_eq in H end. done.
Qed.
End PlatformFacts.

#[export] Hint Resolve tdx_verify_platform_defined tdx_Init_defined : trustflow.

(** ** Properties *)

(** C23. Parsing a TDX quote.  For a quote that passes the two size checks and,
    if it is of version 5, is long enough to hold the report body, the code
    reads only inside the quote and does exactly this: it refuses a quote of
    another TEE type or version, and otherwise returns the attributes its
    report body spells out (six platform, two boot and two application
    measurements, each group as the hex of their concatenation).  A quote that
    fails a size check is refused. *)
Theorem tdx_parse_spec `{AbslLaws} `{Report2BodyLaws} `{!TdxQuote} `{!TdxQuoteLaws}
    `{SgxAttributes} (Hrd : sizeof_tdx_report_data_t = 64%nat)
    (v : TdxAttestationVerifier) (attrs : UnifiedAttestationAttributes)
    (Hbody5 : quote_version v.(tdx_quote) = 5 ->
              (off_body5 + sizeof_sgx_report2_body_t <= length v.(tdx_quote))%nat) :
  let quote := v.(tdx_quote) in
  if decide (sizeof_sgx_quote4_t <= length quote /\ sizeof_sgx_quote5_t <= length quote)%nat then
    match body_offset quote with
    | Some body =>
        if quote_tee_type quote =? kIntelTeeTypeTdx
        then parse_unified_report v attrs =
               Ok (body_attrs v.(tdx_report).(report_tee_platform) quote body attrs)
        else is_throw (parse_unified_report v attrs) = true
    | None => is_throw (parse_unified_report v attrs) = true
    end
  else is_throw (parse_unified_report v attrs) = true.
Proof.
  intros quote. case_decide as Hs; [|apply parse_unified_report_small; subst quote; lia].
  destruct Hs as [Hq4 Hq5]. rewrite !parse_unified_report_header by done. fold quote.
  destruct (body_offset quote) as [body|] eqn:Hb;
    destruct (quote_tee_type quote =? kIntelTeeTypeTdx); [|done..].
  apply parse_body_long; [done|]. unfold body_offset in Hb. fold quote in Hbody5.
  pose proof report_body4_in.
  repeat case_match; simplify_eq; [lia|]. apply Hbody5. by apply Z.eqb_eq.
Qed.

(** C8. The size checks do not cover a version 5 quote.  [sgx_quote5_t] ends in
    a variable-length [body], so [quote_.size() >= sizeof(sgx_quote5_t)] says
    nothing about the report body read through it: every TDX quote of version 5
    that passes both checks but ends before the report data does makes the code
    read past the end of the decoded quote. *)
Theorem tdx_v5_overread `{Absl} `{Report2Body} `{TdxQuoteLaws} `{SgxAttributes}
    (Hrd : sizeof_tdx_report_data_t = 64%nat)
    (v : TdxAttestationVerifier) (attrs : UnifiedAttestationAttributes) :
  let quote := v.(tdx_quote) in
  (sizeof_sgx_quote4_t <= length quote)%nat -> (sizeof_sgx_quote5_t <= length quote)%nat ->
  quote_tee_type quote = kIntelTeeTypeTdx -> quote_version quote = 5 ->
  (length quote < off_body5 + off_report2_data + 64)%nat ->
  ~ defined (parse_unified_report v attrs).
Proof.
  intros quote Hq4 Hq5 Htee Hver Hlen. rewrite parse_unified_report_header by done. fold quote.
  unfold body_offset. rewrite Htee, Hver. cbn [Z.eqb Pos.eqb kIntelTeeTypeTdx].
  set (a := set_str_tee_platform _ _).
  pose proof (parse_body_no_throw quote off_body5 a Hrd) as Hnt.
  destruct (parse_body quote off_body5 a) as [r|ex|w] eqn:Hp; [|done|by intros []].
  apply parse_body_reads in Hp as [Hr _]. lia.
Qed.

(** C14. What acceptance of a TDX report means.  If [VerifyReport] accepts a
    report under a policy entry and the quote holds its report body, the QVL
    verified the quote, its header says TDX, and the platform, boot and
    application measurements and the user data in the quote are the decoded
    hex of the entry's fields that are set. *)
Theorem tdx_accept_means `{Fmt} `{AbslLaws} `{HashesLaws} `{DcapQvl} `{Report2BodyLaws}
    `{!TdxQuote} `{!TdxQuoteLaws} `{SgxAttributes}
    (Hrd : sizeof_tdx_report_data_t = 64%nat)
    (now : Z) (v : TdxAttestationVerifier) (e : UnifiedAttestationAttributes)
    (Hbody5 : quote_version v.(tdx_quote) = 5 ->
              (off_body5 + sizeof_sgx_report2_body_t <= length v.(tdx_quote))%nat) :
  VerifyReport now v (mk_policy [e]) = Ok tt ->
  let quote := v.(tdx_quote) in
  accepted (qv_result (tdx_qv_verify_quote quote (collateral_data_of v.(tdx_collateral)) now
    sizeof_sgx_ql_qv_supplemental_t)) = true /\
  quote_tee_type quote = kIntelTeeTypeTdx /\
  exists body, body_offset quote = Some body /\
  (e.(hex_platform_measurement) <> "" ->
   body_mrs quote body pf_mrs = HexStringToBytes e.(hex_platform_measurement)) /\
  (e.(hex_boot_measurement) <> "" ->
   body_mrs quote body boot_mrs = HexStringToBytes e.(hex_boot_measurement)) /\
  (e.(hex_ta_measurement) <> "" ->
   body_mrs quote body ta_mrs = HexStringToBytes e.(hex_ta_measurement)) /\
  (e.(hex_user_data) <> "" ->
   slice quote (body + off_report2_data) 32 = HexStringToBytes e.(hex_user_data)).
Proof.
  intros (Hp & attrs & Hparse & Hattrs)%VerifyReport_Ok quote.
  apply tdx_verify_platform_Ok in Hp as (_ & _ & _ & Hacc). split; [done|].
  cbn in Hparse.
  destruct (decide (sizeof_sgx_quote4_t <= length quote /\ sizeof_sgx_quote5_t <= length quote)%nat)
    as [[Hq4 Hq5]|Hs].
  2: { pose proof (parse_unified_report_small v default_attrs ltac:(subst quote; lia)) as Ht.
       by rewrite Hparse in Ht. }
  rewrite parse_unified_report_header in Hparse by done. fold quote in Hparse, Hbody5.
  destruct (quote_tee_type quote =? kIntelTeeTypeTdx) eqn:Htee; [|done].
  split; [by apply Z.eqb_eq|].
  destruct (body_offset quote) as [body|] eqn:Hb; [|done]. exists body. split; [done|].
  rewrite parse_body_long in Hparse; [injection Hparse as <-|done|].
  2: { unfold body_offset in Hb. pose proof report_body4_in.
       repeat case_match; simplify_eq; [lia|]. apply Hbody5. by apply Z.eqb_eq. }
  apply verify_loop_spec in Hattrs as ([|n] & e' & Hn & Hm & _); [injection Hn as <-|done].
  apply verdict_Match in Hm as []. cbn in *.
  split; [by apply field_ok_hex|]. split; [by apply field_ok_hex|].
  split; by apply field_ok_hex.
Qed.

(** The debug attribute of a TD is read at bit 1.  With the mask of
    [sgx_attributes.h] ([SGX_FLAGS_DEBUG = 2]) the reported
    [bool_debug_disabled] depends only on bit 1 of [td_attributes], whereas the
    DEBUG attribute of a TD is bit 0: a TD with DEBUG set and bit 1 clear is
    reported as ["true"], debug disabled. *)
Theorem tdx_debug_bit `{Absl} `{Report2Body} `{TdxQuoteLaws} `{SgxAttributes}
    (v : TdxAttestationVerifier) (attrs r : UnifiedAttestationAttributes) (body : nat) :
  SGX_FLAGS_DEBUG = 2 ->
  parse_unified_report v attrs = Ok r ->
  body_offset v.(tdx_quote) = Some body ->
  r.(bool_debug_disabled) =
    if Z.testbit (le_int (slice v.(tdx_quote) (body + off_td_attributes) 8)) 1
    then "false" else "true".
Proof.
  intros Hflag Hp Hb.
  destruct (decide (sizeof_sgx_quote4_t <= length v.(tdx_quote)
                    /\ sizeof_sgx_quote5_t <= length v.(tdx_quote))%nat) as [[Hq4 Hq5]|Hs].
  2: { pose proof (parse_unified_report_small v attrs ltac:(lia)) as Ht. by rewrite Hp in Ht. }
  rewrite parse_unified_report_header, Hb in Hp by done. case_match; [|done].
  apply parse_body_reads in Hp as [_ ->]. unfold debug_flag. rewrite Hflag.
  change 2 with (2 ^ 1). by rewrite land_pow2_testbit by lia.
Qed.

(** ** Witnesses *)

Module TdxWitness.
#[local] Existing Instance sample_fmt.
#[local] Existing Instance sample_absl.
#[local] Existing Instance sample_hashes.
#[local] Existing Instance sample_absl_laws.
#[local] Existing Instance sample_hashes_laws.
#[local] Existing Instance sample_report2_body.
#[local] Existing Instance sample_report2_body_laws.
#[local] Existing Instance sample_tdx_quote.
#[local] Existing Instance sample_tdx_quote_laws.
#[local] Existing Instance sample_attributes.
#[local] Instance qvl : DcapQvl := sample_qvl SGX_QL_QV_RESULT_OK.

(** A quote of the given version and size; the first byte of [rt_mr[2]] of a
    version 4 quote is [2a] and its [td_attributes] has the DEBUG bit. *)
Definition quote_of (version : Init.Byte.byte) (size : nat) : bytes :=
  splice (splice (splice (splice (zero_bytes size) 0 [version]) 4 [Byte.x81]) 472 [Byte.x2a])
    168 [Byte.x01].
Definition verifier_of (quote : bytes) : TdxAttestationVerifier :=
  mk_tdx (mk_report kReportVersion ReportType.kReportTypePassport Platform.kPlatformTdx "json")
    quote (mk_collateral 3 "a" "b" "c" "d" "e" "f" "g" 0x81).
Definition v4 : TdxAttestationVerifier := verifier_of (quote_of Byte.x04 700).
Definition v5_short : TdxAttestationVerifier := verifier_of (quote_of Byte.x05 636).
Definition entry : UnifiedAttestationAttributes :=
  set_hex_ta_measurement (hex_encode (Byte.x2a :: zero_bytes 95)) default_attrs.

Lemma tdx_parse_spec_witness :
  is_ok (parse_unified_report v4 default_attrs) = true.
Proof.
  pose proof (tdx_parse_spec eq_refl v4 default_attrs) as Hp.
  cbn zeta in Hp. rewrite decide_True in Hp by (vm_compute; lia).
  change (body_offset (tdx_quote v4)) with (Some 48%nat) in Hp.
  change (quote_tee_type (tdx_quote v4) =? kIntelTeeTypeTdx) with true in Hp. cbn iota in Hp.
  rewrite Hp; [reflexivity|]. intros E. vm_compute in E. discriminate.
Defined.

Lemma tdx_v5_overread_witness : ~ defined (parse_unified_report v5_short default_attrs).
Proof. apply tdx_v5_overread; vm_compute; first [lia|reflexivity]. Defined.

Lemma tdx_accept_means_witness :
  exists body, body_offset (tdx_quote v4) = Some body /\
    body_mrs (tdx_quote v4) body ta_mrs = HexStringToBytes entry.(hex_ta_measurement).
Proof.
  assert (VerifyReport 0 v4 (mk_policy [entry]) = Ok tt) as Hv by (vm_compute; reflexivity).
  apply tdx_accept_means in Hv as (_ & _ & body & Hb & _ & _ & Hta & _);
    [|reflexivity|vm_compute; discriminate].
  exists body. split; [exact Hb|]. apply Hta. discriminate.
Defined.

Lemma tdx_debug_bit_witness :
  exists r, parse_unified_report v4 default_attrs = Ok r /\ r.(bool_debug_disabled) = "true".
Proof.
  eexists. split; [vm_compute; reflexivity|].
  etransitivity; [eapply (tdx_debug_bit v4 default_attrs _ 48)|]; vm_compute; reflexivity.
Defined.
End TdxWitness.
