(* ===== verification/Path.v ===== *)
(** * std::filesystem::path

    A path is its text, as [path::native()] has it on POSIX systems. *)

From S2P Require Import Prelude CppStd.

(** ** Splitting *)

Definition sep : ascii := "/".

(** The text before and after the last [c]. *)
Fixpoint split_last (c : ascii) (s : string) : option (string * string) :=
  match s with
  | EmptyString => None
  | String a r =>
      match split_last c r with
      | Some (x, y) => Some (String a x, y)
      | None => if Ascii.eqb a c then Some (EmptyString, r) else None
      end
  end.

(** The pieces between the [c]s: always at least one. *)
Fixpoint split_on (c : ascii) (s : string) : list string :=
  match s with
  | EmptyString => [EmptyString]
  | String a r =>
      if Ascii.eqb a c then EmptyString :: split_on c r
      else match split_on c r with
           | x :: l => String a x :: l
           | [] => [String a EmptyString]
           end
  end.

Fixpoint join (l : list string) : string :=
  match l with
  | [] => EmptyString
  | [x] => x
  | x :: r => x +:+ String sep (join r)
  end.

(** ** Operations *)

Definition is_absolute (p : string) : bool :=
  match p with String c _ => Ascii.eqb c sep | EmptyString => false end.

Fixpoint ends_with_sep (p : string) : bool :=
  match p with
  | EmptyString => false
  | String c EmptyString => Ascii.eqb c sep
  | String _ r => ends_with_sep r
  end.

(** [p / q] *)
Definition path_app (p q : string) : string :=
  if is_absolute q then q
  else if String.eqb p "" || ends_with_sep p then p +:+ q
  else p +:+ String sep q.

Definition filename (p : string) : string :=
  match split_last sep p with Some (_, f) => f | None => p end.

Fixpoint strip_seps (p : string) : string :=
  match p with
  | EmptyString => EmptyString
  | String c r =>
      match strip_seps r with
      | EmptyString => if Ascii.eqb c sep then EmptyString else String c EmptyString
      | s => String c s
      end
  end.

(** Without the last name and the separators before it, but with the root. *)
Definition parent_path (p : string) : string :=
  match split_last sep p with
  | None => ""
  | Some (d, f) =>
      match strip_seps d with
      | EmptyString => if String.eqb f "" then p else String sep EmptyString
      | d => d
      end
  end.

(** From the last dot of the file name on; a leading dot and the names [.] and
    [..] do not count. *)
Definition extension (p : string) : string :=
  let f := filename p in
  if String.eqb f "." || String.eqb f ".." then ""
  else match split_last "." f with
       | Some (EmptyString, _) | None => ""
       | Some (_, e) => String "." e
       end.

(** [replace_extension("")] *)
Definition remove_extension (p : string) : string :=
  if String.eqb (extension p) "" then p
  else match split_last "." p with Some (b, _) => b | None => p end.

(** [lexically_normal(p)] as the list of its names after the root: [.] is left
    out, [..] takes the name before it away, and a path that ends in a separator
    has an empty last name. *)
Definition path_names (p : string) : list string :=
  List.filter (fun x => negb (String.eqb x "")) (split_on sep p).

(** One name on top of the names so far, last name first. *)
Definition normal_step (rooted : bool) (st : list string) (x : string) : list string :=
  if String.eqb x "." then st
  else if String.eqb x ".." then
    match st with
    | y :: st' => if String.eqb y ".." then ".." :: st else st'
    | [] => if rooted then [] else [".."]
    end
  else x :: st.

Definition normal_names (p : string) : list string :=
  match foldl (normal_step (is_absolute p)) [] (path_names p) with
  | [] => if String.eqb p "" || is_absolute p then [] else ["."]
  | y :: st =>
      let last := filename p in
      let trailing := String.eqb last "" || String.eqb last "." || String.eqb last ".." in
      rev (y :: st) ++ (if negb (String.eqb y "..") && trailing then [""] else [])
  end.

Fixpoint drop_common (l k : list string) : list string * list string :=
  match l, k with
  | x :: l', y :: k' => if String.eqb x y then drop_common l' k' else (l, k)
  | _, _ => (l, k)
  end.

(** How many directories [l] goes down. *)
Fixpoint depth (l : list string) : Z :=
  match l with
  | [] => 0
  | x :: l => (if String.eqb x ".." then -1 else if String.eqb x "" || String.eqb x "." then 0 else 1)
              + depth l
  end.

(** [relative(p, base)]: [lexically_relative] of the normal forms, for names
    that are not symbolic links and not made absolute by the working directory. *)
Definition relative (p base : string) : string :=
  if negb (Bool.eqb (is_absolute p) (is_absolute base)) then ""
  else
    let '(a, b) := drop_common (normal_names p) (normal_names base) in
    let n := depth b in
    if (n =? 0) && match a with [] => true | x :: _ => String.eqb x "" end then "."
    else if n <? 0 then ""
    else foldl path_app "" (replicate (Z.to_nat n) ".." ++ a).

(** ** Facts *)

Lemma string_app_cons a s t : String a s +:+ t = String a (s +:+ t).
Proof. reflexivity. Qed.

Lemma string_app_nil t : EmptyString +:+ t = t.
Proof. reflexivity. Qed.

(** stdpp keeps [String.append] folded; these equations unfold it. *)
Ltac string_app := rewrite ?string_app_cons, ?string_app_nil in *.

Lemma string_app_nil_r s : s +:+ "" = s.
Proof. induction s as [|a s IH]; [done|]. string_app. by rewrite IH. Qed.

Lemma string_app_assoc s t u : (s +:+ t) +:+ u = s +:+ (t +:+ u).
Proof. induction s as [|a s IH]; [done|]. string_app. by rewrite IH. Qed.

Lemma string_length_app s t : String.length (s +:+ t) = (String.length s + String.length t)%nat.
Proof. induction s as [|a s IH]; [done|]. string_app. cbn. by rewrite IH. Qed.

Lemma string_app_inj_l s t u : s +:+ t = s +:+ u -> t = u.
Proof. induction s as [|a s IH]; [done|]. string_app. intros [= E]. by apply IH. Qed.

Lemma string_app_inj_r s t u : t +:+ s = u +:+ s -> t = u.
Proof.
  revert u. induction t as [|a t IH]; intros [|b u]; string_app; [done|..].
  - intros E. apply (f_equal String.length) in E. cbn in E. rewrite string_length_app in E. lia.
  - intros E. apply (f_equal String.length) in E. cbn in E. rewrite string_length_app in E. lia.
  - intros [= -> E]. f_equal. by apply IH.
Qed.

(** No [c] in [s]. *)
Definition without (c : ascii) (s : string) : Prop := split_last c s = None.

Lemma split_last_app c s t : without c t -> split_last c (s +:+ String c t) = Some (s, t).
Proof.
  unfold without. intros Ht. induction s as [|a s IH]; string_app; cbn; [|by rewrite IH].
  by rewrite Ht, Ascii.eqb_refl.
Qed.

Lemma split_last_some c s x y :
  split_last c s = Some (x, y) -> s = x +:+ String c y /\ without c y.
Proof.
  revert x. induction s as [|a s IH]; intros x; [done|]. cbn.
  destruct (split_last c s) as [[x' y']|] eqn:E.
  - intros [= <- ->]. destruct (IH x' eq_refl) as [-> ?]. done.
  - destruct (Ascii.eqb_spec a c) as [->|]; [|done]. by intros [= <- <-].
Qed.

Lemma split_last_none_app c s t : without c s -> without c t -> without c (s +:+ t).
Proof.
  unfold without. intros Hs Ht. revert Hs. induction s as [|a s IH]; [done|]. string_app. cbn.
  destruct (split_last c s) as [[x y]|] eqn:E; [done|]. intros Ha.
  rewrite IH by done. by destruct (Ascii.eqb a c).
Qed.

Lemma split_on_nonempty c s : split_on c s <> [].
Proof. destruct s; cbn; [done|]. by repeat case_match. Qed.

Lemma split_on_app c s t : split_on c (s +:+ String c t) = split_on c s ++ split_on c t.
Proof.
  induction s as [|a s IH]; string_app; cbn; [by rewrite Ascii.eqb_refl|].
  destruct (Ascii.eqb a c); rewrite IH; [done|].
  destruct (split_on c s) eqn:E; [|done]. by destruct (split_on_nonempty c s).
Qed.

Lemma join_split s : join (split_on sep s) = s.
Proof.
  induction s as [|a s IH]; [done|]. cbn [split_on].
  destruct (split_on sep s) as [|x l] eqn:E.
  { by destruct (split_on_nonempty sep s). }
  destruct (Ascii.eqb_spec a sep) as [->|]; rewrite <- IH; [done|]. by destruct l.
Qed.

(** A name in a directory listing: no empty and no dot names in it. *)
Definition plain_names (rel : string) : Prop :=
  Forall (fun x => x <> "" /\ x <> "." /\ x <> "..") (split_on sep rel).

#[global] Instance plain_names_dec rel : Decision (plain_names rel).
Proof. unfold plain_names. apply _. Defined.

Lemma path_names_plain rel : plain_names rel -> path_names rel = split_on sep rel.
Proof.
  unfold plain_names, path_names. induction 1 as [|x l (H1 & _) _ IH]; [done|]. cbn.
  rewrite (proj2 (String.eqb_neq x "")) by done. cbn. by rewrite IH.
Qed.

Lemma plain_names_not_absolute rel : plain_names rel -> is_absolute rel = false.
Proof.
  destruct rel as [|c r]; [done|]. unfold plain_names. cbn.
  destruct (Ascii.eqb c sep); [|done]. by inversion 1 as [|?? (? & _)].
Qed.

Lemma plain_names_nonempty rel : plain_names rel -> rel <> "".
Proof. intros Hp ->. by inversion Hp as [|?? (? & _)]. Qed.

Lemma drop_common_app l k m : drop_common (l ++ k) (l ++ m) = drop_common k m.
Proof. induction l as [|x l IH]; cbn; [done|]. by rewrite String.eqb_refl. Qed.

Lemma normal_step_plain rooted st l :
  Forall (fun x => x <> "" /\ x <> "." /\ x <> "..") l ->
  foldl (normal_step rooted) st l = rev l ++ st.
Proof.
  intros Hl. revert st. induction Hl as [|x l (H1 & H2 & H3) _ IH]; intros st; [done|]. cbn.
  rewrite IH. unfold normal_step. rewrite !(proj2 (String.eqb_neq x _)) by done.
  by rewrite <- app_assoc.
Qed.

Lemma split_on_pieces c s : Forall (without c) (split_on c s).
Proof.
  induction s as [|a s IH]; cbn; [by repeat constructor|].
  destruct (Ascii.eqb a c) eqn:Ha; [by constructor|].
  pose proof (split_on_nonempty c s). destruct (split_on c s) as [|x l]; [done|].
  apply Forall_cons in IH as [Hx Hl]. constructor; [|done]. unfold without in *. cbn. by rewrite Hx, Ha.
Qed.

Lemma ends_with_sep_app s t : t <> "" -> ends_with_sep (s +:+ t) = ends_with_sep t.
Proof.
  intros Ht. induction s as [|a s IH]; [done|]. string_app. rewrite <- IH.
  destruct s; string_app; [|done]. by destruct t.
Qed.

Lemma without_ends s : without sep s -> ends_with_sep s = false.
Proof.
  unfold without. induction s as [|a s IH]; [done|]. cbn.
  destruct (split_last sep s) as [[x y]|]; [done|]. destruct (Ascii.eqb a sep) eqn:E; [done|].
  intros _. destruct s; [done|]. by apply IH.
Qed.

Lemma without_not_absolute s : without sep s -> is_absolute s = false.
Proof.
  unfold without. destruct s as [|a s]; [done|]. cbn.
  destruct (split_last sep s) as [[x y]|]; [done|]. by destruct (Ascii.eqb a sep).
Qed.

(** Appending names one by one. *)
Lemma foldl_path_app l : Forall (fun x => x <> "" /\ without sep x) l ->
  foldl path_app "" l = join l.
Proof.
  assert (forall k p, p <> "" -> ends_with_sep p = false -> Forall (fun x => x <> "" /\ without sep x) k ->
            foldl path_app p k = match k with [] => p | _ => p +:+ String sep (join k) end) as Hp.
  { clear l. induction k as [|x l IH]; intros p Hne Hp Hl; [done|]. apply Forall_cons in Hl as [[Hx Hw] Hl].
    cbn [foldl]. assert (path_app p x = p +:+ String sep x) as E.
    { unfold path_app. rewrite without_not_absolute, (proj2 (String.eqb_neq p "")), Hp by done. done. }
    rewrite E, IH; [|by destruct p| |done].
    - destruct l; [done|]. rewrite string_app_assoc. by string_app.
    - rewrite ends_with_sep_app by done. destruct x; [done|]. by apply without_ends in Hw. }
  destruct l as [|x l]; intros Hl; [done|]. apply Forall_cons in Hl as [[Hx Hw] Hl].
  cbn [foldl]. unfold path_app at 2. rewrite without_not_absolute by done. cbn [String.eqb orb].
  string_app. rewrite Hp; [by destruct l|done|by apply without_ends|done].
Qed.

(** A directory path that joins with [/]. *)
Definition plain_dir (p : string) : Prop := p <> "" /\ ends_with_sep p = false.

Lemma path_app_plain p rel : plain_dir p -> plain_names rel -> path_app p rel = p +:+ String sep rel.
Proof.
  intros [H1 H2] Hr. unfold path_app. rewrite plain_names_not_absolute by done.
  by rewrite (proj2 (String.eqb_neq p "")), H2 by done.
Qed.

Lemma path_app_inj p r1 r2 : plain_dir p -> plain_names r1 -> plain_names r2 ->
  path_app p r1 = path_app p r2 -> r1 = r2.
Proof.
  intros Hp H1 H2. rewrite !path_app_plain by done. intros E%string_app_inj_l. by injection E.
Qed.

(** ** The suffix of encrypted files *)

Lemma filename_without p : without sep (filename p).
Proof.
  unfold filename. destruct (split_last sep p) as [[d f]|] eqn:E; [|done].
  by apply split_last_some in E as [_ ?].
Qed.

Lemma filename_filename p : filename (filename p) = filename p.
Proof. pose proof (filename_without p) as Hw. unfold filename at 1. by rewrite Hw. Qed.

Lemma filename_app p f : without sep f -> filename (p +:+ String sep f) = f.
Proof. intros Hf. unfold filename. by rewrite split_last_app. Qed.

(** Adding an extension and removing it. *)
Lemma extension_concat p e :
  filename p <> "" -> e <> "" -> without sep e -> without "." e ->
  extension (p +:+ String "." e) = String "." e /\
  remove_extension (p +:+ String "." e) = p.
Proof.
  intros Hf Hne Hs Hd.
  assert (without sep (String "." e)) as Hse by (unfold without in *; cbn; by rewrite Hs).
  assert (filename (p +:+ String "." e) = filename p +:+ String "." e) as Hname.
  { unfold filename in *. destruct (split_last sep p) as [[d f]|] eqn:E.
    - apply split_last_some in E as [-> Hwf]. rewrite string_app_assoc. string_app.
      by rewrite split_last_app by (by apply split_last_none_app).
    - by rewrite (split_last_none_app sep p (String "." e)). }
  assert (extension (p +:+ String "." e) = String "." e) as He.
  { unfold extension. rewrite Hname, split_last_app by done.
    destruct (filename p) as [|c f]; [done|]. string_app.
    assert (forall t, String.eqb (String c (f +:+ String "." e)) (String "." t) = true ->
              (String.length (f +:+ String "." e) <= String.length t)%nat) as Hlen.
    { intros t [= _ ->]%String.eqb_eq. lia. }
    destruct (String.eqb _ ".") eqn:E1; [apply Hlen in E1; rewrite string_length_app in E1; cbn in E1; lia|].
    destruct (String.eqb _ "..") eqn:E2; [|done]. exfalso. apply String.eqb_eq in E2.
    destruct f as [|c2 f]; string_app; [|by destruct f]. by injection E2 as _ ->. }
  split; [done|]. unfold remove_extension. rewrite He. cbn [String.eqb]. by rewrite split_last_app.
Qed.

(** A suffix without separators goes to the last name. *)
Lemma split_on_without c s : without c s -> split_on c s = [s].
Proof.
  unfold without. induction s as [|a s IH]; [done|]. cbn.
  destruct (split_last c s) as [[x y]|] eqn:E; [done|].
  destruct (Ascii.eqb a c); [done|]. intros _. by rewrite IH.
Qed.

Lemma split_on_suffix c s t : without c t ->
  exists l x, split_on c s = l ++ [x] /\ split_on c (s +:+ t) = l ++ [x +:+ t].
Proof.
  intros Ht. induction s as [|a s (l & x & Hs & Hst)].
  - exists [], "". split; [done|]. string_app. cbn. by apply split_on_without.
  - string_app. cbn. rewrite Hs, Hst. destruct (Ascii.eqb a c).
    + by exists ("" :: l), x.
    + destruct l as [|y l]; cbn; [by exists [], (String a x)|by exists (String a y :: l), x].
Qed.

Lemma filename_split s l x : split_on sep s = l ++ [x] -> filename s = x.
Proof.
  unfold filename. destruct (split_last sep s) as [[d f]|] eqn:E.
  - apply split_last_some in E as [-> Hf]. rewrite split_on_app, (split_on_without _ _ Hf).
    intros Hl. by apply app_inj_tail in Hl as [_ ->].
  - rewrite split_on_without by done. intros Hl. destruct l as [|y l]; [by injection Hl as <-|].
    injection Hl as _ Hl. by destruct l.
Qed.

(** What a directory walk finds, taken relative to the directory, is its name. *)
Lemma normal_names_app base rel : base <> "" -> plain_names rel ->
  exists l tl, normal_names base = l ++ tl /\
    normal_names (base +:+ String sep rel) = l ++ split_on sep rel /\ tl ∈ [[]; [""]; ["."]].
Proof.
  intros Hb Hr. unfold normal_names.
  assert (is_absolute (base +:+ String sep rel) = is_absolute base) as -> by (by destruct base).
  assert (path_names (base +:+ String sep rel) = path_names base ++ split_on sep rel) as ->.
  { rewrite <- path_names_plain by done. unfold path_names. by rewrite split_on_app, List.filter_app. }
  rewrite foldl_app. set (st := foldl _ _ (path_names base)). rewrite normal_step_plain by done.
  destruct (split_on_suffix sep rel "" eq_refl) as (k & x & Hk & _).
  assert (x <> "" /\ x <> "." /\ x <> "..") as (H1 & H2 & H3).
  { unfold plain_names in Hr. rewrite Hk, Forall_app, Forall_singleton in Hr. tauto. }
  rewrite (filename_split (base +:+ String sep rel) (split_on sep base ++ k) x) by (by rewrite split_on_app, Hk, app_assoc).
  rewrite !(proj2 (String.eqb_neq x _)) by done. cbn [orb]. rewrite Hk.
  rewrite rev_app_distr. cbn [rev app]. rewrite andb_false_r. change (x :: rev k ++ st) with ((x :: rev k) ++ st).
  rewrite app_nil_r, rev_app_distr. cbn [rev]. rewrite rev_involutive.
  destruct st as [|y st].
  - rewrite (proj2 (String.eqb_neq base "")) by done. cbn [orb rev app].
    exists [], (if is_absolute base then [] else ["."]). split; [done|]. split; [done|]. destruct (is_absolute base); set_solver.
  - eexists (rev (y :: st)), _. split; [done|]. split; [by rewrite <- app_assoc|].
    destruct (negb (String.eqb y "..") && _); set_solver.
Qed.

Lemma relative_path_app base rel : plain_dir base -> plain_names rel ->
  relative (path_app base rel) base = rel.
Proof.
  intros Hb Hr. rewrite path_app_plain by done. unfold relative.
  assert (is_absolute (base +:+ String sep rel) = is_absolute base) as ->
    by (destruct Hb as [Hb _]; by destruct base).
  rewrite Bool.eqb_reflx. cbn [negb].
  destruct (normal_names_app base rel (proj1 Hb) Hr) as (l & tl & -> & -> & Htl).
  rewrite drop_common_app. pose proof (join_split rel) as Hj. pose proof (split_on_pieces sep rel) as Hw.
  unfold plain_names in Hr.
  destruct (split_on sep rel) as [|x k] eqn:E; [by destruct (split_on_nonempty sep rel)|].
  pose proof (Forall_inv Hr) as (H1 & H2 & _).
  assert (drop_common (x :: k) tl = (x :: k, tl) /\ depth tl = 0) as [-> ->].
  { rewrite !elem_of_cons in Htl. destruct Htl as [->|[->|[->|[]%elem_of_nil]]]; cbn;
      rewrite ?(proj2 (String.eqb_neq x _)) by done; done. }
  cbn [Z.eqb andb Z.ltb Z.compare Z.to_nat replicate app]. rewrite (proj2 (String.eqb_neq x "")) by done.
  change ([] ++ x :: k) with (x :: k).
  rewrite foldl_path_app; [exact Hj|]. apply Forall_and. split; [|done].
  eapply Forall_impl; [exact Hr|]. by intros ? (? & _).
Qed.

Lemma plain_names_filename rel : plain_names rel -> filename rel <> "".
Proof.
  destruct (split_on_suffix sep rel "" eq_refl) as (l & x & Hs & _). unfold plain_names.
  rewrite Hs, (filename_split _ _ _ Hs), Forall_app, Forall_singleton. tauto.
Qed.

Lemma plain_names_suffix rel t : plain_names rel -> without sep t -> (2 <= String.length t)%nat ->
  plain_names (rel +:+ t).
Proof.
  intros Hp Ht Hl. destruct (split_on_suffix sep rel t Ht) as (l & x & Hs & Hst).
  unfold plain_names in *. rewrite Hs in Hp. rewrite Hst. rewrite Forall_app, Forall_singleton in *.
  split; [tauto|]. assert (x <> "") as Hx by tauto.
  assert (String.length x <> 0)%nat by (by destruct x).
  repeat split; intros E; apply (f_equal String.length) in E; rewrite string_length_app in E; cbn in E; lia.
Qed.

Lemma filename_app_plain p rel : plain_dir p -> plain_names rel ->
  filename (path_app p rel) = filename rel.
Proof.
  intros Hp Hr. rewrite path_app_plain by done.
  destruct (split_on_suffix sep rel "" eq_refl) as (l & x & Hs & _).
  rewrite (filename_split rel _ _ Hs). apply (filename_split _ (split_on sep p ++ l)).
  by rewrite split_on_app, Hs, app_assoc.
Qed.

Lemma plain_names_ends rel : plain_names rel -> ends_with_sep rel = false.
Proof.
  intros Hr. pose proof (plain_names_filename rel Hr) as Hf. unfold filename in Hf.
  destruct (split_last sep rel) as [[d f]|] eqn:E; [|by apply without_ends].
  apply split_last_some in E as [-> Hw].
  rewrite ends_with_sep_app by done. destruct f as [|c f]; [done|].
  change (String sep (String c f)) with (String sep "" +:+ String c f).
  rewrite ends_with_sep_app by done. by apply without_ends.
Qed.

Lemma ends_below p rel : plain_names rel -> ends_with_sep (p +:+ String sep rel) = false.
Proof.
  intros Hr. rewrite ends_with_sep_app by done. change (String sep rel) with (String sep "" +:+ rel).
  rewrite ends_with_sep_app by (by apply plain_names_nonempty). by apply plain_names_ends.
Qed.

(** A name below a path below a directory is below the directory. *)
Lemma path_app_filename p rel : plain_dir p -> plain_names rel ->
  plain_names (rel +:+ String sep (filename rel)) /\
  path_app (path_app p rel) (filename rel) = path_app p (rel +:+ String sep (filename rel)).
Proof.
  intros Hp Hr. destruct (split_on_suffix sep rel "" eq_refl) as (l & x & Hs & _).
  assert (plain_names (filename rel)) as Hf.
  { unfold plain_names in *. rewrite split_on_without by apply filename_without.
    rewrite (filename_split _ _ _ Hs). rewrite Hs, Forall_app in Hr. tauto. }
  assert (plain_names (rel +:+ String sep (filename rel))) as Hrel.
  { unfold plain_names in *. by rewrite split_on_app, Forall_app. }
  split; [done|]. rewrite (path_app_plain p) by done. rewrite (path_app_plain p) by done.
  rewrite path_app_plain; [by rewrite string_app_assoc| |done]. split; [by destruct p; [destruct Hp|]|].
  by apply ends_below.
Qed.

Lemma path_app_suffix p rel t : plain_dir p -> plain_names rel -> plain_names (rel +:+ t) ->
  path_app p rel +:+ t = path_app p (rel +:+ t).
Proof. intros. rewrite !path_app_plain by done. by rewrite string_app_assoc. Qed.

Lemma without_app_l c s t : without c (s +:+ t) -> without c s.
Proof.
  unfold without. induction s as [|a s IH]; [done|]. string_app. cbn.
  destruct (split_last c (s +:+ t)) as [[x y]|] eqn:E; [done|].
  rewrite IH by done. by destruct (Ascii.eqb a c).
Qed.

(** A path with an extension is the path without it and the extension. *)
Lemma extension_split p : extension p <> "" ->
  exists x e, p = x +:+ String "." e /\ extension p = String "." e /\ without "." e /\ filename x <> "".
Proof.
  intros Hne. unfold extension in *.
  destruct (String.eqb (filename p) "." || String.eqb (filename p) ".."); [done|].
  destruct (split_last "." (filename p)) as [[b e]|] eqn:E; [|done].
  destruct b as [|c b]; [done|]. apply split_last_some in E as [Ef He].
  unfold filename in Ef at 1. destruct (split_last sep p) as [[d f]|] eqn:Ep.
  - apply split_last_some in Ep as [-> Hf]. subst f. exists (d +:+ String sep (String c b)), e.
    rewrite string_app_assoc. string_app. split; [done|]. split; [done|]. split; [done|].
    rewrite filename_app; [done|]. by apply (without_app_l _ (String c b) (String "." e)).
  - subst p. exists (String c b), e. split; [done|]. split; [done|]. split; [done|].
    unfold filename. apply without_app_l in Ep. by rewrite Ep.
Qed.

Lemma extension_filename p q : filename p = filename q -> extension p = extension q.
Proof. intros E. unfold extension. by rewrite E. Qed.

(** [parent_path] does not depend on what is added to the file name. *)
Lemma parent_path_suffix p t : filename p <> "" -> without sep t ->
  parent_path (p +:+ t) = parent_path p.
Proof.
  intros Hf Ht. unfold parent_path, filename in *. destruct (split_last sep p) as [[d f]|] eqn:E.
  - apply split_last_some in E as [-> Hw]. rewrite string_app_assoc. string_app.
    rewrite split_last_app by (by apply split_last_none_app). destruct (strip_seps d); [|done].
    rewrite (proj2 (String.eqb_neq f "")) by done. by destruct f.
  - by rewrite (split_last_none_app sep p t).
Qed.
