(* ===== verification/YaclCrypto.v ===== *)
(** * yacl: files, random bytes, byte views and AES-GCM

    The yacl functions [crypto_util.cc] calls, as parameters with their
    documented behaviour, and the world they act on. *)

From S2P Require Import Prelude CppStd External Path.

Abbreviation fsys := (gmap string bytes).

(** ** Random bytes *)

Class Rand := {
  rng : Type;
  RandBytes : nat -> bool -> rng -> bytes * rng
}.

Class RandLaws `{Rand} : Prop := {
  length_RandBytes n fast g : length (RandBytes n fast g).1 = n
}.

(** What the code of this library reads and changes: files by their paths, the
    directories there are, and the generator. *)
Record world `{Rand} := mk_world { w_fs : fsys; w_dirs : gset string; w_rng : rng }.

(** ** File streams

    A stream knows the path of its file and its position there ([in_path],
    [in_pos], [out_path], [out_pos]; they appear only in the laws), and what it
    reads or overwrites is what the file holds at that time.  The length of an
    input stream is that of the file when it was opened.  [permitted] says which
    paths the process may write to. *)

(** The working directory and the root are always there.  Opening a file makes
    no directory, and a directory cannot be opened as a file. *)
Definition in_place (dirs : gset string) (p : string) : Prop :=
  (parent_path p = "" \/ parent_path p = "/" \/ parent_path p ∈ dirs) /\ p ∉ dirs.

#[global] Instance in_place_dec dirs p : Decision (in_place dirs p).
Proof. unfold in_place. apply _. Defined.

Class FileIO := {
  istream : Type;
  in_path : istream -> string;
  in_pos : istream -> nat;
  ostream : Type;
  out_path : ostream -> string;
  out_pos : ostream -> nat;
  permitted : string -> Prop;
  FileInputStream : fsys -> string -> result istream;
  GetLength : istream -> Z;
  Seekg : istream -> nat -> result istream;
  Read : istream -> nat -> fsys -> result (bytes * istream);
  FileOutputStream : gset string -> fsys -> string -> result (ostream * fsys);
  Write : ostream -> bytes -> fsys -> result (ostream * fsys);
  Close : ostream -> fsys -> result fsys;
  CloseIn : istream -> result unit
}.

(** A path that can be opened for writing. *)
Definition writable `{FileIO} (dirs : gset string) (p : string) : Prop := permitted p /\ in_place dirs p.

(** An input stream at a position of a file. *)
Definition reads `{FileIO} (s : istream) (p : string) (pos : nat) : Prop :=
  in_path s = p /\ in_pos s = pos.

(** An output stream that has written [c], or as many bytes. *)
Definition wrote `{FileIO} (s : ostream) (p : string) (c : bytes) : Prop :=
  out_path s = p /\ out_pos s = length c.

(** Reading inside a file yields its bytes; opening a file for writing creates
    or empties it, and fails when its directory is not there; a write changes no other file, and appends at the end of its
    own. *)
Class FileIOLaws `{FileIO} : Prop := {
  FileInputStream_ok fs p c : fs !! p = Some c ->
    exists s, FileInputStream fs p = inr s /\ reads s p 0 /\ GetLength s = len c;
  FileInputStream_some fs p s :
    FileInputStream fs p = inr s -> exists c, fs !! p = Some c;
  Seekg_ok s n : Z.of_nat n <= GetLength s ->
    exists s', Seekg s n = inr s' /\ reads s' (in_path s) n;
  Read_ok s n fs c : fs !! in_path s = Some c -> (in_pos s + n <= length c)%nat ->
    exists s', Read s n fs = inr (slice c (in_pos s) n, s') /\
      reads s' (in_path s) (in_pos s + n);
  FileOutputStream_ok dirs fs p : writable dirs p ->
    exists o, FileOutputStream dirs fs p = inr (o, <[p := []]> fs) /\ wrote o p [];
  FileOutputStream_some dirs fs p o fs' :
    FileOutputStream dirs fs p = inr (o, fs') ->
    in_place dirs p /\ fs' = <[p := []]> fs /\ wrote o p [];
  Write_ok o bs fs c : fs !! out_path o = Some c -> out_pos o = length c ->
    exists o', Write o bs fs = inr (o', <[out_path o := c ++ bs]> fs) /\
      wrote o' (out_path o) (c ++ bs);
  Write_some o bs fs o' fs' : Write o bs fs = inr (o', fs') ->
    out_path o' = out_path o /\ forall p, p <> out_path o -> fs' !! p = fs !! p;
  Close_ok o fs : Close o fs = inr fs;
  CloseIn_ok s : CloseIn s = inr tt
}.

(** ** Byte views

    [subspan v pos n] is [v.subspan(pos, n)]; [None] is the default length. *)

Class ByteView := { subspan : bytes -> nat -> option nat -> result bytes }.

(** A length past the end is cut; [pos] must not exceed the size. *)
Class ByteViewLaws `{ByteView} : Prop := {
  subspan_ok v pos n : (pos <= length v)%nat ->
    subspan v pos n = inr (match n with Some n => slice v pos n | None => drop pos v end)
}.

(** ** AES-GCM

    [GcmEncrypt alg key iv plaintext aad clen mlen] fills a ciphertext buffer of
    [clen] and a MAC buffer of [mlen] bytes; [GcmDecrypt] a plaintext buffer of
    [plen] bytes. *)

Inductive gcm_alg := Aes128Gcm | Aes256Gcm.

Definition gcm_key_len (alg : gcm_alg) : nat :=
  match alg with Aes128Gcm => 16 | Aes256Gcm => 32 end.

Class Gcm := {
  GcmEncrypt : gcm_alg -> bytes -> bytes -> bytes -> bytes -> nat -> nat -> result (bytes * bytes);
  GcmDecrypt : gcm_alg -> bytes -> bytes -> bytes -> bytes -> bytes -> nat -> result bytes
}.

(** Encryption with a key of the right size and a 12-byte IV succeeds, keeps
    the length, produces a 16-byte MAC, and is undone by decryption; decryption
    fills the plaintext buffer. *)
Class GcmLaws `{Gcm} : Prop := {
  GcmEncrypt_ok alg key iv pt aad :
    length key = gcm_key_len alg -> length iv = 12%nat ->
    exists c m, GcmEncrypt alg key iv pt aad (length pt) 16 = inr (c, m) /\
      length c = length pt /\ length m = 16%nat /\
      GcmDecrypt alg key iv c aad m (length c) = inr pt;
  GcmDecrypt_length alg key iv c aad m n pt :
    GcmDecrypt alg key iv c aad m n = inr pt -> length pt = n
}.

(** ** Concrete instances, for the witnesses *)

(** Random bytes that are zero. *)
Definition sample_rand : Rand := {|
  rng := unit;
  RandBytes n _ g := (zero_bytes n, g)
|}.

Lemma sample_rand_laws : @RandLaws sample_rand.
Proof. split. intros. apply length_replicate. Qed.

(** [bs] over the bytes of a file from [pos] on; a gap is filled with zeros. *)
Definition overwrite (c : bytes) (pos : nat) (bs : bytes) : bytes :=
  take pos (c ++ zero_bytes (pos - length c)) ++ bs ++ drop (pos + length bs) c.

(** Streams as a path, a position and, for input, a length; every path is
    permitted. *)
Definition sample_fileio : FileIO := {|
  istream := string * nat * Z;
  in_path s := s.1.1;
  in_pos s := s.1.2;
  ostream := string * nat;
  out_path o := o.1;
  out_pos o := o.2;
  permitted _ := True;
  FileInputStream fs p :=
    match fs !! p with
    | Some c => inr (p, 0%nat, len c)
    | None => inl (mk_exn OtherYaclException "open failed" [])
    end;
  GetLength s := s.2;
  Seekg s n := inr (s.1.1, n, s.2);
  Read s n fs :=
    inr (slice (default [] (fs !! s.1.1)) s.1.2 n, (s.1.1, (s.1.2 + n)%nat, s.2));
  FileOutputStream dirs fs p :=
    if decide (in_place dirs p) then inr (p, 0%nat, <[p := []]> fs)
    else inl (mk_exn OtherYaclException "open failed" []);
  Write o bs fs :=
    inr (o.1, (o.2 + length bs)%nat, <[o.1 := overwrite (default [] (fs !! o.1)) o.2 bs]> fs);
  Close o fs := inr fs;
  CloseIn _ := inr tt
|}.

Lemma overwrite_end c bs : overwrite c (length c) bs = c ++ bs.
Proof.
  unfold overwrite. rewrite Nat.sub_diag. cbn. rewrite app_nil_r, firstn_all, drop_ge by lia.
  by rewrite app_nil_r.
Qed.

Lemma sample_fileio_laws : @FileIOLaws sample_fileio.
Proof.
  split; unfold reads, wrote; cbn.
  - intros fs p c ->. by eexists.
  - intros fs p s. destruct (fs !! p); [|done]. by eexists.
  - intros s n _. by eexists.
  - intros s n fs c -> _. by eexists.
  - intros dirs fs p [_ Hp]. rewrite decide_True by done. by eexists.
  - intros dirs fs p o fs'. case_decide; [|done]. by intros [= <- <-].
  - intros o bs fs c -> ->. cbn. rewrite overwrite_end. eexists. split; [done|]. cbn.
    by rewrite length_app.
  - intros o bs fs o' fs' E. injection E as <- <-. split; [done|]. intros p Hp. by rewrite lookup_insert_ne.
  - done.
  - done.
Qed.

Definition sample_byteview : ByteView := {|
  subspan v pos n :=
    if decide (pos <= length v)%nat
    then inr (match n with Some n => slice v pos n | None => drop pos v end)
    else inl (mk_exn (StdException "std::out_of_range") "pos > size()" [])
|}.

Lemma sample_byteview_laws : @ByteViewLaws sample_byteview.
Proof. split. intros. cbn. by case_decide. Qed.

(** A cipher that leaves the text as it is, with a MAC that depends on the key
    only. *)
Definition sample_gcm : Gcm := {|
  GcmEncrypt alg key iv pt aad clen mlen := inr (pt, take mlen key);
  GcmDecrypt alg key iv c aad m n :=
    if decide (m = take 16 key /\ length c = n) then inr c
    else inl (mk_exn OtherYaclException "mac mismatch" [])
|}.

Lemma sample_gcm_laws : @GcmLaws sample_gcm.
Proof.
  split; cbn.
  - intros alg key iv pt aad Hk Hiv. exists pt, (take 16 key).
    split; [done|]. split; [done|]. split; [|by rewrite decide_True].
    rewrite length_take, Hk. by destruct alg.
  - intros alg key iv c aad m n pt. case_decide as Hd; [|done]. destruct Hd. by intros [= <-].
Qed.
