(* ===== verification/Tasks.v ===== *)
(** * Programs as sequences of operations

    A function that runs in a task of its own is a program: operations on files
    and the random generator, one after the other, with computation in between.
    Other tasks act between two operations.  [perform] runs a program alone;
    [pool_step] is the interleaving of several programs; [wp] says what a program
    on files does when others may act in between, provided they leave its two
    files alone. *)

From S2P Require Import Prelude CppStd External YaclCrypto.

Inductive prog (S A : Type) : Type :=
  | Ret (r : outcome A)
  | Op {B : Type} (m : st S B) (k : B -> prog S A).
Arguments Ret {S A} r.
Arguments Op {S A B} m k.

Section Programs.
Context {S : Type}.

#[global] Instance prog_ret : MRet (prog S) := fun A a => Ret (Ok a).

Fixpoint prog_then {A B} (k : A -> prog S B) (p : prog S A) : prog S B :=
  match p with
  | Ret (Ok a) => k a
  | Ret (Throw e) => Ret (Throw e)
  | Ret (UB u) => Ret (UB u)
  | Op m f => Op m (fun b => prog_then k (f b))
  end.

#[global] Instance prog_bind : MBind (prog S) := fun A B => prog_then.

(** One operation, and computation that touches nothing shared. *)
Definition op {A} (m : st S A) : prog S A := Op m (fun a => Ret (Ok a)).
Definition now {A} (m : outcome A) : prog S A := Ret m.

(** An operation that only reads. *)
Definition look {A} (f : S -> A) : prog S A := op (fun w => (Ok (f w), w)).

(** A loop over the elements of a container. *)
Fixpoint each {A} (body : A -> prog S unit) (l : list A) : prog S unit :=
  match l with
  | [] => mret tt
  | x :: l => _ ← body x; each body l
  end.

(** The next operation.  An exception ends the program. *)
Definition prog_step {A} (p : prog S A) (w : S) : prog S A * S :=
  match p with
  | Ret r => (p, w)
  | Op m k =>
      match m w with
      | (Ok b, w) => (k b, w)
      | (Throw e, w) => (Ret (Throw e), w)
      | (UB u, w) => (Ret (UB u), w)
      end
  end.

(** The program from here to its end, undisturbed. *)
Fixpoint perform {A} (p : prog S A) : st S A :=
  match p with
  | Ret r => pure r
  | Op m k => b ← m; perform (k b)
  end.

Definition is_done {A} (p : prog S A) : bool := match p with Ret _ => true | Op _ _ => false end.

Lemma now_bind {A B} (m : outcome A) (k : A -> prog S B) a : m = Ok a -> (now m ≫= k) = k a.
Proof. by intros ->. Qed.

Lemma now_throw {A B} (m : outcome A) (k : A -> prog S B) e :
  m = Throw e -> (now m ≫= k) = Ret (Throw e).
Proof. by intros ->. Qed.

Lemma now_enforce {B} b fmt args (k : unit -> prog S B) :
  (now (YACL_ENFORCE b fmt args) ≫= k) =
    if b then k tt else Ret (Throw (mk_exn EnforceNotMet fmt args)).
Proof. by destruct b. Qed.

(** Doing one operation and then the rest is doing it all. *)
Lemma perform_step {A} (p : prog S A) w :
  perform p w = perform (prog_step p w).1 (prog_step p w).2.
Proof.
  destruct p as [r|B m k]; [done|]. cbn. unfold mbind, st_bind.
  by destruct (m w) as [[b|e|u] w1].
Qed.

Lemma perform_bind {A B} (p : prog S A) (k : A -> prog S B) w :
  perform (p ≫= k) w = (a ← perform p; perform (k a)) w.
Proof.
  revert w. induction p as [[a|e|u]|C m f IH]; intros w; [done..|]. cbn.
  unfold mbind, st_bind. destruct (m w) as [[c|e|u] w1]; [|done|done]. apply IH.
Qed.

Lemma perform_op {A} (m : st S A) w : perform (op m) w = m w.
Proof. cbn. unfold mbind, st_bind. by destruct (m w) as [[a|e|u] w']. Qed.

Lemma perform_bind_step {A B} (p : prog S A) (k : A -> prog S B) w a w' :
  perform p w = (Ok a, w') -> perform (p ≫= k) w = perform (k a) w'.
Proof. intros E. by rewrite perform_bind, (st_bind_step _ _ _ _ _ E). Qed.

Lemma perform_op_step {A B} (m : st S A) (k : A -> prog S B) w a w' :
  m w = (Ok a, w') -> perform (op m ≫= k) w = perform (k a) w'.
Proof. intros E. apply perform_bind_step. by rewrite perform_op. Qed.

Lemma perform_look {A B} (f : S -> A) (k : A -> prog S B) w :
  perform (look f ≫= k) w = perform (k (f w)) w.
Proof. unfold look. by rewrite (perform_op_step _ _ w (f w) w). Qed.

(** Every operation of the program keeps [P], and what it returns is in [Q]. *)
Fixpoint ops_keep {A} (P : S -> Prop) (p : prog S A) (Q : A -> Prop) : Prop :=
  match p with
  | Ret r => match r with Ok a => Q a | _ => True end
  | Op m k => keeps P m /\ forall w b w', P w -> m w = (Ok b, w') -> ops_keep P (k b) Q
  end.

Definition all_ops {A} (P : S -> Prop) (p : prog S A) : Prop := ops_keep P p (fun _ => True).

Lemma ops_keep_bind {A B} P (p : prog S A) (k : A -> prog S B) Q R :
  ops_keep P p Q -> (forall a, Q a -> ops_keep P (k a) R) -> ops_keep P (p ≫= k) R.
Proof.
  intros Hp Hk. induction p as [[a|e|u]|C m f IH]; [by apply Hk|done|done|].
  destruct Hp as [Hm Hf]. split; [done|]. intros w b w' Hw E. by apply IH, (Hf w b w').
Qed.

Lemma all_ops_bind {A B} P (p : prog S A) (k : A -> prog S B) :
  all_ops P p -> (forall a, all_ops P (k a)) -> all_ops P (p ≫= k).
Proof. intros Hp Hk. eapply ops_keep_bind; [exact Hp|]. intros a _. apply Hk. Qed.

Lemma all_ops_ret {A} P (r : outcome A) : all_ops P (Ret r).
Proof. by destruct r. Qed.

Lemma all_ops_op {A} P (m : st S A) : keeps P m -> all_ops P (op m).
Proof. by split. Qed.

Lemma ops_keep_step {A} P Q (p : prog S A) w :
  ops_keep P p Q -> P w -> ops_keep P (prog_step p w).1 Q /\ P (prog_step p w).2.
Proof.
  destruct p as [r|B m k]; [done|]. intros [Hm Hk] Hw. specialize (Hm w Hw). cbn.
  destruct (m w) as [[b|e|u] w'] eqn:E; cbn; [|done|done]. split; [by apply (Hk w b w')|done].
Qed.

Lemma ops_keep_perform {A} P Q (p : prog S A) : ops_keep P p Q -> keeps P (perform p).
Proof.
  induction p as [r|B m k IH]; [intros; apply keeps_pure|]. intros [Hm Hk] w Hw. cbn.
  unfold mbind, st_bind. specialize (Hm w Hw). destruct (m w) as [[b|e|u] w'] eqn:E; [|done|done].
  by apply (IH b); [apply (Hk w b w')|].
Qed.

Lemma all_ops_look {A} P (f : S -> A) : all_ops P (look f).
Proof. by apply all_ops_op; intros w. Qed.

Lemma all_ops_each {A} P (body : A -> prog S unit) l :
  (forall x, x ∈ l -> all_ops P (body x)) -> all_ops P (each body l).
Proof.
  induction l as [|x l IH]; intros Hb; [done|]. apply all_ops_bind; [apply Hb; by left|]. intros _.
  apply IH. intros y Hy. apply Hb. by right.
Qed.

(** Every operation of the program leads to a state related to the one before it,
    and what the program returns is in [Q]. *)
Fixpoint guarantees {A} (R : S -> S -> Prop) (p : prog S A) (Q : A -> Prop) : Prop :=
  match p with
  | Ret r => match r with Ok a => Q a | _ => True end
  | Op m k => forall w, R w (m w).2 /\ forall b w', m w = (Ok b, w') -> guarantees R (k b) Q
  end.

Definition all_guarantee {A} (R : S -> S -> Prop) (p : prog S A) : Prop := guarantees R p (fun _ => True).

Lemma guarantees_bind {A B} R (p : prog S A) (k : A -> prog S B) P Q :
  guarantees R p P -> (forall a, P a -> guarantees R (k a) Q) -> guarantees R (p ≫= k) Q.
Proof.
  intros Hp Hk. induction p as [[a|e|u]|C m f IH]; [by apply Hk|done|done|].
  intros w. destruct (Hp w) as [Hm Hf]. split; [done|]. intros b w' E. by apply IH, (Hf b w').
Qed.

Lemma guarantees_op {A B} R (m : st S A) (k : A -> prog S B) Q :
  (forall w, R w (m w).2) -> (forall w a w', m w = (Ok a, w') -> guarantees R (k a) Q) ->
  guarantees R (op m ≫= k) Q.
Proof. intros Hm Hk w. split; [apply Hm|]. apply Hk. Qed.

Lemma guarantees_now {A B} R (m : outcome A) (k : A -> prog S B) Q :
  (forall a, guarantees R (k a) Q) -> guarantees R (now m ≫= k) Q.
Proof. intros Hk. destruct m; [apply Hk|done|done]. Qed.

Lemma guarantees_look {A B} R `{!Reflexive R} (f : S -> A) (k : A -> prog S B) Q :
  (forall w, guarantees R (k (f w)) Q) -> guarantees R (look f ≫= k) Q.
Proof. intros Hk w. split; [done|]. intros b w' E. injection E as <- <-. apply Hk. Qed.

Lemma all_guarantee_bind {A B} R (p : prog S A) (k : A -> prog S B) :
  all_guarantee R p -> (forall a, all_guarantee R (k a)) -> all_guarantee R (p ≫= k).
Proof. intros Hp Hk. eapply guarantees_bind; [exact Hp|]. intros a _. apply Hk. Qed.

Lemma all_guarantee_op {A} R (m : st S A) : (forall w, R w (m w).2) -> all_guarantee R (op m).
Proof. by split. Qed.

Lemma all_guarantee_ret {A} R (r : outcome A) : all_guarantee R (Ret r).
Proof. by destruct r. Qed.

Lemma all_guarantee_look {A} R `{!Reflexive R} (f : S -> A) : all_guarantee R (look f).
Proof. by apply all_guarantee_op. Qed.

Lemma all_guarantee_each {A} R (body : A -> prog S unit) l :
  (forall x, x ∈ l -> all_guarantee R (body x)) -> all_guarantee R (each body l).
Proof.
  induction l as [|x l IH]; intros Hb; [done|]. apply all_guarantee_bind; [apply Hb; by left|]. intros _.
  apply IH. intros y Hy. apply Hb. by right.
Qed.

Lemma guarantees_step {A} R Q (p : prog S A) w `{!Reflexive R} :
  guarantees R p Q -> R w (prog_step p w).2 /\ guarantees R (prog_step p w).1 Q.
Proof.
  destruct p as [r|B m k]; [done|]. intros Hp. destruct (Hp w) as [Hm Hk]. cbn.
  destruct (m w) as [[b|e|u] w'] eqn:E; cbn; [|done|done]. split; [done|by apply (Hk b w')].
Qed.

Lemma guarantees_weaken {A} (R R' : S -> S -> Prop) (p : prog S A) :
  (forall w w', R w w' -> R' w w') -> all_guarantee R p -> all_guarantee R' p.
Proof.
  intros HR. induction p as [r|B m k IH]; [done|]. intros Hp w. destruct (Hp w) as [Hm Hk].
  split; [by apply HR|]. intros b w' E. by apply IH, (Hk b w').
Qed.

Lemma guarantees_and {A} R R' (p : prog S A) :
  all_guarantee R p -> all_guarantee R' p -> all_guarantee (fun w w' => R w w' /\ R' w w') p.
Proof.
  induction p as [r|B m k IH]; [done|]. intros Hp Hp' w. destruct (Hp w) as [H1 H2], (Hp' w) as [H3 H4].
  split; [done|]. intros b w' E. apply IH; [by apply (H2 b w')|by apply (H4 b w')].
Qed.

(** A property every operation keeps is one the relation "it stays" guarantees. *)
Lemma guarantees_ops {A} P (p : prog S A) : all_guarantee (fun w w' => P w -> P w') p -> all_ops P p.
Proof.
  induction p as [r|B m k IH]; [done|]. intros Hp. split; [intros w; apply Hp|].
  intros w b w' _ E. by apply IH, (proj2 (Hp w) b w').
Qed.

Lemma guarantees_perform {A} R `{!PreOrder R} Q (p : prog S A) w : guarantees R p Q -> R w (perform p w).2.
Proof.
  revert w. induction p as [r|B m k IH]; intros w Hp; [done|]. destruct (Hp w) as [Hm Hk]. cbn.
  unfold mbind, st_bind. destruct (m w) as [[b|e|u] w'] eqn:E; [|done|done].
  etrans; [exact Hm|]. by apply IH, (Hk b w').
Qed.

(** [wp_rely R p Q w]: from [w] on, with others changing the state by [R] between
    the operations, [p] ends in [Q], and stays in it. *)
Fixpoint wp_rely {A} (R : S -> S -> Prop) (p : prog S A) (Q : outcome A -> S -> Prop) (w : S) : Prop :=
  forall w1, R w w1 ->
  match p with
  | Ret r => Q r w1
  | Op m k =>
      match m w1 with
      | (Ok b, w2) => wp_rely R (k b) Q w2
      | (Throw e, w2) => forall w3, R w2 w3 -> Q (Throw e) w3
      | (UB u, w2) => forall w3, R w2 w3 -> Q (UB u) w3
      end
  end.

Lemma wp_rely_mono {A} R `{!Transitive R} (p : prog S A) Q w w' :
  wp_rely R p Q w -> R w w' -> wp_rely R p Q w'.
Proof. destruct p; intros Hp Hr w1 Hr1; apply Hp; by transitivity w'. Qed.

Lemma wp_rely_op {A B} (R : S -> S -> Prop) (m : st S A) (k : A -> prog S B) Q w :
  (forall w1, R w w1 -> exists a w2, m w1 = (Ok a, w2) /\ wp_rely R (k a) Q w2) ->
  wp_rely R (op m ≫= k) Q w.
Proof. intros Hm w1 Hr. destruct (Hm w1 Hr) as (a & w2 & E & Hk). by rewrite E. Qed.

Lemma wp_rely_weaken {A} (R : S -> S -> Prop) (p : prog S A) (P Q : outcome A -> S -> Prop) w :
  (forall r w, P r w -> Q r w) -> wp_rely R p P w -> wp_rely R p Q w.
Proof.
  intros HPQ. revert w. induction p as [r|B m k IH]; intros w Hp w1 Hr; [by apply HPQ, Hp|].
  specialize (Hp w1 Hr). cbn in *. destruct (m w1) as [[b|e|u] w2]; eauto.
Qed.

Lemma wp_rely_last {A} (R : S -> S -> Prop) (m : st S A) Q w :
  (forall w1, R w w1 -> exists a w2, m w1 = (Ok a, w2) /\ forall w3, R w2 w3 -> Q (Ok a) w3) ->
  wp_rely R (op m) Q w.
Proof. intros Hm w1 Hr. destruct (Hm w1 Hr) as (a & w2 & E & Hk). by rewrite E. Qed.

Lemma wp_rely_bind {A B} R `{!PreOrder R} (p : prog S A) (k : A -> prog S B) Q w :
  wp_rely R p (fun r w => match r with
                          | Ok a => wp_rely R (k a) Q w
                          | Throw e => Q (Throw e) w
                          | UB u => Q (UB u) w
                          end) w ->
  wp_rely R (p ≫= k) Q w.
Proof.
  revert w. induction p as [[a|e|u]|C m f IH]; intros w Hp; [by apply Hp|exact Hp|exact Hp|].
  intros w1 Hr. specialize (Hp w1 Hr). cbn in *. destruct (m w1) as [[c|e|u] w2]; [by apply IH|exact Hp|exact Hp].
Qed.

Lemma wp_rely_look {A B} (R : S -> S -> Prop) (f : S -> A) (k : A -> prog S B) Q w :
  (forall w1, R w w1 -> wp_rely R (k (f w1)) Q w1) -> wp_rely R (look f ≫= k) Q w.
Proof. intros Hk. apply wp_rely_op. intros w1 Hr. exists (f w1), w1. auto. Qed.

(** A loop keeps an invariant of the elements that are done. *)
Lemma wp_rely_each {A} R `{!PreOrder R} (body : A -> prog S unit) (I : list A -> S -> Prop) l w :
  (forall done w w', I done w -> R w w' -> I done w') ->
  (forall done x todo w, l = done ++ x :: todo -> I done w ->
     wp_rely R (body x) (fun r w' => r = Ok tt /\ I (done ++ [x]) w') w) ->
  I [] w -> wp_rely R (each body l) (fun r w' => r = Ok tt /\ I l w') w.
Proof.
  intros Hst Hb. assert (forall todo done w, l = done ++ todo -> I done w ->
    wp_rely R (each body todo) (fun r w' => r = Ok tt /\ I l w') w) as Hall.
  { induction todo as [|x todo IH]; intros done w1 El Hi.
    - intros w2 Hr. rewrite app_nil_r in El. subst done. eauto.
    - cbn [each]. apply wp_rely_bind; [done|]. eapply wp_rely_weaken; [|by eapply Hb].
      intros r w2 [-> Hi2]. apply (IH (done ++ [x])); [by rewrite <- app_assoc|done]. }
  intros Hi. by apply (Hall l []).
Qed.

(** Alone, a program does what it does among others. *)
Lemma wp_rely_perform {A} R `{!Reflexive R} (p : prog S A) Q w :
  wp_rely R p Q w -> Q (perform p w).1 (perform p w).2.
Proof.
  revert w. induction p as [r|B m k IH]; intros w Hp; specialize (Hp w (reflexivity w)); [done|].
  cbn in *. unfold mbind, st_bind. destruct (m w) as [[b|e|u] w']; [by apply IH|by apply Hp|by apply Hp].
Qed.

(** What every operation of the program and the others keep holds at the end. *)
Lemma wp_rely_kept {A} (R : S -> S -> Prop) P (p : prog S A) Q w :
  (forall w w', R w w' -> P w -> P w') -> all_ops P p -> P w -> wp_rely R p Q w ->
  wp_rely R p (fun r w' => Q r w' /\ P w') w.
Proof.
  intros HR. revert w. induction p as [r|B m k IH]; intros w Hops Hw Hp w1 Hr; specialize (Hp w1 Hr).
  { split; [done|by eapply HR]. }
  destruct Hops as [Hm Hk]. pose proof (HR _ _ Hr Hw) as Hw1. pose proof (Hm w1 Hw1) as Hw2. cbn in *.
  destruct (m w1) as [[b|e|u] w2] eqn:E; cbn in Hw2.
  - apply IH; [by apply (Hk w1 b w2)|done|done].
  - intros w3 Hr3. split; [by apply Hp|by eapply HR].
  - intros w3 Hr3. split; [by apply Hp|by eapply HR].
Qed.

(** What holds at the end for each of several reasons holds for all of them. *)
Lemma wp_rely_forall {A X} (R : S -> S -> Prop) (p : prog S A) (P : X -> Prop) (Q : X -> outcome A -> S -> Prop) w :
  (forall x, P x -> wp_rely R p (Q x) w) -> wp_rely R p (fun r w' => forall x, P x -> Q x r w') w.
Proof.
  revert w. induction p as [r|B m k IH]; intros w Hp w1 Hr; [intros x Hx; by apply (Hp x Hx)|].
  assert (forall x, P x -> _) as Hq by (intros x Hx; exact (Hp x Hx w1 Hr)). cbn in *.
  destruct (m w1) as [[b|e|u] w2]; [by apply IH|intros w3 Hr3 x Hx; by apply (Hq x Hx)..].
Qed.

(** An operation of [p] can fail with [r], or its last step does. *)
Fixpoint may_fail {A B} (p : prog S A) (r : outcome B) : Prop :=
  match p with
  | Ret (Ok _) => False
  | Ret (Throw e) => r = Throw e
  | Ret (UB u) => r = UB u
  | Op m k =>
      exists w, match (m w).1 with
                | Ok b => may_fail (k b) r
                | Throw e => r = Throw e
                | UB u => r = UB u
                end
  end.

Lemma may_fail_Ok {A B} (p : prog S A) (b : B) : ~ may_fail p (Ok b).
Proof.
  induction p as [[]|C m k IH]; [intros []|intros [=]|intros [=]|]. intros [w Hf]. destruct (m w).1; [by eapply IH|done|done].
Qed.

(** A program that keeps to [R] leaves what is stable under [R]; it returns what it
    guarantees, or one of its operations has failed. *)
Lemma wp_rely_returns {A} R `{!Transitive R} (I : S -> Prop) (p : prog S A) Q w :
  guarantees R p Q -> (forall w w', I w -> R w w' -> I w') -> I w ->
  wp_rely R p (fun r w' => I w' /\ match r with
                                   | Ok a => Q a
                                   | Throw e => may_fail p (@Throw unit e)
                                   | UB u => may_fail p (@UB unit u)
                                   end) w.
Proof.
  intros Hg HI. revert w. induction p as [r|B m k IH]; intros w Hw w1 Hr.
  { split; [by eapply HI|]. by destruct r. }
  destruct (Hg w1) as [Hm Hk]. assert (I (m w1).2) as Hw2 by (eapply HI; [by eapply HI|done]). cbn in *.
  assert (forall (r : outcome unit), match (m w1).1 with
      | Ok b => may_fail (k b) r | Throw e => r = Throw e | UB u => r = UB u end ->
    exists w, match (m w).1 with
      | Ok b => may_fail (k b) r | Throw e => r = Throw e | UB u => r = UB u end) as Hex by eauto.
  destruct (m w1) as [[b|e|u] w2]; cbn in *.
  - eapply wp_rely_weaken; [|by apply (IH b); [apply (Hk b w2)|]]. intros r w' [Hi Hr']. split; [done|].
    destruct r; auto.
  - intros w3 Hr3. split; [by eapply HI|]. by apply Hex.
  - intros w3 Hr3. split; [by eapply HI|]. by apply Hex.
Qed.

(** A program that itself keeps to [R] ends in what is stable under [R]. *)
Lemma wp_rely_guaranteed {A} R `{!PreOrder R} (p : prog S A) Q w :
  all_guarantee R p -> (forall r w', R w w' -> Q r w') -> wp_rely R p Q w.
Proof.
  revert w. induction p as [r|B m k IH]; intros w Hg HQ w1 Hr; [by apply HQ|].
  destruct (Hg w1) as [Hm Hk]. cbn in *.
  assert (R w (m w1).2) as Hw2 by (by transitivity w1). destruct (m w1) as [[b|e|u] w2] eqn:E; cbn in *.
  - apply IH; [by apply (Hk b w2)|]. intros r w' Hr'. apply HQ. by transitivity w2.
  - intros w3 Hr'. apply HQ. by transitivity w2.
  - intros w3 Hr'. apply HQ. by transitivity w2.
Qed.
End Programs.

(** ** A program on a part of the state

    [focus] does an operation on the part [get w] of a state [w]. *)

Section Lift.
Context {S T : Type}.
Variable get : T -> S.
Variable put : S -> T -> T.

Definition focus {A} (m : st S A) : st T A := fun w =>
  let '(r, s) := m (get w) in (r, put s w).

Fixpoint lift {A} (p : prog S A) : prog T A :=
  match p with
  | Ret r => Ret r
  | Op m k => Op (focus m) (fun b => lift (k b))
  end.

Lemma focus_run {A} (m : st S A) w r s : m (get w) = (r, s) -> focus m w = (r, put s w).
Proof. intros E. unfold focus. by rewrite E. Qed.

Lemma focus_Ok {A} (m : st S A) w a w' : focus m w = (Ok a, w') ->
  exists s, m (get w) = (Ok a, s) /\ w' = put s w.
Proof. unfold focus. destruct (m (get w)) as [r s]. intros E. injection E as -> <-. by exists s. Qed.

Hypothesis get_put : forall s w, get (put s w) = s.
Hypothesis put_put : forall s s' w, put s' (put s w) = put s' w.
Hypothesis put_get : forall w, put (get w) w = w.

Lemma perform_lift {A} (p : prog S A) w : perform (lift p) w = focus (perform p) w.
Proof.
  revert w. induction p as [r|B m k IH]; intros w.
  { unfold focus. cbn. by rewrite put_get. }
  cbn. unfold mbind, st_bind, focus. destruct (m (get w)) as [[b|e|u] s]; [|done|done].
  rewrite IH. unfold focus. rewrite get_put. destruct (perform (k b) s) as [r s']. by rewrite put_put.
Qed.

Lemma all_ops_lift {A} P (p : prog S A) : all_ops P p -> all_ops (fun w => P (get w)) (lift p).
Proof.
  induction p as [r|B m k IH]; [done|]. intros [Hm Hk]. split.
  - intros w Hw. unfold focus. specialize (Hm (get w) Hw). destruct (m (get w)) as [r s]. cbn. by rewrite get_put.
  - intros w b w' Hw (s & E & _)%focus_Ok. by apply IH, (Hk (get w) b s).
Qed.

Lemma guarantees_lift {A} (R : S -> S -> Prop) (R' : T -> T -> Prop) (p : prog S A) :
  (forall w s, R (get w) s -> R' w (put s w)) -> all_guarantee R p -> all_guarantee R' (lift p).
Proof.
  intros HR. induction p as [r|B m k IH]; [done|]. intros Hp w. destruct (Hp (get w)) as [Hm Hk]. split.
  - unfold focus. destruct (m (get w)) as [r s]. by apply HR.
  - intros b w' (s & E & _)%focus_Ok. by apply IH, (Hk b s).
Qed.

(** [I] is about the rest of the state. *)
Lemma wp_rely_lift {A} (R : S -> S -> Prop) (R' : T -> T -> Prop) (I : T -> Prop) (p : prog S A) Q w :
  (forall w w', R' w w' -> R (get w) (get w')) -> (forall w w', R' w w' -> I w -> I w') ->
  (forall s w, I w -> I (put s w)) -> I w -> wp_rely R p Q (get w) ->
  wp_rely R' (lift p) (fun r w' => Q r (get w') /\ I w') w.
Proof.
  intros HR HI Hput. revert w. induction p as [r|B m k IH]; intros w Hw Hp w1 Hr.
  { split; [by apply Hp, HR|by eapply HI]. }
  specialize (Hp _ (HR _ _ Hr)). apply (HI _ _ Hr) in Hw. cbn in *. unfold focus.
  destruct (m (get w1)) as [[b|e|u] s].
  - apply IH; [auto|by rewrite get_put].
  - intros w3 Hr3. split; [|by eapply HI; [|apply Hput]]. apply Hp. apply HR in Hr3. by rewrite get_put in Hr3.
  - intros w3 Hr3. split; [|by eapply HI; [|apply Hput]]. apply Hp. apply HR in Hr3. by rewrite get_put in Hr3.
Qed.
End Lift.

(** ** Several programs

    A pool is a list of programs with labels that share a state. *)

Section Pools.
Context {S X A : Type}.

Abbreviation pool := (list (X * prog S A)).

(** Program [i] does its next operation. *)
Definition pool_run (s : pool * S) (i : nat) : pool * S :=
  match s.1 !! i with
  | Some (x, p) => let '(p, w) := prog_step p s.2 in (<[i := (x, p)]> s.1, w)
  | None => s
  end.

Definition pool_step (s s' : pool * S) : Prop := exists i, s' = pool_run s i.

Lemma pool_schedule s l : rtc pool_step s (foldl pool_run s l).
Proof.
  revert s. induction l as [|i l IH]; intros s; [done|]. eapply rtc_l; [by exists i|apply IH].
Qed.

(** Program [i] runs to its end, and so do all, one after the other. *)
Definition pool_complete (s : pool * S) (i : nat) : pool * S :=
  match s.1 !! i with
  | Some (x, p) => let '(r, w) := perform p s.2 in (<[i := (x, Ret r)]> s.1, w)
  | None => s
  end.

Definition pool_finish (s : pool * S) : pool * S := foldl pool_complete s (seq 0 (length s.1)).

Lemma pool_complete_reachable s i : rtc pool_step s (pool_complete s i).
Proof.
  destruct s as [l w]. unfold pool_complete. cbn. destruct (l !! i) as [[x p]|] eqn:Ei; [|done].
  revert l w Ei. induction p as [r|B m k IH]; intros l w Ei; cbn; [by rewrite list_insert_id|].
  destruct (prog_step (Op m k) w) as [p' w'] eqn:Es.
  assert (<[i := (x, p')]> l !! i = Some (x, p')) as Ei' by (apply list_lookup_insert_eq; by eapply lookup_lt_Some).
  eapply rtc_l with (<[i := (x, p')]> l, w').
  { exists i. unfold pool_run. cbn [fst snd]. by rewrite Ei, Es. }
  cbn in Es. unfold mbind, st_bind. destruct (m w) as [[b|e|u] w1]; injection Es as <- <-; [|done|done].
  specialize (IH b _ w1 Ei'). destruct (perform (k b) w1) as [r w2]. by rewrite list_insert_insert_eq in IH.
Qed.

Lemma pool_finish_reachable s : rtc pool_step s (pool_finish s).
Proof.
  unfold pool_finish. generalize (seq 0 (length s.1)). intros l. revert s.
  induction l as [|i l IH]; intros s; [done|]. etrans; [apply pool_complete_reachable|apply IH].
Qed.

Lemma pool_complete_entry s i j x p : s.1 !! j = Some (x, p) ->
  exists p', (pool_complete s i).1 !! j = Some (x, p') /\ (i = j \/ is_done p = true -> is_done p' = true).
Proof.
  intros Hj. unfold pool_complete. destruct (s.1 !! i) as [[y q]|] eqn:Ei.
  - destruct (perform q s.2) as [r w]. destruct (decide (i = j)) as [->|Hne]; cbn.
    + rewrite Hj in Ei. injection Ei as <- <-. exists (Ret r).
      rewrite list_lookup_insert_eq by (by eapply lookup_lt_Some). done.
    + exists p. rewrite list_lookup_insert_ne by done. split; [done|]. by intros [|].
  - exists p. split; [done|]. intros [->|]; [congruence|done].
Qed.

Lemma pool_completes_entry l s j x p : s.1 !! j = Some (x, p) ->
  exists p', (foldl pool_complete s l).1 !! j = Some (x, p') /\ (j ∈ l \/ is_done p = true -> is_done p' = true).
Proof.
  revert s p. induction l as [|i l IH]; intros s p Hj; cbn.
  { exists p. split; [done|]. by intros [?%elem_of_nil|]. }
  destruct (pool_complete_entry s i j x p Hj) as (p1 & H1 & Hd1). destruct (IH _ _ H1) as (p2 & H2 & Hd2).
  exists p2. split; [done|]. intros [[->|Hin]%elem_of_cons|Hd]; apply Hd2; auto.
Qed.

(** Every program has ended, and keeps its label. *)
Lemma pool_finish_ended s j x p : s.1 !! j = Some (x, p) ->
  exists r, (pool_finish s).1 !! j = Some (x, Ret r).
Proof.
  intros Hj. destruct (pool_completes_entry (seq 0 (length s.1)) s j x p Hj) as (p' & H' & Hd).
  specialize (Hd (or_introl (proj2 (elem_of_seq _ _ _) (conj (Nat.le_0_l _) (lookup_lt_Some _ _ _ Hj))))).
  destruct p' as [r|]; [by exists r|done].
Qed.

(** A program keeps its place. *)
Lemma pool_label s s' i x p : rtc pool_step s s' -> s.1 !! i = Some (x, p) ->
  exists p', s'.1 !! i = Some (x, p').
Proof.
  intros Hr. revert p. induction Hr as [s|s s1 s' [j ->] _ IH]; intros p Hi; [by exists p|].
  unfold pool_run in IH. destruct (s.1 !! j) as [[y q]|] eqn:Ej; [|by eapply IH].
  destruct (prog_step q s.2) as [q' w']. cbn in IH. destruct (decide (i = j)) as [<-|Hne].
  - rewrite Hi in Ej. injection Ej as <- <-. eapply IH. apply list_lookup_insert_eq. by eapply lookup_lt_Some.
  - eapply IH. by rewrite list_lookup_insert_ne.
Qed.

(** A program that works while others keep to [R], among programs that do. *)
Lemma pool_rely (R : S -> S -> Prop) `{!PreOrder R} Q s s' i x p :
  rtc pool_step s s' -> s.1 !! i = Some (x, p) -> wp_rely R p Q s.2 ->
  (forall j y q, j <> i -> s.1 !! j = Some (y, q) -> all_guarantee R q) ->
  exists p', s'.1 !! i = Some (x, p') /\ wp_rely R p' Q s'.2.
Proof.
  intros Hr. revert p. induction Hr as [s|s s1 s' [j ->] _ IH]; intros p Hi Hp Hoth; [by exists p|].
  unfold pool_run in IH. destruct (s.1 !! j) as [[y q]|] eqn:Ej; [|by eapply IH].
  destruct (decide (j = i)) as [->|Hne].
  - rewrite Hi in Ej. injection Ej as <- <-. destruct (prog_step p s.2) as [p1 w1] eqn:Es.
    apply (IH p1); cbn.
    + apply list_lookup_insert_eq. by eapply lookup_lt_Some.
    + destruct p as [r|B m k]; cbn in Es; [by injection Es as <- <-|].
      specialize (Hp s.2 (reflexivity _)). cbn in Hp. destruct (m s.2) as [[b|e|u] w2]; injection Es as <- <-; exact Hp.
    + intros k y q Hk Eq. rewrite list_lookup_insert_ne in Eq by done. by eapply Hoth.
  - pose proof (Hoth j y q Hne Ej) as Hq. destruct (prog_step q s.2) as [q1 w1] eqn:Es.
    destruct (guarantees_step R (fun _ => True) q s.2 Hq) as [Hw1 Hq1]. rewrite Es in Hw1, Hq1. cbn in Hw1, Hq1.
    apply (IH p); cbn.
    + by rewrite list_lookup_insert_ne.
    + by apply (wp_rely_mono R p Q s.2).
    + intros k z q2 Hk Eq. destruct (decide (k = j)) as [->|Hkj].
      * rewrite list_lookup_insert_eq in Eq by (by eapply lookup_lt_Some). by injection Eq as <- <-.
      * rewrite list_lookup_insert_ne in Eq by done. by eapply Hoth.
Qed.
End Pools.

(** ** Programs among others *)

Section Wp.
Context `{Rand}.
Variable src dest : string.
Variable content : bytes.

(** [dest] holds [o], which may be nothing. *)
Definition with_dest (o : option bytes) (w : world) (g : rng) : world :=
  mk_world _ (partial_alter (fun _ => o) dest w.(w_fs)) w.(w_dirs) g.

(** [wp p Q o]: as long as others leave [src], which holds [content], and
    [dest], which holds [o] now, and its directory alone, every operation of [p]
    changes at most [dest] and the generator, and [p] ends with a result and a content of [dest]
    in [Q]. *)
Fixpoint wp {A} (p : prog world A) (Q : outcome A -> option bytes -> Prop) (o : option bytes) : Prop :=
  match p with
  | Ret r => Q r o
  | Op m k =>
      forall w, w.(w_fs) !! src = Some content -> w.(w_fs) !! dest = o -> in_place w.(w_dirs) dest ->
      exists r o' g, m w = (r, with_dest o' w g) /\
        match r with
        | Ok b => wp (k b) Q o'
        | Throw e => Q (Throw e) o'
        | UB u => Q (UB u) o'
        end
  end.

Lemma wp_mono {A} (p : prog world A) (P Q : outcome A -> option bytes -> Prop) o :
  (forall r o', P r o' -> Q r o') -> wp p P o -> wp p Q o.
Proof.
  intros HPQ. revert o. induction p as [r|B m k IH]; cbn; intros o; [apply HPQ|].
  intros Hw w Hs Hd Hi. destruct (Hw w Hs Hd Hi) as (r & o' & g & E & Hr). exists r, o', g.
  split; [done|]. destruct r; auto.
Qed.

Lemma wp_ret {A} (r : outcome A) (Q : outcome A -> option bytes -> Prop) o : Q r o -> wp (Ret r) Q o.
Proof. done. Qed.

(** What is left of a sequence when its first part has ended. *)
Definition wp_rest {A B} (k : A -> prog world B) (Q : outcome B -> option bytes -> Prop)
    (r : outcome A) (o : option bytes) : Prop :=
  match r with Ok a => wp (k a) Q o | Throw e => Q (Throw e) o | UB u => Q (UB u) o end.

Lemma wp_bind {A B} (p : prog world A) (k : A -> prog world B) P Q o :
  wp p P o -> (forall r o', P r o' -> wp_rest k Q r o') -> wp (p ≫= k) Q o.
Proof.
  intros Hp Hk. revert o Hp. induction p as [[a|e|u]|C m f IH]; intros o Hp.
  - by apply (Hk (Ok a)).
  - by apply (Hk (Throw e)).
  - by apply (Hk (UB u)).
  - intros w Hs Hd Hi. destruct (Hp w Hs Hd Hi) as (r & o' & g & E & Hr). exists r, o', g.
    split; [done|]. destruct r as [b|e|u]; [by apply IH|by apply (Hk (Throw e))|by apply (Hk (UB u))].
Qed.

(** One operation that succeeds. *)
Lemma wp_op {A B} (m : st world A) (k : A -> prog world B) Q o :
  (forall w, w.(w_fs) !! src = Some content -> w.(w_fs) !! dest = o -> in_place w.(w_dirs) dest ->
     exists a o' g, m w = (Ok a, with_dest o' w g) /\ wp (k a) Q o') ->
  wp (op m ≫= k) Q o.
Proof. intros Hm w Hs Hd Hi. destruct (Hm w Hs Hd Hi) as (a & o' & g & E & Hk). by exists (Ok a), o', g. Qed.

(** An operation that leaves [dest] as it is. *)
Lemma with_dest_same w o : w.(w_fs) !! dest = o -> with_dest o w w.(w_rng) = w.
Proof. intros Hd. unfold with_dest. rewrite partial_alter_id by done. by destruct w. Qed.

Hypothesis apart : src <> dest.

(** The next operation, whoever acted before: [src] and every other file stay as
    they are, and what is left of the program has the same promise. *)
Lemma wp_step {A} (p : prog world A) Q w :
  w.(w_fs) !! src = Some content -> in_place w.(w_dirs) dest -> wp p Q (w.(w_fs) !! dest) ->
  exists p' o' g, prog_step p w = (p', with_dest o' w g) /\ wp p' Q o'.
Proof.
  intros Hs Hi Hp. destruct p as [r|B m k].
  - exists (Ret r), (w.(w_fs) !! dest), w.(w_rng). by rewrite with_dest_same.
  - destruct (Hp w Hs eq_refl Hi) as (r & o' & g & E & Hr). cbn. rewrite E.
    destruct r as [b|e|u]; by eexists _, o', g.
Qed.

(** Undisturbed, the program ends as promised. *)
Lemma wp_perform {A} (p : prog world A) Q w :
  w.(w_fs) !! src = Some content -> in_place w.(w_dirs) dest -> wp p Q (w.(w_fs) !! dest) ->
  exists r o' g, perform p w = (r, with_dest o' w g) /\ Q r o'.
Proof.
  revert w. induction p as [r|B m k IH]; intros w Hs Hi Hp.
  - exists r, (w.(w_fs) !! dest), w.(w_rng). by rewrite with_dest_same.
  - destruct (Hp w Hs eq_refl Hi) as (r & o1 & g1 & E & Hr). cbn. unfold mbind, st_bind. rewrite E.
    destruct r as [b|e|u]; [|by exists (Throw e), o1, g1|by exists (UB u), o1, g1].
    destruct (IH b (with_dest o1 w g1)) as (r & o' & g & E' & HQ).
    + cbn. by rewrite lookup_partial_alter_ne.
    + done.
    + cbn. by rewrite lookup_partial_alter_eq.
    + exists r, o', g. split; [|done]. rewrite E'. unfold with_dest. cbn.
      by rewrite partial_alter_partial_alter_eq.
Qed.
End Wp.
