(* ===== verification/CryptoFile.v ===== *)
(** * Encrypted files

    [trustflow/proxy/utils/crypto_util.cc] (and [Bytes2Int] of
    [crypto_util.h]): a file is encrypted block by block into a container, a
    20-byte header followed by packets of an IV, a MAC and ciphertext.
    [EncryptFile] and [DecryptFile] are programs: tasks run them next to each
    other. *)

From S2P Require Import Prelude CppStd External Path YaclCrypto Tasks.

Definition kIvBytes : Z := 12.
Definition kMacBytes : Z := 16.
Definition kVersion : Z := 1.
Definition kSchema : Z := 1.
Definition kVersionBytes : nat := 4.
Definition kSchemaBytes : nat := 4.
Definition kBlockBytes : Z := 0x2000.
Definition kPacketCntBytes : nat := 8.
Definition kBlockLenBytes : nat := 4.
Definition kIvFieldBytes : nat := 32.
Definition kMacFieldBytes : nat := 32.
Definition kAes128KeyLen : nat := 16.
Definition kAes256KeyLen : nat := 32.
Definition kIvLenBytes : nat := 1.
Definition kMacLenBytes : nat := 1.

(** [Bytes2Int<T>] for an unsigned [T] of [sizeof_T] bytes.  The loop takes
    [bytes[len - i - 1]] for [i = 0, 1, ...]: the bytes from the last to the
    first. *)
Definition Bytes2Int (sizeof_T : nat) (bs : bytes) : outcome Z :=
  _ ← YACL_ENFORCE (bool_decide (length bs <= sizeof_T)%nat)
        "Converting bytes to integer overflow" [];
  mret (fold_left
          (fun ret b => Z.lor (Z.shiftl ret 8 mod 2 ^ (8 * Z.of_nat sizeof_T)) (byte.unsigned b))
          (rev bs) 0).

(** [&v[0]] for a vector [v] of [n] elements. *)
Definition address_of_first (n : nat) : outcome unit :=
  if decide (n = 0%nat) then UB "v[0] of an empty vector" else Ok tt.

Section Model.
Context `{FileIO} `{Rand} `{ByteView} `{Gcm}.

Abbreviation W := world.

Definition write (out : ostream) (bs : bytes) : st W ostream := fun w =>
  match Write out bs w.(w_fs) with
  | inl e => (Throw e, w)
  | inr (out, fs) => (Ok out, mk_world _ fs w.(w_dirs) w.(w_rng))
  end.

Definition open_out (path : string) : st W ostream := fun w =>
  match FileOutputStream w.(w_dirs) w.(w_fs) path with
  | inl e => (Throw e, w)
  | inr (out, fs) => (Ok out, mk_world _ fs w.(w_dirs) w.(w_rng))
  end.

Definition close_out (out : ostream) : st W unit := fun w =>
  match Close out w.(w_fs) with
  | inl e => (Throw e, w)
  | inr fs => (Ok tt, mk_world _ fs w.(w_dirs) w.(w_rng))
  end.

Definition close_in (inp : istream) : st W unit := pure (call (CloseIn inp)).

Definition open_in (path : string) : st W istream := fun w =>
  (call (FileInputStream w.(w_fs) path), w).

Definition read (inp : istream) (n : nat) : st W (bytes * istream) := fun w =>
  (call (Read inp n w.(w_fs)), w).

Definition rand_bytes (n : nat) (fast : bool) : st W bytes := fun w =>
  let '(bs, g) := RandBytes n fast w.(w_rng) in (Ok bs, mk_world _ w.(w_fs) w.(w_dirs) g).

Definition DecryptDataBlock (data_block data_key : bytes) : outcome bytes :=
  let bad := "Data block format is not correct" in
  let size := length data_block in
  _ ← YACL_ENFORCE (bool_decide (kIvLenBytes <= size)%nat) bad [];
  let offset := 0%nat in
  iv_len_field ← call (subspan data_block offset (Some kIvLenBytes));
  iv_len ← Bytes2Int 8 iv_len_field;
  let offset := (offset + kIvLenBytes)%nat in
  _ ← YACL_ENFORCE (bool_decide (offset + kIvFieldBytes <= size)%nat) bad [];
  iv ← call (subspan data_block offset (Some (Z.to_nat iv_len)));
  let offset := (offset + kIvFieldBytes)%nat in
  _ ← YACL_ENFORCE (bool_decide (offset + kMacLenBytes <= size)%nat) bad [];
  mac_len_field ← call (subspan data_block offset (Some kMacLenBytes));
  mac_len ← Bytes2Int 8 mac_len_field;
  let offset := (offset + kMacLenBytes)%nat in
  _ ← YACL_ENFORCE (bool_decide (offset + kMacFieldBytes <= size)%nat) bad [];
  mac ← call (subspan data_block offset (Some (Z.to_nat mac_len)));
  let offset := (offset + kMacFieldBytes)%nat in
  encrypted_data ← call (subspan data_block offset None);
  if decide (length data_key = kAes128KeyLen) then
    call (GcmDecrypt Aes128Gcm data_key iv encrypted_data [] mac (length encrypted_data))
  else if decide (length data_key = kAes256KeyLen) then
    call (GcmDecrypt Aes256Gcm data_key iv encrypted_data [] mac (length encrypted_data))
  else YACL_THROW "data_key size error got {}" [FInt (len data_key)].

Definition EncryptDataBlock (inp : istream) (out : ostream) (block_len : nat) (data_key : bytes)
    : prog W (istream * ostream) :=
  _ ← now (address_of_first block_len);
  '(raw_data, inp) ← op (read inp block_len);
  iv ← op (rand_bytes (Z.to_nat kIvBytes) true);
  '(encrypted_data, mac) ← now
    (if decide (length data_key = kAes128KeyLen) then
       call (GcmEncrypt Aes128Gcm data_key iv raw_data [] block_len (Z.to_nat kMacBytes))
     else if decide (length data_key = kAes256KeyLen) then
       call (GcmEncrypt Aes256Gcm data_key iv raw_data [] block_len (Z.to_nat kMacBytes))
     else YACL_THROW "data_key size error got {}" [FInt (len data_key)]);
  out ← op (write out (le_bytes kIvLenBytes kIvBytes));
  out ← op (write out iv);
  _ ← now (address_of_first (kIvFieldBytes - length iv));
  out ← op (write out (zero_bytes (kIvFieldBytes - length iv)));
  out ← op (write out (le_bytes kMacLenBytes kMacBytes));
  out ← op (write out mac);
  _ ← now (address_of_first (kMacFieldBytes - length mac));
  out ← op (write out (zero_bytes (kMacFieldBytes - length mac)));
  out ← op (write out encrypted_data);
  mret (inp, out).

(** The loop that reads, decrypts and writes [n] blocks of [block_len] bytes. *)
Fixpoint decrypt_blocks (n : nat) (block_len : nat) (inp : istream) (out : ostream)
    (data_key : bytes) : prog W (istream * ostream) :=
  match n with
  | O => mret (inp, out)
  | S n =>
      '(buf, inp) ← op (read inp block_len);
      decrypted_data ← now (DecryptDataBlock buf data_key);
      out ← op (write out decrypted_data);
      decrypt_blocks n block_len inp out data_key
  end.

Definition header_len : Z :=
  Z.of_nat (kVersionBytes + kSchemaBytes + kPacketCntBytes + kBlockLenBytes).

(** The part of [DecryptFile] after the header: the [packet_cnt - 1] full
    blocks, the last block, and the end. *)
Definition decrypt_packets (file_len packet_cnt block_len : Z) (inp : istream) (out : ostream)
    (data_key : bytes) : prog W unit :=
  '(inp, out) ← decrypt_blocks (Z.to_nat (packet_cnt - 1)) (Z.to_nat block_len) inp out data_key;
  let last_len := Z.to_nat (u64 (file_len - header_len - (packet_cnt - 1) * block_len)) in
  _ ← now (address_of_first last_len);
  '(buf, inp) ← op (read inp last_len);
  decrypted_data ← now (DecryptDataBlock buf data_key);
  out ← op (write out decrypted_data);
  _ ← op (close_out out);
  op (close_in inp).

Definition DecryptFile (src_path dest_path : string) (data_key : bytes) : prog W unit :=
  _ ← now (YACL_ENFORCE (negb (String.eqb src_path dest_path))
              "Inplace decryption is not allowed" []);
  inp ← op (open_in src_path);
  out ← op (open_out dest_path);
  let file_len := GetLength inp in
  _ ← now (YACL_ENFORCE (header_len <? file_len)
              "File length {} is less than required header length {}"
              [FInt file_len; FInt header_len]);
  inp ← now (call (Seekg inp (kVersionBytes + kSchemaBytes)));
  '(buf, inp) ← op (read inp kPacketCntBytes);
  packet_cnt ← now (Bytes2Int 8 buf);
  _ ← now (YACL_ENFORCE (1 <=? packet_cnt) "Packet cnt is less than 1" []);
  '(buf, inp) ← op (read inp kBlockLenBytes);
  block_len ← now (Bytes2Int 4 buf);
  _ ← now (YACL_ENFORCE (negb (block_len =? 0)) "block len should not be 0" []);
  _ ← now (YACL_ENFORCE (u64 ((packet_cnt - 1) * block_len) / block_len =? packet_cnt - 1)
              "uint64 overflow in DecryptFile" []);
  _ ← now (YACL_ENFORCE (u64 (packet_cnt * block_len) / block_len =? packet_cnt)
              "uint64 overflow in DecryptFile" []);
  _ ← now (YACL_ENFORCE (u64 ((packet_cnt - 1) * block_len) <=? u64 (file_len - header_len))
              "N - 1 Data block len is more than required file length" []);
  _ ← now (YACL_ENFORCE (u64 (file_len - header_len) <=? u64 (block_len * packet_cnt))
              "N Data block len is less than required file length" []);
  decrypt_packets file_len packet_cnt block_len inp out data_key.

Definition block_header_len : Z :=
  Z.of_nat (kIvLenBytes + kIvFieldBytes + kMacLenBytes + kMacFieldBytes).
Definition block_data_len : Z := u32 (kBlockBytes - block_header_len).

Fixpoint encrypt_blocks (n : nat) (inp : istream) (out : ostream) (data_key : bytes)
    : prog W (istream * ostream) :=
  match n with
  | O => mret (inp, out)
  | S n =>
      '(inp, out) ← EncryptDataBlock inp out (Z.to_nat block_data_len) data_key;
      encrypt_blocks n inp out data_key
  end.

(** The part of [EncryptFile] after the header. *)
Definition encrypt_packets (file_len packet_cnt : Z) (inp : istream) (out : ostream)
    (data_key : bytes) : prog W unit :=
  '(inp, out) ← encrypt_blocks (Z.to_nat (packet_cnt - 1)) inp out data_key;
  '(inp, out) ← EncryptDataBlock inp out
     (Z.to_nat (u32 (u64 (file_len - (packet_cnt - 1) * block_data_len)))) data_key;
  _ ← op (close_out out);
  op (close_in inp).

Definition EncryptFile (src_path dest_path : string) (data_key : bytes) : prog W unit :=
  _ ← now (YACL_ENFORCE (negb (String.eqb src_path dest_path))
              "Inplace encryption is not allowed" []);
  inp ← op (open_in src_path);
  let file_len := GetLength inp in
  let packet_cnt :=
    u64 (file_len / block_data_len + (if file_len mod block_data_len =? 0 then 0 else 1)) in
  _ ← now (YACL_ENFORCE (1 <=? packet_cnt) "Pack cnt less than 1" []);
  out ← op (open_out dest_path);
  out ← op (write out (le_bytes kVersionBytes kVersion));
  out ← op (write out (le_bytes kSchemaBytes kSchema));
  out ← op (write out (le_bytes kPacketCntBytes packet_cnt));
  out ← op (write out (le_bytes kBlockLenBytes kBlockBytes));
  encrypt_packets file_len packet_cnt inp out data_key.
End Model.

(** ** Integers in a header *)

Lemma Bytes2Int_le_int n bs : (length bs <= n)%nat -> Bytes2Int n bs = Ok (le_int bs).
Proof.
  intros Hn. unfold Bytes2Int. rewrite bind_enforce by (by apply bool_decide_eq_true_2).
  unfold mret, outcome_ret. f_equal. revert Hn.
  induction bs as [|b bs IH]; intros Hn; [done|]. cbn [rev length] in *.
  rewrite fold_left_app, IH by lia. cbn [fold_left].
  change (le_int (b :: bs)) with (Z.lor (byte.unsigned b) (Z.shiftl (le_int bs) 8)).
  rewrite Z.lor_comm, Z.mod_small; [done|].
  pose proof (le_int_range bs) as [Hlo Hhi]. unfold len in Hhi.
  rewrite Z.shiftl_mul_pow2 by lia. split; [lia|].
  apply Z.lt_le_trans with (2 ^ (8 * Z.of_nat (length bs)) * 2 ^ 8); [nia|].
  rewrite <- Z.pow_add_r by lia. apply Z.pow_le_mono_r; lia.
Qed.

Lemma Bytes2Int_Ok n bs z : Bytes2Int n bs = Ok z -> z = le_int bs.
Proof.
  intros Hb. destruct (decide (length bs <= n)%nat).
  - rewrite Bytes2Int_le_int in Hb by done. by injection Hb.
  - unfold Bytes2Int in Hb. by rewrite bind_enforce_fails in Hb by (by apply bool_decide_eq_false_2).
Qed.

Lemma Bytes2Int_defined n bs : defined (Bytes2Int n bs).
Proof. unfold Bytes2Int. solve_defined. Qed.

#[export] Hint Resolve Bytes2Int_defined : trustflow.

(** ** One block *)

Section Blocks.
Context `{ByteView} `{Gcm}.

Lemma bind_subspan `{!ByteViewLaws} {A} v pos n (k : bytes -> outcome A) :
  (pos <= length v)%nat ->
  (call (subspan v pos n) ≫= k) =
    k (match n with Some n => slice v pos n | None => drop pos v end).
Proof. intros. by rewrite subspan_ok. Qed.

(** The cipher the length of a key selects. *)
Definition alg_of_key (data_key : bytes) : option gcm_alg :=
  if decide (length data_key = 16%nat) then Some Aes128Gcm
  else if decide (length data_key = 32%nat) then Some Aes256Gcm
  else None.

Definition gcm_open (data_key iv encrypted_data mac : bytes) : outcome bytes :=
  match alg_of_key data_key with
  | Some alg => call (GcmDecrypt alg data_key iv encrypted_data [] mac (length encrypted_data))
  | None => YACL_THROW "data_key size error got {}" [FInt (len data_key)]
  end.

(** What the length bytes, the fields and the rest of a block are. *)
Lemma DecryptDataBlock_long `{!ByteViewLaws} b key :
  (66 <= length b)%nat ->
  DecryptDataBlock b key =
    gcm_open key (slice b 1 (Z.to_nat (le_int (slice b 0 1)))) (drop 66 b)
      (slice b 34 (Z.to_nat (le_int (slice b 33 1)))).
Proof.
  intros Hl. unfold DecryptDataBlock.
  unfold kIvLenBytes, kIvFieldBytes, kMacLenBytes, kMacFieldBytes, kAes128KeyLen, kAes256KeyLen.
  cbn [Nat.add].
  repeat first [ rewrite bind_enforce_dec by lia | rewrite bind_subspan by lia
               | rewrite Bytes2Int_le_int, bind_Ok_l by (rewrite length_slice; lia) ].
  unfold gcm_open, alg_of_key. by repeat case_decide.
Qed.

Lemma DecryptDataBlock_short `{!ByteViewLaws} b key :
  (length b < 66)%nat -> is_throw (DecryptDataBlock b key) = true.
Proof.
  intros Hl. unfold DecryptDataBlock.
  unfold kIvLenBytes, kIvFieldBytes, kMacLenBytes, kMacFieldBytes. cbn [Nat.add].
  repeat first
    [ match goal with |- is_throw (YACL_ENFORCE (bool_decide ?P) _ _ ≫= _) = true =>
        destruct (decide P);
        [rewrite bind_enforce_dec by done
        |by rewrite bind_enforce_fails by (by apply bool_decide_eq_false_2)] end
    | rewrite bind_subspan by lia
    | rewrite Bytes2Int_le_int, bind_Ok_l by (rewrite length_slice; lia) ].
  lia.
Qed.

(** The packet [EncryptDataBlock] writes. *)
Definition packet (iv mac encrypted_data : bytes) : bytes :=
  le_bytes 1 kIvBytes ++ iv ++ zero_bytes (32 - length iv) ++
  le_bytes 1 kMacBytes ++ mac ++ zero_bytes (32 - length mac) ++ encrypted_data.

Lemma length_packet iv mac data :
  length iv = 12%nat -> length mac = 16%nat -> length (packet iv mac data) = (66 + length data)%nat.
Proof.
  intros Hi Hm. unfold packet, zero_bytes.
  rewrite !length_app, !length_replicate, !length_le_bytes. lia.
Qed.

Lemma DecryptDataBlock_packet `{!ByteViewLaws} iv mac data key :
  length iv = 12%nat -> length mac = 16%nat ->
  DecryptDataBlock (packet iv mac data) key = gcm_open key iv data mac.
Proof.
  intros Hi Hm. rewrite DecryptDataBlock_long by (rewrite length_packet; lia).
  assert (slice (packet iv mac data) 0 1 = le_bytes 1 kIvBytes) as -> by done.
  assert (slice (packet iv mac data) 33 1 = le_bytes 1 kMacBytes) as ->.
  { unfold packet. rewrite !(app_assoc _ iv), (app_assoc _ (zero_bytes _)).
    apply slice_mid; [|done]. unfold zero_bytes.
    rewrite !length_app, length_replicate, length_le_bytes. lia. }
  rewrite !le_int_bytes by (vm_compute; intuition discriminate).
  change (Z.to_nat kIvBytes) with 12%nat. change (Z.to_nat kMacBytes) with 16%nat.
  f_equal.
  - unfold packet. by apply slice_mid.
  - unfold packet. rewrite !(app_assoc _ _ data). apply drop_app_length'.
    unfold zero_bytes. rewrite !length_app, !length_replicate, !length_le_bytes. lia.
  - unfold packet. rewrite !(app_assoc _ iv), (app_assoc _ (zero_bytes _)), (app_assoc _ (le_bytes 1 kMacBytes)).
    apply slice_mid; [|done]. unfold zero_bytes.
    rewrite !length_app, length_replicate, !length_le_bytes. lia.
Qed.
End Blocks.

(** ** Whole files *)

(** [chunks n len data] is the first [n] blocks of [len] bytes. *)
Fixpoint chunks (n len : nat) (data : bytes) : list bytes :=
  match n with
  | O => []
  | S n => take len data :: chunks n len (drop len data)
  end.

Lemma chunks_app n k blocks rest :
  Forall (fun b => length b = k) blocks -> n = length blocks ->
  chunks n k (concat blocks ++ rest) = blocks.
Proof.
  intros Hb ->. induction Hb as [|b blocks Hb Hbs IH]; [done|]. cbn.
  rewrite <- app_assoc, take_app_length', drop_app_length' by done. by rewrite IH.
Qed.

Lemma length_concat_blocks k (blocks : list bytes) :
  Forall (fun b => length b = k) blocks -> length (concat blocks) = (length blocks * k)%nat.
Proof. induction 1 as [|b bs Hb _ IH]; [done|]. cbn. rewrite length_app. lia. Qed.

(** ** The operations on streams, among other tasks *)

Section Rules.
Context `{FL : FileIOLaws} `{RL : RandLaws}.
Variable src dest : string.
Variable content : bytes.

Abbreviation WP := (wp src dest content).

Lemma wp_open_in {A} (k : istream -> prog world A) Q o :
  (forall inp, reads inp src 0 -> GetLength inp = len content -> WP (k inp) Q o) ->
  WP (op (open_in src) ≫= k) Q o.
Proof.
  intros Hk. apply wp_op. intros w Hs Hd Hpl.
  destruct (FileInputStream_ok _ _ _ Hs) as (inp & E & Hr & Hl).
  exists inp, o, w.(w_rng). rewrite with_dest_same by done. unfold open_in. rewrite E. auto.
Qed.

Lemma wp_read {A} inp pos n (k : bytes * istream -> prog world A) Q o :
  reads inp src pos -> (pos + n <= length content)%nat ->
  (forall inp', reads inp' src (pos + n) -> WP (k (slice content pos n, inp')) Q o) ->
  WP (op (read inp n) ≫= k) Q o.
Proof.
  intros [<- <-] Hn Hk. apply wp_op. intros w Hs Hd Hpl.
  destruct (Read_ok inp n _ _ Hs Hn) as (inp' & E & Hr).
  exists (slice content (in_pos inp) n, inp'), o, w.(w_rng). rewrite with_dest_same by done.
  unfold read. rewrite E. auto.
Qed.

Lemma wp_rand {A} n fast (k : bytes -> prog world A) Q o :
  (forall bs, length bs = n -> WP (k bs) Q o) -> WP (op (rand_bytes n fast) ≫= k) Q o.
Proof.
  intros Hk. apply wp_op. intros w Hs Hd Hpl. unfold rand_bytes.
  pose proof (length_RandBytes n fast w.(w_rng)) as Hl.
  destruct (RandBytes n fast w.(w_rng)) as [bs g]. exists bs, o, g. split; [|auto].
  unfold with_dest. by rewrite partial_alter_id.
Qed.

Lemma wp_open_out {A} (k : ostream -> prog world A) Q o :
  permitted dest -> (forall out, wrote out dest [] -> WP (k out) Q (Some [])) ->
  WP (op (open_out dest) ≫= k) Q o.
Proof.
  intros Hwr Hk. apply wp_op. intros w Hs Hd Hpl.
  destruct (FileOutputStream_ok w.(w_dirs) w.(w_fs) dest (conj Hwr Hpl)) as (out & E & Ho).
  exists out, (Some []), w.(w_rng). unfold open_out. rewrite E. auto.
Qed.

Lemma wp_write {A} out c bs (k : ostream -> prog world A) Q :
  wrote out dest c -> (forall out', wrote out' dest (c ++ bs) -> WP (k out') Q (Some (c ++ bs))) ->
  WP (op (write out bs) ≫= k) Q (Some c).
Proof.
  intros [<- Hp] Hk. apply wp_op. intros w Hs Hd Hpl. destruct (Write_ok out bs _ _ Hd Hp) as (out' & E & Ho).
  exists out', (Some (c ++ bs)), w.(w_rng). unfold write. rewrite E. auto.
Qed.

Lemma wp_close out inp Q o :
  Q (Ok tt) o -> WP (_ ← op (close_out out); op (close_in inp)) Q o.
Proof.
  intros HQ. apply wp_op. intros w Hs Hd Hpl. exists tt, o, w.(w_rng). rewrite with_dest_same by done.
  unfold close_out. rewrite Close_ok. split; [by destruct w|]. clear dependent w. intros w Hs Hd _.
  exists (Ok tt), o, w.(w_rng). rewrite with_dest_same by done.
  unfold close_in, pure. by rewrite CloseIn_ok.
Qed.
End Rules.

(** [wp_writes] passes the writes at the head of the goal. *)
Ltac wp_writes :=
  repeat match goal with
  | |- wp _ _ _ (op (write _ _) ≫= _) _ (Some _) =>
      let out := fresh "out" in let Ho := fresh "Ho" in
      eapply wp_write; [eassumption|]; intros out Ho
  | Hn : (?n <> 0)%nat |- wp _ _ _ (now (address_of_first ?n) ≫= _) _ _ =>
      rewrite (now_bind _ _ tt) by (unfold address_of_first; by rewrite decide_False)
  end.

Section Files.
Context `{FL : FileIOLaws} `{RL : RandLaws} `{BL : ByteViewLaws} `{GL : GcmLaws}.

Abbreviation W := world.

(** A packet of the plaintext [p], byte by byte: the length of the IV, the IV in a
    field of 32 bytes, the length of the MAC, the MAC in a field of 32 bytes, and
    a ciphertext that AES-GCM opens with them. *)
Definition opens_to (key b p : bytes) : Prop :=
  (66 <= length b)%nat /\ exists alg, alg_of_key key = Some alg /\
  let iv_len := Z.to_nat (le_int (slice b 0 1)) in
  let mac_len := Z.to_nat (le_int (slice b 33 1)) in
  GcmDecrypt alg key (slice b 1 iv_len) (drop 66 b) [] (slice b 34 mac_len) (length (drop 66 b)) = inr p.

(** [DecryptDataBlock] reads such packets. *)
Lemma DecryptDataBlock_opens key b p : DecryptDataBlock b key = Ok p <-> opens_to key b p.
Proof.
  unfold opens_to. destruct (decide (66 <= length b)%nat) as [Hl|Hl].
  - rewrite DecryptDataBlock_long by done. unfold gcm_open.
    destruct (alg_of_key key) as [alg|]; [|split; [done|by intros (_ & ? & [=] & _)]]. rewrite call_Ok.
    split; [intros E; split; [done|by exists alg]|by intros (_ & alg' & [= <-] & E)].
  - split; [|by intros [? _]]. intros E. pose proof (DecryptDataBlock_short b key ltac:(lia)) as Ht.
    by rewrite E in Ht.
Qed.

(** The world differs from [w] only in what [path] holds and in the generator. *)
Definition only_file (w w' : W) (path : string) (content : bytes) : Prop :=
  w'.(w_fs) = <[path := content]> w.(w_fs) /\ w'.(w_dirs) = w.(w_dirs).

(** The header and the bytes of a container. *)
Definition header (packet_cnt block_len : Z) : bytes :=
  le_bytes 4 kVersion ++ le_bytes 4 kSchema ++ le_bytes 8 packet_cnt ++ le_bytes 4 block_len.

(** The number of packets for a plaintext of [n] bytes. *)
Definition packets (n : Z) : Z :=
  n / block_data_len + (if n mod block_data_len =? 0 then 0 else 1).

Lemma block_data_len_eq : block_data_len = 8126.
Proof. reflexivity. Qed.

Lemma packets_bounds n : 0 < n ->
  1 <= packets n /\ (packets n - 1) * block_data_len < n <= packets n * block_data_len.
Proof.
  intros Hn. unfold packets. rewrite block_data_len_eq.
  pose proof (Z.div_mod n 8126 ltac:(lia)). pose proof (Z.mod_pos_bound n 8126 ltac:(lia)).
  destruct (Z.eqb_spec (n mod 8126) 0); lia.
Qed.

(** *** Encryption *)

Section Encryption.
Variable src dest : string.
Variable content key : bytes.

Abbreviation WP := (wp src dest content).

(** A packet of the next [n] bytes has been written. *)
Definition block_written (pos n : nat) (c : bytes) (r : outcome (istream * ostream))
    (o : option bytes) : Prop :=
  exists inp out b, r = Ok (inp, out) /\ o = Some (c ++ b) /\ reads inp src (pos + n) /\
    wrote out dest (c ++ b) /\ length b = (66 + n)%nat /\ opens_to key b (slice content pos n).

Lemma wp_EncryptDataBlock inp out pos n c alg :
  (0 < n)%nat -> (pos + n <= length content)%nat -> alg_of_key key = Some alg ->
  reads inp src pos -> wrote out dest c ->
  WP (EncryptDataBlock inp out n key) (block_written pos n c) (Some c).
Proof.
  intros Hn Hin Hkey Hinp Hout. unfold EncryptDataBlock. assert (n <> 0)%nat by lia. wp_writes.
  eapply wp_read; [done..|]. intros inp' Hinp'. set (raw := slice _ _ _).
  assert (length raw = n) as Hraw by (by apply length_slice).
  apply wp_rand. intros iv Hiv. change (Z.to_nat kIvBytes) with 12%nat in Hiv.
  assert (length key = gcm_key_len alg) as Hklen.
  { unfold alg_of_key in Hkey. repeat case_decide; by simplify_eq. }
  destruct (GcmEncrypt_ok alg key iv raw [] Hklen Hiv) as (ct & mac & Henc & Hct & Hmac & Hdec).
  rewrite (now_bind _ _ (ct, mac)).
  2: { rewrite Hraw in Henc. change (Z.to_nat kMacBytes) with 16%nat.
       unfold alg_of_key in Hkey. unfold kAes128KeyLen, kAes256KeyLen.
       repeat case_decide; simplify_eq; by rewrite Henc. }
  assert (kIvFieldBytes - length iv <> 0)%nat by (cbn; lia).
  assert (kMacFieldBytes - length mac <> 0)%nat by (cbn; lia).
  wp_writes. eexists inp', _, (packet iv mac ct). split; [reflexivity|].
  unfold packet. rewrite !app_assoc in *. split; [done|]. split; [done|]. split; [done|].
  rewrite <- !app_assoc. fold (packet iv mac ct).
  split; [rewrite length_packet by done; lia|].
  apply DecryptDataBlock_opens. rewrite DecryptDataBlock_packet by done. unfold gcm_open. by rewrite Hkey, Hdec.
Qed.

(** [n] full packets have been written. *)
Definition blocks_written (pos n : nat) (c : bytes) (r : outcome (istream * ostream))
    (o : option bytes) : Prop :=
  exists inp out blocks plains, r = Ok (inp, out) /\ o = Some (c ++ concat blocks) /\
    reads inp src (pos + n * Z.to_nat block_data_len) /\ wrote out dest (c ++ concat blocks) /\
    length blocks = n /\ Forall (fun b => length b = Z.to_nat kBlockBytes) blocks /\
    Forall2 (opens_to key) blocks plains /\
    concat plains = slice content pos (n * Z.to_nat block_data_len).

Lemma wp_encrypt_blocks n inp out pos c alg :
  (pos + n * Z.to_nat block_data_len <= length content)%nat -> alg_of_key key = Some alg ->
  reads inp src pos -> wrote out dest c ->
  WP (encrypt_blocks n inp out key) (blocks_written pos n c) (Some c).
Proof.
  intros Hin Hkey. revert inp out pos c Hin. induction n as [|n IH]; intros inp out pos c Hin Hinp Hout.
  { exists inp, out, [], []. cbn. unfold slice. rewrite app_nil_r, Nat.add_0_r.
    do 6 (split; [done|]). split; [constructor|done]. }
  assert (0 < Z.to_nat block_data_len)%nat as Hpos by (vm_compute; lia).
  cbn [encrypt_blocks]. eapply wp_bind; [eapply (wp_EncryptDataBlock _ _ pos); [done|lia|done..]|].
  intros r o (inp1 & out1 & b & -> & -> & Hinp1 & Hout1 & Hlen & Hdec). unfold wp_rest.
  eapply wp_mono; [|apply IH; [|exact Hinp1|exact Hout1]; lia].
  intros r o (inp2 & out2 & blocks & plains & -> & -> & Hinp2 & Hout2 & Hn & Hbl & Hf & Hcat).
  exists inp2, out2, (b :: blocks), (slice content pos (Z.to_nat block_data_len) :: plains).
  cbn [concat]. rewrite app_assoc. split; [done|]. split; [done|]. split.
  { by replace (pos + S n * _)%nat with (pos + Z.to_nat block_data_len + n * Z.to_nat block_data_len)%nat by lia. }
  split; [done|]. split; [cbn; lia|]. split; [constructor; [rewrite Hlen; by vm_compute|done]|].
  split; [by constructor|]. rewrite Hcat. unfold slice.
  by rewrite <- drop_drop, take_take_drop.
Qed.

(** What [EncryptFile] leaves in the destination. *)
Definition file_written (r : outcome unit) (o : option bytes) : Prop :=
  exists blocks last plains lastp, r = Ok tt /\
    o = Some (header (packets (len content)) kBlockBytes ++ concat blocks ++ last) /\
    Z.of_nat (length blocks) = packets (len content) - 1 /\
    Forall (fun b => length b = Z.to_nat kBlockBytes) blocks /\
    (66 < length last <= Z.to_nat kBlockBytes)%nat /\
    length last = (66 + length lastp)%nat /\
    Forall2 (opens_to key) (blocks ++ [last]) (plains ++ [lastp]) /\
    content = concat plains ++ lastp.

Lemma wp_encrypt_packets inp out alg :
  0 < len content < 2 ^ 63 -> alg_of_key key = Some alg -> reads inp src 0 ->
  wrote out dest (header (packets (len content)) kBlockBytes) ->
  WP (encrypt_packets (len content) (packets (len content)) inp out key) file_written
    (Some (header (packets (len content)) kBlockBytes)).
Proof.
  intros Hlen Hkey Hinp Hout. unfold encrypt_packets, file_written.
  pose proof (packets_bounds (len content) ltac:(lia)) as (Hp1 & Hp2 & Hp3).
  set (n := packets (len content)) in *. rewrite block_data_len_eq in *.
  eapply wp_bind; [eapply (wp_encrypt_blocks _ _ _ 0); [|done..]; rewrite block_data_len_eq; unfold len in *; lia|].
  intros r o (inpB & outB & blocks & plains & -> & -> & HinpB & HoutB & Hn & Hbl & Hf & Hcat).
  unfold wp_rest. rewrite block_data_len_eq in *.
  set (L := len content - (n - 1) * 8126). assert (0 < L <= 8126) as HL by (subst L; lia).
  rewrite (u64_small L), (u32_small L) by lia.
  eapply wp_bind; [eapply wp_EncryptDataBlock; [lia| |done|exact HinpB|exact HoutB]; unfold len in *; lia|].
  intros r o (inpC & outC & last & -> & -> & _ & _ & Hll & Hdec). apply wp_close.
  exists blocks, last, plains, (drop (Z.to_nat (n - 1) * Z.to_nat 8126) content).
  assert (slice content (Z.to_nat (n - 1) * Z.to_nat 8126) (Z.to_nat L)
          = drop (Z.to_nat (n - 1) * Z.to_nat 8126) content) as Hlast.
  { unfold slice. apply take_ge. rewrite length_drop. subst L. unfold len in *. lia. }
  cbn [Nat.add] in *. rewrite Hlast in Hdec.
  split; [done|]. split; [by rewrite <- app_assoc|]. split; [lia|]. split; [done|].
  split; [unfold kBlockBytes; lia|].
  split; [rewrite Hll, length_drop; subst L; unfold len in *; lia|].
  split; [apply Forall2_app; [done|by constructor]|].
  rewrite Hcat. unfold slice. by rewrite drop_0, take_drop.
Qed.

(** [EncryptFile] up to the header. *)
Lemma wp_EncryptFile_header Q o :
  src <> dest -> permitted dest -> 0 < len content < 2 ^ 63 ->
  (forall inp out, reads inp src 0 -> wrote out dest (header (packets (len content)) kBlockBytes) ->
     WP (encrypt_packets (len content) (packets (len content)) inp out key) Q
       (Some (header (packets (len content)) kBlockBytes))) ->
  WP (EncryptFile src dest key) Q o.
Proof.
  intros Hne Hwr Hlen Hk. unfold EncryptFile.
  rewrite now_enforce, (proj2 (String.eqb_neq src dest)) by done. cbn [negb].
  apply wp_open_in. intros inp Hinp ->. cbv zeta. fold (packets (len content)).
  pose proof (packets_bounds (len content) ltac:(lia)) as (Hp1 & Hp2 & Hp3).
  rewrite block_data_len_eq in Hp2, Hp3. rewrite (u64_small (packets _)) by lia.
  rewrite now_enforce, (proj2 (Z.leb_le 1 _)) by done.
  apply wp_open_out; [done|]. intros out Hout. wp_writes.
  rewrite <- !app_assoc in *. cbn [app] in *. by apply Hk.
Qed.

Lemma wp_EncryptFile alg o :
  src <> dest -> permitted dest -> alg_of_key key = Some alg -> 0 < len content < 2 ^ 63 ->
  WP (EncryptFile src dest key) file_written o.
Proof.
  intros Hne Hwr Hkey Hlen. apply wp_EncryptFile_header; [done..|]. intros inp out Hinp Hout.
  by eapply wp_encrypt_packets.
Qed.

(** *** Keys of the wrong length *)

Definition key_refused {A} (c : bytes) (r : outcome A) (o : option bytes) : Prop :=
  r = Throw (mk_exn RuntimeError "data_key size error got {}" [FInt (len key)]) /\ o = Some c.

Lemma wp_EncryptDataBlock_bad_key inp out pos n c :
  (0 < n)%nat -> (pos + n <= length content)%nat -> alg_of_key key = None -> reads inp src pos ->
  WP (EncryptDataBlock inp out n key) (key_refused c) (Some c).
Proof.
  intros Hn Hin Hkey Hinp. unfold EncryptDataBlock. assert (n <> 0)%nat by lia. wp_writes.
  eapply wp_read; [done..|]. intros inp' _. apply wp_rand. intros iv _.
  unfold alg_of_key in Hkey. unfold kAes128KeyLen, kAes256KeyLen. by repeat case_decide.
Qed.

Lemma wp_encrypt_packets_bad_key inp out c :
  0 < len content < 2 ^ 63 -> alg_of_key key = None -> reads inp src 0 ->
  WP (encrypt_packets (len content) (packets (len content)) inp out key) (key_refused c) (Some c).
Proof.
  intros Hlen Hkey Hinp. unfold encrypt_packets.
  pose proof (packets_bounds (len content) ltac:(lia)) as (Hp1 & Hp2 & Hp3).
  rewrite block_data_len_eq in *.
  destruct (Z.to_nat (packets (len content) - 1)) as [|m] eqn:Hm; cbn [encrypt_blocks].
  - replace (packets (len content)) with 1 in * by lia.
    change (WP ('(inp1, out1) ← EncryptDataBlock inp out
      (Z.to_nat (u32 (u64 (len content - (1 - 1) * 8126)))) key; _ ← op (close_out out1); op (close_in inp1))
      (key_refused c) (Some c)).
    rewrite u64_small, u32_small by lia.
    eapply wp_bind; [by eapply (wp_EncryptDataBlock_bad_key _ _ 0 _ c); [lia|unfold len in *; lia|..]|].
    intros r o [-> ->]. by split.
  - eapply wp_bind; [eapply wp_bind|].
    + by eapply (wp_EncryptDataBlock_bad_key _ _ 0 _ c); [vm_compute; lia|rewrite block_data_len_eq; unfold len in *; lia|..].
    + intros r o [-> ->]. cbn. by instantiate (1 := key_refused c).
    + intros r o [-> ->]. by split.
Qed.
End Encryption.

Lemma EncryptFile_ok src dest key w content alg :
  src <> dest -> w.(w_fs) !! src = Some content -> writable w.(w_dirs) dest ->
  alg_of_key key = Some alg -> 0 < len content < 2 ^ 63 ->
  exists w' c, perform (EncryptFile src dest key) w = (Ok tt, w') /\ only_file w w' dest c /\
    file_written content key (Ok tt) (Some c).
Proof.
  intros Hne Hsrc [Hpm Hpl] Hkey Hlen.
  destruct (wp_perform src dest content Hne (EncryptFile src dest key) (file_written content key) w)
    as (r & o & g & E & HQ); [done|done|by eapply wp_EncryptFile|].
  pose proof HQ as (? & ? & ? & ? & -> & -> & _). by eexists _, _.
Qed.

(** *** Decryption *)

Lemma decrypts_or_throws key b : (exists p, opens_to key b p) \/ (exists e, DecryptDataBlock b key = Throw e).
Proof.
  destruct (decide (66 <= length b)%nat) as [Hl|Hl].
  - setoid_rewrite <- DecryptDataBlock_opens. rewrite DecryptDataBlock_long by done. unfold gcm_open.
    destruct (alg_of_key key) as [alg|]; [|right; by eexists].
    unfold call. case_match; eauto.
  - pose proof (DecryptDataBlock_short b key ltac:(lia)) as Ht.
    destruct (DecryptDataBlock b key); cbn in Ht; eauto; done.
Qed.

(** Decryption drops the 66 bytes of IV, MAC and lengths. *)
Lemma decrypts_length key b p : opens_to key b p -> length b = (66 + length p)%nat.
Proof. intros (Hl & alg & _ & ->%GcmDecrypt_length). rewrite length_drop. lia. Qed.

Lemma decrypts_length_all key bs ps :
  Forall2 (opens_to key) bs ps -> length (concat bs) = (66 * length bs + length (concat ps))%nat.
Proof.
  induction 1 as [|b p bs ps Hb%decrypts_length _ IH]; [done|]. cbn. rewrite !length_app. lia.
Qed.

Lemma decrypts_Throw key b e : DecryptDataBlock b key = Throw e -> forall p, ~ opens_to key b p.
Proof. intros E p Hp%DecryptDataBlock_opens. congruence. Qed.

(** [n] blocks from [pos] on all decrypt, and their plaintexts are appended, or
    the first that does not ends the loop with an exception. *)
Definition blocks_read (src dest : string) (content key : bytes) (pos n k : nat) (c : bytes)
    (r : outcome (istream * ostream)) (o : option bytes) : Prop :=
  let blocks := chunks n k (drop pos content) in
  (exists inp out plains, r = Ok (inp, out) /\ o = Some (c ++ concat plains) /\
     reads inp src (pos + n * k) /\ wrote out dest (c ++ concat plains) /\
     Forall2 (opens_to key) blocks plains) \/
  (is_throw r = true /\ is_Some o /\ ~ exists plains, Forall2 (opens_to key) blocks plains).

Lemma wp_decrypt_blocks src dest content key n k inp out pos c :
  (pos + n * k <= length content)%nat -> reads inp src pos -> wrote out dest c ->
  wp src dest content (decrypt_blocks n k inp out key)
    (blocks_read src dest content key pos n k c) (Some c).
Proof.
  revert inp out pos c. induction n as [|n IH]; intros inp out pos c Hin Hinp Hout.
  { left. exists inp, out, []. cbn. rewrite app_nil_r, Nat.add_0_r. do 4 (split; [done|]). constructor. }
  cbn [decrypt_blocks]. eapply wp_read; [done|lia|]. intros inp1 Hinp1. unfold slice.
  destruct (decrypts_or_throws key (take k (drop pos content))) as [[p Hp]|[e He]].
  - rewrite (now_bind _ _ p) by (by apply DecryptDataBlock_opens). apply wp_write; [done|]. intros out1 Hout1.
    eapply wp_mono; [|apply IH; [|exact Hinp1|exact Hout1]; lia].
    intros r o [(inp2 & out2 & plains & -> & -> & Hinp2 & Hout2 & Hf)|(Ht & Ho & Hno)];
      rewrite <- drop_drop in *; [left|right].
    + exists inp2, out2, (p :: plains). cbn [chunks concat]. rewrite app_assoc.
      replace (pos + S n * k)%nat with (pos + k + n * k)%nat by lia.
      split; [done|]. split; [done|]. split; [done|]. split; [done|]. by constructor.
    + split; [done|]. split; [done|]. intros (ps & Hps). apply Hno. inversion Hps; subst. by eexists.
  - rewrite (now_throw _ _ _ He). right. split; [done|]. split; [by eexists|].
    intros (ps & Hps). inversion Hps; subst. by eapply decrypts_Throw.
Qed.

(** The blocks of a container of [n] packets of [bl] bytes. *)
Definition blocks_of (n bl : Z) (content : bytes) : list bytes :=
  let body := drop 20 content in
  chunks (Z.to_nat (n - 1)) (Z.to_nat bl) body ++
  [drop (Z.to_nat (n - 1) * Z.to_nat bl) body].

Definition packet_cnt_of (content : bytes) : Z := le_int (slice content 8 8).
Definition block_len_of (content : bytes) : Z := le_int (slice content 16 4).

(** The container format: a file that holds the encryption of [plain]. *)
Definition container (key content plain : bytes) : Prop :=
  let n := packet_cnt_of content in
  let bl := block_len_of content in
  20 < len content /\ 1 <= n /\ 0 < bl /\
  (n - 1) * bl < len content - 20 <= n * bl /\
  exists plains, Forall2 (opens_to key) (blocks_of n bl content) plains /\ plain = concat plains.

(** On 64-bit integers the guards of [DecryptFile] mean what they would mean on
    unbounded ones. *)
Lemma length_guards n bl L : 1 <= n -> 0 < bl < 2 ^ 32 -> 0 <= L < 2 ^ 63 ->
  (u64 ((n - 1) * bl) / bl =? n - 1) && (u64 (n * bl) / bl =? n) &&
  (u64 ((n - 1) * bl) <=? u64 L) && (u64 L <=? u64 (bl * n)) =
  ((n - 1) * bl <=? L) && (L <=? n * bl).
Proof.
  intros Hn Hbl HL. rewrite !u64_mul_div_check by lia. rewrite (u64_small L) by lia.
  rewrite (Z.mul_comm bl n).
  destruct (Z.ltb_spec (n * bl) (2 ^ 64)) as [Hs|Hs].
  - rewrite (proj2 (Z.ltb_lt _ _)) by nia. cbn. by rewrite !u64_small by nia.
  - rewrite andb_false_r. cbn. symmetry. apply andb_false_iff. left. apply Z.leb_gt. nia.
Qed.

(** The packets have been decrypted, or they are not all authentic. *)
Definition packets_read (content key : bytes) (n bl : Z) (r : outcome unit) (o : option bytes) : Prop :=
  let good := fun plains => (n - 1) * bl < len content - 20 /\
    Forall2 (opens_to key) (blocks_of n bl content) plains in
  (exists plains, good plains /\ r = Ok tt /\ o = Some (concat plains)) \/
  (is_ok r = false /\ is_Some o /\ ~ exists plains, good plains).

(** The packets of a container whose header fits its length. *)
Lemma wp_decrypt_packets src dest content key n bl inp out :
  reads inp src 20 -> wrote out dest [] -> 1 <= n -> 0 < bl -> 20 < len content < 2 ^ 63 ->
  (n - 1) * bl <= len content - 20 ->
  wp src dest content (decrypt_packets (len content) n bl inp out key)
    (packets_read content key n bl) (Some []).
Proof.
  intros Hinp Hout Hn Hbl Hlen Hfit. unfold decrypt_packets, packets_read, blocks_of. cbv zeta.
  assert (Z.to_nat (n - 1) * Z.to_nat bl = Z.to_nat ((n - 1) * bl))%nat as Hmul by nia.
  eapply wp_bind; [apply (wp_decrypt_blocks _ _ _ _ _ _ _ _ 20 []); [unfold len in *; lia|done..]|].
  set (body := drop 20 content).
  assert (length body = Z.to_nat (len content - 20)) as Hbody.
  { subst body. rewrite length_drop. unfold len. lia. }
  intros r o [(inp2 & out2 & plains & -> & -> & Hinp2 & Hout2 & Hf)|(Ht & Ho & Hno)].
  2: { destruct r as [?|e|?]; [done| |done]. right. split; [done|]. split; [done|].
       intros (ps & _ & Hps). apply Hno.
       apply Forall2_app_inv_l in Hps as (ps1 & ps2 & Hps1 & _). by eexists. }
  unfold wp_rest. replace (len content - header_len) with (len content - 20) by done.
  rewrite u64_small, Hmul in * by nia.
  destruct (decide ((n - 1) * bl = len content - 20)) as [Heq|Hneq].
  { rewrite Heq, Z.sub_diag. apply (wp_ret _ _ _ (UB _)). right. split; [done|]. split; [by eexists|]. intros (? & ? & _). lia. }
  assert (0 <= (n - 1) * bl) as Hnn by nia.
  set (last_len := Z.to_nat (len content - 20 - (n - 1) * bl)).
  assert (last_len <> 0)%nat by lia. wp_writes.
  eapply wp_read; [exact Hinp2|subst last_len; unfold len in *; lia|]. intros inp3 _.
  assert (slice content (20 + Z.to_nat ((n - 1) * bl)) last_len
          = drop (Z.to_nat ((n - 1) * bl)) body) as ->.
  { subst body. unfold slice. rewrite drop_drop. apply take_ge. rewrite length_drop.
    subst last_len. unfold len in *. lia. }
  destruct (decrypts_or_throws key (drop (Z.to_nat ((n - 1) * bl)) body)) as [[p Hp]|[e He]].
  - rewrite (now_bind _ _ p) by (by apply DecryptDataBlock_opens). wp_writes. apply wp_close. left. exists (plains ++ [p]).
    rewrite concat_app. cbn. rewrite app_nil_r. split; [|done]. split; [lia|]. by apply Forall2_app; auto.
  - rewrite (now_throw _ _ _ He). right. split; [done|]. split; [by eexists|].
    intros (ps & _ & Hps). apply Forall2_app_inv_l in Hps as (ps1 & ps2 & _ & Hps2 & _).
    inversion Hps2; subst. by eapply decrypts_Throw.
Qed.

Lemma header_fields_range content : 20 < len content ->
  0 <= packet_cnt_of content < 2 ^ 64 /\ 0 <= block_len_of content < 2 ^ 32.
Proof.
  intros Hl. unfold packet_cnt_of, block_len_of.
  pose proof (le_int_range (slice content 8 8)) as H8.
  pose proof (le_int_range (slice content 16 4)) as H4.
  unfold len in *. rewrite length_slice in H8, H4 by lia. cbn in *. lia.
Qed.

(** The destination holds the plaintext of the container, or there is none. *)
Definition file_read (content key : bytes) (r : outcome unit) (o : option bytes) : Prop :=
  (exists plain, container key content plain /\ r = Ok tt /\ o = Some plain) \/
  (is_ok r = false /\ is_Some o /\ ~ exists plain, container key content plain).

(** The header fields, where the code reads them. *)
Lemma packet_cnt_read content : Bytes2Int 8 (slice content 8 kPacketCntBytes) = Ok (packet_cnt_of content).
Proof. apply Bytes2Int_le_int. unfold slice. rewrite length_take. unfold kPacketCntBytes. lia. Qed.

Lemma block_len_read content : Bytes2Int 4 (slice content 16 kBlockLenBytes) = Ok (block_len_of content).
Proof. apply Bytes2Int_le_int. unfold slice. rewrite length_take. unfold kBlockLenBytes. lia. Qed.

(** The checks of a header that has been read, and what follows. *)
Lemma wp_decrypt_checked src dest content key inp out :
  let n := packet_cnt_of content in
  let bl := block_len_of content in
  reads inp src 20 -> wrote out dest [] -> 1 <= n -> 20 < len content < 2 ^ 63 ->
  wp src dest content
    (_ ← now (YACL_ENFORCE (negb (bl =? 0)) "block len should not be 0" []);
     _ ← now (YACL_ENFORCE (u64 ((n - 1) * bl) / bl =? n - 1) "uint64 overflow in DecryptFile" []);
     _ ← now (YACL_ENFORCE (u64 (n * bl) / bl =? n) "uint64 overflow in DecryptFile" []);
     _ ← now (YACL_ENFORCE (u64 ((n - 1) * bl) <=? u64 (len content - header_len))
               "N - 1 Data block len is more than required file length" []);
     _ ← now (YACL_ENFORCE (u64 (len content - header_len) <=? u64 (bl * n))
               "N Data block len is less than required file length" []);
     decrypt_packets (len content) n bl inp out key)
    (file_read content key) (Some []).
Proof.
  intros n bl Hinp Hout Hn Hlen. destruct (header_fields_range content) as [Hnr Hblr]; [lia|].
  fold n in Hnr. fold bl in Hblr. change header_len with 20.
  assert (forall e, (forall plain, ~ container key content plain) ->
            file_read content key (Throw e) (Some [])) as Hrefuse.
  { intros e Hno. right. split; [done|]. split; [by eexists|]. by intros [p ?%Hno]. }
  rewrite now_enforce. destruct (Z.eqb_spec bl 0) as [Hbl|Hbl].
  { apply Hrefuse. intros p (_ & _ & Hcon & _). fold bl in Hcon. lia. }
  cbn [negb]. pose proof (length_guards n bl (len content - 20) Hn ltac:(lia) ltac:(lia)) as HG.
  assert (((n - 1) * bl <=? len content - 20) && (len content - 20 <=? n * bl) = false ->
          forall plain, ~ container key content plain) as Hbad.
  { intros Hf pl (_ & _ & _ & Hcon & _). fold n bl in Hcon.
    apply andb_false_iff in Hf as [Hf|Hf]; apply Z.leb_gt in Hf; lia. }
  rewrite !now_enforce.
  destruct (u64 ((n - 1) * bl) / bl =? n - 1); [|apply Hrefuse; by apply Hbad].
  destruct (u64 (n * bl) / bl =? n); [|apply Hrefuse; by apply Hbad].
  destruct (u64 ((n - 1) * bl) <=? _); [|apply Hrefuse; by apply Hbad].
  destruct (u64 (len content - 20) <=? _); [|apply Hrefuse; by apply Hbad].
  symmetry in HG. cbn in HG. apply andb_true_iff in HG as [HG1%Z.leb_le HG2%Z.leb_le].
  eapply wp_mono; [|apply wp_decrypt_packets; [done|done|lia..]].
  intros r o [(plains & [Hlt Hf] & -> & ->)|(Hr & Ho & Hno)]; [left|right].
  - exists (concat plains). split; [|done]. unfold container. fold n bl.
    split; [lia|]. split; [done|]. split; [lia|]. split; [lia|]. by exists plains.
  - split; [done|]. split; [done|]. intros (pl & _ & _ & _ & Hcon & ps & Hps & _). apply Hno.
    exists ps. split; [|done]. fold n bl in Hcon. lia.
Qed.

(** [DecryptFile] among other tasks. *)
Lemma wp_DecryptFile src dest content key o :
  src <> dest -> permitted dest -> len content < 2 ^ 63 ->
  wp src dest content (DecryptFile src dest key) (file_read content key) o.
Proof.
  intros Hne Hwr Hlen. unfold DecryptFile.
  rewrite now_enforce, (proj2 (String.eqb_neq src dest)) by done. cbn [negb].
  apply wp_open_in. intros inp Hinp Hl. apply wp_open_out; [done|]. intros out Hout.
  cbv zeta. rewrite Hl, now_enforce. change header_len with 20 at 1.
  destruct (Z.ltb_spec 20 (len content)) as [H20|H20].
  2: { right. split; [done|]. split; [by eexists|]. intros (? & Hcon & _). lia. }
  destruct (Seekg_ok inp (kVersionBytes + kSchemaBytes)) as (inp1 & Hseek & Hinp1).
  { rewrite Hl. unfold kVersionBytes, kSchemaBytes. lia. }
  rewrite (now_bind _ _ inp1) by (by rewrite Hseek). destruct Hinp as [Hpath _]. rewrite Hpath in Hinp1.
  eapply wp_read; [exact Hinp1|unfold len, kVersionBytes, kSchemaBytes, kPacketCntBytes in *; lia|].
  intros inp2 Hinp2. change (kVersionBytes + kSchemaBytes)%nat with 8%nat.
  rewrite (now_bind _ _ _ (packet_cnt_read content)), now_enforce.
  destruct (Z.leb_spec 1 (packet_cnt_of content)) as [Hn|Hn].
  2: { right. split; [done|]. split; [by eexists|]. intros (? & _ & Hcon & _). lia. }
  eapply wp_read; [exact Hinp2|unfold len, kVersionBytes, kSchemaBytes, kPacketCntBytes, kBlockLenBytes in *; lia|].
  intros inp3 Hinp3.
  change (kVersionBytes + kSchemaBytes + kPacketCntBytes)%nat with 16%nat in *.
  rewrite (now_bind _ _ _ (block_len_read content)). by apply wp_decrypt_checked.
Qed.

(** Decryption draws no random bytes. *)
Lemma decrypt_blocks_ops g key n k inp out :
  all_ops (fun w : W => w.(w_rng) = g) (decrypt_blocks n k inp out key).
Proof.
  revert inp out. induction n as [|n IH]; intros inp out; [done|]. cbn [decrypt_blocks].
  apply all_ops_bind; [by apply all_ops_op; intros w|]. intros [buf inp1].
  apply all_ops_bind; [apply all_ops_ret|]. intros p. apply all_ops_bind; [|auto].
  apply all_ops_op. intros w Hw. unfold write. by destruct (Write _ _ _) as [|[? ?]].
Qed.

Lemma DecryptFile_ops g src dest key :
  all_ops (fun w : W => w.(w_rng) = g) (DecryptFile src dest key).
Proof.
  unfold DecryptFile, decrypt_packets.
  repeat match goal with
  | |- all_ops _ (now _ ≫= _) => apply all_ops_bind; [apply all_ops_ret|]; intros ?
  | |- all_ops _ (decrypt_blocks _ _ _ _ _ ≫= _) =>
      apply all_ops_bind; [apply decrypt_blocks_ops|]; intros [??]
  | |- all_ops _ (op (read _ _) ≫= _) => apply all_ops_bind; [by apply all_ops_op; intros w|]; intros [??]
  | |- all_ops _ (op _ ≫= _) => apply all_ops_bind; [|intros ?]
  | |- all_ops _ (op _) => apply all_ops_op; intros w Hw
  end; unfold open_in, open_out, write, close_out, close_in, pure; try done;
  by repeat case_match.
Qed.

(** Result [r] is not a success, and only [dest] has been touched. *)
Definition refused (w : W) (dest : string) (r : outcome unit * W) : Prop :=
  is_ok r.1 = false /\ exists c, r.2 = mk_world _ (<[dest := c]> w.(w_fs)) w.(w_dirs) w.(w_rng).

(** Every run of [DecryptFile] on a readable file and a writable w.(w_dirs) destination. *)
Lemma DecryptFile_cases src dest key w content :
  src <> dest -> w.(w_fs) !! src = Some content -> writable w.(w_dirs) dest -> len content < 2 ^ 63 ->
  let r := perform (DecryptFile src dest key) w in
  (exists plain, container key content plain /\
     r = (Ok tt, mk_world _ (<[dest := plain]> w.(w_fs)) w.(w_dirs) w.(w_rng))) \/
  (refused w dest r /\ ~ exists plain, container key content plain).
Proof.
  intros Hne Hsrc [Hpm Hpl] Hlen r. subst r.
  pose proof (ops_keep_perform _ _ _ (DecryptFile_ops w.(w_rng) src dest key) w eq_refl) as Hg.
  destruct (wp_perform src dest content Hne (DecryptFile src dest key) (file_read content key) w)
    as (r & o & g & E & HQ); [done|done|by apply wp_DecryptFile|].
  rewrite E in *. cbn in Hg. subst g.
  destruct HQ as [(plain & Hcon & -> & ->)|(Hr & [c ->] & Hno)]; [left|right].
  - by exists plain.
  - split; [|done]. split; [done|]. by exists c.
Qed.

Lemma length_header n bl : length (header n bl) = 20%nat.
Proof. unfold header. by rewrite !length_app, !length_le_bytes. Qed.

(** A header, full blocks and a last block, each of which decrypts, are a
    container. *)
Lemma container_intro key pre n bl blocks last plains lastp :
  length pre = 8%nat ->
  Z.of_nat (length blocks) = n - 1 -> n < 2 ^ 64 -> 0 < bl < 2 ^ 32 ->
  Forall (fun b => length b = Z.to_nat bl) blocks -> 0 < len last <= bl ->
  Forall2 (opens_to key) (blocks ++ [last]) (plains ++ [lastp]) ->
  container key (pre ++ le_bytes 8 n ++ le_bytes 4 bl ++ concat blocks ++ last)
    (concat plains ++ lastp).
Proof.
  intros Hpre Hn Hn64 Hbl Hblocks Hlast Hdec. set (content := pre ++ _).
  pose proof (length_concat_blocks _ _ Hblocks) as Hcat.
  assert (packet_cnt_of content = n) as Hpn.
  { transitivity (le_int (le_bytes 8 n)); [apply (f_equal le_int)|apply le_int_bytes; lia].
    by apply slice_mid. }
  assert (block_len_of content = bl) as Hpb.
  { transitivity (le_int (le_bytes 4 bl)); [apply (f_equal le_int)|apply le_int_bytes; lia].
    subst content. rewrite (app_assoc pre). apply slice_mid; [|done].
    by rewrite length_app, Hpre. }
  assert (len content - 20 = (n - 1) * bl + len last) as Hlen.
  { subst content. unfold len in *. rewrite !length_app, !length_le_bytes, Hcat. nia. }
  unfold container. rewrite Hpn, Hpb, Hlen.
  split; [nia|]. split; [lia|]. split; [lia|]. split; [nia|].
  exists (plains ++ [lastp]). split; [|rewrite concat_app; cbn; by rewrite app_nil_r].
  unfold blocks_of. subst content. rewrite !(app_assoc _ _ (concat blocks ++ last)).
  rewrite drop_app_length' by (by rewrite !length_app, Hpre).
  rewrite chunks_app by (done || lia). rewrite drop_app_length'; [done|]. rewrite Hcat. f_equal. lia.
Qed.

(** The plaintext of a container is determined by the key. *)
Lemma container_unique key content p1 p2 :
  container key content p1 -> container key content p2 -> p1 = p2.
Proof.
  intros (_ & _ & _ & _ & ps1 & Hf1 & ->) (_ & _ & _ & _ & ps2 & Hf2 & ->). f_equal.
  revert ps2 Hf2. induction Hf1 as [|b p bs ps Hb _ IH]; intros ps2 Hf2; inversion Hf2; subst; [done|].
  match goal with H1 : opens_to _ ?b _, H2 : opens_to _ ?b _ |- _ => apply DecryptDataBlock_opens in H1, H2 end.
  f_equal; [congruence|by apply IH].
Qed.

(** What [EncryptFile] writes is a container of the file. *)
Lemma file_written_container content key r c :
  0 < len content < 2 ^ 62 -> file_written content key r (Some c) ->
  container key c content /\ len c < 2 ^ 63.
Proof.
  intros Hlen (blocks & last & plains & lastp & _ & Ec & Hn & Hbl & Hl & Hlp & Hf & ->).
  apply (inj Some) in Ec as ->.
  pose proof (packets_bounds _ (proj1 Hlen)) as (Hp1 & Hp2 & Hp3). rewrite block_data_len_eq in *.
  unfold kBlockBytes in *. pose proof (length_concat_blocks _ _ Hbl) as Hcat. split.
  - unfold header. rewrite <- !app_assoc, (app_assoc (le_bytes 4 kVersion)).
    apply container_intro; [done|done|lia|lia|done|unfold len; lia|done].
  - unfold len in *. rewrite !length_app, length_header, Hcat. nia.
Qed.

Lemma EncryptFile_container src dest key w content alg :
  src <> dest -> w.(w_fs) !! src = Some content -> writable w.(w_dirs) dest ->
  alg_of_key key = Some alg -> 0 < len content < 2 ^ 62 ->
  exists w' enc, perform (EncryptFile src dest key) w = (Ok tt, w') /\
    only_file w w' dest enc /\ container key enc content /\ len enc < 2 ^ 63.
Proof.
  intros Hne Hsrc Hwr Hkey Hlen.
  destruct (EncryptFile_ok src dest key w content alg) as (w1 & c & Hr & Hw1 & Hc); [done..|lia|].
  exists w1, c. split; [done|]. split; [exact Hw1|]. by apply (file_written_container content key (Ok tt)).
Qed.

(** Decrypting a container. *)
Lemma DecryptFile_container src dest key w content plain :
  src <> dest -> w.(w_fs) !! src = Some content -> writable w.(w_dirs) dest -> len content < 2 ^ 63 ->
  container key content plain ->
  perform (DecryptFile src dest key) w = (Ok tt, mk_world _ (<[dest := plain]> w.(w_fs)) w.(w_dirs) w.(w_rng)).
Proof.
  intros Hne Hsrc Hwr Hlen Hcon.
  destruct (DecryptFile_cases src dest key w content Hne Hsrc Hwr Hlen)
    as [(p & Hp & ->)|[_ Hno]]; [|destruct Hno; by exists plain].
  by rewrite (container_unique _ _ _ _ Hp Hcon).
Qed.

(** ** Properties *)

(** C6. [DecryptFile] implements the container format: on a readable source
    below 2^63 bytes and a writable, different destination it succeeds exactly
    on containers (a header whose packet count and block length fit the length
    of the file, and packets, laid out byte by byte as [opens_to] says, that all
    decrypt and authenticate under the key),
    with the plaintext as the only change to the file system; otherwise it does
    not succeed and no file but the destination is touched.  No header makes
    the 64-bit length computations wrap into acceptance. *)
Theorem DecryptFile_refines_container src dest key w content :
  src <> dest -> w.(w_fs) !! src = Some content -> writable w.(w_dirs) dest -> len content < 2 ^ 63 ->
  (forall plain, container key content plain <->
     perform (DecryptFile src dest key) w = (Ok tt, mk_world _ (<[dest := plain]> w.(w_fs)) w.(w_dirs) w.(w_rng))) /\
  ((forall plain, ~ container key content plain) <-> refused w dest (perform (DecryptFile src dest key) w)).
Proof.
  intros Hne Hsrc Hwr Hlen.
  destruct (DecryptFile_cases src dest key w content Hne Hsrc Hwr Hlen)
    as [(plain & Hcon & ->)|[Href Hno]].
  - split.
    + intros p. split; [intros Hp; by rewrite (container_unique _ _ _ _ Hp Hcon)|].
      intros [= E]. apply (f_equal (lookup dest)) in E. rewrite !lookup_insert_eq in E. by simplify_eq.
    + split; [intros Hn; by destruct (Hn plain)|]. by intros [? _].
  - split.
    + intros p. split; [intros Hp; destruct Hno; by exists p|].
      intros E. rewrite E in Href. by destruct Href.
    + split; [done|]. intros _ p Hp. apply Hno. by exists p.
Qed.

(** C18. Round trip: whatever a file of 1 to 2^62 bytes holds and whatever the
    random IVs are, [EncryptFile] with a 16- or 32-byte key followed by
    [DecryptFile] with the same key restores its bytes. *)
Theorem EncryptFile_DecryptFile src enc dest key w content alg :
  src <> enc -> enc <> dest -> w.(w_fs) !! src = Some content -> writable w.(w_dirs) enc -> writable w.(w_dirs) dest ->
  alg_of_key key = Some alg -> 0 < len content < 2 ^ 62 ->
  exists w1, perform (EncryptFile src enc key) w = (Ok tt, w1) /\
    perform (DecryptFile enc dest key) w1 = (Ok tt, mk_world _ (<[dest := content]> w1.(w_fs)) w1.(w_dirs) w1.(w_rng)).
Proof.
  intros Hse Hed Hsrc Hwe Hwd Hkey Hlen.
  destruct (EncryptFile_container src enc key w content alg) as (w1 & c & Hr & Hw1 & Hcon & Hl);
    [done..|].
  destruct Hw1 as [Hf Hd]. exists w1. split; [done|].
  eapply DecryptFile_container; [done| |by rewrite Hd|exact Hl|done]. rewrite Hf. apply lookup_insert_eq.
Qed.

(** Layout: the file [EncryptFile] writes is the 20-byte header with the
    number of packets, full packets of 8192 bytes and one last packet; its
    length is that of the plaintext plus 20 plus 66 per packet, and nothing but
    the destination changes in the file system. *)
Theorem EncryptFile_layout src dest key w content alg :
  src <> dest -> w.(w_fs) !! src = Some content -> writable w.(w_dirs) dest ->
  alg_of_key key = Some alg -> 0 < len content < 2 ^ 63 ->
  exists w' enc, perform (EncryptFile src dest key) w = (Ok tt, w') /\
    w'.(w_fs) = <[dest := enc]> w.(w_fs) /\
    take 20 enc = header (packets (len content)) kBlockBytes /\
    len enc = 20 + 66 * packets (len content) + len content /\
    8126 * (packets (len content) - 1) < len content <= 8126 * packets (len content).
Proof.
  intros Hne Hsrc Hwr Hkey Hlen.
  destruct (EncryptFile_ok src dest key w content alg) as (w' & c & Hr & [Hw _] & Hc); [done..|].
  destruct Hc as (blocks & last & plains & lastp & _ & Ec & Hn & Hbl & Hl & Hlp & Hf & Hcont).
  apply (inj Some) in Ec as ->.
  pose proof (packets_bounds _ (proj1 Hlen)) as (Hp1 & Hp2 & Hp3). rewrite block_data_len_eq in *.
  exists w', (header (packets (len content)) kBlockBytes ++ concat blocks ++ last).
  split; [done|]. split; [done|]. split; [apply take_app_length'; by rewrite length_header|].
  split; [|lia].
  apply decrypts_length_all in Hf. rewrite !concat_app, !length_app in Hf. cbn [concat] in Hf.
  rewrite !app_nil_r in Hf. apply (f_equal length) in Hcont. rewrite length_app in Hcont.
  unfold len in *. rewrite !length_app, length_header. cbn [length] in Hf. lia.
Qed.

(** The packets of a container are authenticated one by one: [DecryptFile]
    accepts the full packets in any order and any version and schema bytes, and
    then writes the plaintexts in the order of the packets. *)
Theorem DecryptFile_any_packet_order src dest key w pre n bl bps bps' last lastp :
  src <> dest -> writable w.(w_dirs) dest ->
  length pre = 8%nat -> Z.of_nat (length bps) = n - 1 -> n * bl < 2 ^ 62 -> 0 < bl < 2 ^ 32 ->
  Forall (fun bp => length bp.1 = Z.to_nat bl /\ opens_to key bp.1 bp.2) bps ->
  0 < len last <= bl -> opens_to key last lastp ->
  bps' ≡ₚ bps ->
  w.(w_fs) !! src =
    Some (pre ++ le_bytes 8 n ++ le_bytes 4 bl ++ concat (map fst bps') ++ last) ->
  perform (DecryptFile src dest key) w =
    (Ok tt, mk_world _ (<[dest := concat (map snd bps') ++ lastp]> w.(w_fs)) w.(w_dirs) w.(w_rng)).
Proof.
  intros Hne Hwr Hpre Hn Hn64 Hbl Hbps Hlast Hlastp Hperm Hsrc.
  rewrite <- Hperm in Hbps, Hn.
  assert (Forall (fun b => length b = Z.to_nat bl) (map fst bps')) as Hlen.
  { apply Forall_map. eapply Forall_impl; [exact Hbps|]. by intros bp []. }
  assert (container key (pre ++ le_bytes 8 n ++ le_bytes 4 bl ++ concat (map fst bps') ++ last)
            (concat (map snd bps') ++ lastp)) as Hcon.
  { apply container_intro; [done|by rewrite length_map|nia|done|done|done|].
    apply Forall2_app; [|by constructor]. clear -Hbps.
    induction Hbps as [|bp bps [_ Hbp] _ IH]; by constructor. }
  apply (DecryptFile_container _ _ _ _ _ _ Hne Hsrc Hwr); [|done].
  pose proof (length_concat_blocks _ _ Hlen) as Hcat. rewrite length_map in Hcat.
  unfold len in *. rewrite !length_app, !length_le_bytes, Hcat. nia.
Qed.

(** The errors of [EncryptFile]: encrypting a file onto itself or an empty
    file throws and changes nothing; a key that has neither 16 nor 32 bytes
    throws after the header has been written. *)
Theorem EncryptFile_errors src dest key w content :
  w.(w_fs) !! src = Some content -> writable w.(w_dirs) dest -> len content < 2 ^ 63 ->
  (src = dest ->
     perform (EncryptFile src dest key) w =
       (Throw (mk_exn EnforceNotMet "Inplace encryption is not allowed" []), w)) /\
  (src <> dest -> content = [] ->
     perform (EncryptFile src dest key) w = (Throw (mk_exn EnforceNotMet "Pack cnt less than 1" []), w)) /\
  (src <> dest -> content <> [] -> alg_of_key key = None ->
     exists g, perform (EncryptFile src dest key) w =
       (Throw (mk_exn RuntimeError "data_key size error got {}" [FInt (len key)]),
        mk_world _ (<[dest := header (packets (len content)) kBlockBytes]> w.(w_fs)) w.(w_dirs) g)).
Proof.
  intros Hsrc [Hpm Hpl] Hlen. split; [|split].
  - intros ->. unfold EncryptFile. by rewrite now_enforce, (proj2 (String.eqb_eq dest dest)).
  - intros Hne ->. unfold EncryptFile. rewrite now_enforce, (proj2 (String.eqb_neq src dest)) by done.
    destruct (FileInputStream_ok _ _ _ Hsrc) as (inp & Hopen & _ & Hl).
    cbn [negb]. rewrite perform_bind, (st_bind_step _ _ _ inp w), Hl.
    + by rewrite now_enforce.
    + cbn. unfold mbind, st_bind, open_in. by rewrite Hopen.
  - intros Hne Hnil Hkey.
    assert (0 < len content) as Hpos by (destruct content; [done|unfold len; cbn [length]; lia]).
    destruct (wp_perform src dest content Hne (EncryptFile src dest key)
      (key_refused key (header (packets (len content)) kBlockBytes)) w) as (r & o & g & E & -> & ->);
      [done|done| |by exists g].
    apply wp_EncryptFile_header; [done|done|lia|]. intros inp out Hinp Hout.
    by apply wp_encrypt_packets_bad_key.
Qed.
End Files.

(** ** The properties on concrete files *)

Module CryptoFileWitness.
#[local] Existing Instances sample_rand sample_rand_laws sample_fileio sample_fileio_laws
  sample_byteview sample_byteview_laws sample_gcm sample_gcm_laws.

Definition key16 : bytes := zero_bytes 16.
Definition text : bytes := s2b "trust".
Definition block : bytes := packet (zero_bytes 12) (zero_bytes 16) text.
Definition two_blocks : list (bytes * bytes) :=
  [(packet (zero_bytes 12) (zero_bytes 16) (s2b "abc"), s2b "abc");
   (packet (zero_bytes 12) (zero_bytes 16) (s2b "xyz"), s2b "xyz")].
Definition enc_file : bytes := header 1 kBlockBytes ++ block.
Definition swapped_file : bytes :=
  zero_bytes 8 ++ le_bytes 8 3 ++ le_bytes 4 69 ++ concat (map fst (reverse two_blocks)) ++
  packet (zero_bytes 12) (zero_bytes 16) (s2b "!").

Definition w0 : world :=
  mk_world _ (<["plain" := text]> (<["enc" := enc_file]> (<["swapped" := swapped_file]> ∅))) ∅ tt.

(** Files in the working directory can be written. *)
Lemma w0_writable p : parent_path p = "" -> writable w0.(w_dirs) p.
Proof. intros Hp. split; [done|]. split; [by left|]. apply not_elem_of_empty. Qed.

Lemma DecryptFile_refines_container_witness :
  (perform (DecryptFile "enc" "out" key16) w0 = (Ok tt, mk_world _ (<["out" := text]> w0.(w_fs)) w0.(w_dirs) tt)) /\
  refused w0 "out" (perform (DecryptFile "plain" "out" key16) w0).
Proof.
  split.
  - apply (proj1 (DecryptFile_refines_container "enc" "out" key16 w0 enc_file
      ltac:(done) ltac:(reflexivity) (w0_writable "out" eq_refl) ltac:(reflexivity)) text).
    split; [reflexivity|]. split; [by vm_compute|]. split; [reflexivity|].
    split; [split; by vm_compute|]. exists [text].
    split; [|reflexivity]. constructor; [|constructor]. apply DecryptDataBlock_opens. by vm_compute.
  - apply (DecryptFile_refines_container "plain" "out" key16 w0 text
      ltac:(done) ltac:(reflexivity) (w0_writable "out" eq_refl) ltac:(reflexivity)).
    intros plain (Hlen & _). by vm_compute in Hlen.
Defined.

Lemma EncryptFile_DecryptFile_witness : exists w1,
  perform (EncryptFile "plain" "c" key16) w0 = (Ok tt, w1) /\
  perform (DecryptFile "c" "d" key16) w1 = (Ok tt, mk_world _ (<["d" := text]> w1.(w_fs)) w1.(w_dirs) w1.(w_rng)).
Proof.
  apply (EncryptFile_DecryptFile "plain" "c" "d" key16 w0 text Aes128Gcm);
    [done|done|reflexivity|by apply w0_writable|by apply w0_writable|reflexivity|by vm_compute].
Defined.

Lemma EncryptFile_layout_witness : exists w' enc,
  perform (EncryptFile "plain" "c" key16) w0 = (Ok tt, w') /\ w'.(w_fs) = <["c" := enc]> w0.(w_fs) /\
  len enc = 91.
Proof.
  destruct (EncryptFile_layout "plain" "c" key16 w0 text Aes128Gcm)
    as (w' & enc & Hr & Hw & _ & Hlen & _);
    [done|reflexivity|by apply w0_writable|reflexivity|by vm_compute|].
  exists w', enc. split; [done|]. split; [done|]. rewrite Hlen. reflexivity.
Defined.

Lemma DecryptFile_any_packet_order_witness :
  perform (DecryptFile "swapped" "out" key16) w0 =
    (Ok tt, mk_world _ (<["out" := s2b "xyzabc!"]> w0.(w_fs)) w0.(w_dirs) w0.(w_rng)).
Proof.
  apply (DecryptFile_any_packet_order "swapped" "out" key16 w0 (zero_bytes 8) 3 69 two_blocks
           (reverse two_blocks) (packet (zero_bytes 12) (zero_bytes 16) (s2b "!")) (s2b "!"));
    [done|by apply w0_writable|reflexivity|reflexivity|reflexivity|done| |by vm_compute|by apply DecryptDataBlock_opens; vm_compute| |reflexivity].
  - repeat (constructor; [split; [done|by apply DecryptDataBlock_opens; vm_compute]|]). constructor.
  - apply reverse_Permutation.
Defined.

Lemma EncryptFile_errors_witness :
  perform (EncryptFile "plain" "plain" key16) w0 =
    (Throw (mk_exn EnforceNotMet "Inplace encryption is not allowed" []), w0) /\
  (exists g, perform (EncryptFile "plain" "c" []) w0 =
     (Throw (mk_exn RuntimeError "data_key size error got {}" [FInt 0]),
      mk_world _ (<["c" := header 1 kBlockBytes]> w0.(w_fs)) w0.(w_dirs) g)).
Proof.
  split.
  - apply (EncryptFile_errors "plain" "plain" key16 w0 text); [done|by apply w0_writable|done|done].
  - apply (EncryptFile_errors "plain" "c" [] w0 text); [done|by apply w0_writable|done..].
Defined.
End CryptoFileWitness.
