(* ===== verification/Footprint.v ===== *)
(** * What the file operations change

    [EncryptFile] and [DecryptFile] of [trustflow/proxy/utils/crypto_util.cc]
    change no file but their destination and no directory, whatever they find and
    however they end. *)

From S2P Require Import Prelude CppStd External YaclCrypto Tasks CryptoFile.

(** No other file and no directory has changed. *)
Definition off `{Rand} (t : string) (w w' : world) : Prop :=
  w'.(w_dirs) = w.(w_dirs) /\ forall p, p <> t -> w'.(w_fs) !! p = w.(w_fs) !! p.

Section Files.
Context `{FL : FileIOLaws} `{Rand} `{ByteView} `{Gcm}.
Variable dest : string.

Abbreviation keeps_off := (guarantees (off dest)).

Lemma off_read {A} inp n (k : bytes * istream -> prog world A) Q :
  (forall x, keeps_off (k x) Q) -> keeps_off (op (read inp n) ≫= k) Q.
Proof. intros Hk. apply guarantees_op; [by intros w|]. auto. Qed.

Lemma off_open_in {A} path (k : istream -> prog world A) Q :
  (forall x, keeps_off (k x) Q) -> keeps_off (op (open_in path) ≫= k) Q.
Proof. intros Hk. apply guarantees_op; [by intros w|]. auto. Qed.

Lemma off_rand {A} n fast (k : bytes -> prog world A) Q :
  (forall x, keeps_off (k x) Q) -> keeps_off (op (CryptoFile.rand_bytes n fast) ≫= k) Q.
Proof.
  intros Hk. apply guarantees_op; [|auto]. intros w. unfold CryptoFile.rand_bytes. by destruct (RandBytes _ _ _).
Qed.

Lemma off_open_out {A} (k : ostream -> prog world A) Q :
  (forall out, out_path out = dest -> keeps_off (k out) Q) -> keeps_off (op (open_out dest) ≫= k) Q.
Proof.
  intros Hk. apply guarantees_op; unfold open_out.
  - intros w. destruct (FileOutputStream _ _ _) as [e|[out fs]] eqn:E; [done|].
    apply FileOutputStream_some in E as (_ & -> & _). split; [done|]. intros p Hp. cbn. by rewrite lookup_insert_ne.
  - intros w out w'. destruct (FileOutputStream _ _ _) as [e|[o fs]] eqn:E; [done|].
    intros Eo. injection Eo as <- <-. apply Hk. by apply FileOutputStream_some in E as (_ & _ & []).
Qed.

Lemma off_write {A} out bs (k : ostream -> prog world A) Q : out_path out = dest ->
  (forall out, out_path out = dest -> keeps_off (k out) Q) -> keeps_off (op (write out bs) ≫= k) Q.
Proof.
  intros Ho Hk. apply guarantees_op; unfold write.
  - intros w. destruct (Write _ _ _) as [e|[out' fs]] eqn:E; [done|].
    apply Write_some in E as [_ E]. split; [done|]. intros p Hp. apply E. congruence.
  - intros w o w'. destruct (Write _ _ _) as [e|[o' fs]] eqn:E; [done|].
    intros Eo. injection Eo as <- <-. apply Hk. apply Write_some in E as [E _]. congruence.
Qed.

Lemma off_close out inp : keeps_off (_ ← op (close_out out); op (close_in inp)) (fun _ => True).
Proof.
  apply guarantees_op; [|intros; by apply all_guarantee_op]. intros w. unfold close_out. by rewrite Close_ok.
Qed.

Ltac off_ops :=
  repeat first
    [ apply guarantees_now; intros ? | apply off_read; intros [? ?] | apply off_open_in; intros ?
    | apply off_rand; intros ? | apply off_open_out; intros ? ?
    | apply off_write; [assumption|]; intros ? ?
    | match goal with x : (_ * _)%type |- _ => destruct x end ].

Lemma EncryptDataBlock_off inp out n key : out_path out = dest ->
  keeps_off (EncryptDataBlock inp out n key) (fun x => out_path x.2 = dest).
Proof. intros Ho. unfold EncryptDataBlock. by off_ops. Qed.

Lemma encrypt_blocks_off n inp out key : out_path out = dest ->
  keeps_off (encrypt_blocks n inp out key) (fun x => out_path x.2 = dest).
Proof.
  revert inp out. induction n as [|n IH]; intros inp out Ho; [done|]. cbn [encrypt_blocks].
  eapply guarantees_bind; [by apply EncryptDataBlock_off|]. intros [inp1 out1]. apply IH.
Qed.

(** [EncryptFile] changes its destination only. *)
Lemma EncryptFile_off src key : all_guarantee (off dest) (EncryptFile src dest key).
Proof.
  unfold all_guarantee, EncryptFile, encrypt_packets. off_ops.
  eapply guarantees_bind; [by apply encrypt_blocks_off|]. intros [inp' out'] Ho'.
  eapply guarantees_bind; [by apply EncryptDataBlock_off|]. intros [? ?] _. apply off_close.
Qed.

Lemma decrypt_blocks_off n k inp out key : out_path out = dest ->
  keeps_off (decrypt_blocks n k inp out key) (fun x => out_path x.2 = dest).
Proof.
  revert inp out. induction n as [|n IH]; intros inp out Ho; [done|]. cbn [decrypt_blocks].
  off_ops. by apply IH.
Qed.

(** So does [DecryptFile]. *)
Lemma DecryptFile_off src key : all_guarantee (off dest) (DecryptFile src dest key).
Proof.
  unfold all_guarantee, DecryptFile, decrypt_packets. off_ops.
  eapply guarantees_bind; [by apply decrypt_blocks_off|]. intros [inp' out'] Ho'. off_ops. apply off_close.
Qed.
End Files.
