(* ===== verification/Hygon.v ===== *)
(** * Hygon CSV: structure layouts, and the OpenSSL calls of the verifier

    [csv/attestation/attestation.h] and OpenSSL are outside the repository.
    [HygonLayout] has the sizes and offsets of the structures the CSV code
    casts bytes to, with the C layout rules as laws; [OpenSSL] has the functions
    of OpenSSL the verifier calls. *)

From S2P Require Import Prelude CppStd External.

(** ** Layouts

    A structure is its bytes.  [pk_*] are fields of [ecc_pubkey_t], [uid_*] of
    [userid_u], [sig_*] of [ecc_signature_t], [hsk_*] of [CHIP_ROOT_CERT_t],
    [cert_*] of [CSV_CERT_t] and [q_*] of [csv_attestation_report]; [off_] is an
    offset and [sz_] a size.  A [32-bit] field has no size entry. *)
Class HygonLayout := {
  ECC_LEN : nat; HASH_LEN : nat; VM_ID_SIZE : nat; VM_VERSION_SIZE : nat;
  GUEST_ATTESTATION_NONCE_SIZE : nat;
  KEY_USAGE_TYPE_HSK : Z; KEY_USAGE_TYPE_CEK : Z; KEY_USAGE_TYPE_PEK : Z;
  CURVE_ID_TYPE_SM2_256 : Z;
  sz_pubkey : nat; off_pk_curve_id : nat; off_pk_Qx : nat; off_pk_Qy : nat; off_pk_user_id : nat;
  off_uid_len : nat; sz_uid_len : nat; off_uid : nat; sz_uid : nat;
  sz_sig : nat; off_sig_r : nat; off_sig_s : nat;
  sz_ecdsa_sign_r : nat; sz_ecdsa_sign_s : nat;
  sz_hsk : nat; sz_hsk_version : nat; sz_hsk_key_id : nat; sz_hsk_certifying_id : nat;
  sz_hsk_key_usage : nat; sz_hsk_reserved1 : nat; sz_hsk_reserved2 : nat;
  off_hsk_key_usage : nat; off_hsk_pubkey : nat; off_hsk_sig : nat;
  sz_cert : nat; sz_cert_version : nat; sz_cert_api_major : nat; sz_cert_api_minor : nat;
  sz_cert_reserved1 : nat; sz_cert_reserved2 : nat; sz_cert_pubkey_usage : nat;
  sz_cert_pubkey_algo : nat; sz_cert_reserved3 : nat;
  off_cert_pubkey_usage : nat; off_cert_pubkey : nat; off_cert_sig1_usage : nat;
  off_cert_sig1 : nat;
  sz_quote : nat; sz_q_user_pubkey_digest : nat; sz_q_vm_id : nat; sz_q_vm_version : nat;
  sz_q_user_data : nat; sz_q_mnonce : nat; sz_hash_block : nat; sz_q_policy : nat;
  off_q_vm_id : nat; off_q_vm_version : nat; off_q_user_data : nat; off_q_mnonce : nat;
  off_q_measure : nat; off_q_policy : nat; off_q_anonce : nat; off_q_sig1 : nat;
  off_q_pek_cert : nat;
  GUEST_ATTESTATION_DATA_SIZE : nat; SN_LEN : nat; sz_hash_block_u : nat;
  off_q_sn : nat; off_q_reserved2 : nat; sz_q_reserved2 : nat; off_q_mac : nat
}.

(** The bytes before a structure's signature, as the code adds them up. *)
Definition hsk_msg_len `{HygonLayout} : nat :=
  sz_hsk_version + sz_hsk_key_id + sz_hsk_certifying_id + sz_hsk_key_usage +
  sz_hsk_reserved1 + sz_pubkey + sz_hsk_reserved2.
Definition cert_msg_len `{HygonLayout} : nat :=
  sz_cert_version + sz_cert_api_major + sz_cert_api_minor + sz_cert_reserved1 +
  sz_cert_reserved2 + sz_cert_pubkey_usage + sz_cert_pubkey_algo + sz_pubkey +
  sz_cert_reserved3.
Definition quote_msg_len `{HygonLayout} : nat :=
  sz_q_user_pubkey_digest + sz_q_vm_id + sz_q_vm_version + sz_q_user_data +
  sz_q_mnonce + sz_hash_block + sz_q_policy.

(** A field lies inside its structure, the fields of a structure follow each
    other in the order of the header file, and the sizes are multiples of a
    word. *)
Class HygonLaws `{HygonLayout} : Prop := {
  sizes_pos :
    (0 < VM_ID_SIZE /\ 0 < VM_VERSION_SIZE /\ 0 < HASH_LEN /\ 0 < GUEST_ATTESTATION_NONCE_SIZE /\
     0 < sz_hash_block)%nat;
  sizes_in_words :
    (VM_ID_SIZE mod 4 = 0 /\ VM_VERSION_SIZE mod 4 = 0 /\ HASH_LEN mod 4 = 0 /\
     GUEST_ATTESTATION_NONCE_SIZE mod 4 = 0 /\ sz_hash_block mod 4 = 0 /\ sz_cert mod 4 = 0)%nat;
  ecc_len_256 : ECC_LEN = 32%nat;
  pk_in : (off_pk_curve_id + 4 <= off_pk_Qx /\ off_pk_Qx + ECC_LEN <= off_pk_Qy /\
    off_pk_Qy + ECC_LEN <= off_pk_user_id /\
    off_pk_user_id + 16 <= sz_pubkey /\
    off_pk_user_id + off_uid_len + sz_uid_len <= sz_pubkey /\
    off_pk_user_id + off_uid + sz_uid <= sz_pubkey)%nat;
  userid_layout : off_uid_len = 0%nat /\ sz_uid_len = 2%nat /\ off_uid = 2%nat /\ (14 <= sz_uid)%nat;
  sig_in : (off_sig_r + ECC_LEN <= sz_sig /\ off_sig_s + ECC_LEN <= sz_sig /\
    ECC_LEN <= sz_ecdsa_sign_r /\ ECC_LEN <= sz_ecdsa_sign_s)%nat;
  hsk_in : (off_hsk_key_usage + 4 <= sz_hsk /\ off_hsk_pubkey + sz_pubkey <= hsk_msg_len /\
    hsk_msg_len <= off_hsk_sig /\ off_hsk_sig + sz_sig <= sz_hsk)%nat;
  cert_in : (off_cert_pubkey_usage + 4 <= cert_msg_len /\
    off_cert_pubkey + sz_pubkey <= cert_msg_len /\ cert_msg_len <= off_cert_sig1_usage /\
    off_cert_sig1_usage + 4 <= off_cert_sig1 /\ off_cert_sig1 + sz_sig <= sz_cert)%nat;
  quote_in :
    (off_q_vm_id + VM_ID_SIZE <= off_q_vm_version /\
     off_q_vm_version + VM_VERSION_SIZE <= off_q_user_data /\
     off_q_user_data + HASH_LEN + HASH_LEN <= off_q_mnonce /\
     off_q_mnonce + GUEST_ATTESTATION_NONCE_SIZE <= off_q_measure /\
     off_q_measure + sz_hash_block <= off_q_policy /\
     off_q_policy + 4 <= quote_msg_len /\ quote_msg_len <= off_q_anonce /\
     off_q_anonce + 4 <= off_q_sig1 /\ off_q_sig1 + sz_sig <= off_q_pek_cert /\
     off_q_pek_cert + sz_cert <= sz_quote)%nat;
  guest_sizes : (HASH_LEN = 32 /\ GUEST_ATTESTATION_DATA_SIZE = 64 /\
    GUEST_ATTESTATION_NONCE_SIZE <= 32 /\ sz_hash_block_u = 32 /\ SN_LEN mod 4 = 0)%nat;
  quote_tail_in : (off_q_pek_cert + sz_cert <= off_q_sn /\ off_q_sn + SN_LEN <= off_q_reserved2 /\
    off_q_reserved2 + sz_q_reserved2 <= off_q_mac /\ off_q_mac + HASH_LEN <= sz_quote)%nat
}.

(** ** OpenSSL

    A pointer that can be null is an [option]; a function that reports success
    returns its [int] and the object it changed.  The fields after the
    functions are the meaning of the objects, used by the laws alone. *)
Class OpenSSL := {
  pkey_ctx : Type; param_bld : Type; params : Type; pkey : Type; bignum : Type;
  ecdsa_sig : Type; md_ctx : Type;
  EVP_PKEY_CTX_new_id_SM2 : option pkey_ctx;
  OSSL_PARAM_BLD_new : option param_bld;
  OSSL_PARAM_BLD_push_utf8_string : param_bld -> string -> string -> Z * param_bld;
  OSSL_PARAM_BLD_push_octet_string : param_bld -> string -> bytes -> Z * param_bld;
  OSSL_PARAM_BLD_to_param : param_bld -> option params;
  EVP_PKEY_fromdata_init : pkey_ctx -> Z * pkey_ctx;
  EVP_PKEY_fromdata_PUBLIC_KEY : pkey_ctx -> params -> Z * option pkey;
  BN_bin2bn : bytes -> option bignum;
  ECDSA_SIG_new : option ecdsa_sig;
  ECDSA_SIG_set0 : ecdsa_sig -> bignum -> bignum -> Z * ecdsa_sig;
  i2d_ECDSA_SIG : ecdsa_sig -> Z * bytes;
  EVP_PKEY_CTX_new : pkey -> option pkey_ctx;
  EVP_PKEY_CTX_set1_id : pkey_ctx -> bytes -> Z * pkey_ctx;
  EVP_MD_CTX_new : option md_ctx;
  EVP_MD_CTX_set_pkey_ctx : md_ctx -> pkey_ctx -> md_ctx;
  EVP_DigestVerifyInit_sm3 : md_ctx -> pkey -> Z * md_ctx;
  EVP_DigestVerifyUpdate : md_ctx -> bytes -> Z * md_ctx;
  EVP_DigestVerifyFinal : md_ctx -> bytes -> Z;
  bld_items : param_bld -> list (string * (string + bytes));
  params_items : params -> list (string * (string + bytes));
  pkey_point : pkey -> bytes;
  bn_val : bignum -> Z;
  sig_rs : ecdsa_sig -> option (Z * Z);
  der_rs : bytes -> option (Z * Z);
  ctx_id : pkey_ctx -> option bytes;
  md_pctx : md_ctx -> option pkey_ctx;
  md_pkey : md_ctx -> option pkey;
  md_msg : md_ctx -> bytes;
  (* public point, user id, message, r and s: the SM2 signature is valid *)
  sm2_valid : bytes -> bytes -> bytes -> Z * Z -> Prop
}.

Definition OSSL_PKEY_PARAM_GROUP_NAME : string := "group".
Definition OSSL_PKEY_PARAM_PUB_KEY : string := "pub".
Definition SN_sm2 : string := "SM2".

(** What each call does when it reports success. *)
Class OpenSSLLaws `{OpenSSL} : Prop := {
  BLD_new_ok b : OSSL_PARAM_BLD_new = Some b -> bld_items b = [];
  BLD_push_utf8_ok b k v b' : OSSL_PARAM_BLD_push_utf8_string b k v = (1, b') ->
    bld_items b' = bld_items b ++ [(k, inl v)];
  BLD_push_octet_ok b k v b' : OSSL_PARAM_BLD_push_octet_string b k v = (1, b') ->
    bld_items b' = bld_items b ++ [(k, inr v)];
  BLD_to_param_ok b p : OSSL_PARAM_BLD_to_param b = Some p -> params_items p = bld_items b;
  fromdata_ok c p k pub : EVP_PKEY_fromdata_PUBLIC_KEY c p = (1, Some k) ->
    params_items p =
      [(OSSL_PKEY_PARAM_GROUP_NAME, inl SN_sm2); (OSSL_PKEY_PARAM_PUB_KEY, inr pub)] ->
    pkey_point k = pub;
  (* big endian *)
  BN_bin2bn_ok bs n : BN_bin2bn bs = Some n -> bn_val n = le_int (reverse bs);
  SIG_set0_ok g r s g' : ECDSA_SIG_set0 g r s = (1, g') ->
    sig_rs g' = Some (bn_val r, bn_val s);
  i2d_ok g n der : i2d_ECDSA_SIG g = (n, der) -> 0 < n ->
    len der = n /\ der_rs der = sig_rs g;
  CTX_set1_id_ok c id c' : EVP_PKEY_CTX_set1_id c id = (1, c') -> ctx_id c' = Some id;
  MD_set_pkey_ctx_ok m c : md_pctx (EVP_MD_CTX_set_pkey_ctx m c) = Some c;
  VerifyInit_ok m k m' : EVP_DigestVerifyInit_sm3 m k = (1, m') ->
    md_pctx m' = md_pctx m /\ md_pkey m' = Some k /\ md_msg m' = [];
  VerifyUpdate_ok m bs m' : EVP_DigestVerifyUpdate m bs = (1, m') ->
    md_pctx m' = md_pctx m /\ md_pkey m' = md_pkey m /\ md_msg m' = md_msg m ++ bs;
  VerifyFinal_ok m der c k id rs : EVP_DigestVerifyFinal m der = 1 ->
    md_pctx m = Some c -> ctx_id c = Some id -> md_pkey m = Some k -> der_rs der = Some rs ->
    sm2_valid (pkey_point k) id (md_msg m) rs
}.

(** ** Concrete instances, for the witnesses *)

Definition sample_hygon : HygonLayout := {|
  ECC_LEN := 32; HASH_LEN := 32; VM_ID_SIZE := 16; VM_VERSION_SIZE := 16;
  GUEST_ATTESTATION_NONCE_SIZE := 16;
  KEY_USAGE_TYPE_HSK := 0x13; KEY_USAGE_TYPE_CEK := 0x1004; KEY_USAGE_TYPE_PEK := 0x1002;
  CURVE_ID_TYPE_SM2_256 := 3;
  sz_pubkey := 324; off_pk_curve_id := 0; off_pk_Qx := 4; off_pk_Qy := 36; off_pk_user_id := 68;
  off_uid_len := 0; sz_uid_len := 2; off_uid := 2; sz_uid := 254;
  sz_sig := 64; off_sig_r := 0; off_sig_s := 32; sz_ecdsa_sign_r := 32; sz_ecdsa_sign_s := 32;
  sz_hsk := 512; sz_hsk_version := 4; sz_hsk_key_id := 16; sz_hsk_certifying_id := 16;
  sz_hsk_key_usage := 4; sz_hsk_reserved1 := 24; sz_hsk_reserved2 := 60;
  off_hsk_key_usage := 36; off_hsk_pubkey := 64; off_hsk_sig := 448;
  sz_cert := 512; sz_cert_version := 4; sz_cert_api_major := 1; sz_cert_api_minor := 1;
  sz_cert_reserved1 := 1; sz_cert_reserved2 := 1; sz_cert_pubkey_usage := 4;
  sz_cert_pubkey_algo := 4; sz_cert_reserved3 := 60;
  off_cert_pubkey_usage := 8; off_cert_pubkey := 16; off_cert_sig1_usage := 400;
  off_cert_sig1 := 408;
  sz_quote := 948; sz_q_user_pubkey_digest := 32; sz_q_vm_id := 16; sz_q_vm_version := 16;
  sz_q_user_data := 64; sz_q_mnonce := 16; sz_hash_block := 32; sz_q_policy := 4;
  off_q_vm_id := 32; off_q_vm_version := 48; off_q_user_data := 64; off_q_mnonce := 128;
  off_q_measure := 144; off_q_policy := 176; off_q_anonce := 188; off_q_sig1 := 192;
  off_q_pek_cert := 256;
  GUEST_ATTESTATION_DATA_SIZE := 64; SN_LEN := 64; sz_hash_block_u := 32;
  off_q_sn := 768; off_q_reserved2 := 832; sz_q_reserved2 := 32; off_q_mac := 864
|}.

Lemma sample_hygon_laws : @HygonLaws sample_hygon.
Proof. split; cbn; lia. Qed.

(** Signatures whose [r] is the length of the message. *)
Definition sample_openssl : OpenSSL := {|
  pkey_ctx := option bytes; param_bld := list (string * (string + bytes));
  params := list (string * (string + bytes)); pkey := bytes; bignum := Z;
  ecdsa_sig := option (Z * Z); md_ctx := option (option bytes) * option bytes * bytes;
  EVP_PKEY_CTX_new_id_SM2 := Some None;
  OSSL_PARAM_BLD_new := Some [];
  OSSL_PARAM_BLD_push_utf8_string b k v := (1, b ++ [(k, inl v)]);
  OSSL_PARAM_BLD_push_octet_string b k v := (1, b ++ [(k, inr v)]);
  OSSL_PARAM_BLD_to_param b := Some b;
  EVP_PKEY_fromdata_init c := (1, c);
  EVP_PKEY_fromdata_PUBLIC_KEY c p :=
    match p with [_; (_, inr pub)] => (1, Some pub) | _ => (0, None) end;
  BN_bin2bn bs := Some (le_int (reverse bs));
  ECDSA_SIG_new := Some None;
  ECDSA_SIG_set0 _ r s := (1, Some (r, s));
  i2d_ECDSA_SIG g :=
    match g with
    | Some (r, s) =>
        if bool_decide (0 <= r < 2 ^ 256 /\ 0 <= s < 2 ^ 256)
        then (64, le_bytes 32 r ++ le_bytes 32 s) else (0, [])
    | None => (0, [])
    end;
  EVP_PKEY_CTX_new _ := Some None;
  EVP_PKEY_CTX_set1_id _ id := (1, Some id);
  EVP_MD_CTX_new := Some (None, None, []);
  EVP_MD_CTX_set_pkey_ctx m c := (Some c, m.1.2, m.2);
  EVP_DigestVerifyInit_sm3 m k := (1, (m.1.1, Some k, []));
  EVP_DigestVerifyUpdate m bs := (1, (m.1, m.2 ++ bs));
  EVP_DigestVerifyFinal m der := if le_int (take 32 der) =? len m.2 then 1 else 0;
  bld_items b := b; params_items p := p; pkey_point k := k; bn_val n := n; sig_rs g := g;
  der_rs der := Some (le_int (take 32 der), le_int (drop 32 der));
  ctx_id c := c; md_pctx m := m.1.1; md_pkey m := m.1.2; md_msg m := m.2;
  sm2_valid _ _ msg rs := rs.1 = len msg
|}.

Lemma le_pair_32 r s : 0 <= r < 2 ^ 256 -> 0 <= s < 2 ^ 256 ->
  let der := le_bytes 32 r ++ le_bytes 32 s in
  len der = 64 /\ Some (le_int (take 32 der), le_int (drop 32 der)) = Some (r, s).
Proof.
  intros Hr Hs der. unfold len. subst der. rewrite length_app, !length_le_bytes. split; [done|].
  rewrite take_app_length', drop_app_length' by (by rewrite length_le_bytes).
  by rewrite !le_int_bytes by done.
Qed.

Lemma sample_openssl_laws : @OpenSSLLaws sample_openssl.
Proof.
  split; cbn -[le_bytes le_int take drop]; try congruence; try (by intros; simplify_eq).
  - intros g n der. destruct g as [[r s]|]; [|intros [= <- <-]; lia].
    case_bool_decide as Hrs; intros [= <- <-] Hn; [|lia]. apply le_pair_32; lia.
  - intros m der c k id rs. case_match eqn:E; [|done]. intros _ _ _ _ [= <-]. by apply Z.eqb_eq.
Qed.
