(* ===== verification/CsvVerifier.v ===== *)
(** * The CSV verifier

    [trustflow/attestation/verification/csv]: the import of Hygon keys and
    signatures, the certificate chain, [Init], [VerifyPlatform] and
    [ParseUnifiedReport] of [CsvAttestationVerifier]. *)

From S2P Require Import Prelude CppStd External Common Samples Verifier Hygon.

(** [report_], [quote_], [hsk_cert_] and [cek_cert_]; the structures are their
    bytes. *)
Record CsvAttestationVerifier := mk_csv {
  csv_report : UnifiedAttestationReport;
  csv_quote : bytes;
  csv_hsk_cert : bytes;
  csv_cek_cert : bytes
}.

(** A pointer that must not be null. *)
Definition not_null {A} (p : option A) (fmt : string) : outcome A :=
  match p with Some a => Ok a | None => Throw (mk_exn EnforceNotMet fmt []) end.

(** [YACL_ENFORCE_EQ(ret, 1, fmt)] on a call that returns its [int] and the
    object it changed. *)
Definition returns_1 {A} (r : Z * A) (fmt : string) : outcome A :=
  _ ← YACL_ENFORCE (r.1 =? 1) fmt [];
  mret r.2.

(** [std::reverse(p + off, p + off + n)] *)
Definition reverse_range (buf : bytes) (off n : nat) : outcome bytes :=
  part ← read_at buf off n;
  memcpy_at buf off (reverse part).

Definition POINT_CONVERSION_UNCOMPRESSED : Init.Byte.byte := Byte.x04.

Section Model.
Context `{Absl} `{Cppcodec} `{ProtoJson HygonCsvReport} `{ProtoJson HygonCsvCertChain}.
Context `{HygonLayout} `{OpenSSL}.

(** A [uint32_t] array in memory. *)
Definition words (l : list Z) : bytes := concat (map (le_bytes 4) l).

(** [kHrkPubkey]; what the initialiser does not name is zero. *)
Definition kHrkPubkey : bytes :=
  splice (splice (splice (splice (zero_bytes sz_pubkey)
    off_pk_curve_id (le_bytes 4 CURVE_ID_TYPE_SM2_256))
    off_pk_Qx (words [0x92c2f62d; 0x2af5f21d; 0x85cd1f50; 0xc80935e7; 0x09563a75;
                      0xf3d702db; 0x62a4f14c; 0xbe62e14d]))
    off_pk_Qy (words [0xb41eb946; 0x38744d68; 0xb9be8847; 0x4a640c10; 0x164e9538;
                      0x584f8b97; 0x57bb7015; 0x3bab123a]))
    off_pk_user_id (words [0x5948000d; 0x2d4e4f47; 0x2d445353; 0x004b5248]).

Definition ImportHygonSm2Pubkey (hygon_pubkey : bytes) : outcome pkey :=
  let pubkey := zero_bytes (1 + ECC_LEN + ECC_LEN) in
  pubkey ← memcpy_at pubkey 0 [POINT_CONVERSION_UNCOMPRESSED];
  qx ← read_at hygon_pubkey off_pk_Qx ECC_LEN;
  pubkey ← memcpy_at pubkey 1 qx;
  qy ← read_at hygon_pubkey off_pk_Qy ECC_LEN;
  pubkey ← memcpy_at pubkey (1 + ECC_LEN) qy;
  pubkey ← reverse_range pubkey 1 ECC_LEN;
  pubkey ← reverse_range pubkey (1 + ECC_LEN) ECC_LEN;
  pctx ← not_null EVP_PKEY_CTX_new_id_SM2 "UniquePkeyCtx init err";
  bld ← not_null OSSL_PARAM_BLD_new "UniqueParamBld init err";
  bld ← returns_1 (OSSL_PARAM_BLD_push_utf8_string bld OSSL_PKEY_PARAM_GROUP_NAME SN_sm2)
          "OSSL_PARAM_BLD: SM2 group name push err";
  bld ← returns_1 (OSSL_PARAM_BLD_push_octet_string bld OSSL_PKEY_PARAM_PUB_KEY pubkey)
          "OSSL_PARAM_BLD: public key push err";
  prms ← not_null (OSSL_PARAM_BLD_to_param bld) "OSSL_PARAM_BLD_to_param err";
  pctx ← returns_1 (EVP_PKEY_fromdata_init pctx) "";
  raw_pkey ← returns_1 (EVP_PKEY_fromdata_PUBLIC_KEY pctx prms) "";
  not_null raw_pkey "EVP_PKEY_fromdata err".

Definition ImportHygonSm2Sig (hygon_sig : bytes) : outcome bytes :=
  let r := zero_bytes sz_ecdsa_sign_r in
  let s := zero_bytes sz_ecdsa_sign_s in
  sig_r ← read_at hygon_sig off_sig_r ECC_LEN;
  r ← memcpy_at r 0 sig_r;
  sig_s ← read_at hygon_sig off_sig_s ECC_LEN;
  s ← memcpy_at s 0 sig_s;
  r ← reverse_range r 0 ECC_LEN;
  s ← reverse_range s 0 ECC_LEN;
  r_bytes ← read_at r 0 ECC_LEN;
  s_bytes ← read_at s 0 ECC_LEN;
  bn_r ← not_null (BN_bin2bn r_bytes) "r, s to BIGNUM err";
  bn_s ← not_null (BN_bin2bn s_bytes) "r, s to BIGNUM err";
  sig ← not_null ECDSA_SIG_new "ECDSA_SIG init err";
  sig ← returns_1 (ECDSA_SIG_set0 sig bn_r bn_s) "BIGNUM r, s to ECDSA err";
  let sig_der_len := (i2d_ECDSA_SIG sig).1 in
  _ ← YACL_ENFORCE (0 <? sig_der_len) "get i2d_ECDSA_SIG length err" [];
  let sig_der := zero_bytes (Z.to_nat sig_der_len) in
  sig_der ← memcpy_at sig_der 0 (i2d_ECDSA_SIG sig).2;
  _ ← YACL_ENFORCE ((i2d_ECDSA_SIG sig).1 =? sig_der_len) "i2d_ECDSA_SIG err" [];
  mret sig_der.

Definition Sm2Verify (message signature : bytes) (pk : pkey) (user_id : bytes) : outcome unit :=
  pctx ← not_null (EVP_PKEY_CTX_new pk) "UniquePkeyCtx init err";
  pctx ← returns_1 (EVP_PKEY_CTX_set1_id pctx user_id) "EVP_PKEY_CTX_set1_id err";
  mctx ← not_null EVP_MD_CTX_new "UniqueMdCtx init err";
  let mctx := EVP_MD_CTX_set_pkey_ctx mctx pctx in
  mctx ← returns_1 (EVP_DigestVerifyInit_sm3 mctx pk) "EVP_DigestVerifyInit err";
  mctx ← returns_1 (EVP_DigestVerifyUpdate mctx message) "EVP_DigestVerifyUpdate err";
  YACL_ENFORCE (EVP_DigestVerifyFinal mctx signature =? 1) "Sm2 verify failed" [].

(** The view [(user_id->uid, user_id->len)] of a public key's user id: the
    array [uid] has [sz_uid] bytes. *)
Definition user_id_view (pubkey : bytes) : outcome bytes :=
  len_field ← read_at pubkey (off_pk_user_id + off_uid_len) sz_uid_len;
  uid ← read_at pubkey (off_pk_user_id + off_uid) sz_uid;
  read_at uid 0 (Z.to_nat (le_int len_field)).

Definition VerifyHskCertWithHrkPubkey (hsk_cert : bytes) : outcome unit :=
  key_usage ← read_at hsk_cert off_hsk_key_usage 4;
  _ ← YACL_ENFORCE (le_int key_usage =? KEY_USAGE_TYPE_HSK)
        "HSK cert usage type err, expect {}, got {}"
        [FInt KEY_USAGE_TYPE_HSK; FInt (le_int key_usage)];
  pkey ← ImportHygonSm2Pubkey kHrkPubkey;
  ecc_sig ← read_at hsk_cert off_hsk_sig sz_sig;
  sig_der ← ImportHygonSm2Sig ecc_sig;
  msg ← read_at hsk_cert 0 hsk_msg_len;
  uid ← user_id_view kHrkPubkey;
  Sm2Verify msg sig_der pkey uid.

Definition VerifyCekCertWithHskCert (cek_cert hsk_cert : bytes) : outcome unit :=
  pubkey_usage ← read_at cek_cert off_cert_pubkey_usage 4;
  _ ← YACL_ENFORCE (le_int pubkey_usage =? KEY_USAGE_TYPE_CEK)
        "CEK cert pubkey_usage type err, expect {}, got {}"
        [FInt KEY_USAGE_TYPE_CEK; FInt (le_int pubkey_usage)];
  sig1_usage ← read_at cek_cert off_cert_sig1_usage 4;
  _ ← YACL_ENFORCE (le_int sig1_usage =? KEY_USAGE_TYPE_HSK)
        "CEK cert sig1 usage type err, expect {}, got {}"
        [FInt KEY_USAGE_TYPE_HSK; FInt (le_int sig1_usage)];
  ecc_pubkey ← read_at hsk_cert off_hsk_pubkey sz_pubkey;
  pkey ← ImportHygonSm2Pubkey ecc_pubkey;
  ecc_sig1 ← read_at cek_cert off_cert_sig1 sz_sig;
  sig_der ← ImportHygonSm2Sig ecc_sig1;
  msg ← read_at cek_cert 0 cert_msg_len;
  uid ← user_id_view ecc_pubkey;
  Sm2Verify msg sig_der pkey uid.

Definition VerifyPekCertWithCekCert (pek_cert cek_cert : bytes) : outcome unit :=
  pubkey_usage ← read_at pek_cert off_cert_pubkey_usage 4;
  _ ← YACL_ENFORCE (le_int pubkey_usage =? KEY_USAGE_TYPE_PEK)
        "PEK cert pubkey_usage type err, expect {}, got {}"
        [FInt KEY_USAGE_TYPE_PEK; FInt (le_int pubkey_usage)];
  sig1_usage ← read_at pek_cert off_cert_sig1_usage 4;
  _ ← YACL_ENFORCE (le_int sig1_usage =? KEY_USAGE_TYPE_CEK)
        "PEK cert sig1 usage type err, expect {}, got {}"
        [FInt KEY_USAGE_TYPE_CEK; FInt (le_int sig1_usage)];
  ecc_pubkey ← read_at cek_cert off_cert_pubkey sz_pubkey;
  pkey ← ImportHygonSm2Pubkey ecc_pubkey;
  ecc_sig1 ← read_at pek_cert off_cert_sig1 sz_sig;
  sig_der ← ImportHygonSm2Sig ecc_sig1;
  msg ← read_at pek_cert 0 cert_msg_len;
  uid ← user_id_view ecc_pubkey;
  Sm2Verify msg sig_der pkey uid.

Definition VerifyQuoteSignature (quote pek_cert : bytes) : outcome unit :=
  ecc_pubkey ← read_at pek_cert off_cert_pubkey sz_pubkey;
  pkey ← ImportHygonSm2Pubkey ecc_pubkey;
  ecc_sig1 ← read_at quote off_q_sig1 sz_sig;
  sig_der ← ImportHygonSm2Sig ecc_sig1;
  msg ← read_at quote 0 quote_msg_len;
  uid ← user_id_view ecc_pubkey;
  Sm2Verify msg sig_der pkey uid.

(** The loop of [RetrieveCsvQuotePlainData] from word [i] on, with [n] words to
    go; [src] is the object behind [src_data] and [off] the offset of
    [src_data] in it. *)
Fixpoint retrieve_words (n i : nat) (src : bytes) (off : nat) (anonce : Z) (dst_data : bytes)
    : outcome bytes :=
  match n with
  | O => mret dst_data
  | S n =>
      w ← read_at src (off + 4 * i) 4;
      dst_data ← memcpy_at dst_data (4 * i) (le_bytes 4 (Z.lxor (le_int w) anonce));
      retrieve_words n (S i) src off anonce dst_data
  end.

Definition RetrieveCsvQuotePlainData (sizeof_T : nat) (src : bytes) (off element_num : nat)
    (anonce : Z) : outcome bytes :=
  let data_size := (sizeof_T * element_num)%nat in
  _ ← YACL_ENFORCE (bool_decide (data_size mod 4 = 0)%nat)
        "Data size in bytes must be times of sizeof(uint32_t), but got {}"
        [FInt (Z.of_nat data_size)];
  retrieve_words (data_size / 4) 0 src off anonce (zero_bytes data_size).

(** The constructor's call of [Init] on a report. *)
Definition CsvInit (report : UnifiedAttestationReport) : outcome CsvAttestationVerifier :=
  _ ← YACL_ENFORCE (String.eqb report.(str_report_version) kReportVersion)
        "Ua report version not match, expect {}, got {}"
        [FStr kReportVersion; FStr report.(str_report_version)];
  _ ← YACL_ENFORCE (String.eqb report.(str_report_type) ReportType.kReportTypePassport)
        "Unsupport Ua report type: {}, only {} is supported"
        [FStr report.(str_report_type); FStr ReportType.kReportTypePassport];
  _ ← YACL_ENFORCE (String.eqb report.(report_tee_platform) Platform.kPlatformCsv)
        "Ua report platform not match, expect {}, got {}"
        [FStr Platform.kPlatformCsv; FStr report.(report_tee_platform)];
  hygon_csv_report ← JSON2PB (T := HygonCsvReport) report.(json_report);
  quote_bytes ← call (base64_decode hygon_csv_report.(csv_b64_quote));
  _ ← YACL_ENFORCE (bool_decide (length quote_bytes = sz_quote))
        "Csv quote size err, expect {}, got {}"
        [FInt (Z.of_nat sz_quote); FInt (len quote_bytes)];
  chain ← JSON2PB (T := HygonCsvCertChain) hygon_csv_report.(json_cert_chain);
  hsk_cert_bytes ← call (base64_decode chain.(b64_hsk_cert));
  _ ← YACL_ENFORCE (bool_decide (length hsk_cert_bytes = sz_hsk))
        "Csv hsk cert size err, expect {}, got {}"
        [FInt (Z.of_nat sz_hsk); FInt (len hsk_cert_bytes)];
  cek_cert_bytes ← call (base64_decode chain.(b64_cek_cert));
  _ ← YACL_ENFORCE (bool_decide (length cek_cert_bytes = sz_cert))
        "Csv cek cert size err, expect {}, got {}"
        [FInt (Z.of_nat sz_cert); FInt (len cek_cert_bytes)];
  mret (mk_csv report quote_bytes hsk_cert_bytes cek_cert_bytes).

Definition csv_verify_platform (v : CsvAttestationVerifier) : outcome unit :=
  _ ← VerifyHskCertWithHrkPubkey v.(csv_hsk_cert);
  _ ← VerifyCekCertWithHskCert v.(csv_cek_cert) v.(csv_hsk_cert);
  anonce ← read_at v.(csv_quote) off_q_anonce 4;
  pek_cert ← RetrieveCsvQuotePlainData sz_cert v.(csv_quote) off_q_pek_cert 1 (le_int anonce);
  _ ← VerifyPekCertWithCekCert pek_cert v.(csv_cek_cert);
  VerifyQuoteSignature v.(csv_quote) pek_cert.

(** [ParseUnifiedReport] up to [set_hex_secure_flags]; also returns the vector
    [user_data], which the last statement uses. *)
Definition csv_parse_fields (v : CsvAttestationVerifier) (attrs : UnifiedAttestationAttributes)
    : outcome (UnifiedAttestationAttributes * bytes) :=
  let attrs := set_str_tee_platform v.(csv_report).(report_tee_platform) attrs in
  let quote := v.(csv_quote) in
  anonce_field ← read_at quote off_q_anonce 4;
  let anonce := le_int anonce_field in
  vm_id ← RetrieveCsvQuotePlainData 1 quote off_q_vm_id VM_ID_SIZE anonce;
  let attrs := set_hex_prod_id (BytesToHexString vm_id) attrs in
  vm_version ← RetrieveCsvQuotePlainData 1 quote off_q_vm_version VM_VERSION_SIZE anonce;
  let attrs := set_hex_platform_sw_version (BytesToHexString vm_version) attrs in
  user_data ← RetrieveCsvQuotePlainData 1 quote off_q_user_data HASH_LEN anonce;
  let attrs := set_hex_user_data (BytesToHexString user_data) attrs in
  public_key_hash ←
    RetrieveCsvQuotePlainData 1 quote (off_q_user_data + HASH_LEN) HASH_LEN anonce;
  let attrs := set_hex_hash_or_pem_pubkey (BytesToHexString public_key_hash) attrs in
  mnonce ← RetrieveCsvQuotePlainData 1 quote off_q_mnonce GUEST_ATTESTATION_NONCE_SIZE anonce;
  let attrs := set_hex_nonce (BytesToHexString mnonce) attrs in
  measure ← RetrieveCsvQuotePlainData sz_hash_block quote off_q_measure 1 anonce;
  let attrs := set_hex_boot_measurement (BytesToHexString measure) attrs in
  policy_field ← read_at quote off_q_policy 4;
  let policy := Z.lxor (le_int policy_field) anonce in
  let attrs := set_hex_secure_flags (BytesToHexString (le_bytes 4 policy)) attrs in
  mret (attrs, user_data).

Definition csv_parse_unified_report (v : CsvAttestationVerifier)
    (attrs : UnifiedAttestationAttributes) : outcome UnifiedAttestationAttributes :=
  '(attrs, user_data) ← csv_parse_fields v attrs;
  public_key_hash ← read_at user_data HASH_LEN HASH_LEN;
  mret (set_hex_hash_or_pem_pubkey (BytesToHexString public_key_hash) attrs).

#[export] Instance Csv_AttestationVerifier : AttestationVerifier CsvAttestationVerifier := {|
  ParseUnifiedReport := csv_parse_unified_report;
  VerifyPlatform _ v := csv_verify_platform v
|}.
End Model.

(** ** The masked fields *)

(** [bs] with every 32-bit word xored with [anonce]. *)
Fixpoint xor_words (n : nat) (anonce : Z) (bs : bytes) : bytes :=
  match n with
  | O => []
  | S n => le_bytes 4 (Z.lxor (le_int (take 4 bs)) anonce) ++ xor_words n anonce (drop 4 bs)
  end.

Definition unmask (anonce : Z) (bs : bytes) : bytes := xor_words (length bs / 4) anonce bs.

Lemma length_xor_words n a bs : length (xor_words n a bs) = (4 * n)%nat.
Proof.
  revert bs. induction n as [|n IH]; intros bs; [done|].
  cbn [xor_words]. rewrite length_app, length_le_bytes, IH. lia.
Qed.

Lemma length_unmask a bs : (length bs mod 4 = 0)%nat -> length (unmask a bs) = length bs.
Proof.
  intros Hm. unfold unmask. rewrite length_xor_words.
  pose proof (Nat.div_mod_eq (length bs) 4). lia.
Qed.

(** Only the first [4 * n] bytes matter. *)
Lemma xor_words_take n a bs : xor_words n a (take (4 * n) bs) = xor_words n a bs.
Proof.
  revert bs. induction n as [|n IH]; intros bs; [done|]. cbn [xor_words].
  rewrite take_take, Nat.min_l by lia.
  rewrite <- (IH (drop 4 bs)), skipn_firstn_comm. do 3 f_equal. lia.
Qed.

Lemma lxor_word_range w a : 0 <= w < 2 ^ 32 -> 0 <= a < 2 ^ 32 -> 0 <= Z.lxor w a < 2 ^ 32.
Proof.
  intros Hw Ha. split; [apply Z.lxor_nonneg; lia|].
  destruct (Z.eq_dec (Z.lxor w a) 0) as [->|Hne]; [lia|].
  assert (0 <= Z.lxor w a) by (apply Z.lxor_nonneg; lia).
  apply Z.log2_lt_pow2; [lia|].
  eapply Z.le_lt_trans; [apply Z.log2_lxor; lia|].
  destruct (Z.eq_dec w 0) as [->|], (Z.eq_dec a 0) as [->|]; try done;
    apply Z.max_lub_lt; try done; apply Z.log2_lt_pow2; lia.
Qed.

Lemma le_int_word bs : 0 <= le_int (take 4 bs) < 2 ^ 32.
Proof.
  pose proof (le_int_range (take 4 bs)) as [Hlo Hhi]. split; [done|].
  eapply Z.lt_le_trans; [exact Hhi|]. unfold len. rewrite length_take.
  apply Z.pow_le_mono_r; lia.
Qed.

(** Masks add up. *)
Lemma xor_words_xor_words n a d bs :
  0 <= a < 2 ^ 32 -> 0 <= d < 2 ^ 32 -> (4 * n <= length bs)%nat ->
  xor_words n a (xor_words n d bs) = xor_words n (Z.lxor d a) bs.
Proof.
  intros Ha Hd. revert bs. induction n as [|n IH]; intros bs Hl; [done|]. cbn [xor_words].
  rewrite take_app_length', drop_app_length' by (by rewrite length_le_bytes).
  rewrite le_int_bytes by (apply lxor_word_range; [apply le_int_word|done]).
  rewrite IH by (rewrite length_drop; lia). by rewrite Z.lxor_assoc.
Qed.

Lemma xor_words_0 n bs : length bs = (4 * n)%nat -> xor_words n 0 bs = bs.
Proof.
  revert bs. induction n as [|n IH]; intros bs Hl; [by destruct bs|]. cbn [xor_words].
  rewrite IH, Z.lxor_0_r by (rewrite length_drop; lia).
  rewrite <- (take_drop 4 bs) at 3. f_equal.
  rewrite <- (le_bytes_int (take 4 bs)) at 2. f_equal. rewrite length_take. lia.
Qed.

(** Masking twice with the same word gives the bytes back. *)
Lemma unmask_involutive a bs :
  0 <= a < 2 ^ 32 -> (length bs mod 4 = 0)%nat -> unmask a (unmask a bs) = bs.
Proof.
  intros Ha Hm. pose proof (Nat.div_mod_eq (length bs) 4) as Hd.
  unfold unmask at 1. rewrite length_unmask by done. unfold unmask.
  rewrite xor_words_xor_words by (done || lia). rewrite Z.lxor_nilpotent.
  apply xor_words_0. lia.
Qed.

Lemma unmask_unmask a d bs :
  0 <= a < 2 ^ 32 -> 0 <= d < 2 ^ 32 -> (length bs mod 4 = 0)%nat ->
  unmask a (unmask d bs) = unmask (Z.lxor d a) bs.
Proof.
  intros Ha Hd Hm. pose proof (Nat.div_mod_eq (length bs) 4).
  unfold unmask at 1. rewrite length_unmask by done. unfold unmask.
  by rewrite xor_words_xor_words by (done || lia).
Qed.

Lemma retrieve_words_ok n i src off a dst :
  (off + 4 * (i + n) <= length src)%nat -> length dst = (4 * (i + n))%nat ->
  retrieve_words n i src off a dst =
    Ok (take (4 * i) dst ++ xor_words n a (drop (off + 4 * i) src)).
Proof.
  revert i dst. induction n as [|n IH]; intros i dst Hs Hd.
  { cbn. rewrite app_nil_r, take_ge by lia. done. }
  cbn [retrieve_words xor_words]. rewrite bind_read by lia.
  rewrite memcpy_at_in by (rewrite length_le_bytes; lia). rewrite bind_Ok_l.
  rewrite IH by (rewrite ?length_splice by (rewrite length_le_bytes; lia); lia).
  unfold splice. rewrite length_le_bytes. f_equal.
  rewrite (app_assoc (take (4 * i) dst)), take_app_length'
    by (rewrite length_app, length_take, length_le_bytes; lia).
  rewrite drop_drop, <- app_assoc. unfold slice.
  by replace (off + 4 * S i)%nat with (off + 4 * i + 4)%nat by lia.
Qed.

Lemma Retrieve_ok sizeof_T src off num a :
  let n := (sizeof_T * num)%nat in
  (n mod 4 = 0)%nat -> (off + n <= length src)%nat ->
  RetrieveCsvQuotePlainData sizeof_T src off num a = Ok (unmask a (slice src off n)).
Proof.
  intros n Hm Hl. unfold RetrieveCsvQuotePlainData. fold n. rewrite bind_enforce_dec by done.
  pose proof (Nat.div_mod_eq n 4) as Hd.
  rewrite retrieve_words_ok by (unfold zero_bytes; rewrite ?length_replicate; lia).
  rewrite Nat.mul_0_r, Nat.add_0_r, take_0. unfold unmask. rewrite length_slice by done.
  unfold slice. rewrite <- (xor_words_take _ _ (drop off src)).
  by replace (4 * (n / 4))%nat with n by lia.
Qed.

Lemma bind_retrieve {A} sizeof_T src off num a (k : bytes -> outcome A) :
  ((sizeof_T * num) mod 4 = 0)%nat -> (off + sizeof_T * num <= length src)%nat ->
  (RetrieveCsvQuotePlainData sizeof_T src off num a ≫= k)
  = k (unmask a (slice src off (sizeof_T * num))).
Proof. intros. by rewrite Retrieve_ok. Qed.

(** ** Keys and signatures *)

Lemma not_null_Ok {A} (p : option A) fmt a : not_null p fmt = Ok a <-> p = Some a.
Proof. destruct p; cbn; split; congruence. Qed.

Lemma not_null_defined {A} (p : option A) fmt : defined (not_null p fmt).
Proof. by destruct p. Qed.

Lemma returns_1_Ok {A} (r : Z * A) fmt a : returns_1 r fmt = Ok a <-> r = (1, a).
Proof.
  destruct r as [z b]. unfold returns_1. cbn. rewrite bind_Ok. setoid_rewrite YACL_ENFORCE_Ok.
  setoid_rewrite Z.eqb_eq. split; [intros ([] & -> & [= ->]); done|intros [= -> ->]; by exists tt].
Qed.

Lemma returns_1_defined {A} (r : Z * A) fmt : defined (returns_1 r fmt).
Proof. unfold returns_1. solve_defined. Qed.

#[export] Hint Resolve not_null_defined returns_1_defined : trustflow.

Lemma reverse_range_app l1 l2 l3 off n :
  off = length l1 -> n = length l2 ->
  reverse_range (l1 ++ l2 ++ l3) off n = Ok (l1 ++ reverse l2 ++ l3).
Proof.
  intros -> ->. unfold reverse_range. rewrite bind_read by (rewrite !length_app; lia).
  rewrite slice_mid by done. apply memcpy_at_app; [done|]. by rewrite length_reverse.
Qed.

Lemma reverse_range_head l2 l3 n :
  n = length l2 -> reverse_range (l2 ++ l3) 0 n = Ok (reverse l2 ++ l3).
Proof. intros. by apply (reverse_range_app []). Qed.

(** Takes apart the calls of OpenSSL that succeeded. *)
Ltac inv_openssl :=
  repeat match goal with
  | H : not_null _ _ = Ok _ |- _ => apply not_null_Ok in H
  | H : returns_1 _ _ = Ok _ |- _ => apply returns_1_Ok in H
  end.

Section Chain.
Context `{HL : HygonLaws} `{SL : OpenSSLLaws}.

(** The curve point of a key, in SEC1 form: Hygon stores integers with the
    lowest byte first. *)
Definition point_of (pk : bytes) : bytes :=
  Byte.x04 :: reverse (slice pk off_pk_Qx ECC_LEN) ++ reverse (slice pk off_pk_Qy ECC_LEN).

Definition uid_len (pk : bytes) : Z :=
  le_int (slice pk (off_pk_user_id + off_uid_len) sz_uid_len).
Definition uid_of (pk : bytes) : bytes :=
  slice pk (off_pk_user_id + off_uid) (Z.to_nat (uid_len pk)).
Definition uid_fits (pk : bytes) : Prop := (Z.to_nat (uid_len pk) <= sz_uid)%nat.

Definition rs_of (sig : bytes) : Z * Z :=
  (le_int (slice sig off_sig_r ECC_LEN), le_int (slice sig off_sig_s ECC_LEN)).

(** The buffer that is handed to OpenSSL is the point. *)
Lemma pubkey_buffer (k : bytes -> outcome pkey) pk :
  length pk = sz_pubkey ->
  (pubkey ← memcpy_at (zero_bytes (1 + ECC_LEN + ECC_LEN)) 0 [POINT_CONVERSION_UNCOMPRESSED];
   qx ← read_at pk off_pk_Qx ECC_LEN;
   pubkey ← memcpy_at pubkey 1 qx;
   qy ← read_at pk off_pk_Qy ECC_LEN;
   pubkey ← memcpy_at pubkey (1 + ECC_LEN) qy;
   pubkey ← reverse_range pubkey 1 ECC_LEN;
   pubkey ← reverse_range pubkey (1 + ECC_LEN) ECC_LEN;
   k pubkey) = k (point_of pk).
Proof.
  intros Hl. pose proof pk_in as Hpk. unfold zero_bytes. rewrite !replicate_add, <- app_assoc.
  rewrite memcpy_at_head, bind_Ok_l, bind_read by (done || lia). set (qx := slice pk off_pk_Qx ECC_LEN).
  assert (length qx = ECC_LEN) as Hqx by (apply length_slice; lia).
  rewrite memcpy_at_app, bind_Ok_l, bind_read by (done || rewrite ?length_replicate; lia).
  set (qy := slice pk off_pk_Qy ECC_LEN).
  assert (length qy = ECC_LEN) as Hqy by (apply length_slice; lia).
  rewrite <- (app_nil_r (replicate ECC_LEN Byte.x00)), (app_assoc [_] qx).
  rewrite memcpy_at_app, bind_Ok_l by (rewrite ?length_app, ?length_replicate; cbn; lia).
  rewrite <- app_assoc, reverse_range_app, bind_Ok_l by done.
  rewrite (app_assoc [_]), reverse_range_app, bind_Ok_l
    by (rewrite ?length_app, ?length_reverse; cbn; lia).
  unfold point_of. fold qx qy. by rewrite app_nil_r.
Qed.

Lemma ImportHygonSm2Pubkey_Ok pk k :
  length pk = sz_pubkey -> ImportHygonSm2Pubkey pk = Ok k -> pkey_point k = point_of pk.
Proof.
  intros Hl Hk. unfold ImportHygonSm2Pubkey in Hk.
  rewrite (pubkey_buffer _ pk Hl) in Hk. inv_ok. inv_openssl. subst.
  eapply fromdata_ok; [eassumption|].
  erewrite BLD_to_param_ok by eassumption. erewrite BLD_push_octet_ok by eassumption.
  erewrite BLD_push_utf8_ok by eassumption. erewrite BLD_new_ok by eassumption. done.
Qed.

Lemma ImportHygonSm2Pubkey_defined pk :
  length pk = sz_pubkey -> defined (ImportHygonSm2Pubkey pk).
Proof. intros Hl. unfold ImportHygonSm2Pubkey. rewrite (pubkey_buffer _ pk Hl). solve_defined. Qed.

(** The two integers of a signature are turned to big endian. *)
Lemma sig_buffer {A} (k : bytes -> bytes -> outcome A) sig :
  length sig = sz_sig ->
  (sig_r ← read_at sig off_sig_r ECC_LEN;
   r ← memcpy_at (zero_bytes sz_ecdsa_sign_r) 0 sig_r;
   sig_s ← read_at sig off_sig_s ECC_LEN;
   s ← memcpy_at (zero_bytes sz_ecdsa_sign_s) 0 sig_s;
   r ← reverse_range r 0 ECC_LEN;
   s ← reverse_range s 0 ECC_LEN;
   r_bytes ← read_at r 0 ECC_LEN;
   s_bytes ← read_at s 0 ECC_LEN;
   k r_bytes s_bytes) =
  k (reverse (slice sig off_sig_r ECC_LEN)) (reverse (slice sig off_sig_s ECC_LEN)).
Proof.
  intros Hl. pose proof sig_in as Hs. unfold zero_bytes.
  rewrite bind_read by lia. set (r := slice sig off_sig_r ECC_LEN).
  assert (length r = ECC_LEN) as Hr by (apply length_slice; lia).
  replace sz_ecdsa_sign_r with (ECC_LEN + (sz_ecdsa_sign_r - ECC_LEN))%nat by lia.
  replace sz_ecdsa_sign_s with (ECC_LEN + (sz_ecdsa_sign_s - ECC_LEN))%nat by lia.
  rewrite !replicate_add.
  rewrite memcpy_at_head, bind_Ok_l, bind_read by (rewrite ?length_replicate; cbn; lia).
  set (s := slice sig off_sig_s ECC_LEN).
  assert (length s = ECC_LEN) as Hss by (apply length_slice; lia).
  rewrite memcpy_at_head, bind_Ok_l by (rewrite ?length_replicate; cbn; lia).
  rewrite !reverse_range_head, !bind_Ok_l by done.
  rewrite !bind_read by (rewrite !length_app, ?length_reverse; cbn; lia).
  by rewrite !slice_head by (rewrite ?length_reverse; done).
Qed.

Lemma ImportHygonSm2Sig_Ok sig der :
  length sig = sz_sig -> ImportHygonSm2Sig sig = Ok der -> der_rs der = Some (rs_of sig).
Proof.
  intros Hl Hd. unfold ImportHygonSm2Sig in Hd.
  rewrite (sig_buffer _ sig Hl) in Hd. inv_ok. inv_openssl.
  match goal with H : ECDSA_SIG_set0 _ _ _ = (1, ?g) |- _ =>
    destruct (i2d_ECDSA_SIG g) as [n bs] eqn:E; cbn in *;
    apply i2d_ok in E as [Hn Hbs]; [|lia]; apply SIG_set0_ok in H as Hrs end.
  match goal with H : memcpy_at _ _ _ = Ok _ |- _ => rename H into Hm end.
  rewrite <- (app_nil_r (zero_bytes _)), memcpy_at_head in Hm.
  2: { unfold zero_bytes. rewrite length_replicate. unfold len in Hn. lia. }
  cbn in Hm. rewrite app_nil_r in Hm. injection Hm as <-.
  rewrite Hbs, Hrs. unfold rs_of.
  by repeat (erewrite BN_bin2bn_ok by eassumption; rewrite reverse_involutive).
Qed.

Lemma ImportHygonSm2Sig_defined sig :
  length sig = sz_sig -> defined (ImportHygonSm2Sig sig).
Proof.
  intros Hl. unfold ImportHygonSm2Sig. rewrite (sig_buffer _ sig Hl).
  do 4 (apply bind_defined; [eauto with trustflow|intros ? ?]).
  destruct (i2d_ECDSA_SIG _) as [n bs] eqn:E. cbn [fst snd].
  apply bind_defined; [eauto with trustflow|]. intros _ Hn%YACL_ENFORCE_Ok%Z.ltb_lt.
  apply i2d_ok in E as [Hlen _]; [|done].
  rewrite memcpy_at_in; [solve_defined|]. unfold zero_bytes. rewrite length_replicate.
  unfold len in Hlen. lia.
Qed.

Lemma Sm2Verify_Ok msg der k uid rs :
  Sm2Verify msg der k uid = Ok tt -> der_rs der = Some rs ->
  sm2_valid (pkey_point k) uid msg rs.
Proof.
  intros Hv Hrs. unfold Sm2Verify in Hv. inv_ok. inv_openssl.
  repeat match goal with
  | H : EVP_PKEY_CTX_set1_id _ _ = _ |- _ => apply CTX_set1_id_ok in H
  | H : EVP_DigestVerifyInit_sm3 _ _ = _ |- _ => apply VerifyInit_ok in H as (Hp1 & Hk1 & Hm1)
  | H : EVP_DigestVerifyUpdate _ _ = _ |- _ => apply VerifyUpdate_ok in H as (Hp2 & Hk2 & Hm2)
  | H : (_ =? 1) = true |- _ => apply Z.eqb_eq in H
  end.
  rewrite MD_set_pkey_ctx_ok in Hp1. rewrite Hp1 in Hp2. rewrite Hk1 in Hk2.
  rewrite Hm1 in Hm2. rewrite <- (app_nil_l msg), <- Hm2.
  by eapply VerifyFinal_ok.
Qed.

Lemma Sm2Verify_defined msg der k uid : defined (Sm2Verify msg der k uid).
Proof. unfold Sm2Verify. solve_defined. Qed.

Lemma user_id_view_fits pk :
  length pk = sz_pubkey -> uid_fits pk -> user_id_view pk = Ok (uid_of pk).
Proof.
  intros Hl Hf. pose proof pk_in as Hpk. unfold uid_fits in Hf. unfold user_id_view.
  rewrite !bind_read by lia. fold (uid_len pk).
  rewrite read_at_in by (rewrite length_slice; lia). f_equal. unfold uid_of.
  rewrite slice_slice by lia. f_equal. lia.
Qed.

Lemma user_id_view_Ok pk uid :
  length pk = sz_pubkey -> user_id_view pk = Ok uid -> uid_fits pk /\ uid = uid_of pk.
Proof.
  intros Hl Hu. pose proof pk_in as Hpk. unfold user_id_view in Hu.
  rewrite !bind_read in Hu by lia. fold (uid_len pk) in Hu.
  apply read_at_Ok in Hu as [Hf ->]. rewrite length_slice in Hf by lia.
  split; [done|]. unfold uid_of. rewrite slice_slice by lia. f_equal. lia.
Qed.

(** What the four verification functions have in common: the signature at
    [sig_off] of [obj] over its first [msg_len] bytes, under the key [pk]. *)
Definition check_signed (pk obj : bytes) (sig_off msg_len : nat) : outcome unit :=
  pkey ← ImportHygonSm2Pubkey pk;
  ecc_sig ← read_at obj sig_off sz_sig;
  sig_der ← ImportHygonSm2Sig ecc_sig;
  msg ← read_at obj 0 msg_len;
  uid ← user_id_view pk;
  Sm2Verify msg sig_der pkey uid.

Definition signed (pk obj : bytes) (sig_off msg_len : nat) : Prop :=
  sm2_valid (point_of pk) (uid_of pk) (take msg_len obj) (rs_of (slice obj sig_off sz_sig)).

Lemma check_signed_Ok pk obj sig_off msg_len :
  length pk = sz_pubkey -> check_signed pk obj sig_off msg_len = Ok tt ->
  signed pk obj sig_off msg_len.
Proof.
  intros Hl Hc. unfold check_signed in Hc. inv_ok.
  repeat match goal with
  | H : read_at _ _ _ = Ok _ |- _ => apply read_at_Ok in H as [? ->]
  | H : ImportHygonSm2Pubkey _ = Ok _ |- _ => apply ImportHygonSm2Pubkey_Ok in H as Hpt; [clear H|done]
  | H : ImportHygonSm2Sig _ = Ok _ |- _ =>
      apply ImportHygonSm2Sig_Ok in H as Hrs; [clear H|by apply length_slice]
  | H : user_id_view _ = Ok _ |- _ => apply user_id_view_Ok in H as [_ ->]; [|done]
  end.
  unfold signed. rewrite <- Hpt. eapply Sm2Verify_Ok in Hrs; [|eassumption].
  unfold slice in *. by rewrite drop_0 in Hrs.
Qed.

Lemma check_signed_defined pk obj sig_off msg_len :
  length pk = sz_pubkey -> (sig_off + sz_sig <= length obj)%nat -> (msg_len <= length obj)%nat ->
  uid_fits pk -> defined (check_signed pk obj sig_off msg_len).
Proof.
  intros Hl Hs Hm Hf. unfold check_signed.
  apply bind_defined; [by apply ImportHygonSm2Pubkey_defined|]. intros k _.
  rewrite bind_read by done.
  apply bind_defined; [apply ImportHygonSm2Sig_defined; by apply length_slice|]. intros der _.
  rewrite bind_read by done. rewrite user_id_view_fits by done. apply Sm2Verify_defined.
Qed.

(** ** The root key *)

Lemma length_words l : length (words l) = (4 * length l)%nat.
Proof.
  unfold words. induction l as [|w l IH]; [done|]. cbn [map concat].
  rewrite length_app, length_le_bytes, IH. cbn. lia.
Qed.

Lemma kHrkPubkey_user_id_last : exists base, length base = sz_pubkey /\
  kHrkPubkey =
    splice base off_pk_user_id (words [0x5948000d; 0x2d4e4f47; 0x2d445353; 0x004b5248]%Z).
Proof.
  pose proof pk_in as Hpk. pose proof ecc_len_256. eexists. split; [|reflexivity].
  repeat apply length_splice_eq; rewrite ?length_words, ?length_le_bytes; unfold zero_bytes;
    rewrite ?length_replicate; cbn [length]; lia.
Qed.

Lemma length_kHrkPubkey : length kHrkPubkey = sz_pubkey.
Proof.
  destruct kHrkPubkey_user_id_last as (base & Hb & ->). pose proof pk_in.
  apply length_splice_eq; [done|]. rewrite length_words. cbn [length]. lia.
Qed.

(** The user id of the root key. *)
Lemma hrk_user_id :
  uid_len kHrkPubkey = 13 /\ uid_of kHrkPubkey = s2b "HYGON-SSD-HRK" /\ uid_fits kHrkPubkey.
Proof.
  destruct userid_layout as (Hl & Hs & Hu & Hsz). pose proof pk_in as Hpk.
  destruct kHrkPubkey_user_id_last as (base & Hb & ->). unfold uid_of, uid_fits, uid_len.
  rewrite Hl, Hs, Hu, slice_splice_in by (rewrite ?length_words; cbn [length]; lia).
  split; [reflexivity|].
  change (le_int (slice (words _) 0 2)) with 13. split; [|change (Z.to_nat 13) with 13%nat; lia].
  rewrite slice_splice_in; [reflexivity|lia|]. rewrite length_words. cbn. lia.
Qed.

(** ** The certificate chain *)

Definition hsk_key (hsk : bytes) : bytes := slice hsk off_hsk_pubkey sz_pubkey.
Definition cert_key (cert : bytes) : bytes := slice cert off_cert_pubkey sz_pubkey.
Definition word_at (obj : bytes) (off : nat) : Z := le_int (slice obj off 4).
Definition anonce_of (quote : bytes) : Z := word_at quote off_q_anonce.
(** The certificate of the platform endorsement key in a quote. *)
Definition pek_of (quote : bytes) : bytes :=
  unmask (anonce_of quote) (slice quote off_q_pek_cert sz_cert).

Definition hsk_trusted (hsk : bytes) : Prop :=
  word_at hsk off_hsk_key_usage = KEY_USAGE_TYPE_HSK /\
  signed kHrkPubkey hsk off_hsk_sig hsk_msg_len.
Definition cek_trusted (hsk cek : bytes) : Prop :=
  word_at cek off_cert_pubkey_usage = KEY_USAGE_TYPE_CEK /\
  word_at cek off_cert_sig1_usage = KEY_USAGE_TYPE_HSK /\
  signed (hsk_key hsk) cek off_cert_sig1 cert_msg_len.
Definition pek_trusted (cek pek : bytes) : Prop :=
  word_at pek off_cert_pubkey_usage = KEY_USAGE_TYPE_PEK /\
  word_at pek off_cert_sig1_usage = KEY_USAGE_TYPE_CEK /\
  signed (cert_key cek) pek off_cert_sig1 cert_msg_len.
Definition quote_trusted (pek quote : bytes) : Prop :=
  signed (cert_key pek) quote off_q_sig1 quote_msg_len.

(** The sizes [Init] checks. *)
Definition csv_sized (v : CsvAttestationVerifier) : Prop :=
  length v.(csv_quote) = sz_quote /\ length v.(csv_hsk_cert) = sz_hsk /\
  length v.(csv_cek_cert) = sz_cert.

Lemma VerifyHsk_unfold hsk : length hsk = sz_hsk ->
  VerifyHskCertWithHrkPubkey hsk =
    (_ ← YACL_ENFORCE (word_at hsk off_hsk_key_usage =? KEY_USAGE_TYPE_HSK)
           "HSK cert usage type err, expect {}, got {}"
           [FInt KEY_USAGE_TYPE_HSK; FInt (word_at hsk off_hsk_key_usage)];
     check_signed kHrkPubkey hsk off_hsk_sig hsk_msg_len).
Proof.
  intros Hl. pose proof hsk_in. unfold VerifyHskCertWithHrkPubkey.
  by rewrite bind_read by lia.
Qed.

Lemma VerifyCek_unfold cek hsk : length cek = sz_cert -> length hsk = sz_hsk ->
  VerifyCekCertWithHskCert cek hsk =
    (_ ← YACL_ENFORCE (word_at cek off_cert_pubkey_usage =? KEY_USAGE_TYPE_CEK)
           "CEK cert pubkey_usage type err, expect {}, got {}"
           [FInt KEY_USAGE_TYPE_CEK; FInt (word_at cek off_cert_pubkey_usage)];
     _ ← YACL_ENFORCE (word_at cek off_cert_sig1_usage =? KEY_USAGE_TYPE_HSK)
           "CEK cert sig1 usage type err, expect {}, got {}"
           [FInt KEY_USAGE_TYPE_HSK; FInt (word_at cek off_cert_sig1_usage)];
     check_signed (hsk_key hsk) cek off_cert_sig1 cert_msg_len).
Proof.
  intros Hc Hh. pose proof hsk_in. pose proof cert_in. unfold VerifyCekCertWithHskCert.
  rewrite bind_read by lia. unfold word_at. same_steps. rewrite bind_read by lia.
  same_steps. by rewrite bind_read by lia.
Qed.

Lemma VerifyPek_unfold pek cek : length pek = sz_cert -> length cek = sz_cert ->
  VerifyPekCertWithCekCert pek cek =
    (_ ← YACL_ENFORCE (word_at pek off_cert_pubkey_usage =? KEY_USAGE_TYPE_PEK)
           "PEK cert pubkey_usage type err, expect {}, got {}"
           [FInt KEY_USAGE_TYPE_PEK; FInt (word_at pek off_cert_pubkey_usage)];
     _ ← YACL_ENFORCE (word_at pek off_cert_sig1_usage =? KEY_USAGE_TYPE_CEK)
           "PEK cert sig1 usage type err, expect {}, got {}"
           [FInt KEY_USAGE_TYPE_CEK; FInt (word_at pek off_cert_sig1_usage)];
     check_signed (cert_key cek) pek off_cert_sig1 cert_msg_len).
Proof.
  intros Hc Hh. pose proof cert_in. unfold VerifyPekCertWithCekCert.
  rewrite bind_read by lia. unfold word_at. same_steps. rewrite bind_read by lia.
  same_steps. by rewrite bind_read by lia.
Qed.

Lemma VerifyQuote_unfold quote pek : length pek = sz_cert ->
  VerifyQuoteSignature quote pek = check_signed (cert_key pek) quote off_q_sig1 quote_msg_len.
Proof.
  intros Hp. pose proof cert_in. unfold VerifyQuoteSignature. by rewrite bind_read by lia.
Qed.

Lemma length_pek_of quote : length quote = sz_quote -> length (pek_of quote) = sz_cert.
Proof.
  intros Hq. pose proof quote_in. destruct sizes_in_words as (_ & _ & _ & _ & _ & Hm).
  unfold pek_of. rewrite length_unmask; rewrite length_slice by lia; done.
Qed.

Lemma length_hsk_key hsk : length hsk = sz_hsk -> length (hsk_key hsk) = sz_pubkey.
Proof. intros. pose proof hsk_in. apply length_slice. lia. Qed.

Lemma length_cert_key cert : length cert = sz_cert -> length (cert_key cert) = sz_pubkey.
Proof. intros. pose proof cert_in. apply length_slice. lia. Qed.

Lemma csv_verify_platform_unfold v : csv_sized v ->
  csv_verify_platform v =
    (_ ← VerifyHskCertWithHrkPubkey v.(csv_hsk_cert);
     _ ← VerifyCekCertWithHskCert v.(csv_cek_cert) v.(csv_hsk_cert);
     _ ← VerifyPekCertWithCekCert (pek_of v.(csv_quote)) v.(csv_cek_cert);
     VerifyQuoteSignature v.(csv_quote) (pek_of v.(csv_quote))).
Proof.
  intros (Hq & _ & _). pose proof quote_in. destruct sizes_in_words as (_ & _ & _ & _ & _ & Hm).
  unfold csv_verify_platform. same_steps.
  rewrite bind_read by lia. rewrite bind_retrieve by (rewrite Nat.mul_1_r; lia).
  by rewrite Nat.mul_1_r.
Qed.

Lemma VerifyHsk_Ok hsk : length hsk = sz_hsk ->
  VerifyHskCertWithHrkPubkey hsk = Ok tt -> hsk_trusted hsk.
Proof.
  intros Hl Hv. rewrite VerifyHsk_unfold in Hv by done. inv_ok.
  rewrite Z.eqb_eq in *. split; [done|]. apply check_signed_Ok; [apply length_kHrkPubkey|done].
Qed.

Lemma VerifyCek_Ok cek hsk : length cek = sz_cert -> length hsk = sz_hsk ->
  VerifyCekCertWithHskCert cek hsk = Ok tt -> cek_trusted hsk cek.
Proof.
  intros Hc Hh Hv. rewrite VerifyCek_unfold in Hv by done. inv_ok.
  rewrite Z.eqb_eq in *. split; [done|]. split; [done|].
  apply check_signed_Ok; [by apply length_hsk_key|done].
Qed.

Lemma VerifyPek_Ok pek cek : length pek = sz_cert -> length cek = sz_cert ->
  VerifyPekCertWithCekCert pek cek = Ok tt -> pek_trusted cek pek.
Proof.
  intros Hp Hc Hv. rewrite VerifyPek_unfold in Hv by done. inv_ok.
  rewrite Z.eqb_eq in *. split; [done|]. split; [done|].
  apply check_signed_Ok; [by apply length_cert_key|done].
Qed.

Lemma VerifyHsk_defined hsk : length hsk = sz_hsk -> defined (VerifyHskCertWithHrkPubkey hsk).
Proof.
  intros Hl. rewrite VerifyHsk_unfold by done. pose proof hsk_in.
  apply bind_defined; [eauto with trustflow|]. intros _ _.
  apply check_signed_defined; [apply length_kHrkPubkey|lia|lia|apply hrk_user_id].
Qed.

Lemma VerifyCek_defined cek hsk : length cek = sz_cert -> length hsk = sz_hsk ->
  uid_fits (hsk_key hsk) -> defined (VerifyCekCertWithHskCert cek hsk).
Proof.
  intros Hc Hh Hf. rewrite VerifyCek_unfold by done. pose proof cert_in.
  do 2 (apply bind_defined; [eauto with trustflow|]; intros _ _).
  apply check_signed_defined; [by apply length_hsk_key|lia|lia|done].
Qed.

Lemma VerifyPek_defined pek cek : length pek = sz_cert -> length cek = sz_cert ->
  uid_fits (cert_key cek) -> defined (VerifyPekCertWithCekCert pek cek).
Proof.
  intros Hp Hc Hf. rewrite VerifyPek_unfold by done. pose proof cert_in.
  do 2 (apply bind_defined; [eauto with trustflow|]; intros _ _).
  apply check_signed_defined; [by apply length_cert_key|lia|lia|done].
Qed.

(** ** The attributes of a quote *)

(** A masked field of a quote. *)
Definition plain_field (quote : bytes) (anonce : Z) (off n : nat) : bytes :=
  unmask anonce (slice quote off n).

(** The attributes before the last statement of [ParseUnifiedReport]. *)
Definition csv_attrs `{Absl} (platform : string) (quote : bytes) (anonce : Z)
    (attrs : UnifiedAttestationAttributes) : UnifiedAttestationAttributes :=
  let field off n := BytesToHexString (plain_field quote anonce off n) in
  set_hex_secure_flags
    (BytesToHexString (le_bytes 4 (Z.lxor (word_at quote off_q_policy) anonce)))
  (set_hex_boot_measurement (field off_q_measure sz_hash_block)
  (set_hex_nonce (field off_q_mnonce GUEST_ATTESTATION_NONCE_SIZE)
  (set_hex_hash_or_pem_pubkey (field (off_q_user_data + HASH_LEN)%nat HASH_LEN)
  (set_hex_user_data (field off_q_user_data HASH_LEN)
  (set_hex_platform_sw_version (field off_q_vm_version VM_VERSION_SIZE)
  (set_hex_prod_id (field off_q_vm_id VM_ID_SIZE)
  (set_str_tee_platform platform attrs))))))).

Lemma csv_parse_fields_ok `{Absl} v attrs : length v.(csv_quote) = sz_quote ->
  csv_parse_fields v attrs =
    Ok (csv_attrs v.(csv_report).(report_tee_platform) v.(csv_quote)
          (anonce_of v.(csv_quote)) attrs,
        plain_field v.(csv_quote) (anonce_of v.(csv_quote)) off_q_user_data HASH_LEN).
Proof.
  intros Hq. pose proof quote_in. pose proof cert_in.
  destruct sizes_in_words as (H1' & H2' & H3' & H4' & H5' & _).
  unfold csv_parse_fields. rewrite bind_read by lia.
  rewrite !bind_retrieve by (rewrite ?Nat.mul_1_r, ?Nat.mul_1_l; lia).
  rewrite bind_read by lia. by rewrite ?Nat.mul_1_r, ?Nat.mul_1_l.
Qed.

Lemma length_plain_field quote a off n :
  (n mod 4 = 0)%nat -> (off + n <= length quote)%nat -> length (plain_field quote a off n) = n.
Proof. intros. unfold plain_field. rewrite length_unmask; by rewrite length_slice. Qed.

(** [user_data] has [HASH_LEN] bytes; the last statement reads the next ones. *)
Lemma csv_parse_ub `{Absl} v attrs : length v.(csv_quote) = sz_quote ->
  csv_parse_unified_report v attrs = UB "read".
Proof.
  intros Hq. pose proof quote_in. pose proof cert_in.
  destruct sizes_in_words as (_ & _ & Hm & _).
  unfold csv_parse_unified_report. rewrite csv_parse_fields_ok, bind_Ok_l by done.
  rewrite read_at_out; [done|]. rewrite length_plain_field by (done || lia).
  pose proof sizes_pos. lia.
Qed.

(** ** A quote with another mask *)

(** The report with [anonce] changed by [d] and the certificate masked anew. *)
Definition remask (d : Z) (quote : bytes) : bytes :=
  splice (splice quote off_q_anonce (le_bytes 4 (Z.lxor (anonce_of quote) d)))
    off_q_pek_cert (unmask d (slice quote off_q_pek_cert sz_cert)).

Section Remask.
Variables (d : Z) (quote : bytes).
Hypothesis Hd : 0 <= d < 2 ^ 32.
Hypothesis Hq : length quote = sz_quote.

Lemma anonce_of_range : 0 <= anonce_of quote < 2 ^ 32.
Proof.
  pose proof quote_in. pose proof (le_int_range (slice quote off_q_anonce 4)) as Hr.
  unfold len in Hr. rewrite length_slice in Hr by lia. exact Hr.
Qed.

Lemma length_pek_slice : length (slice quote off_q_pek_cert sz_cert) = sz_cert.
Proof. pose proof quote_in. apply length_slice. lia. Qed.

Lemma length_pek_masked : length (unmask d (slice quote off_q_pek_cert sz_cert)) = sz_cert.
Proof.
  destruct sizes_in_words as (_ & _ & _ & _ & _ & Hm).
  rewrite length_unmask; rewrite length_pek_slice; done.
Qed.

Lemma length_anonce_set :
  length (splice quote off_q_anonce (le_bytes 4 (Z.lxor (anonce_of quote) d))) = sz_quote.
Proof. pose proof quote_in. apply length_splice_eq; [done|]. rewrite length_le_bytes. lia. Qed.

Lemma length_remask : length (remask d quote) = sz_quote.
Proof.
  pose proof quote_in. apply length_splice_eq; [apply length_anonce_set|].
  rewrite length_pek_masked. lia.
Qed.

(** Everything before [anonce], and the signature, stay. *)
Lemma slice_remask off n :
  (off + n <= off_q_anonce \/ (off_q_anonce + 4 <= off /\ off + n <= off_q_pek_cert))%nat ->
  slice (remask d quote) off n = slice quote off n.
Proof.
  intros Ho. pose proof quote_in. pose proof length_anonce_set. unfold remask.
  rewrite slice_splice_before by lia.
  destruct Ho as [Ho|Ho]; [apply slice_splice_before; lia|].
  apply slice_splice_after; [rewrite length_le_bytes|]; lia.
Qed.

Lemma anonce_remask : anonce_of (remask d quote) = Z.lxor (anonce_of quote) d.
Proof.
  pose proof quote_in. pose proof length_anonce_set. unfold anonce_of at 1, word_at, remask.
  rewrite slice_splice_before by lia.
  rewrite <- (length_le_bytes 4 (Z.lxor (anonce_of quote) d)) at 2.
  rewrite slice_splice_same by lia.
  apply le_int_bytes, lxor_word_range; [apply anonce_of_range|done].
Qed.

Lemma pek_remask : pek_of (remask d quote) = pek_of quote.
Proof.
  pose proof quote_in. pose proof length_anonce_set. pose proof length_pek_masked as Hpm.
  unfold pek_of. rewrite anonce_remask. unfold remask.
  rewrite <- Hpm at 2. rewrite slice_splice_same by lia.
  destruct sizes_in_words as (_ & _ & _ & _ & _ & Hm).
  rewrite unmask_unmask; [|apply lxor_word_range; [apply anonce_of_range|done]|done|by rewrite length_pek_slice].
  f_equal. rewrite (Z.lxor_comm (anonce_of quote) d), <- Z.lxor_assoc, Z.lxor_nilpotent.
  by rewrite Z.lxor_0_l.
Qed.

Lemma check_signed_remask pk :
  check_signed pk (remask d quote) off_q_sig1 quote_msg_len =
  check_signed pk quote off_q_sig1 quote_msg_len.
Proof.
  pose proof quote_in. pose proof length_remask. unfold check_signed. same_steps.
  rewrite !bind_read by lia. rewrite slice_remask by lia. same_steps.
  rewrite !bind_read by lia. by rewrite slice_remask by lia.
Qed.
End Remask.
End Chain.

(** ** Properties *)

(** C12. Chain of trust: when [VerifyPlatform] accepts, the HSK certificate is a
    HSK certificate signed by Hygon's root key under the user id
    "HYGON-SSD-HRK", the CEK certificate is a CEK certificate signed by the key
    in the HSK certificate, the PEK certificate unmasked from the quote is a PEK
    certificate signed by the key in the CEK certificate, and the quote up to
    its policy field is signed by the key in the PEK certificate. *)
Theorem csv_platform_sound `{HygonLaws} `{OpenSSLLaws} (v : CsvAttestationVerifier) :
  csv_sized v -> csv_verify_platform v = Ok tt ->
  hsk_trusted v.(csv_hsk_cert) /\
  cek_trusted v.(csv_hsk_cert) v.(csv_cek_cert) /\
  pek_trusted v.(csv_cek_cert) (pek_of v.(csv_quote)) /\
  quote_trusted (pek_of v.(csv_quote)) v.(csv_quote) /\
  uid_of kHrkPubkey = s2b "HYGON-SSD-HRK".
Proof.
  intros Hs Hv. pose proof Hs as (Hq & Hh & Hc). rewrite csv_verify_platform_unfold in Hv by done.
  apply bind_Ok in Hv as ([] & V1 & Hv). apply bind_Ok in Hv as ([] & V2 & Hv).
  apply bind_Ok in Hv as ([] & V3 & V4).
  pose proof (length_pek_of _ Hq) as Hp. rewrite VerifyQuote_unfold in V4 by done.
  split; [by apply VerifyHsk_Ok|]. split; [by apply VerifyCek_Ok|].
  split; [by apply VerifyPek_Ok|]. split; [|apply hrk_user_id].
  apply check_signed_Ok; [by apply length_cert_key|done].
Qed.

(** C24. Memory safety of the platform check: on structures of the sizes [Init]
    enforces, [VerifyPlatform] reads outside an object only if a key that is
    itself certified by the chain declares a user id longer than its field; no
    unsigned input reaches an out-of-bounds read. *)
Theorem csv_platform_in_bounds `{HygonLaws} `{OpenSSLLaws} (v : CsvAttestationVerifier) :
  csv_sized v ->
  let hsk := v.(csv_hsk_cert) in
  let cek := v.(csv_cek_cert) in
  let pek := pek_of v.(csv_quote) in
  (hsk_trusted hsk -> uid_fits (hsk_key hsk)) ->
  (hsk_trusted hsk -> cek_trusted hsk cek -> uid_fits (cert_key cek)) ->
  (hsk_trusted hsk -> cek_trusted hsk cek -> pek_trusted cek pek -> uid_fits (cert_key pek)) ->
  defined (csv_verify_platform v).
Proof.
  intros Hs hsk cek pek U1 U2 U3. pose proof Hs as (Hq & Hh & Hc).
  rewrite csv_verify_platform_unfold by done.
  pose proof (length_pek_of _ Hq) as Hp. pose proof quote_in.
  apply bind_defined; [by apply VerifyHsk_defined|]. intros [] T1%VerifyHsk_Ok; [|done].
  apply bind_defined; [apply VerifyCek_defined; auto|]. intros [] T2%VerifyCek_Ok; [|done..].
  apply bind_defined; [apply VerifyPek_defined; auto|]. intros [] T3%VerifyPek_Ok; [|done..].
  rewrite VerifyQuote_unfold by done.
  apply check_signed_defined; [by apply length_cert_key|lia|lia|auto].
Qed.

(** C25. [ParseUnifiedReport] of a CSV report reads outside a vector: after all
    fields have been read, the last statement reads [HASH_LEN] bytes at offset
    [HASH_LEN] of the vector [user_data], which has [HASH_LEN] bytes.  So no
    CSV report whose platform check passes gets a defined verdict. *)
Theorem csv_parse_overread `{HygonLaws} `{OpenSSL} `{Fmt} `{Absl} `{Hashes}
    (v : CsvAttestationVerifier) (now : Z) :
  csv_sized v ->
  (forall attrs, ~ defined (csv_parse_unified_report v attrs)) /\
  (csv_verify_platform v = Ok tt -> forall policy, ~ defined (VerifyReport now v policy)).
Proof.
  intros (Hq & _). split; [intros attrs Hdef; by rewrite csv_parse_ub in Hdef|].
  intros Hv policy Hdef. unfold VerifyReport in Hdef. cbn in Hdef.
  by rewrite Hv, bind_Ok_l, csv_parse_ub in Hdef.
Qed.

(** Until that last statement the attributes are the plaintext fields of
    the quote: for a quote whose fields are plaintexts masked with [anonce], the
    version, user data, public key hash, nonce, measurement and id are the hex
    text of the plaintexts. *)
Theorem csv_fields_unmasked `{HygonLaws} `{Absl} (v : CsvAttestationVerifier)
    (attrs attrs' : UnifiedAttestationAttributes) (user_data : bytes) :
  csv_sized v ->
  csv_parse_fields v attrs = Ok (attrs', user_data) ->
  let anonce := anonce_of v.(csv_quote) in
  let masked off (plain : bytes) :=
    (length plain mod 4 = 0)%nat /\
    slice v.(csv_quote) off (length plain) = unmask anonce plain in
  (forall p, length p = VM_ID_SIZE -> masked off_q_vm_id p ->
     attrs'.(hex_prod_id) = BytesToHexString p) /\
  (forall p, length p = VM_VERSION_SIZE -> masked off_q_vm_version p ->
     attrs'.(hex_platform_sw_version) = BytesToHexString p) /\
  (forall p, length p = HASH_LEN -> masked off_q_user_data p ->
     attrs'.(hex_user_data) = BytesToHexString p) /\
  (forall p, length p = HASH_LEN -> masked (off_q_user_data + HASH_LEN)%nat p ->
     attrs'.(hex_hash_or_pem_pubkey) = BytesToHexString p) /\
  (forall p, length p = GUEST_ATTESTATION_NONCE_SIZE -> masked off_q_mnonce p ->
     attrs'.(hex_nonce) = BytesToHexString p) /\
  (forall p, length p = sz_hash_block -> masked off_q_measure p ->
     attrs'.(hex_boot_measurement) = BytesToHexString p).
Proof.
  intros (Hq & _) Hp anonce masked. rewrite csv_parse_fields_ok in Hp by done.
  injection Hp as <- _. cbn -[plain_field anonce_of]. fold anonce.
  assert (forall off n p, length p = n -> masked off p ->
            plain_field v.(csv_quote) anonce off n = p) as Hpl.
  { intros off n p <- [Hm Hs]. unfold plain_field. rewrite Hs.
    apply unmask_involutive; [by apply anonce_of_range|done]. }
  repeat split; intros p Hl Hm; by rewrite (Hpl _ _ p Hl Hm).
Qed.

(** The attributes that are read from the quote. *)
Definition quote_attributes (a : UnifiedAttestationAttributes) : list string :=
  [a.(hex_prod_id); a.(hex_platform_sw_version); a.(hex_user_data); a.(hex_hash_or_pem_pubkey);
   a.(hex_nonce); a.(hex_boot_measurement); a.(hex_secure_flags)].

(** Another mask changes every field. *)
Lemma unmask_differs d bs : 0 < d < 2 ^ 32 -> (length bs mod 4 = 0)%nat -> (0 < length bs)%nat -> unmask d bs <> bs.
Proof.
  intros Hd Hm Hl E. pose proof (Nat.div_mod_eq (length bs) 4). unfold unmask in E.
  destruct (length bs / 4)%nat as [|n] eqn:En; [lia|]. cbn [xor_words] in E.
  apply (f_equal (fun l => le_int (take 4 l))) in E.
  rewrite take_app_le in E by (by rewrite length_le_bytes). rewrite take_ge in E by (by rewrite length_le_bytes).
  pose proof (le_int_range (take 4 bs)) as Hr. unfold len in Hr. rewrite length_take, Nat.min_l in Hr by lia.
  rewrite le_int_bytes in E by (apply lxor_word_range; [exact Hr|lia]).
  apply (f_equal (Z.lxor (le_int (take 4 bs)))) in E.
  rewrite <- Z.lxor_assoc, Z.lxor_nilpotent, Z.lxor_0_l in E. lia.
Qed.

Lemma unmask_word d w : 0 <= w < 2 ^ 32 -> unmask d (le_bytes 4 w) = le_bytes 4 (Z.lxor w d).
Proof.
  intros Hw. unfold unmask. rewrite length_le_bytes. cbn [Nat.div Nat.divmod fst xor_words].
  rewrite take_ge by (by rewrite length_le_bytes). by rewrite le_int_bytes, app_nil_r.
Qed.

(** A field of the quote with another mask is the field, masked by the change. *)
Lemma plain_field_remask `{HygonLaws} d quote off n : 0 <= d < 2 ^ 32 -> length quote = sz_quote ->
  (n mod 4 = 0)%nat -> (off + n <= off_q_anonce)%nat ->
  plain_field (remask d quote) (anonce_of (remask d quote)) off n =
  unmask d (plain_field quote (anonce_of quote) off n).
Proof.
  intros Hd Hq Hm Ho. pose proof quote_in. unfold plain_field. rewrite slice_remask, anonce_remask by (done || lia).
  symmetry. apply unmask_unmask; [done|by apply anonce_of_range|]. by rewrite length_slice by lia.
Qed.

Lemma policy_remask `{HygonLaws} d quote : 0 <= d < 2 ^ 32 -> length quote = sz_quote ->
  le_bytes 4 (Z.lxor (word_at (remask d quote) off_q_policy) (anonce_of (remask d quote))) =
  unmask d (le_bytes 4 (Z.lxor (word_at quote off_q_policy) (anonce_of quote))).
Proof.
  intros Hd Hq. pose proof quote_in. unfold word_at at 1. rewrite slice_remask, anonce_remask by (done || lia).
  fold (word_at quote off_q_policy). rewrite unmask_word; [by rewrite Z.lxor_assoc|].
  apply lxor_word_range; [|by apply anonce_of_range]. pose proof (le_int_range (slice quote off_q_policy 4)) as Hr.
  unfold len in Hr. by rewrite length_slice in Hr by lia.
Qed.

(** C26. [anonce] is not authenticated: changing it by any [d] and masking the
    PEK certificate anew leaves the verdict of [VerifyPlatform] as it was, while
    each of the seven attributes read from the quote (product id, platform version,
    user data, public key hash, nonce, boot measurement and secure flags) becomes
    the hex text of its old plaintext with every word changed by [d], which differs
    from the old text unless [d] is 0.  A policy on a CSV report therefore binds
    the report only together with its nonce. *)
Theorem csv_anonce_unauthenticated `{HygonLaws} `{OpenSSL} `{AL : AbslLaws}
    (v : CsvAttestationVerifier) (d : Z) (attrs : UnifiedAttestationAttributes) :
  csv_sized v -> 0 <= d < 2 ^ 32 ->
  let v' := mk_csv v.(csv_report) (remask d v.(csv_quote)) v.(csv_hsk_cert) v.(csv_cek_cert) in
  csv_sized v' /\ csv_verify_platform v' = csv_verify_platform v /\
  exists a a' u u',
    csv_parse_fields v attrs = Ok (a, u) /\ csv_parse_fields v' attrs = Ok (a', u') /\
    Forall2 (fun s s' => exists plain, s = BytesToHexString plain /\ s' = BytesToHexString (unmask d plain))
      (quote_attributes a) (quote_attributes a') /\
    (d <> 0 -> Forall2 (fun s s' => s' <> s) (quote_attributes a) (quote_attributes a')).
Proof.
  intros Hs Hd v'. pose proof Hs as (Hq & Hh & Hc).
  pose proof (length_remask d _ Hq) as Hq'. pose proof quote_in. pose proof cert_in.
  destruct sizes_in_words as (M1 & M2 & M3 & M4 & M5 & _). destruct sizes_pos as (P1 & P2 & P3 & P4 & P5).
  assert (csv_sized v') as Hs' by done. split; [done|]. split.
  { rewrite !csv_verify_platform_unfold by done. subst v'.
    cbn [csv_quote csv_hsk_cert csv_cek_cert]. rewrite pek_remask by done.
    pose proof (length_pek_of _ Hq). rewrite !VerifyQuote_unfold by done.
    by rewrite check_signed_remask. }
  eexists _, _, _, _. split; [by apply csv_parse_fields_ok|].
  split; [by apply (csv_parse_fields_ok v')|].
  unfold quote_attributes, csv_attrs. cbn -[plain_field anonce_of unmask word_at]. rewrite !plain_field_remask, policy_remask by (done || lia).
  split; [repeat constructor; by eexists|]. intros Hd0.
  assert (forall bs, (length bs mod 4 = 0)%nat -> (0 < length bs)%nat ->
            BytesToHexString (unmask d bs) <> BytesToHexString bs) as Hne.
  { intros bs Hm Hl E. apply (f_equal HexStringToBytes) in E. rewrite !HexStringToBytes_hex in E.
    by apply (unmask_differs d bs) in E; [|lia|..]. }
  do 7 (apply List.Forall2_cons; [apply Hne; rewrite ?length_plain_field, ?length_le_bytes by (done || lia); (done || lia)|]).
  constructor.
Qed.

(** ** Witnesses *)

Module CsvWitness.
#[local] Existing Instances sample_fmt sample_absl sample_absl_laws sample_hashes
  sample_cppcodec sample_hygon sample_hygon_laws sample_openssl sample_openssl_laws.

Definition hsk : bytes :=
  splice (splice (zero_bytes 512) 36 (le_bytes 4 0x13)) 448 (le_bytes 32 448).
Definition cek : bytes :=
  splice (splice (splice (zero_bytes 512) 8 (le_bytes 4 0x1004)) 400 (le_bytes 4 0x13))
    408 (le_bytes 32 400).
Definition pek : bytes :=
  splice (splice (splice (zero_bytes 512) 8 (le_bytes 4 0x1002)) 400 (le_bytes 4 0x1004))
    408 (le_bytes 32 400).
(** A quote masked with 7 whose measurement is [2a00...]. *)
Definition measurement : bytes := Byte.x2a :: zero_bytes 31.
Definition quote : bytes :=
  splice (splice (splice (splice (zero_bytes 948) 144 (unmask 7 measurement))
    188 (le_bytes 4 7)) 192 (le_bytes 32 180)) 256 (unmask 7 pek).
Definition report : UnifiedAttestationReport :=
  mk_report kReportVersion ReportType.kReportTypePassport Platform.kPlatformCsv "json".
Definition verifier : CsvAttestationVerifier := mk_csv report quote hsk cek.

Lemma sized : csv_sized verifier.
Proof. by repeat split. Qed.

Lemma platform_ok : csv_verify_platform verifier = Ok tt.
Proof. vm_compute. reflexivity. Qed.

Lemma csv_platform_sound_witness :
  word_at (pek_of quote) off_cert_pubkey_usage = KEY_USAGE_TYPE_PEK /\
  signed (cert_key (pek_of quote)) quote off_q_sig1 quote_msg_len.
Proof.
  destruct (csv_platform_sound verifier sized platform_ok) as (_ & _ & (Hu & _) & Hs & _).
  split; [exact Hu|exact Hs].
Defined.

Lemma csv_platform_in_bounds_witness : defined (csv_verify_platform verifier).
Proof.
  apply (csv_platform_in_bounds verifier sized); intros; unfold uid_fits; vm_compute; lia.
Defined.

Lemma csv_parse_overread_witness : ~ defined (VerifyReport 0 verifier (mk_policy [])).
Proof. apply (csv_parse_overread verifier 0 sized). exact platform_ok. Defined.

Lemma csv_fields_unmasked_witness : exists a u,
  csv_parse_fields verifier default_attrs = Ok (a, u) /\
  a.(hex_boot_measurement) = BytesToHexString measurement.
Proof.
  destruct (csv_parse_fields verifier default_attrs) as [[a u]| |] eqn:E; [|by vm_compute in E..].
  exists a, u. split; [reflexivity|].
  apply (csv_fields_unmasked verifier default_attrs a u sized E); [reflexivity|].
  split; reflexivity.
Defined.

Lemma csv_anonce_unauthenticated_witness : exists a a' u u',
  csv_verify_platform (mk_csv report (remask 1 quote) hsk cek) = Ok tt /\
  csv_parse_fields verifier default_attrs = Ok (a, u) /\
  csv_parse_fields (mk_csv report (remask 1 quote) hsk cek) default_attrs = Ok (a', u') /\
  Forall2 (fun s s' => s' <> s) (quote_attributes a) (quote_attributes a').
Proof.
  destruct (csv_anonce_unauthenticated verifier 1 default_attrs sized)
    as (_ & Hv & a & a' & u & u' & E & E' & _ & Hne); [lia|].
  exists a, a', u, u'. split; [etransitivity; [exact Hv|exact platform_ok]|].
  split; [exact E|]. split; [exact E'|]. by apply Hne.
Defined.
End CsvWitness.
