(* ===== verification/VerifierWrapper.v ===== *)
(** * Verifier factory, status wrapper and C API

    [trustflow/attestation/verification/verifier_factory.h] and
    [trustflow/attestation/verification/wrapper]. *)

From S2P Require Import Prelude CppStd External Common Samples Verifier Dcap Sgx2Verifier TdxVerifier Hygon CsvVerifier.

(** ** The three platforms behind one pointer

    [std::unique_ptr<AttestationVerifier>] points at one of three classes; a
    virtual call selects by the class. *)

Inductive any_verifier :=
  | ASgx2 (v : Sgx2AttestationVerifier)
  | ATdx (v : TdxAttestationVerifier)
  | ACsv (v : CsvAttestationVerifier).

(** A buffer of the C API: the memory behind the pointer and [*len]. *)
Record out_buf := mk_out_buf { ob_mem : bytes; ob_len : Z }.

Section Model.
Context `{Fmt} `{Absl} `{Hashes} `{Cppcodec}.
Context `{ProtoJson UnifiedAttestationReport} `{ProtoJson UnifiedAttestationPolicy}
        `{ProtoJson UnifiedAttestationAttributes}.
Context `{ProtoJson DcapReport} `{ProtoJson SgxQlQveCollateral}
        `{ProtoJson HygonCsvReport} `{ProtoJson HygonCsvCertChain}.
Context `{DcapQvl} `{SgxQuote3} `{SgxAttributes} `{Report2Body} `{TdxQuote}
        `{HygonLayout} `{OpenSSL}.

#[export] Instance Any_AttestationVerifier : AttestationVerifier any_verifier := {|
  ParseUnifiedReport v attrs :=
    match v with
    | ASgx2 v => ParseUnifiedReport v attrs
    | ATdx v => ParseUnifiedReport v attrs
    | ACsv v => ParseUnifiedReport v attrs
    end;
  VerifyPlatform now v :=
    match v with
    | ASgx2 v => VerifyPlatform now v
    | ATdx v => VerifyPlatform now v
    | ACsv v => VerifyPlatform now v
    end
|}.

(** ** verifier_factory.h *)

Definition creator : Type := UnifiedAttestationReport -> outcome any_verifier.

Record VerifierFactory := mk_factory { creators : gmap string creator }.

Definition empty_factory : VerifierFactory := mk_factory ∅.

Definition Register (name : string) (c : creator) (f : VerifierFactory) : VerifierFactory :=
  mk_factory (<[name := c]> f.(creators)).

(** The order in which [std::unordered_map] lists its keys is unspecified; it
    only shows in the text of the exception. *)
Definition Create (f : VerifierFactory) (report_json_str : string) : outcome any_verifier :=
  report ← JSON2PB (T := UnifiedAttestationReport) report_json_str;
  let name := report.(report_tee_platform) in
  let supported_platforms := (map_to_list f.(creators)).*1 in
  match f.(creators) !! name with
  | Some c => c report
  | None => Throw (mk_exn EnforceNotMet "Supported platform list: {}, but not include {}"
                     [FList supported_platforms; FStr name])
  end.

Definition Tdx_Create : creator := fun r => v ← TdxVerifier.Init r; mret (ATdx v).
Definition Sgx2_Create : creator := fun r => v ← Sgx2Verifier.Init r; mret (ASgx2 v).
Definition Csv_Create : creator := fun r => v ← CsvInit r; mret (ACsv v).

(** ** verifier_wrapper.cc *)

Definition verifier_factory : VerifierFactory :=
  Register Platform.kPlatformCsv Csv_Create
    (Register Platform.kPlatformSgxDcap Sgx2_Create
      (Register Platform.kPlatformTdx Tdx_Create empty_factory)).

(** The [catch] clauses. *)
Definition status_of_exn (ex : exn) : Status :=
  match exn_cls ex with
  | ArgumentError => mk_status (ErrorCode_int kArgumentError) (what ex) (stack_trace ex)
  | InvalidFormat => mk_status (ErrorCode_int kInvalidFormat) (what ex) (stack_trace ex)
  | StdException _ => mk_status (ErrorCode_int kInternalError) (what ex) ""
  | _ => mk_status (ErrorCode_int kInternalError) (what ex) (stack_trace ex)
  end.

Definition verify_body (now : Z) (report_json_str policy_json_str : string) : outcome unit :=
  let factory := verifier_factory in
  policy ← JSON2PB (T := UnifiedAttestationPolicy) policy_json_str;
  v ← Create factory report_json_str;
  VerifyReport now v policy.

Definition AttestationReportVerify (now : Z) (report_json_str policy_json_str : string)
    : outcome Status :=
  match verify_body now report_json_str policy_json_str with
  | Ok _ => mret (mk_status 0 "success" "")
  | Throw ex => mret (status_of_exn ex)
  | UB w => UB w
  end.

(** ** verifier_wrapper_c_api.cc *)

Definition GetAttributesMaxSize : Z := kAttributeMaxSize.

Definition CreateFactory : VerifierFactory :=
  Register Platform.kPlatformCsv Csv_Create
    (Register Platform.kPlatformSgxDcap Sgx2_Create
      (Register Platform.kPlatformTdx Tdx_Create empty_factory)).

(** [strncpy(buf, s, *len)] *)
Definition copy_text (b : out_buf) (s : string) : outcome out_buf :=
  mem ← strncpy b.(ob_mem) s (Z.to_nat b.(ob_len));
  mret (mk_out_buf mem b.(ob_len)).

(** The [catch] clauses: the code and the two text buffers. *)
Definition c_catch (ex : exn) (msg details : out_buf) : outcome (Z * out_buf * out_buf) :=
  match exn_cls ex with
  | ArgumentError =>
      msg ← copy_text msg (what ex);
      details ← copy_text details (stack_trace ex);
      mret (ErrorCode_int kArgumentError, msg, details)
  | InvalidFormat =>
      msg ← copy_text msg (what ex);
      details ← copy_text details (stack_trace ex);
      mret (ErrorCode_int kInvalidFormat, msg, details)
  | StdException _ =>
      msg ← copy_text msg (what ex);
      mret (ErrorCode_int kInternalError, msg, details)
  | _ =>
      msg ← copy_text msg (what ex);
      details ← copy_text details (stack_trace ex);
      mret (ErrorCode_int kInternalError, msg, details)
  end.

(** [if ( *len > 0) { buf[*len - 1] = 0; *len = strlen(buf) + 1; }] *)
Definition end_with_nul (b : out_buf) : outcome out_buf :=
  if 0 <? b.(ob_len) then
    mem ← memcpy_at b.(ob_mem) (Z.to_nat (b.(ob_len) - 1)) [Byte.x00];
    mret (mk_out_buf mem (u32 (Z.of_nat (strlen mem) + 1)))
  else mret b.

(** [std::string(p, n)] *)
Definition string_of_ptr (p : bytes) (n : Z) : outcome string :=
  bs ← read_at p 0 (Z.to_nat n);
  mret (b2s bs).

(** What the two functions do after the [try] block: the code, the buffers. *)
Definition c_return (r : outcome (Z * out_buf * out_buf)) : outcome (Z * out_buf * out_buf) :=
  '(code, msg, details) ← r;
  msg ← end_with_nul msg;
  details ← end_with_nul details;
  mret (code, msg, details).

Definition parse_attributes_body (report_json_c_str : bytes) (report_json_str_len : Z)
    (attrs_buf : out_buf) : outcome out_buf :=
  let factory := CreateFactory in
  report_json_str ← string_of_ptr report_json_c_str report_json_str_len;
  v ← Create factory report_json_str;
  attrs ← ParseUnifiedReport v default_attrs;
  attrs_json ← PB2JSON attrs;
  let size := Z.of_nat (String.length attrs_json) in
  _ ← YACL_ENFORCE (size <=? attrs_buf.(ob_len))
        "attrs_buf_len(got {}) should not be less than attrs json size({})"
        [FInt attrs_buf.(ob_len); FInt size];
  mem ← memcpy_at attrs_buf.(ob_mem) 0 (take (Z.to_nat (u32 size)) (s2b attrs_json));
  mret (mk_out_buf mem (u32 size)).

(** Returns the code and the buffers [attrs], [msg] and [details]. *)
Definition ParseAttributesFromReport (report_json_c_str : bytes) (report_json_str_len : Z)
    (attrs_buf msg_buf details_buf : out_buf) : outcome (Z * out_buf * out_buf * out_buf) :=
  match parse_attributes_body report_json_c_str report_json_str_len attrs_buf with
  | Ok attrs_buf =>
      '(code, msg, details) ← c_return (mret (0, msg_buf, details_buf));
      mret (code, attrs_buf, msg, details)
  | Throw ex =>
      '(code, msg, details) ← c_return (c_catch ex msg_buf details_buf);
      mret (code, attrs_buf, msg, details)
  | UB w => UB w
  end.

Definition c_verify_body (now : Z) (report_json_c_str : bytes) (report_json_str_len : Z)
    (policy_json_c_str : bytes) (policy_json_str_len : Z) : outcome unit :=
  let factory := CreateFactory in
  report_json_str ← string_of_ptr report_json_c_str report_json_str_len;
  policy_json_str ← string_of_ptr policy_json_c_str policy_json_str_len;
  policy ← JSON2PB (T := UnifiedAttestationPolicy) policy_json_str;
  v ← Create factory report_json_str;
  VerifyReport now v policy.

Definition c_AttestationReportVerify (now : Z) (report_json_c_str : bytes)
    (report_json_str_len : Z) (policy_json_c_str : bytes) (policy_json_str_len : Z)
    (msg_buf details_buf : out_buf) : outcome (Z * out_buf * out_buf) :=
  match c_verify_body now report_json_c_str report_json_str_len policy_json_c_str
          policy_json_str_len with
  | Ok _ => c_return (mret (0, msg_buf, details_buf))
  | Throw ex => c_return (c_catch ex msg_buf details_buf)
  | UB w => UB w
  end.
End Model.

(** ** Text buffers *)

(** Buffer [b'] holds the C string of [s], cut to fit into [n] bytes with its
    NUL, and its length counts the NUL; memory after the first [n] bytes is
    that of [b]. *)
Definition holds_text (b b' : out_buf) (s : string) : Prop :=
  let n := Z.to_nat b.(ob_len) in
  let t := take (n - 1) (c_str s) in
  b'.(ob_len) = len t + 1 /\
  take (Z.to_nat b'.(ob_len)) b'.(ob_mem) = t ++ [Byte.x00] /\
  drop n b'.(ob_mem) = drop n b.(ob_mem).

(** The buffer a caller passes: its length is that of the memory or less. *)
Definition buf_ok (b : out_buf) : Prop :=
  0 <= b.(ob_len) < 2 ^ 32 /\ b.(ob_len) <= len b.(ob_mem).

Lemma zero_bytes_snoc k : zero_bytes k ++ [Byte.x00] = Byte.x00 :: zero_bytes k.
Proof. unfold zero_bytes. by rewrite <- replicate_cons_app. Qed.

Lemma copy_text_end b s :
  buf_ok b ->
  exists b', (c ← copy_text b s; end_with_nul c) = Ok b' /\ (0 < b.(ob_len) -> holds_text b b' s).
Proof.
  intros [Hr Hm]. unfold copy_text, end_with_nul, len in *.
  rewrite strncpy_in, bind_Ok_l by lia. cbn [mbind outcome_bind mret outcome_ret ob_mem ob_len].
  destruct (decide (0 < b.(ob_len))) as [Hpos|Hno].
  2: { rewrite (proj2 (Z.ltb_ge _ _)) by lia. by eexists. }
  rewrite (proj2 (Z.ltb_lt _ _)) by lia. set (n := Z.to_nat b.(ob_len)).
  replace (Z.to_nat (b.(ob_len) - 1)) with (n - 1)%nat by lia.
  set (t := take (n - 1) (c_str s)).
  assert (length t <= n - 1)%nat as Ht by (subst t; rewrite length_take; lia).
  assert (forall r, take (n - 1) (take n (c_str s) ++ zero_bytes (n - length (take n (c_str s))) ++ r)
          = t ++ zero_bytes (n - 1 - length t)) as Htake.
  { intros r. rewrite app_assoc, take_app_le by (rewrite length_strncpy_src; lia).
    rewrite take_app, take_take, Nat.min_l by lia. fold t. f_equal. unfold zero_bytes.
    rewrite take_replicate. f_equal. subst t. rewrite !length_take. lia. }
  assert (forall r, drop n (take n (c_str s) ++ zero_bytes (n - length (take n (c_str s))) ++ r) = r)
    as Hdrop.
  { intros r. rewrite app_assoc. apply drop_app_length'. by rewrite length_strncpy_src. }
  rewrite memcpy_at_in, bind_Ok_l.
  2: { rewrite app_assoc, length_app, length_strncpy_src. cbn. lia. }
  unfold splice. rewrite Htake. replace (n - 1 + length [Byte.x00])%nat with n by (cbn; lia).
  rewrite Hdrop, <- (app_assoc t), (app_assoc (zero_bytes _) [Byte.x00]), zero_bytes_snoc.
  cbn [app]. rewrite strlen_app_nul.
  2: { subst t. apply Forall_take, c_str_nonul. }
  eexists. split; [reflexivity|]. intros _. unfold holds_text, len. fold n t. cbn [ob_len ob_mem].
  rewrite u32_small by lia. split; [done|]. split.
  - replace (Z.to_nat (Z.of_nat (length t) + 1)) with (length t + 1)%nat by lia.
    by rewrite take_app_add'.
  - rewrite app_comm_cons, app_assoc. apply drop_app_length'.
    rewrite length_app. cbn. unfold zero_bytes. rewrite length_replicate. lia.
Qed.

(** Without a message the buffer is only terminated. *)
Lemma end_with_nul_ok b :
  buf_ok b -> exists b', end_with_nul b = Ok b' /\
    (0 < b.(ob_len) -> 0 < b'.(ob_len) <= b.(ob_len) /\
       b'.(ob_mem) !! Z.to_nat (b'.(ob_len) - 1) = Some Byte.x00) /\
    drop (Z.to_nat b.(ob_len)) b'.(ob_mem) = drop (Z.to_nat b.(ob_len)) b.(ob_mem).
Proof.
  intros [Hr Hm]. unfold end_with_nul, len in *.
  destruct (Z.ltb_spec 0 b.(ob_len)) as [Hpos|Hpos]; [|eexists; split; [reflexivity|]; split; [lia|done]].
  rewrite memcpy_at_in, bind_Ok_l by (cbn; lia).
  set (n := Z.to_nat b.(ob_len)). replace (Z.to_nat (b.(ob_len) - 1)) with (n - 1)%nat by lia.
  set (mem := splice _ _ _).
  assert (mem !! (n - 1)%nat = Some Byte.x00) as Hnul.
  { subst mem. unfold splice. rewrite lookup_app_r by (rewrite length_take; lia).
    by replace (n - 1 - length (take (n - 1) b.(ob_mem)))%nat with 0%nat by (rewrite length_take; lia). }
  pose proof (strlen_nul _ _ Hnul) as Hs.
  assert (length mem = length b.(ob_mem)) as Hlen by (apply length_splice; cbn; lia).
  eexists. split; [reflexivity|]. cbn [ob_len ob_mem]. rewrite u32_small by lia. split.
  - intros _. split; [lia|].
    replace (Z.to_nat (Z.of_nat (strlen mem) + 1 - 1)) with (strlen mem) by lia.
    apply strlen_lookup. rewrite Hlen. lia.
  - subst mem. unfold splice. rewrite app_assoc.
    replace (n - 1 + length [Byte.x00])%nat with n by (cbn; lia).
    apply drop_app_length'. rewrite length_app, length_take. cbn. lia.
Qed.

Section Facts.
Context `{Fmt}.

Lemma c_throw_texts ex msg details :
  buf_ok msg -> buf_ok details ->
  exists msg' details',
    c_return (c_catch ex msg details) = Ok ((status_of_exn ex).(code), msg', details') /\
    (0 < msg.(ob_len) -> holds_text msg msg' (what ex)) /\
    ((forall n, exn_cls ex <> StdException n) -> 0 < details.(ob_len) ->
       holds_text details details' (stack_trace ex)).
Proof.
  intros Hm Hd.
  destruct (copy_text_end msg (what ex) Hm) as (msg' & Em & Tm).
  destruct (copy_text_end details (stack_trace ex) Hd) as (det' & Ed & Td).
  destruct (end_with_nul_ok details Hd) as (det'' & Ed' & _).
  apply bind_Ok in Em as (m1 & Em1 & Em2). apply bind_Ok in Ed as (d1 & Ed1 & Ed2).
  unfold c_return, c_catch, status_of_exn.
  destruct (exn_cls ex) eqn:Hc; rewrite Em1, ?Ed1;
    cbn [mbind outcome_bind mret outcome_ret code]; rewrite Em2, ?Ed2, ?Ed';
    cbn [mbind outcome_bind]; (eexists _, _; split; [reflexivity|]; split; [done|]); try done.
  intros Hn. by destruct (Hn name).
Qed.

(** After a success the message buffers keep what the caller had in them. *)
Lemma c_ok_texts msg details : buf_ok msg -> buf_ok details ->
  exists msg' details', c_return (mret (0, msg, details)) = Ok (0, msg', details').
Proof.
  intros Hm Hd. destruct (end_with_nul_ok msg Hm) as (m' & Em & _).
  destruct (end_with_nul_ok details Hd) as (d' & Ed & _).
  unfold c_return. cbn [mbind outcome_bind mret outcome_ret]. rewrite Em. cbn. rewrite Ed. by eexists _, _.
Qed.

(** The codes the functions return. *)
Lemma status_of_exn_code ex : (status_of_exn ex).(code) ∈ [1; 6; 18].
Proof. unfold status_of_exn. destruct (exn_cls ex); cbn; set_solver. Qed.
End Facts.

Section Dispatch.
Context `{Fmt} `{Absl} `{Hashes} `{Cppcodec}.
Context `{ProtoJson UnifiedAttestationReport} `{ProtoJson UnifiedAttestationPolicy}.
Context `{ProtoJson DcapReport} `{ProtoJson SgxQlQveCollateral}
        `{ProtoJson HygonCsvReport} `{ProtoJson HygonCsvCertChain}.
Context `{DcapQvl} `{SgxQuote3} `{SgxAttributes} `{Report2Body} `{TdxQuote}
        `{HygonLayout} `{OpenSSL}.

(** The creator of a platform. *)
Lemma verifier_factory_lookup name :
  verifier_factory.(creators) !! name =
    if decide (name = Platform.kPlatformCsv) then Some Csv_Create
    else if decide (name = Platform.kPlatformSgxDcap) then Some Sgx2_Create
    else if decide (name = Platform.kPlatformTdx) then Some Tdx_Create
    else None.
Proof.
  unfold verifier_factory, Register, empty_factory. cbn [creators].
  rewrite !lookup_insert, lookup_empty. repeat case_decide; congruence.
Qed.

Lemma Create_Ok json v :
  Create verifier_factory json = Ok v <->
  exists r, JSON2PB json = Ok r /\
    match v with
    | ACsv w => r.(report_tee_platform) = Platform.kPlatformCsv /\ CsvInit r = Ok w
    | ASgx2 w => r.(report_tee_platform) = Platform.kPlatformSgxDcap /\ Sgx2Verifier.Init r = Ok w
    | ATdx w => r.(report_tee_platform) = Platform.kPlatformTdx /\ TdxVerifier.Init r = Ok w
    end.
Proof.
  unfold Create. rewrite bind_Ok. setoid_rewrite verifier_factory_lookup. split.
  - intros (r & Hr & Hc). exists r. split; [done|].
    repeat case_decide; [| | |done]; cbn in Hc;
      [unfold Csv_Create in Hc|unfold Sgx2_Create in Hc|unfold Tdx_Create in Hc];
      apply bind_Ok in Hc as (w & Hw & [= <-]); done.
  - intros (r & Hr & Hv). exists r. split; [done|].
    destruct v; destruct Hv as [-> Hw]; repeat (case_decide; try done);
      [unfold Sgx2_Create|unfold Tdx_Create|unfold Csv_Create]; by rewrite Hw.
Qed.

Lemma CreateFactory_eq : CreateFactory = verifier_factory.
Proof. reflexivity. Qed.

Lemma CsvInit_Ok r v : CsvInit r = Ok v -> csv_sized v /\ v.(csv_report) = r.
Proof.
  unfold CsvInit. intros Hi. inv_ok.
  repeat match goal with H : bool_decide _ = true |- _ => apply bool_decide_eq_true in H end.
  done.
Qed.
End Dispatch.

(** ** Properties *)

Section Properties.
Context `{Fmt} `{AL : AbslLaws} `{HsL : HashesLaws} `{Cppcodec}.
Context `{ProtoJson UnifiedAttestationReport} `{ProtoJson UnifiedAttestationPolicy}
        `{ProtoJson UnifiedAttestationAttributes}.
Context `{ProtoJson DcapReport} `{ProtoJson SgxQlQveCollateral}
        `{ProtoJson HygonCsvReport} `{ProtoJson HygonCsvCertChain}.
Context `{DcapQvl} `{SgxQuote3} `{SgxAttributes} `{Report2Body} `{TdxQuote}
        `{HL : HygonLaws} `{OpenSSL}.

(** C27. Status codes: [AttestationReportVerify] lets no exception out; the
    status it returns has code 0 exactly when verification ran to its end, and
    otherwise code 1, 6 or 18 with the text of the exception. *)
Theorem AttestationReportVerify_status now report policy :
  is_throw (AttestationReportVerify now report policy) = false /\
  forall s, AttestationReportVerify now report policy = Ok s ->
    (s.(code) = 0 <-> verify_body now report policy = Ok tt) /\
    (s.(code) <> 0 -> s.(code) ∈ [1; 6; 18] /\
       exists ex, verify_body now report policy = Throw ex /\ s.(message) = what ex).
Proof.
  unfold AttestationReportVerify.
  destruct (verify_body now report policy) as [[]|ex|w]; (split; [done|]); intros s [= <-].
  - split; done.
  - pose proof (status_of_exn_code ex) as Hc. split.
    + split; [intros E; rewrite E in Hc; set_solver|done].
    + intros _. split; [done|]. exists ex. split; [done|].
      unfold status_of_exn. by destruct (exn_cls ex).
Qed.

(** [attrs] were read from a quote that Intel's library accepted for the platform
    the report names. *)
Definition intel_attributes (now : Z) (r : UnifiedAttestationReport)
    (attrs : UnifiedAttestationAttributes) : Prop :=
  (r.(report_tee_platform) = Platform.kPlatformSgxDcap /\ exists v : Sgx2AttestationVerifier,
     Sgx2Verifier.Init r = Ok v /\ ParseUnifiedReport v default_attrs = Ok attrs /\
     accepted (qv_result (sgx_qv_verify_quote v.(sgx2_quote)
       (collateral_data_of v.(sgx2_collateral)) now sizeof_sgx_ql_qv_supplemental_t)) = true) \/
  (r.(report_tee_platform) = Platform.kPlatformTdx /\ exists v : TdxAttestationVerifier,
     TdxVerifier.Init r = Ok v /\ ParseUnifiedReport v default_attrs = Ok attrs /\
     accepted (qv_result (tdx_qv_verify_quote v.(tdx_quote)
       (collateral_data_of v.(tdx_collateral)) now sizeof_sgx_ql_qv_supplemental_t)) = true).

Lemma verify_body_accepts now report policy : verify_body now report policy = Ok tt ->
  exists r p e attrs,
    JSON2PB report = Ok r /\ JSON2PB policy = Ok p /\ e ∈ p.(main_attributes) /\ satisfies attrs e /\
    r.(str_report_version) = kReportVersion /\ r.(str_report_type) = ReportType.kReportTypePassport /\
    intel_attributes now r attrs.
Proof.
  intros Hb. unfold verify_body in Hb.
  apply bind_Ok in Hb as (p & Hp & Hb). apply bind_Ok in Hb as (v & Hv & Hr).
  apply Create_Ok in Hv as (r & Hjr & Hv).
  apply VerifyReport_Ok in Hr as (Hplat & attrs & Hparse & Hattrs).
  apply verify_loop_spec in Hattrs as (n & e & Hn & Hm%verdict_Match & _).
  apply list_elem_of_lookup_2 in Hn. exists r, p, e, attrs.
  split; [done|]. split; [done|]. split; [done|]. split; [done|].
  destruct v as [v|v|v]; destruct Hv as [Hpl Hi]; cbn in Hplat, Hparse.
  - pose proof (Sgx2Verifier.Init_Ok _ _ Hi) as (_ & Hv1 & Hv2 & _). split; [done|]. split; [done|].
    apply verify_platform_Ok in Hplat as (_ & _ & _ & Ha). left. split; [done|]. by exists v.
  - pose proof (tdx_Init_Ok _ _ Hi) as (_ & Hv1 & Hv2 & _). split; [done|]. split; [done|].
    apply tdx_verify_platform_Ok in Hplat as (_ & _ & _ & Ha). right. split; [done|]. by exists v.
  - exfalso. apply CsvInit_Ok in Hi as [(Hq & _) _]. by rewrite csv_parse_ub in Hparse.
Qed.

(** A CSV report whose chain of certificates is accepted. *)
Lemma verify_body_csv now report policy r (p : UnifiedAttestationPolicy) v :
  JSON2PB report = Ok r -> JSON2PB policy = Ok p -> r.(report_tee_platform) = Platform.kPlatformCsv ->
  CsvInit r = Ok v -> csv_verify_platform v = Ok tt -> verify_body now report policy = UB "read".
Proof.
  intros Hr Hp Hpl Hi Hplat. unfold verify_body. rewrite Hp, bind_Ok_l.
  assert (Create verifier_factory report = Ok (ACsv v)) as -> by (apply Create_Ok; by exists r).
  rewrite bind_Ok_l. apply CsvInit_Ok in Hi as [(Hq & _) _]. unfold VerifyReport. cbn.
  by rewrite Hplat, bind_Ok_l, csv_parse_ub.
Qed.

(** C2. What code 0 means, from the JSON texts to the quote: both texts parse,
    the report is a version 1.0 passport report, the policy has an entry whose
    every constraint the report's attributes satisfy, and these attributes were
    read from a quote that Intel's verification library accepted for the
    platform the report names (SGX or TDX).  This is about runs with defined
    behaviour: for a CSV report that passes the platform check and a policy that
    parses, the call has no defined result, because reading the attributes runs
    past the end of [user_data]. *)
Theorem AttestationReportVerify_accepts now report policy :
  (forall s, AttestationReportVerify now report policy = Ok s -> s.(code) = 0 ->
   exists r p e attrs,
     JSON2PB report = Ok r /\ JSON2PB policy = Ok p /\ e ∈ p.(main_attributes) /\ satisfies attrs e /\
     r.(str_report_version) = kReportVersion /\ r.(str_report_type) = ReportType.kReportTypePassport /\
     intel_attributes now r attrs) /\
  (forall r (p : UnifiedAttestationPolicy) v, JSON2PB report = Ok r -> JSON2PB policy = Ok p ->
     r.(report_tee_platform) = Platform.kPlatformCsv -> CsvInit r = Ok v ->
     csv_verify_platform v = Ok tt -> AttestationReportVerify now report policy = UB "read").
Proof.
  unfold AttestationReportVerify. split.
  - destruct (verify_body now report policy) as [[]|ex|w] eqn:Hb; [intros; by apply verify_body_accepts| |done].
    intros s [= <-] Hc. pose proof (status_of_exn_code ex) as Hin. rewrite Hc in Hin. set_solver.
  - intros r p v Hr Hp Hpl Hi Hplat. by rewrite (verify_body_csv now report policy r p v).
Qed.

(** The JSON texts a C caller passes. *)
Lemma string_of_ptr_in p n : 0 <= n <= len p -> string_of_ptr p n = Ok (b2s (take (Z.to_nat n) p)).
Proof.
  intros Hn. unfold string_of_ptr, len in *. rewrite bind_read by lia. unfold slice. by rewrite drop_0.
Qed.

(** C28. The C function returns the code of the C++ function on the same texts,
    and after a failure the message buffer, unless the caller gave it no length,
    holds the message as a NUL-terminated string, cut to the buffer, with a length
    that counts the NUL; nothing is written beyond the lengths the caller gave, and
    the pointers and lengths the caller passes cause no access outside the
    buffers. *)
Theorem c_AttestationReportVerify_agrees now report policy (rlen plen : Z) msg details s :
  0 <= rlen <= len report -> 0 <= plen <= len policy ->
  buf_ok msg -> buf_ok details ->
  AttestationReportVerify now (b2s (take (Z.to_nat rlen) report)) (b2s (take (Z.to_nat plen) policy))
    = Ok s ->
  exists msg' details',
    c_AttestationReportVerify now report rlen policy plen msg details
      = Ok (s.(code), msg', details') /\
    (s.(code) <> 0 -> 0 < msg.(ob_len) -> holds_text msg msg' s.(message)).
Proof.
  intros Hr Hp Hm Hd Hs. unfold c_AttestationReportVerify, c_verify_body.
  rewrite !string_of_ptr_in, !bind_Ok_l, CreateFactory_eq by done.
  unfold AttestationReportVerify, verify_body in Hs.
  destruct (JSON2PB _ ≫= _) as [[]|ex|w]; [| |done]; injection Hs as <-.
  - destruct (c_ok_texts msg details Hm Hd) as (m' & d' & ->). by exists m', d'.
  - destruct (c_throw_texts ex msg details Hm Hd) as (m' & d' & -> & Ht & _).
    exists m', d'. split; [done|]. intros _ Hpos. specialize (Ht Hpos).
    unfold status_of_exn. by destruct (exn_cls ex).
Qed.

(** C29. [ParseAttributesFromReport] writes the JSON of the report's attributes
    and nothing else into the attributes buffer, without a NUL, and returns its
    size as the length; when the buffer is too small it returns code 18 and
    leaves the buffer as it was. *)
Theorem ParseAttributesFromReport_output report (rlen : Z) attrs_buf msg details v attrs json :
  0 <= rlen <= len report ->
  buf_ok attrs_buf -> buf_ok msg -> buf_ok details ->
  Create verifier_factory (b2s (take (Z.to_nat rlen) report)) = Ok v ->
  ParseUnifiedReport v default_attrs = Ok attrs -> PB2JSON attrs = Ok json ->
  let size := Z.of_nat (String.length json) in
  exists msg' details',
    ParseAttributesFromReport report rlen attrs_buf msg details =
      if size <=? attrs_buf.(ob_len)
      then Ok (0, mk_out_buf (s2b json ++ drop (String.length json) attrs_buf.(ob_mem)) size,
               msg', details')
      else Ok (18, attrs_buf, msg', details').
Proof.
  intros Hr [Ha1 Ha2] Hm Hd Hc Hp Hj size. unfold ParseAttributesFromReport, parse_attributes_body.
  rewrite string_of_ptr_in, bind_Ok_l, CreateFactory_eq, Hc, bind_Ok_l, Hp, bind_Ok_l, Hj, bind_Ok_l
    by done. fold size.
  destruct (Z.leb_spec size attrs_buf.(ob_len)) as [Hsz|Hsz].
  - rewrite bind_enforce by done.
    pose proof (length_s2b json) as Hl.
    rewrite u32_small by lia. rewrite take_ge by lia.
    rewrite memcpy_at_in, bind_Ok_l by (unfold len in *; lia). unfold splice. rewrite Hl, take_0.
    destruct (c_ok_texts msg details Hm Hd) as (m' & d' & ->). by exists m', d'.
  - rewrite bind_enforce_fails by done.
    match goal with |- context [c_catch ?ex _ _] =>
      destruct (c_throw_texts ex msg details Hm Hd) as (m' & d' & -> & _) end.
    by exists m', d'.
Qed.
End Properties.
(** ** Witnesses *)

Module WrapperWitness.
#[local] Existing Instances sample_fmt sample_absl sample_absl_laws sample_hashes sample_hashes_laws
  sample_cppcodec sample_quote3 sample_attributes sample_report2_body sample_tdx_quote
  sample_hygon sample_hygon_laws sample_openssl.
#[local] Instance qvl : DcapQvl := sample_qvl SGX_QL_QV_RESULT_OK.

Definition report : UnifiedAttestationReport :=
  mk_report kReportVersion ReportType.kReportTypePassport Platform.kPlatformSgxDcap "d".
Definition attrs : UnifiedAttestationAttributes :=
  quote3_attrs Platform.kPlatformSgxDcap Sgx2Witness.quote default_attrs.

#[local] Instance j1 : ProtoJson UnifiedAttestationReport := sample_json [("r", report)].
#[local] Instance j2 : ProtoJson UnifiedAttestationPolicy :=
  sample_json [("p", mk_policy [Sgx2Witness.entry])].
#[local] Instance j3 : ProtoJson UnifiedAttestationAttributes := sample_json [("{a}", attrs)].
#[local] Instance j4 : ProtoJson DcapReport :=
  sample_json [("d", mk_dcap_report (hex_encode Sgx2Witness.quote) "c")].
#[local] Instance j5 : ProtoJson SgxQlQveCollateral :=
  sample_json [("c", mk_collateral 3 "a" "b" "c" "d" "e" "f" "g" 0)].
#[local] Instance j6 : ProtoJson HygonCsvReport := sample_json [].
#[local] Instance j7 : ProtoJson HygonCsvCertChain := sample_json [].

Definition buf : out_buf := mk_out_buf (zero_bytes 8) 8.

Lemma accepted_run : AttestationReportVerify 0 "r" "p" = Ok (mk_status 0 "success" "").
Proof. vm_compute. reflexivity. Qed.

Lemma AttestationReportVerify_status_witness : verify_body 0 "r" "p" = Ok tt.
Proof. by apply (proj2 (AttestationReportVerify_status 0 "r" "p") _ accepted_run). Defined.

Lemma AttestationReportVerify_accepts_witness :
  exists e, e ∈ [Sgx2Witness.entry] /\ exists a, satisfies a e.
Proof.
  destruct (proj1 (AttestationReportVerify_accepts 0 "r" "p") _ accepted_run eq_refl)
    as (r & p & e & a & _ & Hp & He & Hs & _).
  exists e. split; [|by exists a].
  assert (JSON2PB (T := UnifiedAttestationPolicy) "p" = Ok (mk_policy [Sgx2Witness.entry])) as E
    by (vm_compute; reflexivity).
  rewrite E in Hp. injection Hp as <-. exact He.
Defined.

Lemma c_AttestationReportVerify_agrees_witness : exists m d,
  c_AttestationReportVerify 0 (s2b "r") 1 (s2b "?") 1 buf buf = Ok (18, m, d) /\
  take 8 m.(ob_mem) = s2b "Parsing" ++ [Byte.x00].
Proof.
  destruct (c_AttestationReportVerify_agrees 0 (s2b "r") (s2b "?") 1 1 buf buf
    (status_of_exn (mk_exn EnforceNotMet "Parsing json to pb message failed, json: {}, error: {}"
       [FStr "?"; FStr "not in the table"]))) as (m & d & Hc & Ht);
    [by vm_compute|by vm_compute|by vm_compute|by vm_compute|by vm_compute|].
  exists m, d. split; [exact Hc|]. destruct (Ht ltac:(done) ltac:(done)) as (Hl & Hm & _).
  assert (m.(ob_len) = 8) as E by (rewrite Hl; vm_compute; reflexivity).
  rewrite E in Hm. exact Hm.
Defined.

Lemma ParseAttributesFromReport_output_witness : exists m d,
  ParseAttributesFromReport (s2b "r") 1 buf buf buf =
    Ok (0, mk_out_buf (s2b "{a}" ++ zero_bytes 5) 3, m, d).
Proof.
  destruct (Create verifier_factory "r") as [v| |] eqn:E; [|by vm_compute in E..].
  destruct (ParseAttributesFromReport_output (s2b "r") 1 buf buf buf v attrs "{a}")
    as (m & d & Hr);
    [by vm_compute|by vm_compute|by vm_compute|by vm_compute|exact E| |by vm_compute|].
  - vm_compute in E. injection E as <-. by vm_compute.
  - exists m, d. exact Hr.
Defined.
End WrapperWitness.
