(* ===== verification/Host.v ===== *)
(** * The host of the report generators

    Device files, Intel's quote and collateral libraries, random bytes and the
    Hygon certificate server, as the generators of
    [trustflow/attestation/generation] and [collateral] use them. *)

From S2P Require Import Prelude CppStd External YaclCrypto.

(** [sgx_ql_qve_collateral_t] as a library returns it: each text is memory and
    a size. *)
Record qve_collateral := mk_qve_collateral {
  qc_version : Z;
  qc_pck_crl_issuer_chain : bytes * Z;
  qc_root_ca_crl : bytes * Z;
  qc_pck_crl : bytes * Z;
  qc_tcb_info_issuer_chain : bytes * Z;
  qc_tcb_info : bytes * Z;
  qc_qe_identity_issuer_chain : bytes * Z;
  qc_qe_identity : bytes * Z;
  qc_tee_type : Z
}.

(** The argument of [SGXIOC_GEN_DCAP_QUOTE]: what its three pointers point to. *)
Record sgxioc_gen_dcap_quote_arg_t := mk_gen_quote_arg {
  gq_report_data : bytes;
  gq_quote_len : Z;
  gq_quote_buf : bytes
}.

(** The argument of [GET_ATTESTATION_REPORT]: the memory at its address, and its size. *)
Record csv_guest_mem := mk_guest_mem { gm_va : bytes; gm_size : Z }.

(** [brpc::ChannelOptions], as far as the code sets them. *)
Inductive ProtocolType := PROTOCOL_HTTP | OtherProtocol.
Record ChannelOptions := mk_channel_options {
  opt_protocol : ProtocolType;
  opt_timeout_ms : Z;
  opt_max_retry : Z
}.

(** The kernel and the libraries, with a state [dev] of their own.  An [ioctl]
    returns its result, the values it stored and the next state. *)
Class Host := {
  dev : Type;
  errno_of : dev -> Z;
  open_dev : string -> dev -> Z * dev;
  (* SGXIOC_GET_DCAP_QUOTE_SIZE: fd *)
  ioctl_get_quote_size : Z -> dev -> (Z * Z) * dev;
  (* SGXIOC_GEN_DCAP_QUOTE: returns the new quote length and buffer *)
  ioctl_gen_quote : Z -> sgxioc_gen_dcap_quote_arg_t -> dev -> (Z * Z * bytes) * dev;
  (* GET_ATTESTATION_REPORT: returns the memory *)
  ioctl_get_csv_report : Z -> csv_guest_mem -> dev -> (Z * bytes) * dev;
  (* report data; returns the quote buffer and the quote size *)
  tdx_att_get_quote : bytes -> dev -> (Z * option bytes * Z) * dev;
  tee_qv_get_collateral : bytes -> dev -> (Z * option qve_collateral) * dev;
  TDX_ATTEST_SUCCESS : Z;
  (* brpc: Channel::Init, and a GET over the channel to a server with these
     options, which fails with code and text or has a body *)
  channel_Init : string -> ChannelOptions -> Z;
  http_get : string -> ChannelOptions -> string -> dev -> ((Z * string) + string) * dev;
  (* std::chrono::system_clock::now, in milliseconds *)
  system_clock_now : dev -> Z * dev
}.

(** File descriptors that are open, library buffers that are not freed, the
    state of the host and of the random generator. *)
Record host_state_of (D R : Type) := mk_host {
  h_fds : list Z;
  h_live : nat;
  h_dev : D;
  h_rng : R
}.
Arguments mk_host {D R} _ _ _ _.
Arguments h_fds {D R} _.
Arguments h_live {D R} _.
Arguments h_dev {D R} _.
Arguments h_rng {D R} _.
Abbreviation host_state := (host_state_of dev rng).

Section Ops.
Context `{Host} `{Rand}.

Abbreviation HS := host_state.

(** A call of the host that changes only its own state. *)
Definition host_call {A} (f : dev -> A * dev) : st HS A := fun h =>
  let '(a, d) := f h.(h_dev) in (Ok a, mk_host h.(h_fds) h.(h_live) d h.(h_rng)).

(** [open]: a descriptor that is not negative is open. *)
Definition open_file (path : string) : st HS Z := fun h =>
  let '(fd, d) := open_dev path h.(h_dev) in
  (Ok fd, mk_host (if 0 <=? fd then fd :: h.(h_fds) else h.(h_fds)) h.(h_live) d h.(h_rng)).

Fixpoint remove_one (fd : Z) (fds : list Z) : list Z :=
  match fds with
  | [] => []
  | x :: r => if x =? fd then r else x :: remove_one fd r
  end.

Definition close_file (fd : Z) (h : HS) : HS :=
  mk_host (remove_one fd h.(h_fds)) h.(h_live) h.(h_dev) h.(h_rng).

(** [ON_SCOPE_EXIT(f)] before [m]: [f] runs when [m] ends, also by an
    exception. *)
Definition on_scope_exit {A} (f : HS -> HS) (m : st HS A) : st HS A := fun h =>
  let '(r, h) := m h in (r, f h).

(** A library call that allocates a buffer when it returns one, and its
    counterpart. *)
Definition alloc_call {A B} (f : dev -> (A * option B) * dev) : st HS (A * option B) := fun h =>
  let '((a, p), d) := f h.(h_dev) in
  (Ok (a, p), mk_host h.(h_fds) (match p with Some _ => S h.(h_live) | None => h.(h_live) end)
                d h.(h_rng)).

Definition free_buffer : st HS unit := fun h =>
  (Ok tt, mk_host h.(h_fds) (Nat.pred h.(h_live)) h.(h_dev) h.(h_rng)).

Definition get_errno : st HS Z := fun h => (Ok (errno_of h.(h_dev)), h).

Definition FillRand (n : nat) (fast : bool) : st HS bytes := fun h =>
  let '(bs, g) := RandBytes n fast h.(h_rng) in
  (Ok bs, mk_host h.(h_fds) h.(h_live) h.(h_dev) g).

(** ** What a statement leaves open

    [clean m]: whether [m] returns or throws, it has closed the files it opened
    and freed the buffers it got. *)

Definition clean {A} (m : st HS A) : Prop :=
  forall h, defined (m h).1 ->
    (m h).2.(h_fds) = h.(h_fds) /\ (m h).2.(h_live) = h.(h_live).

Lemma clean_ext {A} (m m' : st HS A) : (forall h, m h = m' h) -> clean m' -> clean m.
Proof. intros He Hm h. rewrite He. apply Hm. Qed.

Lemma clean_ret {A} (a : A) : clean (mret a).
Proof. by intros h. Qed.

Lemma clean_pure {A} (m : outcome A) : clean (pure m).
Proof. by intros h. Qed.

Lemma clean_bind {A B} (m : st HS A) (k : A -> st HS B) :
  clean m -> (forall a, clean (k a)) -> clean (m ≫= k).
Proof.
  intros Hm Hk h. specialize (Hm h). unfold mbind, st_bind.
  destruct (m h) as [[a|e|w] h1]; cbn in *; [|by auto..]. intros Hdef.
  destruct (Hm I) as [H1 H2]. destruct (Hk a h1 Hdef) as [H3 H4]. split; congruence.
Qed.

Lemma clean_host_call {A} (f : dev -> A * dev) : clean (host_call f).
Proof. intros h. unfold host_call. by destruct (f _). Qed.

Lemma clean_errno : clean get_errno.
Proof. by intros h. Qed.

(** A file that is opened and then closed at the end of the scope. *)
Lemma clean_open {A} path (check : Z -> outcome unit) (k : Z -> st HS A) :
  (forall fd, 0 <= fd -> check fd = Ok tt) -> (forall fd, fd < 0 -> is_throw (check fd) = true) ->
  (forall fd, clean (k fd)) ->
  clean (fd ← open_file path; _ ← pure (check fd); on_scope_exit (close_file fd) (k fd)).
Proof.
  intros Hge Hlt Hk h. unfold mbind, st_bind, open_file, pure.
  destruct (open_dev path _) as [fd d]. destruct (Z.leb_spec 0 fd) as [Hfd|Hfd].
  - rewrite Hge by done. unfold on_scope_exit.
    specialize (Hk fd (mk_host (fd :: h.(h_fds)) h.(h_live) d h.(h_rng))).
    destruct (k fd _) as [r h1]. cbn in *. intros Hdef. destruct (Hk Hdef) as [H1 H2].
    rewrite H1. cbn. by rewrite Z.eqb_refl.
  - specialize (Hlt fd Hfd). by destruct (check fd).
Qed.

Lemma clean_FillRand n fast : clean (FillRand n fast).
Proof. intros h. unfold FillRand. by destruct (RandBytes _ _ _). Qed.
End Ops.

#[export] Hint Resolve clean_ret clean_pure clean_host_call clean_errno clean_FillRand : trustflow.

(** [solve_clean] walks a sequence of clean statements. *)
Ltac solve_clean :=
  repeat first
    [ solve [eauto with trustflow]
    | apply clean_bind; [ | intros ? ]
    | case_match ].
