(* ===== verification/IntelGenerator.v ===== *)
(** * Intel reports: collateral and the SGX and TDX generators

    [trustflow/attestation/collateral/intel_collateral.cc],
    [trustflow/attestation/generation/sgx2] and [generation/tdx]. *)

From S2P Require Import Prelude CppStd External Common Samples Verifier Dcap Sgx2Verifier TdxVerifier YaclCrypto Host.

(** Sizes of [sgx_report.h] and [tdx_attest.h]. *)
Class ReportDataSizes := {
  SGX_HASH_SIZE : nat;
  SGX_REPORT_DATA_SIZE : nat;
  TDX_REPORT_DATA_SIZE : nat
}.

Class ReportDataLaws `{ReportDataSizes} : Prop := {
  hash_size_32 : SGX_HASH_SIZE = 32%nat;
  sgx_report_data_64 : SGX_REPORT_DATA_SIZE = 64%nat;
  tdx_report_data_64 : TDX_REPORT_DATA_SIZE = 64%nat
}.

Definition sample_report_data : ReportDataSizes := {|
  SGX_HASH_SIZE := 32; SGX_REPORT_DATA_SIZE := 64; TDX_REPORT_DATA_SIZE := 64
|}.

Lemma sample_report_data_laws : @ReportDataLaws sample_report_data.
Proof. by split. Qed.

Definition kSgxDevice : string := "/dev/sgx".

Definition slen (s : string) : Z := Z.of_nat (String.length s).

(** [CharArray2String]: [buf[buf_len - 1]] with a [uint32_t] index. *)
Definition CharArray2String (buf : bytes) (buf_len : Z) : outcome string :=
  last ← read_at buf (Z.to_nat (u32 (buf_len - 1))) 1;
  if decide (last = [Byte.x00])
  then bs ← read_at buf 0 (Z.to_nat (u32 (buf_len - 1))); mret (b2s bs)
  else bs ← read_at buf 0 (Z.to_nat buf_len); mret (b2s bs).

Section Model.
Context `{Absl} `{Hashes} `{Cppcodec}.
Context `{ProtoJson DcapReport} `{ProtoJson IntelTdxReport} `{ProtoJson SgxQlQveCollateral}.
Context `{Host} `{Rand} `{ReportDataSizes}.

Abbreviation HS := host_state.

Definition text_of (p : bytes * Z) : st HS string := pure (CharArray2String p.1 p.2).

Definition GetIntelCollateral (quote : bytes) (quote_size : Z) : st HS SgxQlQveCollateral :=
  quote_bytes ← pure (read_at quote 0 (Z.to_nat quote_size));
  '(ret, p_quote_collateral) ← alloc_call (tee_qv_get_collateral quote_bytes);
  c ← pure (match p_quote_collateral with
            | Some c => _ ← YACL_ENFORCE (ret =? SGX_QL_SUCCESS)
                              "tee_qv_get_collateral err: {:#x}" [FInt ret]; mret c
            | None => Throw (mk_exn EnforceNotMet "tee_qv_get_collateral err: {:#x}" [FInt ret])
            end);
  pck_crl_issuer_chain ← text_of c.(qc_pck_crl_issuer_chain);
  root_ca_crl ← text_of c.(qc_root_ca_crl);
  pck_crl ← text_of c.(qc_pck_crl);
  tcb_info_issuer_chain ← text_of c.(qc_tcb_info_issuer_chain);
  tcb_info ← text_of c.(qc_tcb_info);
  qe_identity_issuer_chain ← text_of c.(qc_qe_identity_issuer_chain);
  qe_identity ← text_of c.(qc_qe_identity);
  _ ← free_buffer;
  mret (mk_collateral c.(qc_version) pck_crl_issuer_chain root_ca_crl pck_crl
          tcb_info_issuer_chain tcb_info qe_identity_issuer_chain qe_identity c.(qc_tee_type)).

(** The report data of a quote; [d] is the array [report_data.d]. *)
Definition PrepareSgxReportData (gen_params : UnifiedAttestationGenerationParams)
    : outcome bytes :=
  let nonce := gen_params.(report_hex_nonce) in
  let user_data := gen_params.(report_params).(params_hex_user_data) in
  let public_key := gen_params.(report_params).(pem_public_key) in
  let max := 2 * Z.of_nat SGX_HASH_SIZE in
  _ ← YACL_ENFORCE (slen nonce <=? max)
        "report_hex_nonce length should not be greater than {}, got {}"
        [FInt max; FInt (slen nonce)];
  _ ← YACL_ENFORCE (slen user_data <=? max)
        "hex_user_data length should not be greater than {}, got {}"
        [FInt max; FInt (slen user_data)];
  _ ← YACL_ENFORCE (is_empty nonce || is_empty user_data)
        "Not support both nonce and user data" [];
  let d := zero_bytes SGX_REPORT_DATA_SIZE in
  d ← (if negb (is_empty nonce) then memcpy_at d 0 (HexStringToBytes nonce) else mret d);
  d ← (if negb (is_empty user_data) then memcpy_at d 0 (HexStringToBytes user_data) else mret d);
  if negb (is_empty public_key) then
    let public_key_hash := Sha256 (HexStringToBytes public_key) in
    memcpy_at d SGX_HASH_SIZE public_key_hash
  else mret d.

Definition PrepareTdxReportData (gen_params : UnifiedAttestationGenerationParams)
    : outcome bytes :=
  let nonce := gen_params.(report_hex_nonce) in
  let user_data := gen_params.(report_params).(params_hex_user_data) in
  let public_key := gen_params.(report_params).(pem_public_key) in
  let max := 2 * Z.of_nat SGX_HASH_SIZE in
  _ ← YACL_ENFORCE (slen nonce <=? max)
        "report_hex_nonce length should not be greater than {}, got {}"
        [FInt max; FInt (slen nonce)];
  _ ← YACL_ENFORCE (slen user_data <=? max)
        "hex_user_data length should not be greater than {}, got {}"
        [FInt max; FInt (slen user_data)];
  _ ← YACL_ENFORCE (is_empty nonce || is_empty user_data)
        "Not support both nonce and user data" [];
  let d := zero_bytes TDX_REPORT_DATA_SIZE in
  d ← (if negb (is_empty nonce) then memcpy_at d 0 (HexStringToBytes nonce) else mret d);
  d ← (if negb (is_empty user_data) then memcpy_at d 0 (HexStringToBytes user_data) else mret d);
  if negb (is_empty public_key) then
    let public_key_hash := Sha256 (HexStringToBytes public_key) in
    memcpy_at d SGX_HASH_SIZE public_key_hash
  else mret d.

Definition check_report_type (gen_params : UnifiedAttestationGenerationParams) : outcome unit :=
  YACL_ENFORCE (String.eqb gen_params.(report_type) ReportType.kReportTypeBgcheck
                || String.eqb gen_params.(report_type) ReportType.kReportTypePassport)
    "Unsupport report_type: {}" [FStr gen_params.(report_type)].

(** [YACL_ENFORCE_EQ(ret, 0, fmt, errno)] *)
Definition enforce_zero (ret : Z) (fmt : string) : st HS unit :=
  err ← get_errno;
  pure (YACL_ENFORCE (ret =? 0) fmt [FInt err]).

(** The part of [Sgx2AttestationGenerator::GenerateReport] after the device is
    open. *)
Definition sgx2_generate_with (gen_params : UnifiedAttestationGenerationParams) (sgx_fd : Z)
    : st HS UnifiedAttestationReport :=
  '(ret, quote_size) ← host_call (ioctl_get_quote_size sgx_fd);
  _ ← enforce_zero ret "Fail to get quote size, errno = {}";
  report_data ← pure (PrepareSgxReportData gen_params);
  let quote := zero_bytes (Z.to_nat quote_size) in
  '(ret, quote_size, quote) ← host_call (ioctl_gen_quote sgx_fd (mk_gen_quote_arg report_data quote_size quote));
  _ ← enforce_zero ret "Fail to get quote, errno = {}";
  json_collateral ←
    (if String.eqb gen_params.(report_type) ReportType.kReportTypePassport then
       collateral ← GetIntelCollateral quote quote_size;
       pure (PB2JSON collateral)
     else mret "");
  let dcap_report := mk_dcap_report (base64_encode quote) json_collateral in
  json_report ← pure (PB2JSON dcap_report);
  mret (mk_report kReportVersion gen_params.(report_type) Platform.kPlatformSgxDcap json_report).

Definition sgx2_GenerateReport (gen_params : UnifiedAttestationGenerationParams)
    : st HS UnifiedAttestationReport :=
  _ ← pure (check_report_type gen_params);
  sgx_fd ← open_file kSgxDevice;
  _ ← pure (YACL_ENFORCE (0 <=? sgx_fd) "Fail to open {}" [FStr kSgxDevice]);
  on_scope_exit (close_file sgx_fd) (sgx2_generate_with gen_params sgx_fd).

Definition tdx_GenerateReport (gen_params : UnifiedAttestationGenerationParams)
    : st HS UnifiedAttestationReport :=
  _ ← pure (check_report_type gen_params);
  report_data ← pure (PrepareTdxReportData gen_params);
  '((ret, quote_size), p_quote_buf) ←
    alloc_call (fun d => let '((ret, p, size), d) := tdx_att_get_quote report_data d in
                         ((ret, size, p), d));
  quote ← pure (match p_quote_buf with
                | Some buf =>
                    _ ← YACL_ENFORCE (ret =? TDX_ATTEST_SUCCESS)
                          "tdx_att_get_quote err: {:#x}" [FInt ret];
                    read_at buf 0 (Z.to_nat quote_size)
                | None => Throw (mk_exn EnforceNotMet "tdx_att_get_quote err: {:#x}" [FInt ret])
                end);
  _ ← free_buffer;
  json_collateral ←
    (if String.eqb gen_params.(report_type) ReportType.kReportTypePassport then
       collateral ← GetIntelCollateral quote quote_size;
       pure (PB2JSON collateral)
     else mret "");
  let tdx_report := mk_tdx_report (base64_encode quote) json_collateral in
  json_report ← pure (PB2JSON tdx_report);
  mret (mk_report kReportVersion gen_params.(report_type) Platform.kPlatformTdx json_report).
End Model.

(** ** Report data *)

(** [bs] and zeros up to 32 bytes. *)
Definition pad32 (bs : bytes) : bytes := bs ++ zero_bytes (32 - length bs).

Section ReportData.
Context `{AL : AbslLaws} `{HsL : HashesLaws} `{RL : ReportDataLaws}.

(** The parameters the generators accept. *)
Definition params_fit (gp : UnifiedAttestationGenerationParams) : Prop :=
  slen gp.(report_hex_nonce) <= 64 /\ slen gp.(report_params).(params_hex_user_data) <= 64 /\
  (gp.(report_hex_nonce) = "" \/ gp.(report_params).(params_hex_user_data) = "").

#[global] Instance params_fit_dec gp : Decision (params_fit gp).
Proof. unfold params_fit. apply _. Defined.

(** The two halves of the report data: the user data or the nonce, and the hash
    of the key. *)
Definition data_half (gp : UnifiedAttestationGenerationParams) : bytes :=
  pad32 (HexStringToBytes (if is_empty gp.(report_hex_nonce)
                           then gp.(report_params).(params_hex_user_data)
                           else gp.(report_hex_nonce))).
Definition key_half (gp : UnifiedAttestationGenerationParams) : bytes :=
  let key := gp.(report_params).(pem_public_key) in
  if is_empty key then zero_bytes 32 else Sha256 (HexStringToBytes key).

Lemma HexStringToBytes_empty : HexStringToBytes "" = [].
Proof. apply nil_length_inv. rewrite length_HexStringToBytes. done. Qed.

Lemma length_hex_le s : slen s <= 64 -> (length (HexStringToBytes s) <= 32)%nat.
Proof.
  intros Hs. rewrite length_HexStringToBytes. unfold slen in Hs.
  apply Nat.Div0.div_le_upper_bound. lia.
Qed.

Lemma length_pad32 bs : (length bs <= 32)%nat -> length (pad32 bs) = 32%nat.
Proof. intros. unfold pad32, zero_bytes. rewrite length_app, length_replicate. lia. Qed.

Lemma length_key_half gp : length (key_half gp) = 32%nat.
Proof. unfold key_half. case_match; [done|]. apply length_Sha256. Qed.

Lemma length_data_half gp : params_fit gp -> length (data_half gp) = 32%nat.
Proof. intros (? & ? & _). apply length_pad32. case_match; by apply length_hex_le. Qed.

(** Copying at most 32 bytes to the front of a zeroed array of 64. *)
Lemma memcpy_front bs : (length bs <= 32)%nat ->
  memcpy_at (zero_bytes 64) 0 bs = Ok (pad32 bs ++ zero_bytes 32).
Proof.
  intros Hl. unfold pad32, zero_bytes.
  replace 64%nat with (length bs + (64 - length bs))%nat by lia. rewrite replicate_add.
  rewrite memcpy_at_head by (by rewrite length_replicate). f_equal.
  rewrite <- app_assoc, <- replicate_add. do 2 f_equal. lia.
Qed.

Lemma memcpy_back l bs : length l = 32%nat -> length bs = 32%nat ->
  memcpy_at (l ++ zero_bytes 32) 32 bs = Ok (l ++ bs).
Proof.
  intros Hl Hb. rewrite <- (app_nil_r (zero_bytes 32)), memcpy_at_app by done.
  by rewrite app_nil_r.
Qed.

(** The nonce, then the user data, over a zeroed array of 64 bytes. *)
Lemma fill_front nonce ud : slen nonce <= 64 -> slen ud <= 64 -> nonce = "" \/ ud = "" ->
  exists d1,
    (if negb (is_empty nonce) then memcpy_at (zero_bytes 64) 0 (HexStringToBytes nonce)
     else mret (zero_bytes 64)) = Ok d1 /\
    (if negb (is_empty ud) then memcpy_at d1 0 (HexStringToBytes ud) else mret d1)
    = Ok (pad32 (HexStringToBytes (if is_empty nonce then ud else nonce)) ++ zero_bytes 32).
Proof.
  intros Hn Hu [-> | ->].
  - eexists. split; [reflexivity|]. cbn [is_empty String.eqb].
    destruct (is_empty ud) eqn:Eu; cbn [negb]; [|by apply memcpy_front, length_hex_le].
    apply is_empty_true in Eu. by rewrite Eu, HexStringToBytes_empty.
  - destruct (is_empty nonce); cbn [negb].
    + eexists. split; [reflexivity|]. by rewrite HexStringToBytes_empty.
    + rewrite memcpy_front by (by apply length_hex_le). by eexists.
Qed.

Lemma PrepareSgxReportData_fits gp :
  params_fit gp -> PrepareSgxReportData gp = Ok (data_half gp ++ key_half gp).
Proof.
  intros Hfit. pose proof (length_data_half gp Hfit) as Hdh. destruct Hfit as (Hn & Hu & Hor).
  unfold PrepareSgxReportData. rewrite hash_size_32, sgx_report_data_64.
  rewrite !bind_enforce
    by first [by apply Z.leb_le | by rewrite orb_true_iff, !is_empty_true].
  destruct (fill_front _ _ Hn Hu Hor) as (d1 & E1 & E2). rewrite E1, bind_Ok_l, E2, bind_Ok_l.
  fold (data_half gp). unfold key_half.
  destruct (is_empty gp.(report_params).(pem_public_key)); cbn [negb]; [done|].
  apply memcpy_back; [done|apply length_Sha256].
Qed.

Lemma PrepareSgxReportData_unfit gp :
  ~ params_fit gp -> is_throw (PrepareSgxReportData gp) = true.
Proof.
  intros Hno. unfold PrepareSgxReportData. rewrite hash_size_32.
  destruct (Z.leb_spec (slen gp.(report_hex_nonce)) (2 * Z.of_nat 32)) as [Hn|Hn];
    [rewrite bind_enforce by done|by rewrite bind_enforce_fails].
  destruct (Z.leb_spec (slen gp.(report_params).(params_hex_user_data)) (2 * Z.of_nat 32)) as [Hu|Hu];
    [rewrite bind_enforce by done|by rewrite bind_enforce_fails].
  rewrite bind_enforce_fails; [done|]. apply orb_false_iff. rewrite !is_empty_false.
  unfold params_fit in Hno.
  destruct (decide (gp.(report_hex_nonce) = "")), (decide (gp.(report_params).(params_hex_user_data) = ""));
    naive_solver lia.
Qed.

Lemma PrepareTdxReportData_eq gp : PrepareTdxReportData gp = PrepareSgxReportData gp.
Proof.
  unfold PrepareTdxReportData, PrepareSgxReportData. by rewrite sgx_report_data_64, tdx_report_data_64.
Qed.
End ReportData.

(** ** Texts of the collateral *)

(** A text that is NUL-terminated and whose size counts the NUL, the form the
    quote verification library asks for. *)
Definition nul_text (p : bytes * Z) (s : string) : Prop :=
  p.2 = slen s + 1 /\ p.2 < 2 ^ 32 /\ exists rest, p.1 = s2b s ++ Byte.x00 :: rest.

Lemma CharArray2String_nul p s : nul_text p s -> CharArray2String p.1 p.2 = Ok s.
Proof.
  destruct p as [buf n]. intros (Hn & Hlt & rest & Hb). cbn in *. subst. unfold CharArray2String, slen in *.
  rewrite u32_small by lia.
  replace (Z.to_nat (Z.of_nat (String.length s) + 1 - 1)) with (String.length s) by lia.
  rewrite !bind_read by (rewrite length_app, length_s2b; cbn; lia).
  assert (slice (s2b s ++ Byte.x00 :: rest) (String.length s) 1 = [Byte.x00]) as ->.
  { apply (slice_mid (s2b s) [Byte.x00] rest); [by rewrite length_s2b|reflexivity]. }
  rewrite decide_True by done.
  rewrite slice_head by (by rewrite length_s2b). unfold mret, outcome_ret. by rewrite b2s_s2b.
Qed.

(** A text of size 0 is read at [buf[-1]], that is at index 2^32 - 1. *)
Lemma CharArray2String_empty buf : len buf < 2 ^ 32 -> CharArray2String buf 0 = UB "read".
Proof.
  intros Hl. unfold CharArray2String, len in *.
  rewrite (read_at_out buf (Z.to_nat (u32 (0 - 1))) 1); [done|].
  change (u32 (0 - 1)) with (2 ^ 32 - 1). lia.
Qed.

(** ** Nothing is left open *)

(** A library that reports an error returns no buffer. *)
Class HostLaws `{Host} : Prop := {
  tdx_att_get_quote_fails rd d ret p n d' :
    tdx_att_get_quote rd d = ((ret, p, n), d') -> ret <> TDX_ATTEST_SUCCESS -> p = None;
  tee_qv_get_collateral_fails q d ret p d' :
    tee_qv_get_collateral q d = ((ret, p), d') -> ret <> SGX_QL_SUCCESS -> p = None
}.

Section Clean.
Context `{Absl} `{Hashes} `{Cppcodec}.
Context `{ProtoJson DcapReport} `{ProtoJson IntelTdxReport} `{ProtoJson SgxQlQveCollateral}.
Context `{HoL : HostLaws} `{Rand} `{ReportDataSizes}.

Lemma clean_text_of p : clean (text_of p).
Proof. apply clean_pure. Qed.

Lemma clean_enforce_zero ret fmt : clean (enforce_zero ret fmt).
Proof. unfold enforce_zero. solve_clean. Qed.

(** [m] gives back one buffer. *)
Definition releases {A} (m : st host_state A) : Prop :=
  forall h, defined (m h).1 ->
    (m h).2.(h_fds) = h.(h_fds) /\ (m h).2.(h_live) = Nat.pred h.(h_live).

Lemma releases_free {A} (m : st host_state A) : clean m -> releases (_ ← free_buffer; m).
Proof. intros Hm h Hdef. apply (Hm (mk_host h.(h_fds) (Nat.pred h.(h_live)) h.(h_dev) h.(h_rng)) Hdef). Qed.

(** Reading a text does not throw. *)
Lemma releases_text {A} p (k : string -> st host_state A) :
  (forall s, releases (k s)) -> releases (s ← text_of p; k s).
Proof.
  intros Hk h. unfold text_of, mbind, st_bind, pure.
  assert (is_throw (CharArray2String p.1 p.2) = false) as Ht.
  { unfold CharArray2String. apply bind_no_throw; [apply read_at_no_throw|]. intros a.
    case_decide; (apply bind_no_throw; [apply read_at_no_throw|done]). }
  destruct (CharArray2String p.1 p.2); [apply Hk|done|by intros []].
Qed.

(** A call that returns a buffer only on success, followed by its release. *)
Lemma clean_alloc {A B C D} (f : dev -> (A * option B) * dev) (check : A -> B -> outcome C)
    (none : A -> outcome C) (k : A -> C -> st host_state D) :
  (forall d a b d', f d = ((a, Some b), d') -> is_throw (check a b) = false) ->
  (forall a, is_ok (none a) = false) -> (forall a c, releases (k a c)) ->
  clean ('(a, p) ← alloc_call f;
         c ← pure (match p with Some b => check a b | None => none a end); k a c).
Proof.
  intros Hc Hn Hk h. unfold mbind, st_bind, alloc_call, pure.
  destruct (f h.(h_dev)) as [[a [b|]] d'] eqn:E.
  - specialize (Hc _ _ _ _ E). destruct (check a b) as [c|e|w]; [|done|by intros []].
    intros Hdef. by apply Hk in Hdef.
  - specialize (Hn a). by destruct (none a).
Qed.

Lemma clean_GetIntelCollateral quote n : clean (GetIntelCollateral quote n).
Proof.
  unfold GetIntelCollateral. apply clean_bind; [apply clean_pure|]. intros q.
  apply (clean_alloc (tee_qv_get_collateral q)
    (fun ret c => _ ← YACL_ENFORCE (ret =? SGX_QL_SUCCESS)
                         "tee_qv_get_collateral err: {:#x}" [FInt ret]; mret c)
    (fun ret => Throw (mk_exn EnforceNotMet "tee_qv_get_collateral err: {:#x}" [FInt ret])));
    [|done|].
  - intros d ret c d' E. destruct (Z.eqb_spec ret SGX_QL_SUCCESS) as [|Hne]; [done|].
    by apply tee_qv_get_collateral_fails in E.
  - intros ret c. do 7 (apply releases_text; intros ?). apply releases_free, clean_ret.
Qed.

Lemma clean_collateral_json (gp : UnifiedAttestationGenerationParams) quote n :
  clean (if String.eqb gp.(report_type) ReportType.kReportTypePassport
         then collateral ← GetIntelCollateral quote n; pure (PB2JSON collateral) else mret "").
Proof.
  case_match; [|apply clean_ret]. apply clean_bind; [apply clean_GetIntelCollateral|].
  intros. apply clean_pure.
Qed.

#[local] Hint Resolve clean_enforce_zero clean_collateral_json : trustflow.

Lemma clean_sgx2_generate_with gp fd : clean (sgx2_generate_with gp fd).
Proof. unfold sgx2_generate_with. solve_clean. Qed.

Lemma clean_tdx_GenerateReport gp : clean (tdx_GenerateReport gp).
Proof.
  unfold tdx_GenerateReport. do 2 (apply clean_bind; [apply clean_pure|]; intros ?).
  eapply clean_ext; [|apply (clean_alloc
    (fun d => let '((ret, p, size), d) := tdx_att_get_quote a0 d in ((ret, size, p), d))
    (fun a buf => _ ← YACL_ENFORCE (a.1 =? TDX_ATTEST_SUCCESS)
                        "tdx_att_get_quote err: {:#x}" [FInt a.1];
                  read_at buf 0 (Z.to_nat a.2))
    (fun a => Throw (mk_exn EnforceNotMet "tdx_att_get_quote err: {:#x}" [FInt a.1]))
    (fun a quote => _ ← free_buffer;
      json_collateral ←
        (if String.eqb gp.(report_type) ReportType.kReportTypePassport then
           collateral ← GetIntelCollateral quote a.2; pure (PB2JSON collateral)
         else mret "");
      json_report ← pure (PB2JSON (mk_tdx_report (base64_encode quote) json_collateral));
      mret (mk_report kReportVersion gp.(report_type) Platform.kPlatformTdx json_report)))];
    [| |done|].
  - intros h. unfold mbind, st_bind, alloc_call. destruct (tdx_att_get_quote _ _) as [[[ret p] n] d].
    reflexivity.
  - intros d [ret n] buf d' E. destruct (tdx_att_get_quote a0 d) as [[[ret' p] n'] d''] eqn:Et.
    injection E as -> -> -> ->. cbn. destruct (Z.eqb_spec ret TDX_ATTEST_SUCCESS) as [|Hne].
    + apply read_at_no_throw.
    + by apply tdx_att_get_quote_fails in Et.
  - intros [ret n] quote. apply releases_free. solve_clean.
Qed.

Lemma clean_sgx2_GenerateReport gp : clean (sgx2_GenerateReport gp).
Proof.
  unfold sgx2_GenerateReport. apply clean_bind; [apply clean_pure|]. intros _.
  apply (clean_open kSgxDevice (fun fd => YACL_ENFORCE (0 <=? fd) "Fail to open {}" [FStr kSgxDevice])
           (sgx2_generate_with gp)).
  - intros fd Hfd. by apply YACL_ENFORCE_true, Z.leb_le.
  - intros fd Hfd. rewrite YACL_ENFORCE_false; [done|]. by apply Z.leb_gt.
  - intros fd. apply clean_sgx2_generate_with.
Qed.
End Clean.

(** ** From the generator to the verifier *)

(** A quote the device produced carries the report data it was given. *)
Class SgxDeviceLaws `{Host} `{SgxQuote3} : Prop := {
  gen_quote_report_data fd rd n buf d n' q d' :
    ioctl_gen_quote fd (mk_gen_quote_arg rd n buf) d = ((0, n', q), d') ->
    (sizeof_sgx_quote3_t <= length q)%nat -> slice q off_report_data (length rd) = rd
}.

Section RoundTrip.
Context `{AL : AbslLaws} `{HsL : HashesLaws} `{CL : CppcodecLaws}.
Context `{JD : ProtoJsonLaws DcapReport} `{JC : ProtoJsonLaws SgxQlQveCollateral}.
Context `{Host} `{Rand} `{RL : ReportDataLaws}.
Context `{SgxQuote3} {QL : SgxQuote3Laws} {DL : SgxDeviceLaws} `{SgxAttributes}.

Lemma on_scope_exit_Ok {A} f (m : st host_state A) h a h' :
  on_scope_exit f m h = (Ok a, h') -> exists h1, m h = (Ok a, h1).
Proof. unfold on_scope_exit. destruct (m h) as [r h1]. intros [= -> _]. by exists h1. Qed.

Lemma enforce_zero_Ok ret fmt h u h' : enforce_zero ret fmt h = (Ok u, h') -> ret = 0.
Proof. unfold enforce_zero. intros He. inv_st. by apply Z.eqb_eq. Qed.

(** What a generated report holds. *)
Lemma sgx2_GenerateReport_Ok gp h r h' :
  sgx2_GenerateReport gp h = (Ok r, h') ->
  exists quote cj json,
    params_fit gp /\
    ((sizeof_sgx_quote3_t <= length quote)%nat ->
       slice quote off_report_data 64 = data_half gp ++ key_half gp) /\
    PB2JSON (mk_dcap_report (base64_encode quote) cj) = Ok json /\
    (gp.(report_type) = ReportType.kReportTypePassport ->
       exists c : SgxQlQveCollateral, PB2JSON c = Ok cj) /\
    r = mk_report kReportVersion gp.(report_type) Platform.kPlatformSgxDcap json.
Proof.
  unfold sgx2_GenerateReport. intros Hg. inv_st.
  match goal with H : on_scope_exit _ _ _ = _ |- _ => apply on_scope_exit_Ok in H as [h1 H]; rename H into Hw end.
  unfold sgx2_generate_with in Hw. apply st_bind_Ok in Hw as ([ret size] & h2 & _ & Hw).
  inv_st.
  match goal with H : (let '(_, _) := ?x in _) _ = _ |- _ =>
    destruct x as [[ret2 size2] quote]; rename H into Hw end.
  inv_st.
  match goal with H : PrepareSgxReportData gp = Ok ?d |- _ => rename H into Hprep, d into rd end.
  match goal with H : host_call (ioctl_gen_quote _ _) _ = _ |- _ => rename H into Hioctl end.
  match goal with H : (if String.eqb _ _ then _ else _) _ = (Ok ?c, _) |- _ => rename H into Hcol, c into cj end.
  match goal with H : PB2JSON (mk_dcap_report _ _) = Ok ?j |- _ => rename H into Hjson, j into json end.
  assert (params_fit gp) as Hfit.
  { destruct (decide (params_fit gp)) as [|Hno]; [done|].
    apply PrepareSgxReportData_unfit in Hno. by rewrite Hprep in Hno. }
  exists quote, cj, json. split; [done|]. split; [|split; [done|split; [|done]]].
  - intros Hlen. rewrite PrepareSgxReportData_fits in Hprep by done. injection Hprep as <-.
    unfold host_call in Hioctl. destruct (ioctl_gen_quote _ _ _) as [[[r2 n2] q2] d2] eqn:E.
    injection Hioctl as -> -> -> _.
    match goal with H : enforce_zero ret2 _ _ = _ |- _ => apply enforce_zero_Ok in H; subst ret2 end.
    apply gen_quote_report_data in E; [|done].
    by rewrite length_app, length_data_half, length_key_half in E.
  - intros Hty. rewrite Hty in Hcol. cbn in Hcol. inv_st. by eexists.
Qed.

(** The verifier of a generated report. *)
Lemma sgx2_generated_Init gp h r h' :
  gp.(report_type) = ReportType.kReportTypePassport ->
  sgx2_GenerateReport gp h = (Ok r, h') ->
  exists v, Sgx2Verifier.Init r = Ok v /\ v.(sgx2_report) = r /\ params_fit gp /\
    ((sizeof_sgx_quote3_t <= length v.(sgx2_quote))%nat ->
       slice v.(sgx2_quote) off_report_data 64 = data_half gp ++ key_half gp).
Proof.
  intros Hty Hg. apply sgx2_GenerateReport_Ok in Hg as (quote & cj & json & Hfit & Hrd & Hj & Hc & ->).
  destruct (Hc Hty) as [c Hcj]. rewrite Hty. unfold Sgx2Verifier.Init.
  cbn [str_report_version str_report_type report_tee_platform json_report].
  rewrite !bind_enforce by done.
  rewrite (PB2JSON_JSON2PB _ _ Hj), bind_Ok_l. cbn [b64_quote json_collateral].
  rewrite base64_decode_encode. cbn [call]. rewrite bind_Ok_l.
  rewrite (PB2JSON_JSON2PB _ _ Hcj).
  destruct (is_empty cj); cbn; by eexists.
Qed.

Lemma slice_app_halves {A} (l a b : list A) off :
  slice l off 64 = a ++ b -> length a = 32%nat -> length b = 32%nat ->
  slice l off 32 = a /\ slice l (off + 32) 32 = b.
Proof.
  intros Hs Ha Hb. split.
  - rewrite <- (Nat.add_0_r off), <- (slice_slice l off 64 0 32), Hs by lia. by apply slice_head.
  - rewrite <- (slice_slice l off 64 32 32), Hs by lia.
    rewrite <- (app_nil_r b) at 1. by apply slice_mid.
Qed.

(** What the entry that accepts a generated report is compared with. *)
Lemma sgx2_generated_satisfies `{Fmt} `{DcapQvl} gp h r h' v now (e : UnifiedAttestationAttributes) :
  gp.(report_type) = ReportType.kReportTypePassport ->
  sizeof_sgx_report_data_t = 64%nat ->
  sgx2_GenerateReport gp h = (Ok r, h') -> Sgx2Verifier.Init r = Ok v ->
  VerifyReport now v (mk_policy [e]) = Ok tt ->
  exists a, satisfies a e /\ a.(hex_user_data) = BytesToHexString (data_half gp) /\
    a.(hex_hash_or_pem_pubkey) = BytesToHexString (key_half gp) /\ a.(hex_nonce) = "".
Proof.
  intros Hty H64 Hg Hv (_ & attrs & Hparse & Hattrs)%VerifyReport_Ok.
  apply sgx2_generated_Init in Hg as (v' & Hv' & Hrep & Hfit & Hrd); [|done].
  rewrite Hv in Hv'. injection Hv' as <-. cbn in Hparse.
  destruct (decide (sizeof_sgx_quote3_t <= length v.(sgx2_quote))%nat) as [Hlen|Hlen].
  2: { pose proof (Sgx2Verifier.parse_unified_report_short v default_attrs ltac:(lia)) as Ht.
       by rewrite Hparse in Ht. }
  rewrite Sgx2Verifier.parse_unified_report_long in Hparse by done. injection Hparse as <-.
  specialize (Hrd Hlen).
  apply slice_app_halves in Hrd as [Hd Hk]; [|by apply length_data_half|apply length_key_half].
  apply verify_loop_spec in Hattrs as ([|n] & e' & Hn & Hm & _); [injection Hn as <-|done].
  apply verdict_Match in Hm as Hs. eexists. split; [exact Hs|].
  cbn -[slice]. by rewrite Hd, Hk.
Qed.
End RoundTrip.

(** ** Properties *)

(** C30. Report data: for a nonce and user data of at most 64 hex digits, not
    both set, both Intel generators bind the user data (or the nonce) padded
    with zeros to 32 bytes and the SHA-256 of the decoded public key into the
    64 bytes of report data, and stay inside that array; anything else is
    refused before a quote is asked for. *)
Theorem report_data_layout `{AbslLaws} `{HashesLaws} `{ReportDataLaws}
    (gp : UnifiedAttestationGenerationParams) :
  PrepareTdxReportData gp = PrepareSgxReportData gp /\
  if decide (params_fit gp)
  then PrepareSgxReportData gp = Ok (data_half gp ++ key_half gp) /\
       length (data_half gp) = 32%nat /\ length (key_half gp) = 32%nat
  else is_throw (PrepareSgxReportData gp) = true.
Proof.
  split; [apply PrepareTdxReportData_eq|]. case_decide; [|by apply PrepareSgxReportData_unfit].
  split; [by apply PrepareSgxReportData_fits|].
  split; [by apply length_data_half|apply length_key_half].
Qed.

(** C31. Resources: however [GenerateReport] of the SGX or TDX generator ends,
    by returning or by an exception, the device file is closed and the buffers
    of the quote and collateral libraries are freed. *)
Theorem GenerateReport_releases `{Absl} `{Hashes} `{Cppcodec} `{ProtoJson DcapReport}
    `{ProtoJson IntelTdxReport} `{ProtoJson SgxQlQveCollateral} `{HostLaws} `{Rand}
    `{ReportDataSizes} (gp : UnifiedAttestationGenerationParams) (h : host_state) :
  (defined (sgx2_GenerateReport gp h).1 ->
     (sgx2_GenerateReport gp h).2.(h_fds) = h.(h_fds) /\
     (sgx2_GenerateReport gp h).2.(h_live) = h.(h_live)) /\
  (defined (tdx_GenerateReport gp h).1 ->
     (tdx_GenerateReport gp h).2.(h_fds) = h.(h_fds) /\
     (tdx_GenerateReport gp h).2.(h_live) = h.(h_live)).
Proof. split; [apply clean_sgx2_GenerateReport|apply clean_tdx_GenerateReport]. Qed.

(** C32. From generation to verification: a passport report of the SGX generator
    is one the SGX verifier accepts to parse, and for a quote of full size the
    attributes show the user data (or nonce) and the key hash that were bound;
    the nonce never shows as a nonce. *)
Theorem sgx2_generate_parse `{AbslLaws} `{HashesLaws} `{CppcodecLaws} `{ProtoJsonLaws DcapReport}
    `{ProtoJsonLaws SgxQlQveCollateral} `{Host} `{Rand} `{ReportDataLaws}
    `{!SgxQuote3} `{!SgxQuote3Laws} `{!SgxDeviceLaws} `{SgxAttributes}
    (gp : UnifiedAttestationGenerationParams) (h : host_state) r h' :
  gp.(report_type) = ReportType.kReportTypePassport ->
  sizeof_sgx_report_data_t = 64%nat ->
  sgx2_GenerateReport gp h = (Ok r, h') ->
  exists v, Sgx2Verifier.Init r = Ok v /\
    ((sizeof_sgx_quote3_t <= length v.(sgx2_quote))%nat ->
     exists a, Sgx2Verifier.parse_unified_report v default_attrs = Ok a /\
       a.(str_tee_platform) = Platform.kPlatformSgxDcap /\
       a.(hex_user_data) = BytesToHexString (data_half gp) /\
       a.(hex_hash_or_pem_pubkey) = BytesToHexString (key_half gp) /\
       a.(hex_nonce) = "").
Proof.
  intros Hty H64 Hg. pose proof Hg as Hg'.
  apply sgx2_GenerateReport_Ok in Hg' as (? & ? & ? & _ & _ & _ & _ & Hr).
  apply sgx2_generated_Init in Hg as (v & Hv & Hrep & Hfit & Hrd); [|done].
  exists v. split; [done|]. intros Hlen. specialize (Hrd Hlen).
  apply slice_app_halves in Hrd as [Hd Hk]; [|by apply length_data_half|apply length_key_half].
  eexists. split; [by apply Sgx2Verifier.parse_unified_report_long|].
  cbn -[slice]. by rewrite Hrep, Hr, Hd, Hk.
Qed.

(** C33. Which policies a generated SGX report can meet: if a single entry
    accepts it, the entry asks for no nonce, its user data is the padded 32
    bytes, and if it names the public key the generator was given, the SHA-256
    of that text and of its hex decoding collide: the generator hashes
    [HexStringToBytes(key)], the verifier the key as it is. *)
Theorem sgx2_generated_policy `{Fmt} `{AbslLaws} `{HashesLaws} `{CppcodecLaws}
    `{ProtoJsonLaws DcapReport} `{ProtoJsonLaws SgxQlQveCollateral} `{Host} `{Rand}
    `{ReportDataLaws} `{DcapQvl} `{!SgxQuote3} `{!SgxQuote3Laws} `{!SgxDeviceLaws} `{SgxAttributes}
    (gp : UnifiedAttestationGenerationParams) (h : host_state) r h' v now
    (e : UnifiedAttestationAttributes) :
  gp.(report_type) = ReportType.kReportTypePassport ->
  sizeof_sgx_report_data_t = 64%nat ->
  sgx2_GenerateReport gp h = (Ok r, h') -> Sgx2Verifier.Init r = Ok v ->
  VerifyReport now v (mk_policy [e]) = Ok tt ->
  e.(hex_nonce) = "" /\
  (e.(hex_user_data) <> "" -> HexStringToBytes e.(hex_user_data) = data_half gp) /\
  (e.(hex_hash_or_pem_pubkey) <> "" ->
   e.(hex_hash_or_pem_pubkey) = gp.(report_params).(pem_public_key) ->
   Sha256 (s2b gp.(report_params).(pem_public_key))
   = Sha256 (HexStringToBytes gp.(report_params).(pem_public_key))).
Proof.
  intros Hty H64 Hg Hv Hok.
  destruct (sgx2_generated_satisfies gp h r h' v now e) as (a & [] & Hd & Hk & Hn); [done..|].
  rewrite Hd in sat_user_data. rewrite Hk in sat_pubkey. rewrite Hn in sat_nonce. split; [|split].
  - destruct (decide (e.(hex_nonce) = "")) as [|Hne]; [done|].
    apply sat_nonce in Hne as Hc. by destruct e.(hex_nonce).
  - intros Hne. symmetry. by apply field_ok_hex.
  - intros Hne He. rewrite He in *. apply sat_pubkey in Hne as Hc. unfold key_half in Hc.
    rewrite (proj2 (is_empty_false _)) in Hc by done.
    by apply EqualsIgnoreCase_spec, EqualsIgnoreCase_hex in Hc.
Qed.

(** Collateral: when the library returns NUL-terminated texts whose sizes
    count the NUL, the collateral that travels in the report gives the verifier
    back the same texts with the same sizes, whereas a text of size 0 makes
    [CharArray2String] read outside its buffer. *)
Theorem collateral_texts_survive (p : bytes * Z) (s name : string) :
  (nul_text p s -> s <> "" ->
     CharArray2String p.1 p.2 = Ok s /\
     Sgx2Verifier.SetCollateral name s = Ok (mk_c_field s p.2)) /\
  (p.2 = 0 -> len p.1 < 2 ^ 32 -> ~ defined (CharArray2String p.1 p.2)).
Proof.
  split.
  - intros Hn Hne. split; [by apply CharArray2String_nul|].
    rewrite SetCollateral_set by done. unfold c_field_of. destruct Hn as (-> & Hlt & _).
    unfold slen in *. by rewrite u32_small by lia.
  - intros -> Hl Hdef. by rewrite CharArray2String_empty in Hdef.
Qed.

(** ** Witnesses *)

Definition sample_text (s : string) : bytes * Z := (s2b s ++ [Byte.x00], slen s + 1).

Definition sample_qve_collateral : qve_collateral :=
  mk_qve_collateral 3 (sample_text "a") (sample_text "b") (sample_text "c") (sample_text "d")
    (sample_text "e") (sample_text "f") (sample_text "g") 0.

(** A host whose devices work; [off] is where a quote keeps its report data and
    [body] what the certificate server answers. *)
Definition sample_host (off : nat) (body : string) : Host := {|
  dev := unit;
  errno_of _ := 0;
  open_dev _ d := (3, d);
  ioctl_get_quote_size _ d := ((0, 440), d);
  ioctl_gen_quote _ arg d :=
    if decide (off + length arg.(gq_report_data) <= length arg.(gq_quote_buf))%nat
    then ((0, arg.(gq_quote_len), splice arg.(gq_quote_buf) off arg.(gq_report_data)), d)
    else ((-1, arg.(gq_quote_len), arg.(gq_quote_buf)), d);
  ioctl_get_csv_report _ guest_mem d := ((0, guest_mem.(gm_va)), d);
  tdx_att_get_quote rd d := ((0, Some rd, 64), d);
  tee_qv_get_collateral _ d := ((0, Some sample_qve_collateral), d);
  TDX_ATTEST_SUCCESS := 0;
  channel_Init _ _ := 0;
  http_get _ _ _ d := (inr body, d);
  system_clock_now d := (0, d)
|}.

Lemma sample_host_laws off body : @HostLaws (sample_host off body).
Proof. split; cbn; unfold SGX_QL_SUCCESS; intros; by simplify_eq. Qed.

Lemma sample_sgx_device_laws : @SgxDeviceLaws (sample_host 368 "") sample_quote3.
Proof.
  split. cbn -[splice slice Nat.add]. intros fd rd n buf d n' q d'. case_decide; [|done].
  intros [= <- <- <-] _.
  apply slice_splice_same. lia.
Qed.

Module IntelGeneratorWitness.
#[local] Existing Instances sample_fmt sample_absl sample_absl_laws sample_hashes sample_hashes_laws
  sample_cppcodec sample_cppcodec_laws sample_quote3 sample_quote3_laws sample_attributes
  sample_rand sample_report_data sample_report_data_laws.
#[local] Instance host : Host := sample_host 368 "".
#[local] Existing Instance sample_host_laws.
#[local] Existing Instance sample_sgx_device_laws.
#[local] Instance qvl : DcapQvl := sample_qvl SGX_QL_QV_RESULT_OK.

Definition ud : string := "0102030405060708010203040506070801020304050607080102030405060708".
Definition gp : UnifiedAttestationGenerationParams :=
  mk_gen_params "" ReportType.kReportTypePassport "" (mk_report_params ud "").
Definition quote : bytes := splice (zero_bytes 440) 368 (data_half gp ++ key_half gp).

#[local] Instance j1 : ProtoJson DcapReport :=
  sample_json [("d", mk_dcap_report (hex_encode quote) "c")].
#[local] Instance j2 : ProtoJson SgxQlQveCollateral :=
  sample_json [("c", mk_collateral 3 "a" "b" "c" "d" "e" "f" "g" 0)].
#[local] Instance j3 : ProtoJson IntelTdxReport :=
  {| MessageToJsonString _ := inl ""; JsonStringToMessage _ := inl "" |}.
#[local] Instance j1_laws : ProtoJsonLaws DcapReport.
Proof. apply sample_json_laws, NoDup_singleton. Qed.
#[local] Instance j2_laws : ProtoJsonLaws SgxQlQveCollateral.
Proof. apply sample_json_laws, NoDup_singleton. Qed.

Definition h0 : host_state := mk_host [] 0 tt tt.
Definition report : UnifiedAttestationReport :=
  mk_report kReportVersion ReportType.kReportTypePassport Platform.kPlatformSgxDcap "d".
Definition entry : UnifiedAttestationAttributes := set_hex_user_data ud default_attrs.
Definition verifier : Sgx2AttestationVerifier :=
  mk_sgx2 report quote (mk_collateral 3 "a" "b" "c" "d" "e" "f" "g" 0).

Lemma sgx2_run : sgx2_GenerateReport gp h0 = (Ok report, h0).
Proof. vm_compute. reflexivity. Qed.

Lemma report_data_layout_witness : is_ok (PrepareTdxReportData gp) = true.
Proof.
  destruct (report_data_layout gp) as [-> Hl]. rewrite decide_True in Hl.
  - by destruct Hl as [-> _].
  - split; [by vm_compute|]. split; [by vm_compute|by left].
Defined.

Lemma GenerateReport_releases_witness :
  (sgx2_GenerateReport gp h0).2.(h_fds) = [] /\ (sgx2_GenerateReport gp h0).2.(h_live) = 0%nat.
Proof.
  destruct (GenerateReport_releases gp h0) as [Hs _]. rewrite sgx2_run. rewrite sgx2_run in Hs. exact (Hs I).
Defined.

Lemma sgx2_generate_parse_witness : exists v, Sgx2Verifier.Init report = Ok v.
Proof.
  destruct (sgx2_generate_parse gp h0 report h0) as (v & Hv & _);
    [reflexivity|reflexivity|exact sgx2_run|]. by exists v.
Defined.

Lemma sgx2_generated_policy_witness : HexStringToBytes ud = data_half gp.
Proof.
  destruct (sgx2_generated_policy gp h0 report h0 verifier 0 entry) as (_ & Hu & _);
    [reflexivity|reflexivity|exact sgx2_run|vm_compute; reflexivity|vm_compute; reflexivity|].
  by apply Hu.
Defined.

Lemma collateral_texts_survive_witness :
  CharArray2String (s2b "pck" ++ [Byte.x00]) 4 = Ok "pck" /\
  ~ defined (CharArray2String [] 0).
Proof.
  split.
  - apply (collateral_texts_survive (sample_text "pck") "pck" "n"); [|done].
    split; [reflexivity|]. split; [reflexivity|]. by exists [].
  - by apply (collateral_texts_survive ([], 0) "" "n").
Defined.
End IntelGeneratorWitness.
