(* ===== verification/CsvGenerator.v ===== *)
(** * CSV reports: the Hygon certificates and the CSV generator

    [trustflow/attestation/collateral/hygon_collateral.cc] and
    [trustflow/attestation/generation/csv/csv_generator.cc]. *)

From S2P Require Import Prelude CppStd External Common Samples Verifier YaclCrypto Hygon CsvVerifier Host IntelGenerator.

Definition kCsvDevice : string := "/dev/csv-guest".
Definition kPageSize : nat := Z.to_nat 4096.
Definition kHttpTimeoutMs : Z := 500.
Definition kHttpRetryTimes : Z := 3.
Definition kHygonCertUrl : string := "https://cert.hygon.cn".
Definition kHygonHskCekSubUrl : string := "/hsk_cek?snumber=".

(** [csv_attestation_user_data]: three arrays of bytes, one after the other. *)
Record csv_attestation_user_data := mk_csv_user_data {
  ud_data : bytes;
  ud_mnonce : bytes;
  ud_hash : bytes
}.

Definition ud_image (u : csv_attestation_user_data) : bytes :=
  u.(ud_data) ++ u.(ud_mnonce) ++ u.(ud_hash).

Section Model.
Context `{Absl} `{Hashes} `{Cppcodec}.
Context `{ProtoJson HygonCsvReport} `{ProtoJson HygonCsvCertChain}.
Context `{Host} `{Rand} `{HygonLayout}.

Abbreviation HS := host_state.

Definition GetHygonCsvCollateral (chip_id : string) : st HS HygonCsvCertChain :=
  let options := mk_channel_options PROTOCOL_HTTP kHttpTimeoutMs kHttpRetryTimes in
  _ ← pure (YACL_ENFORCE (channel_Init kHygonCertUrl options =? 0)
              "hygon cert server channel init failed" []);
  answer ← host_call (http_get kHygonCertUrl options (kHygonHskCekSubUrl +:+ chip_id));
  body ← pure (match answer with
               | inl (code, text) =>
                   Throw (mk_exn EnforceNotMet
                            "Get hygon csv hsk and cek failed, error code: {}, message: {}"
                            [FInt code; FStr text])
               | inr body => Ok body
               end);
  let response_body := s2b body in
  _ ← pure (YACL_ENFORCE (bool_decide (length response_body = sz_hsk + sz_cert)%nat)
              "hsk and cek length should be {}, but got {}"
              [FInt (Z.of_nat (sz_hsk + sz_cert)); FInt (len response_body)]);
  hsk_cert ← pure (read_at response_body 0 sz_hsk);
  cek_cert ← pure (read_at response_body sz_hsk sz_cert);
  mret (mk_cert_chain (base64_encode hsk_cert) (base64_encode cek_cert)).

Definition PrepareCsvUserData (gen_params : UnifiedAttestationGenerationParams)
    : st HS csv_attestation_user_data :=
  let nonce := gen_params.(report_hex_nonce) in
  let user_data := gen_params.(report_params).(params_hex_user_data) in
  let public_key := gen_params.(report_params).(pem_public_key) in
  let max_nonce := 2 * Z.of_nat GUEST_ATTESTATION_NONCE_SIZE in
  let max_data := 2 * Z.of_nat HASH_LEN in
  _ ← pure (YACL_ENFORCE (slen nonce <=? max_nonce)
              "report_hex_nonce length should not be greater than {}, got {}"
              [FInt max_nonce; FInt (slen nonce)]);
  _ ← pure (YACL_ENFORCE (slen user_data <=? max_data)
              "hex_user_data length should not be greater than {}, got {}"
              [FInt max_data; FInt (slen user_data)]);
  _ ← pure (YACL_ENFORCE (is_empty nonce || is_empty user_data)
              "Not support both nonce and user data" []);
  let d := zero_bytes GUEST_ATTESTATION_DATA_SIZE in
  d ← pure (if negb (is_empty nonce) then memcpy_at d 0 (HexStringToBytes nonce) else mret d);
  d ← pure (if negb (is_empty user_data) then memcpy_at d 0 (HexStringToBytes user_data)
            else mret d);
  d ← pure (if negb (is_empty public_key) then
              memcpy_at d HASH_LEN (Sha256 (HexStringToBytes public_key))
            else mret d);
  mnonce ← FillRand GUEST_ATTESTATION_NONCE_SIZE true;
  let user_data_hash := Sm3 (d ++ mnonce) in
  hash ← pure (memcpy_at (zero_bytes sz_hash_block_u) 0 user_data_hash);
  mret (mk_csv_user_data d mnonce hash).

Definition sz_csv_user_data : nat :=
  GUEST_ATTESTATION_DATA_SIZE + GUEST_ATTESTATION_NONCE_SIZE + sz_hash_block_u.

(** The part of [CsvAttestationGenerator::GenerateReport] after the device is
    open; [quote] is the page behind [p_quote]. *)
Definition csv_generate_with (gen_params : UnifiedAttestationGenerationParams)
    (user_data : csv_attestation_user_data) (csv_fd : Z) : st HS UnifiedAttestationReport :=
  let quote := zero_bytes kPageSize in
  _ ← pure (YACL_ENFORCE (bool_decide (sz_csv_user_data < sz_quote)%nat)
              "csv_attestation_report's size(got {}) should be greater than csv_attestation_user_data's size(got {})"
              [FInt (Z.of_nat sz_quote); FInt (Z.of_nat sz_csv_user_data)]);
  quote ← pure (memcpy_at quote 0 (ud_image user_data));
  let guest_mem := mk_guest_mem quote (Z.of_nat kPageSize) in
  '(ret, quote) ← host_call (ioctl_get_csv_report csv_fd guest_mem);
  _ ← enforce_zero ret "Csv ioctl GET_ATTESTATION_REPORT failed, errno = {}";
  pek_cert ← pure (read_at quote off_q_pek_cert sz_cert);
  sn ← pure (read_at quote off_q_sn SN_LEN);
  reserved2 ← pure (read_at quote off_q_reserved2 sz_q_reserved2);
  let hmac_res := HmacSm3 user_data.(ud_mnonce) (pek_cert ++ sn ++ reserved2) in
  hmac_head ← pure (read_at hmac_res 0 HASH_LEN);
  mac ← pure (read_at quote off_q_mac HASH_LEN);
  _ ← pure (YACL_ENFORCE (bool_decide (hmac_head = mac))
              "PEK cert and chip id hmac verify failed" []);
  quote ← pure (memcpy_at quote off_q_reserved2 (zero_bytes sz_q_reserved2));
  quote_bytes ← pure (read_at quote 0 sz_quote);
  anonce ← pure (read_at quote off_q_anonce 4);
  chip_id ← pure (retrieve_words (SN_LEN / 4) 0 quote off_q_sn (le_int anonce)
                    (zero_bytes SN_LEN));
  let chip_id_str := b2s chip_id in
  json_cert_chain ←
    (if String.eqb gen_params.(report_type) ReportType.kReportTypePassport then
       chain ← GetHygonCsvCollateral chip_id_str;
       pure (PB2JSON chain)
     else mret "");
  let hygon_csv_report := mk_csv_report (base64_encode quote_bytes) json_cert_chain chip_id_str in
  json_report ← pure (PB2JSON hygon_csv_report);
  mret (mk_report kReportVersion gen_params.(report_type) Platform.kPlatformCsv json_report).

Definition csv_GenerateReport (gen_params : UnifiedAttestationGenerationParams)
    : st HS UnifiedAttestationReport :=
  _ ← pure (check_report_type gen_params);
  _ ← pure (YACL_ENFORCE (bool_decide (sz_quote <= kPageSize)%nat)
              "csv report size should not be greater than PAGESIZE({})"
              [FInt (Z.of_nat kPageSize)]);
  user_data ← PrepareCsvUserData gen_params;
  csv_fd ← open_file kCsvDevice;
  _ ← pure (YACL_ENFORCE (0 <=? csv_fd) "Fail to open {}" [FStr kCsvDevice]);
  on_scope_exit (close_file csv_fd) (csv_generate_with gen_params user_data csv_fd).
End Model.

(** ** Properties *)

Section Facts.
Context `{AL : AbslLaws} `{HsL : HashesLaws} `{CL : CppcodecLaws}.
Context `{JR : ProtoJsonLaws HygonCsvReport} `{JC : ProtoJsonLaws HygonCsvCertChain}.
Context `{Host} `{RaL : RandLaws} `{HL : HygonLaws}.

Lemma clean_GetHygonCsvCollateral chip : clean (GetHygonCsvCollateral chip).
Proof. unfold GetHygonCsvCollateral. solve_clean. Qed.

Lemma clean_PrepareCsvUserData gp : clean (PrepareCsvUserData gp).
Proof. unfold PrepareCsvUserData. solve_clean. Qed.

#[local] Hint Resolve clean_GetHygonCsvCollateral clean_PrepareCsvUserData clean_enforce_zero : trustflow.

Lemma clean_csv_generate_with gp u fd : clean (csv_generate_with gp u fd).
Proof. unfold csv_generate_with. solve_clean. Qed.

Lemma clean_csv_GenerateReport gp : clean (csv_GenerateReport gp).
Proof.
  unfold csv_GenerateReport.
  do 2 (apply clean_bind; [apply clean_pure|]; intros _).
  apply clean_bind; [apply clean_PrepareCsvUserData|]. intros u.
  apply (clean_open kCsvDevice (fun fd => YACL_ENFORCE (0 <=? fd) "Fail to open {}" [FStr kCsvDevice])
           (csv_generate_with gp u)).
  - intros fd Hfd. by apply YACL_ENFORCE_true, Z.leb_le.
  - intros fd Hfd. rewrite YACL_ENFORCE_false; [done|]. by apply Z.leb_gt.
  - intros fd. apply clean_csv_generate_with.
Qed.

(** However [GenerateReport] of the CSV generator ends, by returning or by
    an exception, the device file it opened is closed. *)
Theorem csv_GenerateReport_releases gp (h : host_state) :
  defined (csv_GenerateReport gp h).1 ->
  (csv_GenerateReport gp h).2.(h_fds) = h.(h_fds) /\
  (csv_GenerateReport gp h).2.(h_live) = h.(h_live).
Proof. apply clean_csv_GenerateReport. Qed.

(** What the CSV generator accepts: its nonces are shorter. *)
Definition csv_params_fit (gp : UnifiedAttestationGenerationParams) : Prop :=
  slen gp.(report_hex_nonce) <= 2 * Z.of_nat GUEST_ATTESTATION_NONCE_SIZE /\
  slen gp.(report_params).(params_hex_user_data) <= 64 /\
  (gp.(report_hex_nonce) = "" \/ gp.(report_params).(params_hex_user_data) = "").

#[global] Instance csv_params_fit_dec gp : Decision (csv_params_fit gp).
Proof. unfold csv_params_fit. apply _. Defined.

Lemma csv_params_fit_fit gp : csv_params_fit gp -> params_fit gp.
Proof.
  intros (Hn & Hu & Ho). destruct guest_sizes as (_ & _ & Hs & _). split; [|done]. lia.
Qed.

Lemma PrepareCsvUserData_fits gp h : csv_params_fit gp ->
  exists mnonce g, length mnonce = GUEST_ATTESTATION_NONCE_SIZE /\
    let d := data_half gp ++ key_half gp in
    PrepareCsvUserData gp h =
      (Ok (mk_csv_user_data d mnonce (Sm3 (d ++ mnonce))),
       mk_host h.(h_fds) h.(h_live) h.(h_dev) g).
Proof.
  intros Hf. pose proof (csv_params_fit_fit gp Hf) as Hfit. destruct Hf as (Hn & Hu & Ho).
  pose proof (length_data_half gp Hfit) as Hdh.
  destruct guest_sizes as (H32 & H64 & Hns & Hhb & _). unfold PrepareCsvUserData.
  rewrite H32, H64, Hhb.
  rewrite (pure_bind_step _ _ _ tt) by (by apply YACL_ENFORCE_true, Z.leb_le).
  rewrite (pure_bind_step _ _ _ tt) by (by apply YACL_ENFORCE_true, Z.leb_le).
  rewrite (pure_bind_step _ _ _ tt)
    by (apply YACL_ENFORCE_true; by rewrite orb_true_iff, !is_empty_true).
  destruct (fill_front _ _ (proj1 Hfit) Hu Ho) as (d1 & E1 & E2).
  rewrite (pure_bind_step _ _ _ _ E1), (pure_bind_step _ _ _ _ E2). fold (data_half gp).
  rewrite (pure_bind_step _ _ _ (data_half gp ++ key_half gp)).
  2: { unfold key_half. destruct (is_empty gp.(report_params).(pem_public_key)); cbn [negb]; [done|].
       apply memcpy_back; [done|apply length_Sha256]. }
  destruct (RandBytes GUEST_ATTESTATION_NONCE_SIZE true h.(h_rng)) as [mnonce g] eqn:Er.
  rewrite (st_bind_step _ _ _ mnonce (mk_host h.(h_fds) h.(h_live) h.(h_dev) g))
    by (unfold FillRand; by rewrite Er).
  exists mnonce, g. split.
  { pose proof (length_RandBytes GUEST_ATTESTATION_NONCE_SIZE true h.(h_rng)) as Hl. by rewrite Er in Hl. }
  set (d := data_half gp ++ key_half gp).
  rewrite (pure_bind_step _ _ _ (Sm3 (d ++ mnonce))); [done|].
  rewrite <- (app_nil_r (zero_bytes 32)), memcpy_at_head by apply length_Sm3. by rewrite app_nil_r.
Qed.

Lemma PrepareCsvUserData_unfit gp h :
  ~ csv_params_fit gp -> is_throw (PrepareCsvUserData gp h).1 = true.
Proof.
  intros Hno. destruct guest_sizes as (H32 & _). unfold PrepareCsvUserData. rewrite H32.
  rewrite pure_enforce_bind. destruct (Z.leb_spec (slen gp.(report_hex_nonce))
    (2 * Z.of_nat GUEST_ATTESTATION_NONCE_SIZE)) as [Hn|Hn]; [|done].
  rewrite pure_enforce_bind.
  destruct (Z.leb_spec (slen gp.(report_params).(params_hex_user_data)) (2 * Z.of_nat 32)) as [Hu|Hu];
    [|done].
  rewrite pure_enforce_bind.
  destruct (is_empty gp.(report_hex_nonce) || is_empty gp.(report_params).(params_hex_user_data)) eqn:E;
    [|done].
  destruct Hno. rewrite orb_true_iff, !is_empty_true in E. split; [done|]. split; [lia|done].
Qed.

(** The two certificates have the sizes the verifier asks for. *)
Lemma GetHygonCsvCollateral_Ok chip h c h' :
  GetHygonCsvCollateral chip h = (Ok c, h') ->
  exists hsk cek, c = mk_cert_chain (base64_encode hsk) (base64_encode cek) /\
    length hsk = sz_hsk /\ length cek = sz_cert.
Proof.
  unfold GetHygonCsvCollateral. intros Hc. inv_st.
  repeat match goal with H : read_at _ _ _ = Ok _ |- _ => apply read_at_Ok in H as [? ->] end.
  eexists _, _. split; [done|]. split; by apply length_slice.
Qed.

(** What the device gets for the user data [u]. *)
Definition csv_page (u : csv_attestation_user_data) : csv_guest_mem :=
  mk_guest_mem (splice (zero_bytes kPageSize) 0 (ud_image u)) (Z.of_nat kPageSize).

(** What a generated report holds: [page] is the page the device returned for
    the user data [u]. *)
Lemma csv_GenerateReport_Ok gp h r h' :
  csv_GenerateReport gp h = (Ok r, h') ->
  exists u page fd d d' cj chip json,
    csv_params_fit gp /\ u.(ud_data) = data_half gp ++ key_half gp /\
    u.(ud_hash) = Sm3 (u.(ud_data) ++ u.(ud_mnonce)) /\
    ioctl_get_csv_report fd (csv_page u) d = ((0, page), d') /\
    (sz_quote <= length page)%nat /\
    take HASH_LEN (HmacSm3 u.(ud_mnonce) (slice page off_q_pek_cert sz_cert ++
      slice page off_q_sn SN_LEN ++ slice page off_q_reserved2 sz_q_reserved2))
      = slice page off_q_mac HASH_LEN /\
    PB2JSON (mk_csv_report (base64_encode
      (take sz_quote (splice page off_q_reserved2 (zero_bytes sz_q_reserved2)))) cj chip) = Ok json /\
    (gp.(report_type) = ReportType.kReportTypePassport ->
       exists (c : HygonCsvCertChain) hsk cek, PB2JSON c = Ok cj /\
         c = mk_cert_chain (base64_encode hsk) (base64_encode cek) /\
         length hsk = sz_hsk /\ length cek = sz_cert) /\
    r = mk_report kReportVersion gp.(report_type) Platform.kPlatformCsv json.
Proof.
  intros Hg. unfold csv_GenerateReport in Hg. inv_st.
  match goal with H : PrepareCsvUserData gp ?s = (Ok ?u, _) |- _ => rename H into Hprep, u into u end.
  assert (csv_params_fit gp) as Hfit.
  { destruct (decide (csv_params_fit gp)) as [|Hno]; [done|].
    apply PrepareCsvUserData_unfit with (h := h) in Hno. by rewrite Hprep in Hno. }
  destruct (PrepareCsvUserData_fits gp h Hfit) as (mn & g & Hmn & Hp). cbn zeta in Hp.
  rewrite Hprep in Hp. injection Hp as -> ->.
  match goal with H : on_scope_exit _ _ _ = _ |- _ => apply on_scope_exit_Ok in H as [h1 Hw]; clear H end.
  unfold csv_generate_with in Hw. inv_st.
  match goal with H : (let '(_, _) := ?x in _) _ = _ |- _ => destruct x as [ret page]; rename H into Hw end.
  inv_st.
  repeat match goal with
  | H : memcpy_at _ _ _ = Ok _ |- _ => apply memcpy_at_Ok in H as [? ->]
  | H : read_at _ _ _ = Ok _ |- _ => apply read_at_Ok in H as [? ->]
  | H : bool_decide _ = true |- _ => apply bool_decide_eq_true in H
  | H : enforce_zero _ _ _ = _ |- _ => apply enforce_zero_Ok in H; subst
  end.
  match goal with H : host_call (ioctl_get_csv_report ?f ?p) ?s0 = _ |- _ =>
    unfold host_call in H; destruct (ioctl_get_csv_report f p s0.(h_dev)) as [[r0 page0] d0] eqn:Hio;
    injection H as -> -> _ end.
  match goal with H : (if String.eqb _ _ then _ else _) _ = (Ok ?c, _) |- _ => rename H into Hcol, c into cj end.
  match goal with H : PB2JSON (mk_csv_report _ _ ?c) = Ok ?j |- _ => rename H into Hjson; set (chip := c) in *; rename j into json end.
  eexists _, page, _, _, _, cj, chip, json.
  split; [done|]. split; [|split; [|split; [exact Hio|]]]; [done|done|].
  split. { rewrite length_splice in * by done. lia. }
  split; [unfold slice in *; rewrite drop_0 in *; done|].
  split. { unfold slice in Hjson. by rewrite drop_0 in Hjson. }
  split; [|done]. intros Hty. rewrite Hty in Hcol. cbn in Hcol. inv_st.
  match goal with H : GetHygonCsvCollateral _ _ = _ |- _ => apply GetHygonCsvCollateral_Ok in H as (hsk & cek & -> & ? & ?) end.
  by eexists _, hsk, cek.
Qed.

(** User data of a CSV report: within the limits (nonces of at most
    [GUEST_ATTESTATION_NONCE_SIZE] bytes, user data of at most 32, not both) the
    64 bytes of data are the padded user data (or nonce) and the key hash, the
    device nonce is fresh random bytes and the hash is the SM3 of both; no copy
    leaves its array.  Anything else is refused. *)
Theorem csv_user_data_layout gp (h : host_state) :
  if decide (csv_params_fit gp)
  then exists mnonce g, length mnonce = GUEST_ATTESTATION_NONCE_SIZE /\
    let d := data_half gp ++ key_half gp in
    length d = GUEST_ATTESTATION_DATA_SIZE /\
    PrepareCsvUserData gp h =
      (Ok (mk_csv_user_data d mnonce (Sm3 (d ++ mnonce))),
       mk_host h.(h_fds) h.(h_live) h.(h_dev) g)
  else is_throw (PrepareCsvUserData gp h).1 = true.
Proof.
  case_decide as Hf; [|by apply PrepareCsvUserData_unfit].
  destruct (PrepareCsvUserData_fits gp h Hf) as (mn & g & Hmn & Hp). exists mn, g.
  split; [done|]. split; [|done]. destruct guest_sizes as (_ & -> & _).
  rewrite length_app, length_key_half, length_data_half; [done|by apply csv_params_fit_fit].
Qed.

(** C34. From generation to verification: a passport report of the CSV generator
    passes every check of the CSV verifier's [Init].  The quote in it is the
    page the device returned for the bound user data, with [reserved2] zeroed,
    and the PEK certificate and chip id on that page carried a correct HMAC
    under the fresh device nonce. *)
Theorem csv_generate_init gp (h : host_state) r h' :
  gp.(report_type) = ReportType.kReportTypePassport ->
  csv_GenerateReport gp h = (Ok r, h') ->
  exists v u page fd d d',
    CsvInit r = Ok v /\ csv_sized v /\
    u.(ud_data) = data_half gp ++ key_half gp /\
    u.(ud_hash) = Sm3 (u.(ud_data) ++ u.(ud_mnonce)) /\
    ioctl_get_csv_report fd (csv_page u) d = ((0, page), d') /\
    take off_q_reserved2 v.(csv_quote) = take off_q_reserved2 page /\
    slice v.(csv_quote) off_q_reserved2 sz_q_reserved2 = zero_bytes sz_q_reserved2 /\
    take HASH_LEN (HmacSm3 u.(ud_mnonce) (slice page off_q_pek_cert sz_cert ++
      slice page off_q_sn SN_LEN ++ slice page off_q_reserved2 sz_q_reserved2))
      = slice page off_q_mac HASH_LEN.
Proof.
  intros Hty Hg. apply csv_GenerateReport_Ok in Hg as
    (u & page & fd & d & d' & cj & chip & json & Hfit & Hud & Hh & Hio & Hlen & Hmac & Hj & Hc & ->).
  destruct (Hc Hty) as (c & hsk & cek & Hcj & -> & Hhsk & Hcek). rewrite Hty.
  pose proof quote_tail_in as Ht.
  set (quote := take sz_quote _) in Hj.
  assert (length quote = sz_quote) as Hq.
  { subst quote. rewrite length_take, length_splice; unfold zero_bytes; rewrite ?length_replicate; lia. }
  exists (mk_csv (mk_report kReportVersion ReportType.kReportTypePassport Platform.kPlatformCsv json)
            quote hsk cek), u, page, fd, d, d'. split.
  { unfold CsvInit. cbn [str_report_version str_report_type report_tee_platform json_report].
    rewrite !bind_enforce by done. rewrite (PB2JSON_JSON2PB _ _ Hj), bind_Ok_l.
    cbn [csv_b64_quote json_cert_chain]. rewrite base64_decode_encode. cbn [call].
    rewrite bind_Ok_l, bind_enforce_dec by done.
    rewrite (PB2JSON_JSON2PB _ _ Hcj), bind_Ok_l. cbn [b64_hsk_cert b64_cek_cert].
    rewrite !base64_decode_encode. cbn [call]. rewrite bind_Ok_l, bind_enforce_dec by done.
    by rewrite bind_Ok_l, bind_enforce_dec by done. }
  split; [done|]. split; [done|]. split; [done|]. split; [done|]. cbn [csv_quote]. subst quote.
  assert (length (zero_bytes sz_q_reserved2) = sz_q_reserved2) as Hz by apply length_replicate.
  split; [|split; [|done]].
  - rewrite take_take, Nat.min_l by lia. unfold splice. apply take_app_length'. rewrite length_take. lia.
  - rewrite slice_take by lia. rewrite <- Hz at 2. apply slice_splice_same. lia.
Qed.
End Facts.

(** ** Witnesses *)

Module CsvGeneratorWitness.
#[local] Existing Instances sample_absl sample_absl_laws sample_hashes sample_hashes_laws
  sample_cppcodec sample_cppcodec_laws sample_rand sample_rand_laws sample_hygon sample_hygon_laws.
#[local] Instance host : Host := sample_host 0 (b2s (zero_bytes 1024)).

Definition gp : UnifiedAttestationGenerationParams :=
  mk_gen_params "" ReportType.kReportTypePassport "0a0b" (mk_report_params "" "").
Definition data : bytes := data_half gp ++ key_half gp.
Definition quote : bytes :=
  take 948 (splice (zero_bytes 948) 0
    (ud_image (mk_csv_user_data data (zero_bytes 16) (Sm3 (data ++ zero_bytes 16))))).
Definition chain : HygonCsvCertChain :=
  mk_cert_chain (hex_encode (zero_bytes 512)) (hex_encode (zero_bytes 512)).

#[local] Instance j1 : ProtoJson HygonCsvReport :=
  sample_json [("r", mk_csv_report (hex_encode quote) "c" (b2s (zero_bytes 64)))].
#[local] Instance j2 : ProtoJson HygonCsvCertChain := sample_json [("c", chain)].
#[local] Instance j1_laws : ProtoJsonLaws HygonCsvReport.
Proof. apply sample_json_laws, NoDup_singleton. Qed.
#[local] Instance j2_laws : ProtoJsonLaws HygonCsvCertChain.
Proof. apply sample_json_laws, NoDup_singleton. Qed.

Definition h0 : host_state := mk_host [] 0 tt tt.
Definition report : UnifiedAttestationReport :=
  mk_report kReportVersion ReportType.kReportTypePassport Platform.kPlatformCsv "r".

Lemma csv_run : csv_GenerateReport gp h0 = (Ok report, h0).
Proof. vm_compute. reflexivity. Qed.

Lemma csv_GenerateReport_releases_witness : (csv_GenerateReport gp h0).2.(h_fds) = [].
Proof.
  pose proof (csv_GenerateReport_releases gp h0) as Hr. rewrite csv_run in Hr. rewrite csv_run.
  exact (proj1 (Hr I)).
Defined.

Lemma csv_user_data_layout_witness : is_ok (PrepareCsvUserData gp h0).1 = true.
Proof.
  pose proof (csv_user_data_layout gp h0) as Hl. rewrite decide_True in Hl.
  - destruct Hl as (mn & g & _ & _ & Hp). by rewrite Hp.
  - split; [by vm_compute|]. split; [by vm_compute|by right].
Defined.

Lemma csv_generate_init_witness : exists v, CsvInit report = Ok v /\ csv_sized v.
Proof.
  destruct (csv_generate_init gp h0 report h0) as (v & _ & _ & _ & _ & _ & Hv & Hs & _);
    [reflexivity|exact csv_run|]. by exists v.
Defined.
End CsvGeneratorWitness.
