(* ===== verification/GeneratorWrapper.v ===== *)
(** * Generator interface, selection and C API

    [trustflow/attestation/generation/interface] and
    [trustflow/attestation/generation/wrapper]. *)

From S2P Require Import Prelude CppStd External Common Samples Verifier Dcap Sgx2Verifier TdxVerifier Hygon CsvVerifier VerifierWrapper YaclCrypto Host IntelGenerator CsvGenerator.

(** The macros a build defines. *)
Record build_flags := mk_build_flags {
  TEE_TYPE_SGX2 : bool;
  TEE_TYPE_TDX : bool;
  TEE_TYPE_CSV : bool
}.

(** [std::unique_ptr<AttestationGenerator>] *)
Inductive any_generator := GSgx2 | GTdx | GCsv.

Definition CreateAttestationGenerator (b : build_flags) : outcome any_generator :=
  if b.(TEE_TYPE_SGX2) then mret GSgx2
  else if b.(TEE_TYPE_TDX) then mret GTdx
  else if b.(TEE_TYPE_CSV) then mret GCsv
  else YACL_THROW "Unsupported TEE type!" [].

Section Model.
Context `{Fmt} `{Absl} `{Hashes} `{Cppcodec}.
Context `{ProtoJson UnifiedAttestationGenerationParams} `{ProtoJson UnifiedAttestationReport}
        `{ProtoJson DcapReport} `{ProtoJson IntelTdxReport} `{ProtoJson SgxQlQveCollateral}
        `{ProtoJson HygonCsvReport} `{ProtoJson HygonCsvCertChain}.
Context `{Host} `{Rand} `{ReportDataSizes} `{HygonLayout}.

Abbreviation HS := host_state.

(** The virtual call. *)
Definition GenerateReport (g : any_generator) (gp : UnifiedAttestationGenerationParams)
    : st HS UnifiedAttestationReport :=
  match g with
  | GSgx2 => sgx2_GenerateReport gp
  | GTdx => tdx_GenerateReport gp
  | GCsv => csv_GenerateReport gp
  end.

Definition GenerateReportJson (g : any_generator) (gen_params_json : string) : st HS string :=
  gen_params ← pure (JSON2PB (T := UnifiedAttestationGenerationParams) gen_params_json);
  report ← GenerateReport g gen_params;
  pure (PB2JSON report).

Definition GetAttestationReportSize : Z * Z := (0, kReportMaxSize).

(** The [try] block; a null pointer is [None]. *)
Definition generate_body (b : build_flags) (params_buf : option bytes) (params_len : Z)
    (report_buf : option bytes) (report_len : Z) : st HS (bytes * Z) :=
  '(params, mem) ← pure
    (match params_buf, report_buf with
     | Some p, Some m => Ok (p, m)
     | _, _ => Throw (mk_exn EnforceNotMet "params_buf or report_buf is null" [])
     end);
  report_params ← pure (string_of_ptr params params_len);
  gen_params ← pure (JSON2PB (T := UnifiedAttestationGenerationParams) report_params);
  generator ← pure (CreateAttestationGenerator b);
  report ← GenerateReport generator gen_params;
  report_json ← pure (PB2JSON report);
  let size := slen report_json in
  _ ← pure (YACL_ENFORCE (size <=? report_len)
              "report_len(got {}) should not be less than report json size({})"
              [FInt report_len; FInt size]);
  mem ← pure (memcpy_at mem 0 (take (Z.to_nat (u32 size)) (s2b report_json)));
  mret (mem, u32 size).

(** Returns the code, the report buffer with its length, [msg] and [details]. *)
Definition GenerateAttestationReport (b : build_flags) (params_buf : option bytes) (params_len : Z)
    (report_buf : option bytes) (report_len : Z) (msg details : out_buf)
    : st HS (Z * (option bytes * Z) * out_buf * out_buf) := fun h =>
  match generate_body b params_buf params_len report_buf report_len h with
  | (Ok (mem, n), h) =>
      (('(code, msg, details) ← c_return (mret (0, msg, details));
        mret (code, (Some mem, n), msg, details)), h)
  | (Throw ex, h) =>
      (('(code, msg, details) ← c_return (c_catch ex msg details);
        mret (code, (report_buf, report_len), msg, details)), h)
  | (UB w, h) => (UB w, h)
  end.

(** With buffers of the lengths given, only the generator can go wrong. *)
Lemma generate_body_UB b params plen mem rlen h w h1 :
  0 <= plen <= len params -> 0 <= rlen < 2 ^ 32 -> rlen <= len mem ->
  generate_body b (Some params) plen (Some mem) rlen h = (UB w, h1) ->
  exists gp g, JSON2PB (b2s (take (Z.to_nat plen) params)) = Ok gp /\
    CreateAttestationGenerator b = Ok g /\ ~ defined (GenerateReport g gp h).1.
Proof.
  intros Hpl Hr Hm Hg. unfold generate_body in Hg.
  rewrite (pure_bind_step _ _ _ (params, mem)) in Hg by done.
  rewrite (pure_bind_step _ _ _ _ (string_of_ptr_in _ _ Hpl)) in Hg.
  unfold mbind, st_bind, pure in Hg.
  pose proof (JSON2PB_defined (T := UnifiedAttestationGenerationParams)
    (b2s (take (Z.to_nat plen) params))) as Hd1.
  destruct (JSON2PB _) as [gp|e|w1] eqn:Ej; [|done|done].
  destruct (CreateAttestationGenerator b) as [g|e|w2] eqn:Eg; [|done|].
  2: { unfold CreateAttestationGenerator in Eg. by repeat case_match. }
  destruct (GenerateReport g gp h) as [[r|e|w3] h2] eqn:Er; [|done|].
  2: { exists gp, g. split; [done|]. split; [done|]. rewrite Er. by intros []. }
  pose proof (PB2JSON_defined r) as Hd2. destruct (PB2JSON r) as [json|e|w3]; [|done|done].
  pose proof (length_s2b json) as Hl. unfold slen, len in *.
  destruct (Z.leb_spec (Z.of_nat (String.length json)) rlen) as [Hle|]; [|done].
  cbn [YACL_ENFORCE] in Hg. rewrite u32_small, take_ge, memcpy_at_in in Hg by lia. done.
Qed.

(** Every run of the C function with buffers of the lengths given. *)
Lemma GenerateAttestationReport_cases b params plen mem rlen msg details h :
  0 <= plen <= len params -> 0 <= rlen < 2 ^ 32 -> rlen <= len mem ->
  buf_ok msg -> buf_ok details ->
  match generate_body b (Some params) plen (Some mem) rlen h with
  | (Ok _, h1) => exists gp g r json msg' details',
      JSON2PB (b2s (take (Z.to_nat plen) params)) = Ok gp /\
      CreateAttestationGenerator b = Ok g /\ GenerateReport g gp h = (Ok r, h1) /\
      PB2JSON r = Ok json /\ slen json <= rlen /\
      GenerateAttestationReport b (Some params) plen (Some mem) rlen msg details h =
        (Ok (0, (Some (s2b json ++ drop (String.length json) mem), slen json), msg', details'), h1)
  | (Throw ex, h1) => exists c msg' details', c ∈ [1; 6; 18] /\
      (0 < msg.(ob_len) -> holds_text msg msg' (what ex)) /\
      GenerateAttestationReport b (Some params) plen (Some mem) rlen msg details h =
        (Ok (c, (Some mem, rlen), msg', details'), h1)
  | (UB _, _) => exists gp g, JSON2PB (b2s (take (Z.to_nat plen) params)) = Ok gp /\
      CreateAttestationGenerator b = Ok g /\ ~ defined (GenerateReport g gp h).1
  end.
Proof.
  intros Hpl Hr Hm Bm Bd. unfold GenerateAttestationReport.
  destruct (generate_body b (Some params) plen (Some mem) rlen h) as [[[mem' n]|ex|w] h1] eqn:Hg.
  - unfold generate_body in Hg. apply st_bind_Ok in Hg as ([p m] & h2 & Hpm & Hg).
    injection Hpm as <- <- <-. inv_st.
    match goal with H : string_of_ptr _ _ = Ok _ |- _ => rename H into Hs end.
    unfold string_of_ptr in Hs. inv_ok.
    match goal with H : read_at _ _ _ = Ok _ |- _ => apply read_at_Ok in H as [Hp ->] end.
    unfold slice in *. rewrite drop_0 in *.
    match goal with H : (_ <=? _) = true |- _ => apply Z.leb_le in H as Hsz end.
    match goal with H : memcpy_at _ _ _ = Ok _ |- _ => apply memcpy_at_Ok in H as [Hfit ->] end.
    match goal with H : PB2JSON _ = Ok ?j |- _ => rename j into json end.
    destruct (c_ok_texts msg details Bm Bd) as (msg' & details' & E).
    eexists _, _, _, json, msg', details'.
    split; [eassumption|]. split; [eassumption|]. split; [eassumption|]. split; [eassumption|].
    split; [done|]. rewrite E.
    pose proof (length_s2b json) as Hl. unfold slen in *.
    rewrite u32_small, take_ge in * by lia. cbn [mbind outcome_bind mret outcome_ret].
    unfold splice. by rewrite take_0, Hl.
  - destruct (c_throw_texts ex msg details Bm Bd) as (msg' & details' & E & Ht & _).
    exists (status_of_exn ex).(code), msg', details'. split; [apply status_of_exn_code|].
    split; [done|]. by rewrite E.
  - by apply (generate_body_UB b params plen mem rlen h w h1).
Qed.

(** C35. The C function for generation: it lets no exception out; when the
    report is generated and fits, the buffer holds its JSON, without a NUL, and
    the length is its size; when it does not fit or anything throws, the code is
    1, 6 or 18, the report buffer and its length are as the caller passed them,
    and the message buffer, unless the caller gave it no length, holds the
    NUL-terminated message.  With lengths that
    are those of the buffers, only the generator itself can reach undefined
    behaviour. *)
Theorem GenerateAttestationReport_output b params plen mem rlen msg details h :
  0 <= plen <= len params -> 0 <= rlen < 2 ^ 32 -> rlen <= len mem ->
  buf_ok msg -> buf_ok details ->
  match generate_body b (Some params) plen (Some mem) rlen h with
  | (Ok _, h1) => exists gp g r json msg' details',
      JSON2PB (b2s (take (Z.to_nat plen) params)) = Ok gp /\
      CreateAttestationGenerator b = Ok g /\ GenerateReport g gp h = (Ok r, h1) /\
      PB2JSON r = Ok json /\ slen json <= rlen /\
      GenerateAttestationReport b (Some params) plen (Some mem) rlen msg details h =
        (Ok (0, (Some (s2b json ++ drop (String.length json) mem), slen json), msg', details'), h1)
  | (Throw ex, h1) => exists c msg' details', c ∈ [1; 6; 18] /\
      (0 < msg.(ob_len) -> holds_text msg msg' (what ex)) /\
      GenerateAttestationReport b (Some params) plen (Some mem) rlen msg details h =
        (Ok (c, (Some mem, rlen), msg', details'), h1)
  | (UB _, _) => exists gp g, JSON2PB (b2s (take (Z.to_nat plen) params)) = Ok gp /\
      CreateAttestationGenerator b = Ok g /\ ~ defined (GenerateReport g gp h).1
  end.
Proof. apply GenerateAttestationReport_cases. Qed.
End Model.

(** ** Witnesses *)

Module GeneratorWitness.
#[local] Existing Instances sample_fmt sample_absl sample_hashes sample_cppcodec sample_rand
  sample_report_data sample_hygon.
#[local] Instance host : Host := sample_host 0 "".
(** Every message is printed and parsed as one text. *)
#[local] Instance json_of {T} `{Inhabited T} : ProtoJson T :=
  {| MessageToJsonString _ := inr "{}"; JsonStringToMessage _ := inr inhabitant |}.

Definition gp : UnifiedAttestationGenerationParams :=
  mk_gen_params "" ReportType.kReportTypePassport "" (mk_report_params "" "").
#[local] Instance i1 : Inhabited UnifiedAttestationGenerationParams := populate gp.
#[local] Instance i2 : Inhabited UnifiedAttestationReport := populate (mk_report "" "" "" "").
#[local] Instance i3 : Inhabited DcapReport := populate (mk_dcap_report "" "").
#[local] Instance i4 : Inhabited IntelTdxReport := populate (mk_tdx_report "" "").
#[local] Instance i5 : Inhabited SgxQlQveCollateral := populate default_collateral.
#[local] Instance i6 : Inhabited HygonCsvReport := populate (mk_csv_report "" "" "").
#[local] Instance i7 : Inhabited HygonCsvCertChain := populate (mk_cert_chain "" "").

Definition buf : out_buf := mk_out_buf (zero_bytes 8) 8.
Definition h0 : host_state := mk_host [] 0 tt tt.

Lemma GenerateAttestationReport_output_witness : exists m d,
  GenerateAttestationReport (mk_build_flags true false false) (Some (s2b "p")) 1
    (Some (zero_bytes 4)) 4 buf buf h0 =
  (Ok (0, (Some (s2b "{}" ++ zero_bytes 2), 2), m, d), h0).
Proof.
  assert (buf_ok buf) as Hb by (by vm_compute).
  pose proof (GenerateAttestationReport_output (mk_build_flags true false false) (s2b "p") 1
    (zero_bytes 4) 4 buf buf h0 ltac:(by vm_compute) ltac:(by vm_compute) ltac:(by vm_compute)
    Hb Hb) as Ho.
  assert (generate_body (mk_build_flags true false false) (Some (s2b "p")) 1
            (Some (zero_bytes 4)) 4 h0 = (Ok (s2b "{}" ++ zero_bytes 2, 2), h0)) as E
    by (vm_compute; reflexivity).
  rewrite E in Ho. destruct Ho as (g1 & g2 & r & json & m & d & Ho).
  destruct Ho as (E1 & E2 & E3 & Hj & E4 & Hr).
  injection Hj as <-. exists m, d. exact Hr.
Defined.
End GeneratorWitness.
