(* ===== verification/SampleProgram.v ===== *)
(** * The sample program

    [trustflow/attestation/sample/generation/main.cc] makes a report through the
    C++ class and through the C functions of [generation/wrapper]. *)

From S2P Require Import Prelude CppStd External Common Samples Verifier Dcap Sgx2Verifier TdxVerifier Hygon CsvVerifier VerifierWrapper YaclCrypto Host IntelGenerator CsvGenerator GeneratorWrapper.

(** The text of a [char*] that is printed. *)
Definition c_text (mem : bytes) : outcome string :=
  if decide (strlen mem < length mem)%nat then Ok (b2s (take (strlen mem) mem))
  else UB "a text without NUL".

Section Model.
Context `{Fmt} `{Absl} `{Hashes} `{Cppcodec}.
Context `{ProtoJson UnifiedAttestationGenerationParams} `{ProtoJson UnifiedAttestationReport}
        `{ProtoJson DcapReport} `{ProtoJson IntelTdxReport} `{ProtoJson SgxQlQveCollateral}
        `{ProtoJson HygonCsvReport} `{ProtoJson HygonCsvCertChain}.
Context `{Host} `{Rand} `{ReportDataSizes} `{HygonLayout}.

Abbreviation HS := host_state.

Definition sample_params : UnifiedAttestationGenerationParams :=
  mk_gen_params "" "Passport" "" (mk_report_params (BytesToHexString (s2b "user_data")) "").

(** From the buffers on. *)
Definition sample_c_api (b : build_flags) (params_buf : string) (report_len : Z) : st HS unit :=
  let report_buf := zero_bytes (Z.to_nat report_len) in
  let msg := mk_out_buf (zero_bytes 512) 512 in
  let details := mk_out_buf (zero_bytes 4096) 4096 in
  '(code, (report_buf, report_len), msg, details) ←
    GenerateAttestationReport b (Some (s2b params_buf ++ [Byte.x00])) (u32 (slen params_buf))
      (Some report_buf) report_len msg details;
  _ ← pure
    (if negb (code =? ErrorCode_int kOk) then
       msg ← c_text msg.(ob_mem);
       details ← c_text details.(ob_mem);
       Throw (mk_exn EnforceNotMet "GenerateAttestationReport err: {}, msg: {}, details: {}"
                [FInt code; FStr msg; FStr details])
     else mret tt);
  _ ← pure (match report_buf with Some mem => c_text mem | None => UB "a null text" end);
  mret tt.

Definition sample_body (b : build_flags) : st HS unit :=
  generator ← pure (CreateAttestationGenerator b);
  let gen_params := sample_params in
  report ← GenerateReport generator gen_params;
  report_json ← pure (PB2JSON report);
  params_buf ← pure (PB2JSON gen_params);
  let '(code, report_len) := GetAttestationReportSize in
  _ ← pure (YACL_ENFORCE (code =? ErrorCode_int kOk) "GetAttestationReportSize err: {}" [FInt code]);
  sample_c_api b params_buf report_len.

Definition sample_main (b : build_flags) : st HS Z := fun h =>
  match sample_body b h with
  | (Ok _, h) => (Ok 0, h)
  | (Throw _, h) => (Ok (-1), h)
  | (UB w, h) => (UB w, h)
  end.
End Model.

(** ** Texts in buffers *)

Lemma c_text_nul mem i : mem !! i = Some Byte.x00 -> exists t, c_text mem = Ok t.
Proof.
  intros Hi. unfold c_text. rewrite decide_True; [by eexists|].
  pose proof (strlen_nul _ _ Hi). apply lookup_lt_Some in Hi. lia.
Qed.

Lemma end_with_nul_text b b' : end_with_nul b = Ok b' -> buf_ok b -> 0 < b.(ob_len) ->
  exists t, c_text b'.(ob_mem) = Ok t.
Proof.
  intros E Hb Hp. destruct (end_with_nul_ok b Hb) as (b1 & E1 & Hn & _).
  rewrite E in E1. injection E1 as <-. by eapply c_text_nul, Hn.
Qed.

(** What the [catch] clauses leave can be printed. *)
Lemma c_catch_texts `{Fmt} ex msg details c m d :
  c_return (c_catch ex msg details) = Ok (c, m, d) ->
  buf_ok msg -> buf_ok details -> 0 < msg.(ob_len) -> 0 < details.(ob_len) ->
  (exists t, c_text m.(ob_mem) = Ok t) /\ (exists t, c_text d.(ob_mem) = Ok t).
Proof.
  intros E Bm Bd Pm Pd. unfold c_return in E. apply bind_Ok in E as ([[c1 m1] d1] & E1 & E).
  assert (forall b s b', copy_text b s = Ok b' -> buf_ok b -> b'.(ob_len) = b.(ob_len) /\ buf_ok b') as Hcopy.
  { intros b s b' Ec [Hr Hl]. unfold copy_text in Ec. rewrite strncpy_in, bind_Ok_l in Ec by (unfold len in *; lia).
    injection Ec as <-. split; [done|]. split; [done|]. unfold len in *. cbn [ob_mem ob_len].
    rewrite app_assoc, length_app, length_strncpy_src, length_drop. lia. }
  assert (m1.(ob_len) = msg.(ob_len) /\ buf_ok m1 /\ d1.(ob_len) = details.(ob_len) /\ buf_ok d1) as (Lm & Bm1 & Ld & Bd1).
  { unfold c_catch in E1. destruct (exn_cls ex); inv_ok;
    repeat match goal with H : copy_text _ _ = Ok _ |- _ => apply Hcopy in H; [|done] end;
    repeat match goal with H : _ /\ _ |- _ => destruct H end; simplify_eq; done. }
  inv_ok. simplify_eq. rewrite <- Lm in Pm. rewrite <- Ld in Pd.
  split; eapply end_with_nul_text; eassumption.
Qed.

(** ** What the program shows *)

Section Facts.
Context `{Fmt} `{Absl} `{Hashes} `{Cppcodec}.
Context `{GL : ProtoJsonLaws UnifiedAttestationGenerationParams} `{ProtoJson UnifiedAttestationReport}
        `{ProtoJson DcapReport} `{ProtoJson IntelTdxReport} `{ProtoJson SgxQlQveCollateral}
        `{ProtoJson HygonCsvReport} `{ProtoJson HygonCsvCertChain}.
Context `{Host} `{Rand} `{ReportDataSizes} `{HygonLayout}.

(** One report of the sample, in a state of the host. *)
Definition sample_report (b : build_flags) (h : host_state) (json : string) (h' : host_state) : Prop :=
  exists g r, CreateAttestationGenerator b = Ok g /\ GenerateReport g sample_params h = (Ok r, h') /\
    PB2JSON r = Ok json.

(** The C function on the parameters of the sample, with a buffer of [size]
    bytes: it makes a report, prints it into the buffer, and the text can be
    printed; or something threw; or something undefined happened, in the
    generator or because the report fills the buffer. *)
Definition c_api_result (b : build_flags) (size : Z) (h : host_state)
    (o : outcome unit * host_state) : Prop :=
  match o with
  | (Ok _, h') => exists json, sample_report b h json h' /\ slen json <= size
  | (Throw _, _) => forall json h', sample_report b h json h' -> size < slen json
  | (UB _, h') =>
      (exists g, CreateAttestationGenerator b = Ok g /\ ~ defined (GenerateReport g sample_params h).1) \/
      (exists json, sample_report b h json h' /\ slen json = size)
  end.

Lemma sample_report_body b params plen mem size h json h' :
  JSON2PB (b2s (take (Z.to_nat plen) params)) = Ok sample_params -> 0 <= plen <= len params ->
  0 <= size < 2 ^ 32 -> size <= len mem -> sample_report b h json h' -> slen json <= size ->
  exists r, generate_body b (Some params) plen (Some mem) size h = (Ok r, h').
Proof.
  intros Hj Hpl Hs Hm (g & r & Hg & Hr & Hp) Hle. unfold generate_body.
  rewrite (pure_bind_step _ _ _ (params, mem)) by done.
  rewrite (pure_bind_step _ _ _ _ (string_of_ptr_in _ _ Hpl)), (pure_bind_step _ _ _ _ Hj).
  rewrite (pure_bind_step _ _ _ _ Hg), (st_bind_step _ _ _ _ _ Hr), (pure_bind_step _ _ _ _ Hp).
  cbn zeta. rewrite pure_enforce_bind, (proj2 (Z.leb_le _ _)) by done.
  pose proof (length_s2b json) as Hl. unfold slen, len in *.
  rewrite u32_small, take_ge, memcpy_at_in by lia. by eexists.
Qed.

Lemma sample_c_api_cases b params size h :
  PB2JSON sample_params = Ok params -> slen params < 2 ^ 32 -> 0 <= size < 2 ^ 32 ->
  c_api_result b size h (sample_c_api b params size h).
Proof.
  intros Hp Hl Hsize. unfold sample_c_api. set (mem := zero_bytes (Z.to_nat size)).
  set (msg := mk_out_buf (zero_bytes 512) 512). set (details := mk_out_buf (zero_bytes 4096) 4096).
  assert (len mem = size) as Lmem.
  { unfold len, mem, zero_bytes. rewrite length_replicate. lia. }
  assert (len (s2b params ++ [Byte.x00]) = slen params + 1) as Lp.
  { unfold len, slen. rewrite length_app, length_s2b. cbn. lia. }
  assert (0 <= slen params) as Hpos by (unfold slen; lia).
  assert (buf_ok msg /\ buf_ok details) as [Bm Bd] by (split; by vm_compute).
  assert (JSON2PB (b2s (take (Z.to_nat (slen params)) (s2b params ++ [Byte.x00]))) = Ok sample_params) as Hj.
  { rewrite take_app_length' by (unfold slen; rewrite length_s2b; lia). rewrite b2s_s2b.
    by apply PB2JSON_JSON2PB. }
  rewrite u32_small by lia. set (buf := s2b params ++ [Byte.x00]) in *.
  pose proof (GenerateAttestationReport_cases b buf (slen params) mem size msg details h
    ltac:(lia) ltac:(lia) ltac:(lia) Bm Bd) as Hc.
  unfold mbind, st_bind, pure. revert Hc.
  destruct (generate_body b (Some buf) (slen params) (Some mem) size h) as [[[m n]|ex|w] h1] eqn:Hg.
  - intros (gp & g & r & json & msg' & details' & E1 & Eg & Er & Ej & Hle & ->). cbn.
    rewrite Hj in E1. injection E1 as <-.
    assert (sample_report b h json h1) as Hr by (by exists g, r).
    destruct (c_text _) as [t|e|u] eqn:Et; cbn; [by exists json|by unfold c_text in Et; case_decide|].
    right. exists json. split; [done|]. destruct (decide (slen json = size)) as [|Hne]; [done|].
    exfalso. destruct (c_text_nul (s2b json ++ drop (String.length json) mem) (String.length json)) as [t Ht].
    { rewrite lookup_app_r, length_s2b, Nat.sub_diag, lookup_drop by (rewrite length_s2b; lia).
      unfold mem, zero_bytes. apply lookup_replicate_2. unfold slen in *. lia. }
    by rewrite Ht in Et.
  - intros (c & msg' & details' & Hcode & _ & E). rewrite E. cbn.
    unfold GenerateAttestationReport in E. rewrite Hg in E.
    apply (f_equal fst) in E. cbn [fst] in E. apply bind_Ok in E as ([[c1 m1] d1] & Ec & E).
    injection E as -> -> ->. destruct (c_catch_texts ex msg details c msg' details' Ec Bm Bd eq_refl eq_refl)
      as [[t1 ->] [t2 ->]].
    rewrite (proj2 (Z.eqb_neq c _)) by (intros ->; rewrite !elem_of_cons, elem_of_nil in Hcode; cbn in Hcode; lia). cbn.
    intros json h' Hr. apply Z.nle_gt. intros Hle.
    destruct (sample_report_body b buf (slen params) mem size h json h') as [o Ho]; [done|lia..|done|done|].
    by rewrite Ho in Hg.
  - intros (gp & g & E1 & Eg & Hu). rewrite Hj in E1. injection E1 as <-.
    unfold GenerateAttestationReport. rewrite Hg. left. by exists g.
Qed.

(** C40. The sample program ends with 0 only when both interfaces made a report
    for its parameters, one after the other, and the second fits the buffer of
    40960 bytes that the C interface asks for; it ends with 0 when they did and
    the second is shorter than that; otherwise with -1.  Nothing is thrown.  What
    is undefined is a generator's own or a report that fills the buffer, which is
    then printed without a NUL. *)
Theorem sample_main_exit b h :
  (forall params, PB2JSON sample_params = Ok params -> slen params < 2 ^ 32) ->
  match sample_main b h with
  | (Ok z, h') =>
      (z = 0 /\ exists json1 h1 json2, sample_report b h json1 h1 /\ sample_report b h1 json2 h' /\
         slen json2 <= kReportMaxSize) \/
      (z = -1 /\ forall params json1 h1 json2 h2, PB2JSON sample_params = Ok params ->
         sample_report b h json1 h1 -> sample_report b h1 json2 h2 -> kReportMaxSize < slen json2)
  | (Throw _, _) => False
  | (UB _, h') =>
      (exists g h1, CreateAttestationGenerator b = Ok g /\
         ~ defined (GenerateReport g sample_params h1).1) \/
      (exists h1 json2, sample_report b h1 json2 h' /\ slen json2 = kReportMaxSize)
  end.
Proof.
  intros Hlen. unfold sample_main, sample_body.
  destruct (CreateAttestationGenerator b) as [g|e|u] eqn:Eg.
  2: { right. split; [done|]. intros params json1 h1 json2 h2 _ (g & r & Hg & _). by rewrite Eg in Hg. }
  2: { unfold CreateAttestationGenerator in Eg. by repeat case_match. }
  rewrite (pure_bind_step _ _ _ g) by done. cbn zeta.
  destruct (GenerateReport g sample_params h) as [[r|e|u] h1] eqn:Er.
  2: { unfold mbind at 1, st_bind at 1. rewrite Er. right. split; [done|].
       intros params json1 h2 json2 h3 _ (g' & r & Hg & Hr & _). rewrite Eg in Hg. injection Hg as <-.
       by rewrite Er in Hr. }
  2: { unfold mbind at 1, st_bind at 1. rewrite Er. left. exists g, h. split; [done|]. rewrite Er. by intros []. }
  rewrite (st_bind_step _ _ _ _ _ Er).
  assert (forall json1 h2, sample_report b h json1 h2 -> PB2JSON r = Ok json1 /\ h2 = h1) as Hfirst.
  { intros json1 h2 (g' & r' & Hg & Hr & Hj). rewrite Eg in Hg. injection Hg as <-.
    rewrite Er in Hr. by injection Hr as <- <-. }
  destruct (PB2JSON r) as [json|e|u] eqn:Ej.
  2: { right. split; [done|]. intros params json1 h2 json2 h3 _ [Hbad _]%Hfirst. done. }
  2: { pose proof (PB2JSON_defined r) as Hd. by rewrite Ej in Hd. }
  rewrite (pure_bind_step _ _ _ json) by done.
  destruct (PB2JSON sample_params) as [params|e|u] eqn:Ep.
  2: { right. split; [done|]. by intros. }
  2: { pose proof (PB2JSON_defined sample_params) as Hd. by rewrite Ep in Hd. }
  rewrite (pure_bind_step _ _ _ params) by done. unfold GetAttestationReportSize.
  rewrite (pure_bind_step _ _ _ tt) by done.
  pose proof (sample_c_api_cases b params kReportMaxSize h1 Ep (Hlen _ eq_refl) ltac:(unfold kReportMaxSize; lia)) as Hc.
  destruct (sample_c_api b params kReportMaxSize h1) as [[[]|e|u] h2].
  - left. split; [done|]. destruct Hc as (json2 & Hr2 & Hle). exists json, h1, json2.
    split; [by exists g, r|]. done.
  - right. split; [done|]. intros _ json1 h3 json2 h4 _ [_ ->]%Hfirst Hr2. by eapply Hc.
  - destruct Hc as [(g' & Hg & Hu)|(json2 & Hr2 & E)]; [left|right; by exists h1, json2].
    exists g', h1. by rewrite <- Eg.
Qed.
End Facts.

(** ** Witness *)

Module SampleWitness.
#[local] Existing Instances sample_fmt sample_absl sample_hashes sample_cppcodec sample_rand
  sample_report_data sample_hygon.
#[local] Instance host : Host := sample_host 0 "".
#[local] Instance report_params_eq_dec : EqDecision UnifiedAttestationReportParams.
Proof. solve_decision. Defined.
#[local] Instance gen_params_eq_dec : EqDecision UnifiedAttestationGenerationParams.
Proof. solve_decision. Defined.
#[local] Instance j1 : ProtoJson UnifiedAttestationGenerationParams := sample_json [("P", sample_params)].
#[local] Instance j1_laws : ProtoJsonLaws UnifiedAttestationGenerationParams.
Proof. apply sample_json_laws, NoDup_singleton. Qed.
(** Every other message is printed and parsed as one text. *)
#[local] Instance json_of {T} `{Inhabited T} : ProtoJson T | 100 :=
  {| MessageToJsonString _ := inr "{}"; JsonStringToMessage _ := inr inhabitant |}.
#[local] Instance i2 : Inhabited UnifiedAttestationReport := populate (mk_report "" "" "" "").
#[local] Instance i3 : Inhabited DcapReport := populate (mk_dcap_report "" "").
#[local] Instance i4 : Inhabited IntelTdxReport := populate (mk_tdx_report "" "").
#[local] Instance i5 : Inhabited SgxQlQveCollateral := populate default_collateral.
#[local] Instance i6 : Inhabited HygonCsvReport := populate (mk_csv_report "" "" "").
#[local] Instance i7 : Inhabited HygonCsvCertChain := populate (mk_cert_chain "" "").

Definition build : build_flags := mk_build_flags true false false.
Definition h0 : host_state := mk_host [] 0 tt tt.

Lemma sample_main_exit_witness : sample_main build h0 = (Ok 0, h0) /\
  exists json1 h1 json2, sample_report build h0 json1 h1 /\ sample_report build h1 json2 h0.
Proof.
  assert (sample_main build h0 = (Ok 0, h0)) as E by (vm_compute; reflexivity).
  split; [exact E|]. pose proof (sample_main_exit build h0) as Hx. rewrite E in Hx.
  destruct Hx as [(_ & json1 & h1 & json2 & H1 & H2 & _)|[Hz _]].
  - intros params Hp. vm_compute in Hp. injection Hp as <-. by vm_compute.
  - exists json1, h1, json2. split; [exact H1|exact H2].
  - discriminate Hz.
Defined.
End SampleWitness.
