(* ===== verification/RustCrate.v ===== *)
(** * The Rust crate

    [cargo/trustflow-attestation-rs/src/lib.rs]: verification, parsing and
    generation for Rust programs, by way of the C functions of [VerifierWrapper]
    and [GeneratorWrapper].  A [&str] or [Vec<u8>] is its bytes; a panic is a
    [Throw] of class ["panic"]; [trustflow_attestation_sys] declares the C
    functions, and a call of one is a call of its model. *)

From S2P Require Import Prelude CppStd External Common Samples Verifier Dcap Sgx2Verifier TdxVerifier Hygon CsvVerifier VerifierWrapper YaclCrypto Host IntelGenerator CsvGenerator GeneratorWrapper.

(** ** What the crate uses of Rust's standard library *)

(** [Result<T, Error>] with [Error = Box<dyn Error>]: an error is its text. *)
Inductive result (A : Type) := ROk (a : A) | RErr (e : string).
Arguments ROk {A} a.
Arguments RErr {A} e.

(** [CString::new]: no NUL inside, one at the end. *)
Definition CString_new (bs : bytes) : option bytes :=
  if decide (Byte.x00 ∈ bs) then None else Some (bs ++ [Byte.x00]).

(** [&v[..n]] *)
Definition slice_to (v : bytes) (n : Z) : outcome bytes :=
  if n <=? len v then Ok (take (Z.to_nat n) v)
  else Throw (mk_exn (StdException "panic")
                "range end index {} out of range for slice of length {}" [FInt n; FInt (len v)]).

(** [std::str::from_utf8]: where the first bad sequence starts and how many bytes
    of it are bad; [None] when the text ends inside it. *)
Record Utf8Error := mk_utf8_error { valid_up_to : Z; error_len : option Z }.

Definition between (lo hi : Z) (b : Init.Byte.byte) : bool :=
  (lo <=? byte.unsigned b) && (byte.unsigned b <=? hi).

(** What may follow the first byte of a sequence of three, or of four, bytes. *)
Definition second_of_three (b0 b1 : Init.Byte.byte) : bool :=
  if between 0xE0 0xE0 b0 then between 0xA0 0xBF b1
  else if between 0xED 0xED b0 then between 0x80 0x9F b1
  else between 0x80 0xBF b1.
Definition second_of_four (b0 b1 : Init.Byte.byte) : bool :=
  if between 0xF0 0xF0 b0 then between 0x90 0xBF b1
  else if between 0xF4 0xF4 b0 then between 0x80 0x8F b1
  else between 0x80 0xBF b1.

Fixpoint run_utf8_validation (index : Z) (v : bytes) : option Utf8Error :=
  let err n := Some (mk_utf8_error index n) in
  match v with
  | [] => None
  | b0 :: v =>
      if between 0 0x7F b0 then run_utf8_validation (index + 1) v
      else if between 0xC2 0xDF b0 then
        match v with
        | [] => err None
        | b1 :: v =>
            if between 0x80 0xBF b1 then run_utf8_validation (index + 2) v else err (Some 1)
        end
      else if between 0xE0 0xEF b0 then
        match v with
        | [] => err None
        | b1 :: v =>
            if negb (second_of_three b0 b1) then err (Some 1)
            else match v with
                 | [] => err None
                 | b2 :: v => if between 0x80 0xBF b2 then run_utf8_validation (index + 3) v
                              else err (Some 2)
                 end
        end
      else if between 0xF0 0xF4 b0 then
        match v with
        | [] => err None
        | b1 :: v =>
            if negb (second_of_four b0 b1) then err (Some 1)
            else match v with
                 | [] => err None
                 | b2 :: v =>
                     if negb (between 0x80 0xBF b2) then err (Some 2)
                     else match v with
                          | [] => err None
                          | b3 :: v => if between 0x80 0xBF b3 then run_utf8_validation (index + 4) v
                                       else err (Some 3)
                          end
                 end
        end
      else err (Some 1)
  end.

Definition from_utf8 (v : bytes) : Utf8Error + string :=
  match run_utf8_validation 0 v with
  | None => inr (b2s v)
  | Some e => inl e
  end.

(** [Display] of the error. *)
Definition show_utf8_error (e : Utf8Error) : string :=
  match e.(error_len) with
  | Some n => "invalid utf-8 sequence of " +:+ to_string n +:+ " bytes from index " +:+
                to_string e.(valid_up_to)
  | None => "incomplete utf-8 byte sequence from index " +:+ to_string e.(valid_up_to)
  end.

(** ASCII text is valid. *)
Lemma from_utf8_ascii v : Forall (fun b => byte.unsigned b < 128) v -> from_utf8 v = inr (b2s v).
Proof.
  intros Hv. unfold from_utf8. assert (forall i, run_utf8_validation i v = None) as ->; [|done].
  induction Hv as [|b v Hb Hv IH]; intros i; [done|]. cbn [run_utf8_validation].
  pose proof (byte.unsigned_range b). unfold between at 1.
  rewrite (proj2 (Z.leb_le _ _)), (proj2 (Z.leb_le _ _)) by lia. apply IH.
Qed.

(** ** lib.rs *)

(** [serde_json::from_slice] at [UnifiedAttestationAttributes]. *)
Class Serde := { serde_from_slice : bytes -> string + UnifiedAttestationAttributes }.

Definition BUFFER_SIZE_IN_BYTES : Z := 8192.

(** [CString::new(s).map_err(failure)?] before the rest. *)
Definition with_cstring {M A} `{MRet M} (s failure : string) (k : bytes -> M (result A)) : M (result A) :=
  match CString_new (s2b s) with
  | None => mret (RErr failure)
  | Some c => k c
  end.

(** [vec![0; BUFFER_SIZE_IN_BYTES]] with its length, and the null pointer with
    length 0 for the details. *)
Definition msg_buffer : out_buf :=
  mk_out_buf (zero_bytes (Z.to_nat BUFFER_SIZE_IN_BYTES)) BUFFER_SIZE_IN_BYTES.
Definition no_details : out_buf := mk_out_buf [] 0.

(** The error of a failed call. *)
Definition error_text (msg : bytes) : string :=
  match from_utf8 msg with
  | inr v => v
  | inl e => "parse error msg failed, " +:+ show_utf8_error e
  end.

(** [if code != 0 { ... }] before the rest. *)
Definition check_code {A} (code : Z) (msg : out_buf) (k : outcome (result A)) : outcome (result A) :=
  if negb (code =? 0) then
    m ← slice_to msg.(ob_mem) msg.(ob_len);
    mret (RErr (error_text m))
  else k.

Definition get_attributes_max_size : result Z := ROk GetAttributesMaxSize.

Definition get_attestation_report_size (params_json_str : string) : outcome (result Z) :=
  with_cstring params_json_str "attestation_report_verify: params_json_str ffi failure" (fun _ =>
    let '(code, report_len) := GetAttestationReportSize in
    if negb (code =? 0) then mret (RErr "get_attestation_report_size failed")
    else mret (ROk report_len)).

Section Model.
Context `{Fmt} `{Absl} `{Hashes} `{Cppcodec} `{Serde}.
Context `{ProtoJson UnifiedAttestationReport} `{ProtoJson UnifiedAttestationPolicy}
        `{ProtoJson UnifiedAttestationAttributes} `{ProtoJson UnifiedAttestationGenerationParams}.
Context `{ProtoJson DcapReport} `{ProtoJson IntelTdxReport} `{ProtoJson SgxQlQveCollateral}
        `{ProtoJson HygonCsvReport} `{ProtoJson HygonCsvCertChain}.
Context `{DcapQvl} `{SgxQuote3} `{SgxAttributes} `{Report2Body} `{TdxQuote}
        `{HygonLayout} `{OpenSSL}.
Context `{Host} `{Rand} `{ReportDataSizes}.

Abbreviation HS := host_state.

Definition parse_attributes_from_report (report_json_str : string)
    : outcome (result UnifiedAttestationAttributes) :=
  with_cstring report_json_str "attestation_report_verify: report_json_str ffi failure"
    (fun c_report_json_str =>
    match get_attributes_max_size with
    | RErr e => mret (RErr e)
    | ROk attrs_len =>
        let attrs_buf := mk_out_buf (zero_bytes (Z.to_nat attrs_len)) attrs_len in
        '(code, attrs_buf, msg_buf, _) ←
          ParseAttributesFromReport c_report_json_str (u32 (slen report_json_str)) attrs_buf
            msg_buffer no_details;
        check_code code msg_buf
          (attrs ← slice_to attrs_buf.(ob_mem) attrs_buf.(ob_len);
           mret (match serde_from_slice attrs with inr a => ROk a | inl e => RErr e end))
    end).

Definition attestation_report_verify (now : Z) (report_json_str policy_json_str : string)
    : outcome (result unit) :=
  with_cstring report_json_str "attestation_report_verify: report_json_str ffi failure"
    (fun c_report_json_str =>
  with_cstring policy_json_str "attestation_report_verify: policy_json_str ffi failure"
    (fun c_policy_json_str =>
    '(code, msg_buf, _) ←
      c_AttestationReportVerify now c_report_json_str (u32 (slen report_json_str))
        c_policy_json_str (u32 (slen policy_json_str)) msg_buffer no_details;
    check_code code msg_buf (mret (ROk tt)))).

Definition generate_attestation_report (b : build_flags) (params_json_str : string)
    : st HS (result string) :=
  size ← pure (get_attestation_report_size params_json_str);
  match size with
  | RErr e => mret (RErr e)
  | ROk report_len =>
      let report_buf := zero_bytes (Z.to_nat report_len) in
      with_cstring params_json_str "attestation_report_verify: params_json_str ffi failure"
        (fun c_params_json_str =>
        '(code, (report_buf, report_len), msg_buf, _) ←
          GenerateAttestationReport b (Some c_params_json_str) (u32 (slen params_json_str))
            (Some report_buf) report_len msg_buffer no_details;
        pure (check_code code msg_buf
          (report ← slice_to (default [] report_buf) report_len;
           mret (match from_utf8 report with
                 | inr v => ROk v
                 | inl e => RErr (show_utf8_error e)
                 end))))
  end.
End Model.

(** ** Agreement with the C++ functions *)

(** The C string of a message as the crate gets it: cut to the buffer, with its
    NUL. *)
Definition cut_text (s : string) : bytes :=
  take (Z.to_nat BUFFER_SIZE_IN_BYTES - 1) (c_str s) ++ [Byte.x00].

(** What the crate makes of a C++ computation: an exception becomes its text. *)
Definition as_result `{Fmt} {A B} (m : outcome A) (f : A -> result B) : outcome (result B) :=
  match m with
  | Ok a => Ok (f a)
  | Throw ex => Ok (RErr (error_text (cut_text (what ex))))
  | UB w => UB w
  end.

Definition utf8_result (bs : bytes) : result string :=
  match from_utf8 bs with inr v => ROk v | inl e => RErr (show_utf8_error e) end.

Section Facts.
Context `{Fmt}.

Lemma buf_ok_msg : buf_ok msg_buffer.
Proof. by vm_compute. Qed.

Lemma buf_ok_details : buf_ok no_details.
Proof. by vm_compute. Qed.

(** A text that a buffer holds is read back with its NUL. *)
Lemma slice_to_holds b b' s : holds_text b b' s ->
  slice_to b'.(ob_mem) b'.(ob_len) = Ok (take (Z.to_nat b.(ob_len) - 1) (c_str s) ++ [Byte.x00]).
Proof.
  intros (Hl & Ht & _). unfold slice_to. rewrite <- Ht, (proj2 (Z.leb_le _ _)); [done|].
  apply (f_equal length) in Ht. rewrite length_take, length_app in Ht. cbn in Ht. unfold len in *. lia.
Qed.

Lemma status_of_exn_message ex : (status_of_exn ex).(message) = what ex.
Proof. unfold status_of_exn. by destruct (exn_cls ex). Qed.

Lemma status_of_exn_failed ex : ((status_of_exn ex).(code) =? 0) = false.
Proof. unfold status_of_exn. by destruct (exn_cls ex). Qed.

(** A C function that throws inside. *)
Lemma check_code_throw ex : exists msg details,
  c_return (c_catch ex msg_buffer no_details) = Ok ((status_of_exn ex).(code), msg, details) /\
  forall A (k : outcome (result A)), check_code (status_of_exn ex).(code) msg k = Ok (RErr (error_text (cut_text (what ex)))).
Proof.
  destruct (c_throw_texts ex _ _ buf_ok_msg buf_ok_details) as (msg & details & E & Ht & _).
  exists msg, details. split; [done|]. intros A k. unfold check_code. rewrite status_of_exn_failed. cbn [negb].
  by rewrite (slice_to_holds msg_buffer msg (what ex) (Ht eq_refl)).
Qed.

Lemma c_return_ok : exists msg details,
  c_return (mret (0, msg_buffer, no_details)) = Ok (0, msg, details).
Proof. apply c_ok_texts; [apply buf_ok_msg|apply buf_ok_details]. Qed.

Lemma with_cstring_nul {M A} `{MRet M} s failure (k : bytes -> M (result A)) :
  Byte.x00 ∈ s2b s -> with_cstring s failure k = mret (RErr failure).
Proof. intros Hs. unfold with_cstring, CString_new. by rewrite decide_True. Qed.

Lemma with_cstring_plain {M A} `{MRet M} s failure (k : bytes -> M (result A)) :
  Byte.x00 ∉ s2b s -> with_cstring s failure k = k (s2b s ++ [Byte.x00]).
Proof. intros Hs. unfold with_cstring, CString_new. by rewrite decide_False. Qed.

(** The C function gets the text back out of the C string. *)
Lemma string_of_cstring s : slen s < 2 ^ 32 ->
  string_of_ptr (s2b s ++ [Byte.x00]) (u32 (slen s)) = Ok s.
Proof.
  intros Hs. unfold slen in *. rewrite u32_small by lia. rewrite string_of_ptr_in.
  - rewrite take_app_length' by (rewrite length_s2b; lia). by rewrite b2s_s2b.
  - unfold len. rewrite length_app, length_s2b. cbn. lia.
Qed.

(** What was copied to the front of a buffer is read back. *)
Lemma slice_to_front text mem :
  slice_to (text ++ mem) (len text) = Ok text.
Proof.
  unfold slice_to, len. rewrite length_app, (proj2 (Z.leb_le _ _)) by lia.
  by rewrite Nat2Z.id, take_app_length.
Qed.
End Facts.

Section Agreement.
Context `{Fmt} `{Absl} `{Hashes} `{Cppcodec} `{Serde}.
Context `{ProtoJson UnifiedAttestationReport} `{ProtoJson UnifiedAttestationPolicy}
        `{ProtoJson UnifiedAttestationAttributes} `{ProtoJson UnifiedAttestationGenerationParams}.
Context `{ProtoJson DcapReport} `{ProtoJson IntelTdxReport} `{ProtoJson SgxQlQveCollateral}
        `{ProtoJson HygonCsvReport} `{ProtoJson HygonCsvCertChain}.
Context `{DcapQvl} `{SgxQuote3} `{SgxAttributes} `{Report2Body} `{TdxQuote}
        `{HygonLayout} `{OpenSSL}.
Context `{Host} `{Rand} `{ReportDataSizes}.

(** The references: the JSON of a report's attributes, and of a generated report,
    if it fits. *)
Definition attributes_json (report : string) : outcome string :=
  v ← Create verifier_factory report;
  attrs ← ParseUnifiedReport v default_attrs;
  json ← PB2JSON attrs;
  _ ← YACL_ENFORCE (slen json <=? kAttributeMaxSize)
        "attrs_buf_len(got {}) should not be less than attrs json size({})"
        [FInt kAttributeMaxSize; FInt (slen json)];
  mret json.

Definition report_json (b : build_flags) (params : string) : st host_state string :=
  gp ← pure (JSON2PB (T := UnifiedAttestationGenerationParams) params);
  g ← pure (CreateAttestationGenerator b);
  report ← GenerateReport g gp;
  json ← pure (PB2JSON report);
  _ ← pure (YACL_ENFORCE (slen json <=? kReportMaxSize)
              "report_len(got {}) should not be less than report json size({})"
              [FInt kReportMaxSize; FInt (slen json)]);
  mret json.

Lemma rust_verify now report policy :
  slen report < 2 ^ 32 -> slen policy < 2 ^ 32 ->
  Byte.x00 ∉ s2b report -> Byte.x00 ∉ s2b policy ->
  attestation_report_verify now report policy =
    (s ← AttestationReportVerify now report policy;
     mret (if s.(code) =? 0 then ROk tt else RErr (error_text (cut_text s.(message))))).
Proof.
  intros Lr Lp Nr Np. unfold attestation_report_verify. rewrite !with_cstring_plain by done.
  unfold c_AttestationReportVerify, c_verify_body, AttestationReportVerify, verify_body.
  rewrite !string_of_cstring, !bind_Ok_l, CreateFactory_eq by done.
  destruct (JSON2PB policy ≫= _) as [[]|ex|w]; [|..|done].
  - by destruct c_return_ok as (msg & details & ->).
  - destruct (check_code_throw ex) as (msg & details & -> & E). rewrite bind_Ok_l, E.
    cbn [mbind outcome_bind mret outcome_ret]. by rewrite status_of_exn_failed, status_of_exn_message.
Qed.

(** The [try] block of [ParseAttributesFromReport], with the crate's buffer. *)
Lemma parse_body_json report : slen report < 2 ^ 32 ->
  let attrs_buf := mk_out_buf (zero_bytes (Z.to_nat kAttributeMaxSize)) kAttributeMaxSize in
  parse_attributes_body (s2b report ++ [Byte.x00]) (u32 (slen report)) attrs_buf =
    (json ← attributes_json report;
     mret (mk_out_buf (s2b json ++ drop (length (s2b json)) attrs_buf.(ob_mem)) (len (s2b json)))).
Proof.
  intros Lr attrs_buf. unfold parse_attributes_body, attributes_json.
  rewrite string_of_cstring, bind_Ok_l, CreateFactory_eq by done.
  destruct (Create _ report) as [v|ex|w]; [|done|done]. rewrite !bind_Ok_l.
  destruct (ParseUnifiedReport v default_attrs) as [attrs|ex|w]; [|done|done]. rewrite !bind_Ok_l.
  destruct (PB2JSON attrs) as [json|ex|w]; [|done|done]. rewrite !bind_Ok_l.
  fold (slen json). cbn [attrs_buf ob_len ob_mem]. pose proof (length_s2b json) as Hl. unfold len.
  destruct (Z.leb_spec (slen json) kAttributeMaxSize) as [Hle|]; [|done]. cbn [YACL_ENFORCE].
  rewrite !bind_Ok_l. unfold slen, kAttributeMaxSize in *. rewrite Hl, u32_small by lia.
  rewrite take_ge by lia. rewrite memcpy_at_in, bind_Ok_l.
  - unfold splice. by rewrite Hl, take_0.
  - unfold zero_bytes. rewrite length_replicate. lia.
Qed.

Lemma rust_parse report : slen report < 2 ^ 32 -> Byte.x00 ∉ s2b report ->
  parse_attributes_from_report report =
    as_result (attributes_json report)
      (fun json => match serde_from_slice (s2b json) with inr a => ROk a | inl e => RErr e end).
Proof.
  intros Lr Nr. unfold parse_attributes_from_report. rewrite with_cstring_plain by done.
  unfold get_attributes_max_size, GetAttributesMaxSize, ParseAttributesFromReport.
  rewrite parse_body_json by done. destruct (attributes_json report) as [json|ex|w]; [| |done].
  - cbn [mbind outcome_bind mret outcome_ret]. destruct c_return_ok as (msg & details & E).
    cbn [mret outcome_ret] in E. rewrite E. cbn. by rewrite slice_to_front.
  - destruct (check_code_throw ex) as (msg & details & Ec & E). cbn [mbind outcome_bind].
    rewrite Ec. cbn [mbind outcome_bind mret outcome_ret]. apply E.
Qed.

(** The [try] block of [GenerateAttestationReport], with the crate's buffer. *)
Lemma generate_body_json b params h : slen params < 2 ^ 32 ->
  let mem := zero_bytes (Z.to_nat kReportMaxSize) in
  generate_body b (Some (s2b params ++ [Byte.x00])) (u32 (slen params)) (Some mem) kReportMaxSize h =
    (json ← report_json b params;
     mret (s2b json ++ drop (length (s2b json)) mem, len (s2b json))) h.
Proof.
  intros Lp mem. unfold generate_body, report_json.
  rewrite (pure_bind_step _ _ _ (s2b params ++ [Byte.x00], mem)) by done.
  rewrite (pure_bind_step _ _ _ _ (string_of_cstring _ Lp)).
  unfold mbind, st_bind, pure. destruct (JSON2PB params) as [gp|ex|w]; [|done|done].
  destruct (CreateAttestationGenerator b) as [g|ex|w]; [|done|done].
  destruct (GenerateReport g gp h) as [[report|ex|w] h1]; [|done|done].
  destruct (PB2JSON report) as [json|ex|w]; [|done|done].
  pose proof (length_s2b json) as Hl. unfold len.
  destruct (Z.leb_spec (slen json) kReportMaxSize) as [Hle|]; [|done]. cbn [YACL_ENFORCE mret st_ret].
  unfold slen, kReportMaxSize in *. rewrite Hl, u32_small by lia. rewrite take_ge by lia.
  rewrite memcpy_at_in.
  - unfold splice. by rewrite Hl, take_0.
  - unfold mem, zero_bytes. rewrite length_replicate. lia.
Qed.

Lemma rust_generate b params h : slen params < 2 ^ 32 -> Byte.x00 ∉ s2b params ->
  generate_attestation_report b params h =
    let '(r, h1) := report_json b params h in (as_result r (fun json => utf8_result (s2b json)), h1).
Proof.
  intros Lp Np. unfold generate_attestation_report, get_attestation_report_size.
  rewrite with_cstring_plain by done. unfold GetAttestationReportSize. cbn [negb Z.eqb].
  rewrite (pure_bind_step _ _ _ (ROk kReportMaxSize)) by done. cbn zeta.
  rewrite with_cstring_plain by done. unfold GenerateAttestationReport at 1, mbind, st_bind. rewrite generate_body_json by done.
  unfold mbind, st_bind. destruct (report_json b params h) as [[json|ex|w] h1]; [| |done].
  - cbn [mret st_ret]. destruct c_return_ok as (msg & details & E). cbn [mret outcome_ret] in E.
    rewrite E. cbn. by rewrite slice_to_front.
  - destruct (check_code_throw ex) as (msg & details & Ec & E). rewrite Ec.
    cbn [mbind outcome_bind mret outcome_ret]. unfold pure. by rewrite E.
Qed.

(** C20. The Rust functions are the C++ functions: for texts below 4 GiB the crate
    never panics.  A text with a NUL inside is refused before the C library is
    called; otherwise [attestation_report_verify] returns [Ok] exactly when the
    C++ function's status has code 0, [parse_attributes_from_report] returns what
    [serde_json] reads from the JSON of the report's attributes, and
    [generate_attestation_report] the JSON of the generated report.  Every
    exception, also that of a JSON text over the 40960 bytes of the buffers,
    becomes an error with its text, cut to 8191 bytes and, because the length the
    C functions return counts it, with the terminating NUL. *)
Theorem rust_crate_agrees now b report policy params (h : host_state) :
  slen report < 2 ^ 32 -> slen policy < 2 ^ 32 -> slen params < 2 ^ 32 ->
  attestation_report_verify now report policy =
    (if decide (Byte.x00 ∈ s2b report)
     then Ok (RErr "attestation_report_verify: report_json_str ffi failure")
     else if decide (Byte.x00 ∈ s2b policy)
     then Ok (RErr "attestation_report_verify: policy_json_str ffi failure")
     else s ← AttestationReportVerify now report policy;
          mret (if s.(code) =? 0 then ROk tt else RErr (error_text (cut_text s.(message))))) /\
  parse_attributes_from_report report =
    (if decide (Byte.x00 ∈ s2b report)
     then Ok (RErr "attestation_report_verify: report_json_str ffi failure")
     else as_result (attributes_json report)
            (fun json => match serde_from_slice (s2b json) with inr a => ROk a | inl e => RErr e end)) /\
  generate_attestation_report b params h =
    (if decide (Byte.x00 ∈ s2b params)
     then (Ok (RErr "attestation_report_verify: params_json_str ffi failure"), h)
     else let '(r, h1) := report_json b params h in
          (as_result r (fun json => utf8_result (s2b json)), h1)).
Proof.
  intros Lr Lp Lg. split; [|split].
  - destruct (decide (Byte.x00 ∈ s2b report)) as [Nr|Nr].
    { unfold attestation_report_verify. by rewrite with_cstring_nul. }
    destruct (decide (Byte.x00 ∈ s2b policy)) as [Np|Np]; [|by apply rust_verify].
    unfold attestation_report_verify. by rewrite with_cstring_plain, with_cstring_nul.
  - destruct (decide (Byte.x00 ∈ s2b report)) as [Nr|Nr]; [|by apply rust_parse].
    unfold parse_attributes_from_report. by rewrite with_cstring_nul.
  - destruct (decide (Byte.x00 ∈ s2b params)) as [Ng|Ng]; [|by apply rust_generate].
    unfold generate_attestation_report, get_attestation_report_size. by rewrite with_cstring_nul.
Qed.
End Agreement.

(** ** Witness *)

Module RustWitness.
Import WrapperWitness.
#[local] Existing Instances sample_fmt sample_absl sample_hashes sample_cppcodec sample_quote3
  sample_attributes sample_report2_body sample_tdx_quote sample_hygon sample_openssl sample_rand
  sample_report_data.
#[local] Existing Instances qvl j2 j3 j6 j7.
(** Texts are read as in [WrapperWitness]; every message is printed as [text]. *)
Definition printing {T} (text : string) (j : ProtoJson T) : ProtoJson T :=
  {| MessageToJsonString _ := inr text; JsonStringToMessage := @JsonStringToMessage T j |}.
#[local] Instance jr : ProtoJson UnifiedAttestationReport := printing "r" j1.
#[local] Instance jd : ProtoJson DcapReport := printing "d" j4.
#[local] Instance jc : ProtoJson SgxQlQveCollateral := printing "c" j5.
#[local] Instance jt : ProtoJson IntelTdxReport :=
  {| MessageToJsonString _ := inl ""; JsonStringToMessage _ := inl "" |}.
#[local] Instance jg : ProtoJson UnifiedAttestationGenerationParams :=
  {| MessageToJsonString _ := inr "g"; JsonStringToMessage _ := inr GeneratorWitness.gp |}.
#[local] Instance host : Host := sample_host 368 "".
#[local] Instance serde : Serde :=
  {| serde_from_slice bs := if decide (bs = s2b "{a}") then inr attrs else inl "" |}.

Definition h0 : host_state := mk_host [] 0 tt tt.

(** An accepted report, one whose policy does not parse, the attributes of the
    report, and a generated report. *)
Lemma rust_crate_agrees_witness :
  attestation_report_verify 0 "r" "p" = Ok (ROk tt) /\
  attestation_report_verify 0 "r" "?" =
    Ok (RErr ("Parsing json to pb message failed, json: {}, error: {}" +:+ b2s [Byte.x00])) /\
  parse_attributes_from_report "r" = Ok (ROk attrs) /\
  generate_attestation_report (mk_build_flags true false false) "g" h0 = (Ok (ROk "r"), h0).
Proof.
  set (b := mk_build_flags true false false).
  destruct (rust_crate_agrees 0 b "r" "p" "g" h0) as (Ev & Ep & Eg); [done..|].
  destruct (rust_crate_agrees 0 b "r" "?" "g" h0) as (Ev' & _ & _); [done..|].
  rewrite Ev, Ev', Ep, Eg. split; [by vm_compute|]. split; [by vm_compute|]. split; by vm_compute.
Defined.
End RustWitness.
