(* ===== verification/Bindings.v ===== *)
(** * Python and WebAssembly bindings

    [pylib/trustflow/attestation/generation/generator_modules.cc],
    [pylib/trustflow/attestation/verification/verifier_modules.cc] and
    [trustflow/attestation/verification/wasm_binding.cc].  A module is a record
    of what it exports: a function under its name, a class by its constructor,
    fields and methods.  The conversion of arguments and results and of C++
    exceptions to those of the host language is pybind11's and Emscripten's. *)

From S2P Require Import Prelude CppStd External Common Samples Verifier Dcap Sgx2Verifier TdxVerifier Hygon CsvVerifier VerifierWrapper YaclCrypto Host IntelGenerator CsvGenerator GeneratorWrapper RustCrate.

(** A field that can be read and written, under the name it is exported with. *)
Record field (R A : Type) := mk_field { f_name : string; f_get : R -> A; f_set : A -> R -> R }.
Arguments mk_field {R A} _ _ _.
Arguments f_name {R A} _.
Arguments f_get {R A} _ _.
Arguments f_set {R A} _ _ _.

(** The class [Status] of both bindings; WebAssembly has no constructor for it. *)
Record status_class := mk_status_class {
  sc_name : string;
  sc_init : option Status;
  sc_code : field Status Z;
  sc_message : field Status string;
  sc_details : field Status string
}.

Definition status_fields (init : option Status) : status_class :=
  mk_status_class "Status" init
    (mk_field "code" code (fun c s => mk_status c s.(message) s.(details)))
    (mk_field "message" message (fun m s => mk_status s.(code) m s.(details)))
    (mk_field "details" details (fun d s => mk_status s.(code) s.(message) d)).

(** A function with the name it is exported with and those of its arguments. *)
Record export (F : Type) := mk_export { e_name : string; e_args : list string; e_fun : F }.
Arguments mk_export {F} _ _ _.
Arguments e_name {F} _.
Arguments e_args {F} _.
Arguments e_fun {F} _.

Section Modules.
Context `{Fmt} `{Absl} `{Hashes} `{Cppcodec}.
Context `{ProtoJson UnifiedAttestationReport} `{ProtoJson UnifiedAttestationPolicy}
        `{ProtoJson UnifiedAttestationGenerationParams}.
Context `{ProtoJson DcapReport} `{ProtoJson IntelTdxReport} `{ProtoJson SgxQlQveCollateral}
        `{ProtoJson HygonCsvReport} `{ProtoJson HygonCsvCertChain}.
Context `{DcapQvl} `{SgxQuote3} `{SgxAttributes} `{Report2Body} `{TdxQuote}
        `{HygonLayout} `{OpenSSL}.
Context `{Host} `{Rand} `{ReportDataSizes}.

(** [PYBIND11_MODULE(generator, m)] *)
Record py_generator_module := mk_py_generator {
  pg_doc : string;
  pg_class : string;
  pg_generate_report_json : export (any_generator -> string -> st host_state string);
  pg_create_attestation_generator : export (outcome any_generator)
}.

Definition py_generator (b : build_flags) : py_generator_module :=
  mk_py_generator
    "TrustFlow Attestation Generator is a library for generating attestation report on different tee platforms"
    "AttestationGenerator"
    (mk_export "generate_report_json" [] GenerateReportJson)
    (mk_export "create_attestation_generator" [] (CreateAttestationGenerator b)).

(** [PYBIND11_MODULE(verifier, m)]; [py::init<>()] value-initialises the struct. *)
Record py_verifier_module := mk_py_verifier {
  pv_doc : string;
  pv_Status : status_class;
  pv_attestation_report_verify : export (string -> string -> outcome Status)
}.

Definition py_verifier (now : Z) : py_verifier_module :=
  mk_py_verifier
    "TrustFlow Attestation Verifier is a library for verifying attestation reports from different tee platforms."
    (status_fields (Some (mk_status 0 "" "")))
    (mk_export "attestation_report_verify" ["report_json_str"; "policy_json_str"]
       (AttestationReportVerify now)).

(** [EMSCRIPTEN_BINDINGS(trustflow)] *)
Record wasm_module := mk_wasm {
  wm_Status : status_class;
  wm_evidenceVerify : export (string -> string -> outcome Status)
}.

Definition wasm_trustflow (now : Z) : wasm_module :=
  mk_wasm (status_fields None) (mk_export "evidenceVerify" [] (AttestationReportVerify now)).

(** A Python program makes a report in two calls. *)
Definition py_report (b : build_flags) (params : string) : st host_state string :=
  g ← pure (py_generator b).(pg_create_attestation_generator).(e_fun);
  (py_generator b).(pg_generate_report_json).(e_fun) g params.

(** Python programs get the reports that Rust programs get, and no others; only a
    report over the 40960 bytes of the C functions is Python's alone. *)
Theorem py_report_json b params (h : host_state) json h1 :
  py_report b params h = (Ok json, h1) /\ slen json <= kReportMaxSize <->
  report_json b params h = (Ok json, h1).
Proof.
  unfold py_report, report_json. cbn [py_generator pg_create_attestation_generator
    pg_generate_report_json e_fun]. unfold GenerateReportJson, mbind, st_bind, pure.
  destruct (CreateAttestationGenerator b) as [g|e|w]; destruct (JSON2PB params) as [gp|e'|w'];
    try (split; [by intros [[=] _]|done]).
  destruct (GenerateReport g gp h) as [[r|e|w] h2]; [|split; [by intros [[=] _]|done]..].
  destruct (PB2JSON r) as [j|e|w]; [|split; [by intros [[=] _]|done]..].
  destruct (Z.leb_spec (slen j) kReportMaxSize) as [Hl|Hl]; cbn.
  - split; [by intros [E _]|]. intros E. split; [done|]. by injection E as <- <-.
  - split; [|done]. intros [E ?]. injection E as -> ->. lia.
Qed.

(** The two modules verify alike, and a field holds what was stored in it. *)
Theorem verifier_bindings_agree now :
  (wasm_trustflow now).(wm_evidenceVerify).(e_fun)
    = (py_verifier now).(pv_attestation_report_verify).(e_fun) /\
  forall init (s : Status) c m d,
    let k := status_fields init in
    k.(sc_code).(f_get) (k.(sc_code).(f_set) c s) = c /\
    k.(sc_message).(f_get) (k.(sc_message).(f_set) m s) = m /\
    k.(sc_details).(f_get) (k.(sc_details).(f_set) d s) = d /\
    k.(sc_details).(f_set) d (k.(sc_message).(f_set) m (k.(sc_code).(f_set) c s)) = mk_status c m d.
Proof. done. Qed.
End Modules.
