(* ===== verification/ProxyCommon.v ===== *)
(** * What the proxy services share

    Status messages of the proxy interfaces, the handler of a brpc method as
    code over the state it can reach (the world, its controller, its response),
    and the constants the services have in common. *)

From S2P Require Import Prelude CppStd External Common.

Definition kResponseContentType : string := "application/json".
Definition kTeePlatSim : string := "sim".

(** [secretflowapis::v2::Status] and [Code::OK] *)
Record SfStatus := mk_sf_status { sf_code : Z; sf_message : string }.
Definition Code_OK : Z := 0.

#[global] Instance SfStatus_eq_dec : EqDecision SfStatus.
Proof. solve_decision. Defined.

(** ** brpc::Controller *)

Class Brpc := {
  controller : Type;
  set_content_type : string -> controller -> controller;
  SetFailed : string -> controller -> controller;
  Failed : controller -> bool
}.

(** A controller has failed after [SetFailed]; the content type of the response
    has no part in it. *)
Class BrpcLaws `{Brpc} : Prop := {
  Failed_SetFailed t c : Failed (SetFailed t c) = true;
  Failed_set_content_type t c : Failed (set_content_type t c) = Failed c
}.

Definition sample_brpc : Brpc := {|
  controller := string * option string;
  set_content_type t c := (t, c.2);
  SetFailed t c := (c.1, Some t);
  Failed c := match c.2 with Some _ => true | None => false end
|}.

Lemma sample_brpc_laws : @BrpcLaws sample_brpc.
Proof. by split. Qed.

(** ** A method of a service

    [brpc::ClosureGuard] runs [done] once, when the method returns: the
    controller and response a method leaves are those the closure sees. *)

Record rpc_of (W C R : Type) := mk_rpc { rpc_world : W; rpc_cntl : C; rpc_resp : R }.
Arguments mk_rpc {W C R} _ _ _.
Arguments rpc_world {W C R} _.
Arguments rpc_cntl {W C R} _.
Arguments rpc_resp {W C R} _.

Section Method.
Context {W C R : Type}.

Definition in_world {A} (m : st W A) : st (rpc_of W C R) A := fun s =>
  let '(r, w) := m s.(rpc_world) in (r, mk_rpc w s.(rpc_cntl) s.(rpc_resp)).

Definition upd_cntl (f : C -> C) : st (rpc_of W C R) unit := fun s =>
  (Ok tt, mk_rpc s.(rpc_world) (f s.(rpc_cntl)) s.(rpc_resp)).

Definition upd_resp (f : R -> R) : st (rpc_of W C R) unit := fun s =>
  (Ok tt, mk_rpc s.(rpc_world) s.(rpc_cntl) (f s.(rpc_resp))).
End Method.

(** [try { m } catch (const std::exception& e) { handler(e) }]: every exception
    of this development derives from [std::exception]. *)
Definition try_catch {S} (m : st S unit) (handler : exn -> st S unit) : st S unit := fun s =>
  match m s with
  | (Throw e, s') => handler e s'
  | r => r
  end.

(** A method whose handler cannot throw lets no exception out. *)
Lemma try_catch_no_throw {S} (m : st S unit) handler s :
  (forall e s', is_throw (handler e s').1 = false) -> is_throw (try_catch m handler s).1 = false.
Proof. intros Hh. unfold try_catch. destruct (m s) as [[a|e|w] s']; [done|apply Hh|done]. Qed.
