(* ===== verification/RaProxy.v ===== *)
(** * Attestation reports of the proxies and the remote attestation service

    [trustflow/proxy/utils/ra_util.cc] and [trustflow/proxy/ra_proxy]. *)

From S2P Require Import Prelude CppStd External Common Samples Verifier Dcap Sgx2Verifier TdxVerifier Hygon CsvVerifier VerifierWrapper YaclCrypto Host IntelGenerator CsvGenerator GeneratorWrapper ProxyCommon.

(** ** ra_util.cc *)

Section RaUtil.
Context `{Absl} `{Hashes} `{Cppcodec}.
Context `{ProtoJson DcapReport} `{ProtoJson IntelTdxReport} `{ProtoJson SgxQlQveCollateral}
        `{ProtoJson HygonCsvReport} `{ProtoJson HygonCsvCertChain}.
Context `{Host} `{Rand} `{ReportDataSizes} `{HygonLayout}.

(** The parameters [GenRaReport] fills in. *)
Definition ra_gen_params (user_data : bytes) : UnifiedAttestationGenerationParams :=
  let digest := Sha256 user_data in
  mk_gen_params "1" "Passport" "" (mk_report_params (BytesToHexString digest) "").

Definition GenRaReport (b : build_flags) (user_data : bytes) : st host_state UnifiedAttestationReport :=
  generator ← pure (CreateAttestationGenerator b);
  GenerateReport generator (ra_gen_params user_data).
End RaUtil.

(** ** ra_proxy.cc *)

Module RaProxy.

Record RaProxyImpl := mk_ra_proxy { plat_ : string; cert_ : string }.

Record GetRaCertRequest := mk_ra_request { nonce : string }.

Record GetRaCertResponse := mk_ra_response {
  status : option SfStatus;
  attestation_report : option UnifiedAttestationReport;
  cert : string
}.

Definition set_status (v : SfStatus) (r : GetRaCertResponse) :=
  mk_ra_response (Some v) r.(attestation_report) r.(cert).
Definition set_attestation_report (v : UnifiedAttestationReport) (r : GetRaCertResponse) :=
  mk_ra_response r.(status) (Some v) r.(cert).
Definition set_cert (v : string) (r : GetRaCertResponse) :=
  mk_ra_response r.(status) r.(attestation_report) v.

Section Model.
Context `{Fmt} `{Absl} `{Hashes} `{Cppcodec} `{Brpc}.
Context `{ProtoJson DcapReport} `{ProtoJson IntelTdxReport} `{ProtoJson SgxQlQveCollateral}
        `{ProtoJson HygonCsvReport} `{ProtoJson HygonCsvCertChain}.
Context `{Host} `{Rand} `{ReportDataSizes} `{HygonLayout}.

Abbreviation method := (st (rpc_of host_state controller GetRaCertResponse)).

(** The text a report attests. *)
Definition ra_user_data (self : RaProxyImpl) (request : GetRaCertRequest) : string :=
  self.(cert_) +:+ "." +:+ request.(nonce).

Definition GetRaCert (b : build_flags) (self : RaProxyImpl) (request : GetRaCertRequest)
    : method unit :=
  try_catch
    (_ ← upd_cntl (set_content_type kResponseContentType);
     _ ← (if negb (String.eqb self.(plat_) kTeePlatSim) then
            report ← in_world (GenRaReport b (s2b (ra_user_data self request)));
            upd_resp (set_attestation_report report)
          else mret tt);
     _ ← upd_resp (set_status (mk_sf_status Code_OK "success"));
     upd_resp (set_cert self.(cert_)))
    (fun e => upd_cntl (SetFailed (what e))).
End Model.
End RaProxy.

(** ** What the service promises *)

Section RaUtilFacts.
Context `{AL : AbslLaws} `{HsL : HashesLaws} `{Cppcodec}.
Context `{ProtoJson DcapReport} `{ProtoJson IntelTdxReport} `{ProtoJson SgxQlQveCollateral}
        `{ProtoJson HygonCsvReport} `{ProtoJson HygonCsvCertChain}.
Context `{HoL : HostLaws} `{Rand} `{ReportDataSizes} `{HygonLayout}.

(** The digest of the user data fills its half of the report data. *)
Lemma data_half_ra user_data : data_half (ra_gen_params user_data) = Sha256 user_data.
Proof.
  unfold data_half, pad32. cbn. rewrite HexStringToBytes_hex, length_Sha256. apply app_nil_r.
Qed.

Lemma clean_GenerateReport g gp : clean (GenerateReport g gp).
Proof.
  destruct g; [apply clean_sgx2_GenerateReport|apply clean_tdx_GenerateReport
              |apply clean_csv_GenerateReport].
Qed.

Lemma clean_GenRaReport b user_data : clean (GenRaReport b user_data).
Proof. apply clean_bind; [apply clean_pure|]. intros g. apply clean_GenerateReport. Qed.
End RaUtilFacts.

#[export] Hint Resolve clean_GenRaReport : trustflow.

Section RaProxyFacts.
Context `{Fmt} `{AL : AbslLaws} `{HsL : HashesLaws} `{CL : CppcodecLaws} `{BL : BrpcLaws}.
Context `{JD : ProtoJsonLaws DcapReport} `{ProtoJson IntelTdxReport}
        `{JC : ProtoJsonLaws SgxQlQveCollateral} `{ProtoJson HygonCsvReport}
        `{ProtoJson HygonCsvCertChain}.
Context `{HoL : HostLaws} `{Rand} `{RL : ReportDataLaws} `{HygonLayout}.
Import RaProxy.

(** The response of a served request. *)
Definition served (self : RaProxyImpl) (report : option UnifiedAttestationReport)
    : GetRaCertResponse :=
  mk_ra_response (Some (mk_sf_status Code_OK "success")) report self.(cert_).

Lemma GetRaCert_sim b self request h c r :
  self.(plat_) = kTeePlatSim ->
  GetRaCert b self request (mk_rpc h c r) =
    (Ok tt, mk_rpc h (set_content_type kResponseContentType c)
              (served self r.(attestation_report))).
Proof. intros Hp. unfold GetRaCert. by rewrite Hp. Qed.

Lemma GetRaCert_tee b self request h c r :
  self.(plat_) <> kTeePlatSim ->
  GetRaCert b self request (mk_rpc h c r) =
    let cntl := set_content_type kResponseContentType c in
    match GenRaReport b (s2b (ra_user_data self request)) h with
    | (Ok report, h') => (Ok tt, mk_rpc h' cntl (served self (Some report)))
    | (Throw e, h') => (Ok tt, mk_rpc h' (SetFailed (what e) cntl) r)
    | (UB w, h') => (UB w, mk_rpc h' cntl r)
    end.
Proof.
  intros Hp. unfold GetRaCert, try_catch. rewrite (proj2 (String.eqb_neq _ _)) by done.
  cbn [negb]. unfold mbind, st_bind, in_world, upd_cntl. cbn [rpc_world rpc_cntl rpc_resp].
  by destruct (GenRaReport b _ h) as [[report|e|w] h'].
Qed.

(** C36. The remote attestation service lets no exception out and releases the
    devices and buffers its report took.  A call that has not failed answers OK
    with the service's certificate and, outside simulation, with the report
    [GenRaReport] made for the certificate and the caller's nonce; a failed call
    carries the exception's text and leaves the response as it was. *)
Theorem RaProxy_GetRaCert_serves b self request h c r :
  Failed c = false ->
  let '(o, s) := GetRaCert b self request (mk_rpc h c r) in
  let generated := GenRaReport b (s2b (self.(cert_) +:+ "." +:+ request.(nonce))) h in
  defined o ->
  o = Ok tt /\ s.(rpc_world).(h_fds) = h.(h_fds) /\ s.(rpc_world).(h_live) = h.(h_live) /\
  if Failed s.(rpc_cntl)
  then s.(rpc_resp) = r /\ self.(plat_) <> kTeePlatSim /\
       exists e, generated.1 = Throw e /\
         s.(rpc_cntl) = SetFailed (what e) (set_content_type kResponseContentType c)
  else s.(rpc_resp).(status) = Some (mk_sf_status Code_OK "success") /\
       s.(rpc_resp).(cert) = self.(cert_) /\
       (self.(plat_) = kTeePlatSim -> s.(rpc_resp).(attestation_report) = r.(attestation_report)) /\
       (self.(plat_) <> kTeePlatSim ->
          exists report, generated.1 = Ok report /\
            s.(rpc_resp).(attestation_report) = Some report).
Proof.
  intros Hc. destruct (decide (self.(plat_) = kTeePlatSim)) as [Hp|Hp].
  - rewrite GetRaCert_sim by done. cbn. rewrite Failed_set_content_type, Hc. done.
  - rewrite GetRaCert_tee by done. cbn zeta.
    pose proof (clean_GenRaReport b (s2b (ra_user_data self request)) h) as Hcl.
    unfold ra_user_data in *.
    destruct (GenRaReport b _ h) as [[report|e|w] h'] eqn:Eg; [| |done];
      cbn [rpc_world rpc_cntl rpc_resp]; intros _; destruct (Hcl I) as [Hf Hl];
      (split; [done|]; split; [done|]; split; [done|]).
    + rewrite Failed_set_content_type, Hc. cbn. split; [done|]. split; [done|].
      split; [done|]. intros _. by exists report.
    + rewrite Failed_SetFailed. split; [done|]. split; [done|]. by exists e.
Qed.

Lemma GenRaReport_sgx2 b user_data :
  b.(TEE_TYPE_SGX2) = true ->
  forall h, GenRaReport b user_data h = sgx2_GenerateReport (ra_gen_params user_data) h.
Proof. intros Hb h. unfold GenRaReport, CreateAttestationGenerator. by rewrite Hb. Qed.

Lemma VerifyAttributes_entry a e : satisfies a e -> VerifyAttributes a (mk_policy [e]) = Ok tt.
Proof.
  intros Hs. apply verify_loop_spec. exists 0%nat, e. split; [done|].
  split; [by apply verdict_Match|]. intros; lia.
Qed.

Lemma satisfies_user_data a bs :
  a.(hex_user_data) = BytesToHexString bs ->
  satisfies a (set_hex_user_data (BytesToHexString bs) default_attrs).
Proof. intros Ha. split; cbn; intros Hne; try by destruct Hne. by rewrite Ha. Qed.

(** C15. What a served SGX report attests: for any verifier of the report in the
    response, an entry that sets the user data accepts it only with the SHA-256
    of the certificate in the response and the caller's nonce, and when the
    quote passes platform verification the entry made of that hash accepts it. *)
Theorem ra_report_attests `{DcapQvl} `{!SgxQuote3} `{!SgxQuote3Laws} `{!SgxDeviceLaws}
    `{SgxAttributes} b self request (h : host_state) c r s report v now :
  b.(TEE_TYPE_SGX2) = true -> self.(plat_) <> kTeePlatSim ->
  sizeof_sgx_report_data_t = 64%nat ->
  GetRaCert b self request (mk_rpc h c r) = (Ok tt, s) -> Failed s.(rpc_cntl) = false ->
  s.(rpc_resp).(attestation_report) = Some report -> Sgx2Verifier.Init report = Ok v ->
  let digest := Sha256 (s2b (s.(rpc_resp).(cert) +:+ "." +:+ request.(nonce))) in
  (forall e, VerifyReport now v (mk_policy [e]) = Ok tt -> e.(hex_user_data) <> "" ->
     HexStringToBytes e.(hex_user_data) = digest) /\
  (VerifyPlatform now v = Ok tt -> (sizeof_sgx_quote3_t <= length v.(sgx2_quote))%nat ->
     VerifyReport now v (mk_policy [set_hex_user_data (BytesToHexString digest) default_attrs])
     = Ok tt).
Proof.
  intros Hb Hp H64 Hg Hf Hr Hv. rewrite GetRaCert_tee in Hg by done.
  rewrite GenRaReport_sgx2 in Hg by done. cbn zeta in Hg.
  destruct (sgx2_GenerateReport _ h) as [[rep|e|w] h'] eqn:Eg; [| |done]; injection Hg as <-.
  2: { cbn in Hf. by rewrite Failed_SetFailed in Hf. }
  cbn in Hr. injection Hr as ->. cbn [rpc_resp served cert]. cbn zeta.
  fold (ra_user_data self request). rewrite <- data_half_ra.
  set (gp := ra_gen_params _) in *. split.
  - intros e He Hne.
    destruct (sgx2_generated_satisfies gp h report h' v now e eq_refl H64 Eg Hv He)
      as (a & [] & Hd & _). rewrite Hd in sat_user_data. symmetry. by apply field_ok_hex.
  - intros Hpl Hlen. destruct (sgx2_generated_Init gp h report h' eq_refl Eg)
      as (v' & Hv' & _ & Hfit & Hrd). rewrite Hv in Hv'. injection Hv' as <-.
    specialize (Hrd Hlen).
    apply slice_app_halves in Hrd as [Hd _]; [|by apply length_data_half|apply length_key_half].
    unfold VerifyReport. rewrite Hpl, bind_Ok_l. cbn [ParseUnifiedReport].
    change (ParseUnifiedReport v default_attrs)
      with (Sgx2Verifier.parse_unified_report v default_attrs).
    rewrite Sgx2Verifier.parse_unified_report_long, bind_Ok_l by done.
    apply VerifyAttributes_entry, satisfies_user_data. cbn -[slice]. by rewrite Hd.
Qed.
End RaProxyFacts.

(** ** Witnesses *)

Module RaProxyWitness.
Import RaProxy.
#[local] Existing Instances sample_fmt sample_absl sample_absl_laws sample_hashes sample_hashes_laws
  sample_cppcodec sample_cppcodec_laws sample_quote3 sample_quote3_laws sample_attributes
  sample_rand sample_report_data sample_report_data_laws sample_hygon sample_brpc sample_brpc_laws.
#[local] Instance host : Host := sample_host 368 "".
#[local] Existing Instance sample_host_laws.
#[local] Existing Instance sample_sgx_device_laws.
#[local] Instance qvl : DcapQvl := sample_qvl SGX_QL_QV_RESULT_OK.

Definition gp : UnifiedAttestationGenerationParams := ra_gen_params (s2b "cert.0a0b").
Definition quote : bytes := splice (zero_bytes 440) 368 (data_half gp ++ key_half gp).
Definition collateral : SgxQlQveCollateral := mk_collateral 3 "a" "b" "c" "d" "e" "f" "g" 0.

#[local] Instance j1 : ProtoJson DcapReport :=
  sample_json [("d", mk_dcap_report (hex_encode quote) "c")].
#[local] Instance j2 : ProtoJson SgxQlQveCollateral := sample_json [("c", collateral)].
#[local] Instance j_none {T} : ProtoJson T | 100 :=
  {| MessageToJsonString _ := inl ""; JsonStringToMessage _ := inl "" |}.
#[local] Instance j1_laws : ProtoJsonLaws DcapReport.
Proof. apply sample_json_laws, NoDup_singleton. Qed.
#[local] Instance j2_laws : ProtoJsonLaws SgxQlQveCollateral.
Proof. apply sample_json_laws, NoDup_singleton. Qed.

Definition flags : build_flags := mk_build_flags true false false.
Definition self : RaProxyImpl := mk_ra_proxy "sgx" "cert".
Definition request : GetRaCertRequest := mk_ra_request "0a0b".
Definition h0 : host_state := mk_host [] 0 tt tt.
Definition c0 : controller := ("", None).
Definition r0 : GetRaCertResponse := mk_ra_response None None "".
Definition report : UnifiedAttestationReport :=
  mk_report kReportVersion ReportType.kReportTypePassport Platform.kPlatformSgxDcap "d".
Definition verifier : Sgx2AttestationVerifier := mk_sgx2 report quote collateral.

Lemma ra_run : GetRaCert flags self request (mk_rpc h0 c0 r0) =
  (Ok tt, mk_rpc h0 (kResponseContentType, None) (served self (Some report))).
Proof. vm_compute. reflexivity. Qed.

Lemma RaProxy_GetRaCert_serves_witness :
  exists rep, (GenRaReport flags (s2b "cert.0a0b") h0).1 = Ok rep.
Proof.
  pose proof (RaProxy_GetRaCert_serves flags self request h0 c0 r0 eq_refl) as Hs.
  rewrite ra_run in Hs. destruct (Hs I) as (_ & _ & _ & Hr). cbn [Failed sample_brpc rpc_cntl snd] in Hr.
  destruct Hr as (_ & _ & _ & Hrep). destruct (Hrep ltac:(done)) as (rep & Hgen & _).
  by exists rep.
Defined.

Lemma ra_report_attests_witness :
  VerifyReport 0 verifier (mk_policy [set_hex_user_data
    (BytesToHexString (Sha256 (s2b "cert.0a0b"))) default_attrs]) = Ok tt.
Proof.
  apply (ra_report_attests flags self request h0 c0 r0
    (mk_rpc h0 (kResponseContentType, None) (served self (Some report))) report verifier 0).
  - reflexivity.
  - done.
  - reflexivity.
  - exact ra_run.
  - reflexivity.
  - reflexivity.
  - vm_compute. reflexivity.
  - vm_compute. reflexivity.
  - cbn. lia.
Defined.
End RaProxyWitness.
