(* ===== verification/Jose.v ===== *)
(** * Keys, certificates and codecs of the request envelopes

    The functions of yacl, OpenSSL and cppcodec that
    [trustflow/proxy/utils/crypto_util.h] calls, as parameters with their
    documented behaviour. *)

From S2P Require Import Prelude CppStd External Common Samples YaclCrypto.

(** ** cppcodec *)

Class Base64Url := {
  b64url_encode : bytes -> string;
  b64url_decode : string -> result bytes
}.

Class Base64UrlLaws `{Base64Url} : Prop := {
  b64url_decode_encode bs : b64url_decode (b64url_encode bs) = inr bs;
  b64url_encode_nil : b64url_encode [] = ""
}.

Class Base32 := { base32_encode : bytes -> string }.

(** ** Keys

    [pkey] is [yacl::crypto::UniquePkey].  [key_pair pk sk] and [RsaVerify] appear
    only in the laws and in theorems: they say what a signature and a
    ciphertext are worth to the other side. *)

Class Keys `{Rand} := {
  pkey : Type;
  LoadX509CertPublicKeyFromBuf : string -> result pkey;
  LoadPemKey : string -> result pkey;
  ExportPublicKeyToDerBuf : pkey -> result bytes;
  RsaEncrypt : pkey -> bytes -> rng -> result bytes * rng;
  RsaDecrypt : pkey -> bytes -> result bytes;
  RsaSign : pkey -> bytes -> result bytes;
  RsaVerify : pkey -> bytes -> bytes -> bool;
  key_pair : pkey -> pkey -> Prop
}.

(** The private key of a pair undoes encryption and its signatures verify. *)
Class KeysLaws `{Keys} : Prop := {
  RsaDecrypt_Encrypt pk sk m g c g' :
    key_pair pk sk -> RsaEncrypt pk m g = (inr c, g') -> RsaDecrypt sk c = inr m;
  RsaVerify_Sign pk sk m s : key_pair pk sk -> RsaSign sk m = inr s -> RsaVerify pk m s = true
}.

(** ** OpenSSL: certificates and memory BIOs

    A null pointer is [None].  [BIO_pending b] is the data a memory BIO still
    holds; [BIO_read b n] returns its result, the bytes it stored and the BIO. *)

Class OpensslX509 := {
  bio : Type;
  x509 : Type;
  BIO_new_mem_buf : bytes -> option bio;
  BIO_new_mem : option bio;
  PEM_read_bio_X509 : bio -> option x509;
  i2d_X509_bio : bio -> x509 -> Z * bio;
  BIO_read : bio -> nat -> Z * bytes * bio;
  BIO_pending : bio -> bytes;
  x509_der : x509 -> bytes
}.

(** A new memory BIO is empty, a successful [i2d_X509_bio] appends the DER
    encoding, and [BIO_read] takes the first [n] bytes; on an empty BIO it
    returns 0 or -1. *)
Class OpensslX509Laws `{OpensslX509} : Prop := {
  BIO_new_mem_empty b : BIO_new_mem = Some b -> BIO_pending b = [];
  i2d_X509_bio_ok b c r b' :
    i2d_X509_bio b c = (r, b') -> r <> 0 -> BIO_pending b' = BIO_pending b ++ x509_der c;
  BIO_read_some b n : BIO_pending b <> [] -> (0 < n)%nat ->
    exists b', BIO_read b n = (len (take n (BIO_pending b)), take n (BIO_pending b), b') /\
      BIO_pending b' = drop n (BIO_pending b);
  BIO_read_empty b n : BIO_pending b = [] ->
    exists r b', BIO_read b n = (r, [], b') /\ r <= 0
}.

(** ** protobuf wire format *)

Class ProtoWire (T : Type) := { SerializeToString : T -> option string }.

Class ProtoWireLaws (T : Type) `{ProtoWire T} : Prop := {
  SerializeToString_inj (m m' : T) s :
    SerializeToString m = Some s -> SerializeToString m' = Some s -> m = m'
}.

(** ** Concrete instances, for the witnesses *)

Definition sample_b64url : Base64Url := {|
  b64url_encode := hex_encode;
  b64url_decode s := inr (hex_decode s)
|}.

Lemma sample_b64url_laws : @Base64UrlLaws sample_b64url.
Proof. split; [|done]. intros. cbn. by rewrite hex_decode_encode. Qed.

(** A key is a name; a ciphertext is the plaintext, a signature the message. *)
Definition sample_keys `{Rand} : Keys := {|
  pkey := string;
  LoadX509CertPublicKeyFromBuf s := inr s;
  LoadPemKey s := inr s;
  ExportPublicKeyToDerBuf k := inr (s2b k);
  RsaEncrypt _ m g := (inr m, g);
  RsaDecrypt _ c := inr c;
  RsaSign _ m := inr m;
  RsaVerify _ m s := bool_decide (m = s);
  key_pair pk sk := pk = sk
|}.

Lemma sample_keys_laws `{Rand} : @KeysLaws _ sample_keys.
Proof.
  split; cbn; [by intros pk sk m g c g' _ [= <- _]|].
  intros pk sk m s _ [= <-]. by apply bool_decide_eq_true_2.
Qed.

(** A certificate is its text. *)
Definition sample_x509 : OpensslX509 := {|
  bio := bytes;
  x509 := bytes;
  BIO_new_mem_buf bs := Some bs;
  BIO_new_mem := Some [];
  PEM_read_bio_X509 b := match b with [] => None | _ => Some b end;
  i2d_X509_bio b c := (1, b ++ c);
  BIO_read b n := (len (take n b), take n b, drop n b);
  BIO_pending b := b;
  x509_der c := c
|}.

Lemma sample_x509_laws : @OpensslX509Laws sample_x509.
Proof.
  split; cbn.
  - by intros b [= <-].
  - by intros b c r b' [= <- <-].
  - intros b n _ _. by eexists.
  - intros b n ->. eexists _, _. rewrite take_nil. split; [done|]. unfold len. cbn. done.
Qed.
