(* ===== verification/Envelope.v ===== *)
(** * Request and response envelopes

    [trustflow/proxy/utils/crypto_util.h] and the certificate functions of
    [crypto_util.cc]: a request is signed (JWS), encrypted under a fresh content
    key (JWE) and that key under the peer's certificate; a response is opened
    with the own private key. *)

From S2P Require Import Prelude CppStd External Common Samples YaclCrypto CryptoFile Jose ProxyCommon.

Definition kRs256 : string := "RS256".
Definition kRsaOaep : string := "RSA-OAEP".
Definition kAes128Gcm : string := "A128GCM".
Definition kContentKeyBytes : Z := 16.
Definition kJwsConcatDelimiter : string := ".".
Definition kBufSize : nat := Z.to_nat 4096.

(** ** Messages *)

Record JweHeader := mk_jwe_header { jwe_alg : string; jwe_enc : string }.
Record JwsHeader := mk_jws_header { jws_alg : string; jws_x5c : list string }.

Record Jws := mk_jws {
  jws_protected_header : string;
  jws_payload : string;
  jws_signature : string
}.

Record Jwe := mk_jwe {
  jwe_protected_header : string;
  jwe_encrypted_key : string;
  jwe_iv : string;
  jwe_ciphertext : string;
  jwe_tag : string;
  jwe_aad : string
}.

(** The header of a request is left as it is constructed. *)
Record EncryptedRequest := mk_enc_request { has_signature : bool; request_message : Jwe }.
Record EncryptedResponse := mk_enc_response { response_status : SfStatus; response_message : Jwe }.

#[global] Instance JweHeader_eq_dec : EqDecision JweHeader.
Proof. solve_decision. Defined.
#[global] Instance JwsHeader_eq_dec : EqDecision JwsHeader.
Proof. solve_decision. Defined.
#[global] Instance Jws_eq_dec : EqDecision Jws.
Proof. solve_decision. Defined.

Section Model.
Context `{Cppcodec} `{Base64Url} `{Base32} `{Hashes} `{Rand} `{!Keys} `{OpensslX509} `{Gcm}.
Context `{ProtoJson JweHeader} `{ProtoJson JwsHeader} `{ProtoJson Jws}.

(** ** Certificates *)

(** The loop of [X509CertPemToDer], with the bytes of [buffer]; [None] is a loop
    that has not ended after [fuel] reads. *)
Fixpoint read_der (fuel : nat) (der_bio : bio) (buffer der_data : bytes) : outcome (option bytes) :=
  match fuel with
  | O => mret None
  | S fuel =>
      let '(bytesRead, stored, der_bio) := BIO_read der_bio kBufSize in
      if 0 <? bytesRead then
        buffer ← memcpy_at buffer 0 stored;
        chunk ← read_at buffer 0 (Z.to_nat bytesRead);
        read_der fuel der_bio buffer (der_data ++ chunk)
      else mret (Some der_data)
  end.

(** [cert_bio], [cert] and [der_bio] in the order the code makes them.  One read
    more than there are bytes is enough for the loop. *)
Definition X509CertPemToDer (pem_cert : string) : outcome bytes :=
  match BIO_new_mem_buf (s2b pem_cert) with
  | None => Throw (mk_exn EnforceNotMet "cert_bio is null" [])
  | Some cert_bio =>
      match PEM_read_bio_X509 cert_bio with
      | None => Throw (mk_exn EnforceNotMet "cert is null" [])
      | Some cert =>
          match BIO_new_mem with
          | None => Throw (mk_exn EnforceNotMet "der_bio is null" [])
          | Some der_bio =>
              let '(ret, der_bio) := i2d_X509_bio der_bio cert in
              _ ← YACL_ENFORCE (negb (ret =? 0)) "Failed to write DER certificate." [];
              r ← read_der (S (length (BIO_pending der_bio))) der_bio (zero_bytes kBufSize) [];
              match r with Some der_data => mret der_data | None => UB "loop" end
          end
      end
  end.

Definition GeneratePartyId (pem_cert : string) : outcome string :=
  public_key ← call (LoadX509CertPublicKeyFromBuf pem_cert);
  public_key_der ← call (ExportPublicKeyToDerBuf public_key);
  mret (base32_encode (Sha256 public_key_der)).

(** ** Requests *)

Definition rand_bytes (n : Z) : st rng bytes := fun g =>
  let '(bs, g) := RandBytes (Z.to_nat n) false g in (Ok bs, g).

Definition rsa_encrypt (key : pkey) (plaintext : bytes) : st rng bytes := fun g =>
  let '(r, g) := RsaEncrypt key plaintext g in (call r, g).

(** The JWS of a request. *)
Definition sign_request (request_str private_key cert : string) : outcome string :=
  der ← X509CertPemToDer cert;
  jws_header_str ← PB2JSON (mk_jws_header kRs256 [base64_encode der]);
  let protected_header := b64url_encode (s2b jws_header_str) in
  let payload := b64url_encode (s2b request_str) in
  let sign_input := protected_header +:+ kJwsConcatDelimiter +:+ payload in
  key ← call (LoadPemKey private_key);
  sig ← call (RsaSign key (s2b sign_input));
  PB2JSON (mk_jws protected_header payload (b64url_encode sig)).

(** [Aes128GcmCrypto(cek, iv).Encrypt(text, aad_b64, cipher, tag)] with buffers
    of [text.size()] and [kMacBytes]. *)
Definition seal (cek iv : bytes) (aad_b64 text : string) : outcome (bytes * bytes) :=
  call (GcmEncrypt Aes128Gcm cek iv (s2b text) (s2b aad_b64) (String.length text)
          (Z.to_nat kMacBytes)).

Definition GenEncryptedRequest {T} `{ProtoJson T} (request : T)
    (private_key cert peer_cert : string) (has_signature : bool) : st rng EncryptedRequest :=
  request_str ← pure (PB2JSON request);
  jwe_header_str ← pure (PB2JSON (mk_jwe_header kRsaOaep kAes128Gcm));
  let protected_header := b64url_encode (s2b jwe_header_str) in
  cek ← rand_bytes kContentKeyBytes;
  peer_key ← pure (call (LoadX509CertPublicKeyFromBuf peer_cert));
  encrypted_key ← rsa_encrypt peer_key cek;
  iv ← rand_bytes kIvBytes;
  let aad := [] in
  let aad_b64 := b64url_encode aad in
  '(cipher, tag) ←
    (if has_signature then
       jws_str ← pure (sign_request request_str private_key cert);
       pure (seal cek iv aad_b64 jws_str)
     else pure (seal cek iv aad_b64 request_str));
  mret (mk_enc_request has_signature
          (mk_jwe protected_header (b64url_encode encrypted_key) (b64url_encode iv)
             (b64url_encode cipher) (b64url_encode tag) aad_b64)).

(** ** Responses

    [empty] is the default value of the response type. *)
Definition ParseEncryptedResponse {T} `{ProtoJson T} (empty : T) (enc_res : EncryptedResponse)
    (private_key : string) : outcome (SfStatus * T) :=
  let status := enc_res.(response_status) in
  if negb (status.(sf_code) =? Code_OK) then mret (status, empty)
  else
    let jwe := enc_res.(response_message) in
    header ← call (b64url_decode jwe.(jwe_protected_header));
    _ ← JSON2PB (T := JweHeader) (b2s header);
    encrypted_key ← call (b64url_decode jwe.(jwe_encrypted_key));
    iv ← call (b64url_decode jwe.(jwe_iv));
    cipher ← call (b64url_decode jwe.(jwe_ciphertext));
    tag ← call (b64url_decode jwe.(jwe_tag));
    aad ← call (b64url_decode jwe.(jwe_aad));
    key ← call (LoadPemKey private_key);
    cek ← call (RsaDecrypt key encrypted_key);
    plain ← call (GcmDecrypt Aes128Gcm cek iv cipher aad tag (length cipher));
    response ← JSON2PB (b2s plain);
    mret (status, response).
End Model.

(** ** The DER loop *)

Section Der.
Context `{OL : OpensslX509Laws}.

(** With more reads than bytes the loop ends, with every byte. *)
Lemma read_der_all fuel b buffer der :
  (length (BIO_pending b) < fuel)%nat -> length buffer = kBufSize ->
  read_der fuel b buffer der = Ok (Some (der ++ BIO_pending b)).
Proof.
  revert b buffer der. induction fuel as [|fuel IH]; intros b buffer der Hf Hbuf; [lia|].
  cbn [read_der]. destruct (decide (BIO_pending b = [])) as [He|He].
  - destruct (BIO_read_empty b kBufSize He) as (r & b' & -> & Hr).
    rewrite (proj2 (Z.ltb_ge _ _)) by done. by rewrite He, app_nil_r.
  - assert (0 < kBufSize)%nat as Hk by (unfold kBufSize; lia).
    destruct (BIO_read_some b kBufSize He Hk) as (b' & -> & Hb').
    assert (0 < length (BIO_pending b))%nat by (destruct (BIO_pending b); [done|cbn; lia]).
    set (chunk := take kBufSize (BIO_pending b)).
    assert (length chunk <= kBufSize)%nat by (subst chunk; rewrite length_take; lia).
    assert (0 < length chunk)%nat by (subst chunk; rewrite length_take; lia).
    unfold len. rewrite (proj2 (Z.ltb_lt _ _)) by lia.
    rewrite memcpy_at_in, bind_Ok_l by lia. rewrite Nat2Z.id, bind_read
      by (rewrite length_splice; lia).
    rewrite slice_splice_same by lia. rewrite IH.
    + rewrite Hb', <- app_assoc. subst chunk. by rewrite take_drop.
    + rewrite Hb', length_drop. lia.
    + rewrite length_splice; lia.
Qed.

(** C37. [X509CertPemToDer] always ends: its read loop, whatever the size of the
    certificate and of the chunks, returns the whole DER encoding, and it throws
    exactly when OpenSSL refuses one of the steps before it. *)
Theorem X509CertPemToDer_total pem :
  match BIO_new_mem_buf (s2b pem) ≫= PEM_read_bio_X509, BIO_new_mem with
  | Some c, Some b =>
      if decide ((i2d_X509_bio b c).1 = 0) then is_throw (X509CertPemToDer pem) = true
      else X509CertPemToDer pem = Ok (x509_der c)
  | _, _ => is_throw (X509CertPemToDer pem) = true
  end.
Proof.
  unfold X509CertPemToDer. destruct (BIO_new_mem_buf (s2b pem)) as [cb|]; [|done]. cbn [mbind option_bind].
  destruct (PEM_read_bio_X509 cb) as [c|]; [|done].
  destruct BIO_new_mem as [b|] eqn:Hb; [|done].
  destruct (i2d_X509_bio b c) as [r b'] eqn:Hi. cbn [fst]. case_decide as Hr.
  - by rewrite Hr.
  - rewrite bind_enforce by (by apply negb_true_iff, Z.eqb_neq).
    rewrite read_der_all by (rewrite ?length_replicate; lia || done).
    cbn. by rewrite (i2d_X509_bio_ok _ _ _ _ Hi Hr), (BIO_new_mem_empty _ Hb).
Qed.
End Der.

(** ** From a request to the peer *)

Section RoundTrip.
Context `{CL : CppcodecLaws} `{UL : Base64UrlLaws} `{RaL : RandLaws} `{!Keys} {KL : KeysLaws}
        `{OpensslX509} `{GL : GcmLaws}.
Context `{JH : ProtoJsonLaws JweHeader} `{JSH : ProtoJsonLaws JwsHeader} `{JS : ProtoJsonLaws Jws}.

(** Opening a JWE with the key of the certificate it was made for. *)
Definition open_jwe {T} `{ProtoJson T} (empty : T) (enc : EncryptedRequest) (key : string) : outcome T :=
  r ← ParseEncryptedResponse empty
        (mk_enc_response (mk_sf_status Code_OK "") enc.(request_message)) key;
  mret r.2.

(** What the encrypted part of a request is made of. *)
Lemma seal_opens cek iv aad text c t :
  length cek = 16%nat -> length iv = 12%nat -> seal cek iv aad text = Ok (c, t) ->
  GcmDecrypt Aes128Gcm cek iv c (s2b aad) t (length c) = inr (s2b text).
Proof.
  intros Hk Hi Hs. unfold seal in Hs.
  destruct (GcmEncrypt_ok Aes128Gcm cek iv (s2b text) (s2b aad) Hk Hi) as (c' & t' & E & _ & _ & Hd).
  rewrite length_s2b in E. change (Z.to_nat kMacBytes) with 16%nat in Hs. rewrite E in Hs.
  cbn in Hs. injection Hs as <- <-. done.
Qed.

Lemma rand_bytes_Ok n g bs g' : rand_bytes n g = (Ok bs, g') -> length bs = Z.to_nat n.
Proof.
  unfold rand_bytes. pose proof (length_RandBytes (Z.to_nat n) false g) as Hl.
  destruct (RandBytes _ _ g). by intros [= <- _].
Qed.

(** A message whose JSON was sealed is what the peer reads. *)
Lemma open_sealed {T U} `{ProtoJsonLaws T} `{ProtoJson U} (m empty : T) (request : U)
    private_key cert peer_cert sig g enc g' peer_private pk sk text :
  LoadX509CertPublicKeyFromBuf peer_cert = inr pk -> LoadPemKey peer_private = inr sk ->
  key_pair pk sk ->
  GenEncryptedRequest request private_key cert peer_cert sig g = (Ok enc, g') ->
  PB2JSON m = Ok text ->
  (forall request_str, PB2JSON request = Ok request_str ->
     (if sig then sign_request request_str private_key cert else Ok request_str) = Ok text) ->
  open_jwe empty enc peer_private = Ok m.
Proof.
  intros Hpk Hsk Hpair Hg Hm Htext. unfold GenEncryptedRequest in Hg. inv_st.
  match goal with H : PB2JSON request = Ok ?s |- _ => specialize (Htext s H) end.
  match goal with H : PB2JSON (mk_jwe_header _ _) = _ |- _ => rename H into Hh end.
  match goal with H : rand_bytes kContentKeyBytes _ = (Ok ?k, _) |- _ =>
    apply rand_bytes_Ok in H as Hcek; rename k into cek end.
  match goal with H : rand_bytes kIvBytes _ = (Ok ?k, _) |- _ =>
    apply rand_bytes_Ok in H as Hiv; rename k into iv end.
  match goal with H : call (LoadX509CertPublicKeyFromBuf _) = _ |- _ =>
    rewrite Hpk in H; injection H as <- end.
  match goal with H : rsa_encrypt _ _ _ = _ |- _ => rename H into Hr end.
  unfold rsa_encrypt in Hr. destruct (RsaEncrypt _ _ _) as [[e|ek] g1] eqn:Er; [done|].
  injection Hr as <- <-.
  match goal with H : (let '(_, _) := ?x in _) _ = _ |- _ =>
    destruct x as [cipher tag]; injection H as <- <- end.
  match goal with H : (if sig then _ else _) _ = (Ok (cipher, tag), _) |- _ => rename H into Hseal end.
  assert (seal cek iv (b64url_encode []) text = Ok (cipher, tag)) as Hs
    by (destruct sig; inv_st; congruence).
  apply seal_opens in Hs as Hd; [|done..].
  unfold open_jwe, ParseEncryptedResponse. cbn -[b64url_encode].
  rewrite !b64url_decode_encode. cbn [call]. rewrite !bind_Ok_l.
  rewrite b2s_s2b, (PB2JSON_JSON2PB _ _ Hh), !bind_Ok_l.
  rewrite Hsk. cbn [call]. rewrite bind_Ok_l.
  rewrite (RsaDecrypt_Encrypt _ _ _ _ _ _ Hpair Er). cbn [call]. rewrite bind_Ok_l.
  rewrite b64url_encode_nil in Hd. cbn in Hd. rewrite Hd. cbn [call]. rewrite bind_Ok_l.
  by rewrite b2s_s2b, (PB2JSON_JSON2PB _ _ Hm), bind_Ok_l.
Qed.
(** What a JWS shows its reader: the request, the certificate of the sender and
    a signature of both under the sender's key. *)
Definition jws_vouches {T} `{ProtoJson T} (jws : Jws) (request : T) (private_key cert : string)
    : Prop :=
  exists payload header sig own der,
    b64url_decode jws.(jws_payload) = inr (s2b payload) /\ JSON2PB payload = Ok request /\
    b64url_decode jws.(jws_protected_header) = inr (s2b header) /\
    JSON2PB header = Ok (mk_jws_header kRs256 [base64_encode der]) /\
    X509CertPemToDer cert = Ok der /\
    LoadPemKey private_key = inr own /\ b64url_decode jws.(jws_signature) = inr sig /\
    forall pub, key_pair pub own ->
      RsaVerify pub (s2b (jws.(jws_protected_header) +:+ "." +:+ jws.(jws_payload))) sig = true.

Lemma sign_request_vouches {T} `{ProtoJsonLaws T} (request : T) request_str private_key cert text :
  PB2JSON request = Ok request_str -> sign_request request_str private_key cert = Ok text ->
  exists jws, PB2JSON jws = Ok text /\ jws_vouches jws request private_key cert.
Proof.
  intros Hr Hs. unfold sign_request in Hs. inv_ok. eexists. split; [eassumption|].
  repeat match goal with H : call _ = Ok _ |- _ => apply call_Ok in H end.
  eexists request_str, _, _, _, _. cbn [jws_payload jws_protected_header jws_signature].
  rewrite !b64url_decode_encode. split; [done|]. split; [by apply PB2JSON_JSON2PB|].
  split; [done|]. split; [by apply PB2JSON_JSON2PB|]. split; [done|]. split; [done|].
  split; [done|]. intros pub Hp. by eapply RsaVerify_Sign.
Qed.

Lemma signed_request_opens {T} `{ProtoJsonLaws T} (request : T) (empty_jws : Jws)
    private_key cert peer_cert g enc g' peer_private pk sk :
  LoadX509CertPublicKeyFromBuf peer_cert = inr pk -> LoadPemKey peer_private = inr sk ->
  key_pair pk sk ->
  GenEncryptedRequest request private_key cert peer_cert true g = (Ok enc, g') ->
  exists jws, open_jwe empty_jws enc peer_private = Ok jws /\
    jws_vouches jws request private_key cert.
Proof.
  intros Hpk Hsk Hpair Hg. pose proof Hg as Hg'. unfold GenEncryptedRequest in Hg'.
  apply st_bind_Ok in Hg' as (text & g1 & Hp & Hg'). apply pure_Ok in Hp as [Hp ->]. inv_st.
  match goal with H : sign_request _ _ _ = Ok ?t |- _ => rename t into jws_str;
    destruct (sign_request_vouches _ _ _ _ _ Hp H) as (jws & Hj & Hv); rename H into Hs end.
  exists jws. split; [|done].
  apply (open_sealed jws empty_jws request private_key cert peer_cert true g enc g'
           peer_private pk sk jws_str); [done..|].
  intros s Hs'. rewrite Hp in Hs'. by injection Hs' as <-.
Qed.

Lemma GenEncryptedRequest_has_signature {T} `{ProtoJson T} (request : T) private_key cert peer_cert
    sig g enc g' :
  GenEncryptedRequest request private_key cert peer_cert sig g = (Ok enc, g') ->
  enc.(has_signature) = sig.
Proof.
  unfold GenEncryptedRequest. intros Hg. inv_st.
  match goal with H : (let '(_, _) := ?x in _) _ = _ |- _ => destruct x; by injection H as <- end.
Qed.

(** C17. The envelope of a request: whoever holds the private key of the peer's
    certificate reads, by the steps of [ParseEncryptedResponse], exactly the
    request, or for a signed one a JWS whose payload is the request, whose
    header carries the sender's certificate and whose signature verifies under
    the sender's public key. *)
Theorem GenEncryptedRequest_opens {T} `{ProtoJsonLaws T} (request empty : T) (empty_jws : Jws)
    private_key cert peer_cert sig g enc g' peer_private pk sk :
  LoadX509CertPublicKeyFromBuf peer_cert = inr pk -> LoadPemKey peer_private = inr sk ->
  key_pair pk sk ->
  GenEncryptedRequest request private_key cert peer_cert sig g = (Ok enc, g') ->
  enc.(has_signature) = sig /\
  if sig then exists jws, open_jwe empty_jws enc peer_private = Ok jws /\
                jws_vouches jws request private_key cert
  else open_jwe empty enc peer_private = Ok request.
Proof.
  intros Hpk Hsk Hpair Hg. split; [by eapply GenEncryptedRequest_has_signature|].
  destruct sig; [by eapply signed_request_opens|]. pose proof Hg as Hg'.
  unfold GenEncryptedRequest in Hg'.
  apply st_bind_Ok in Hg' as (text & g1 & Hp & _). apply pure_Ok in Hp as [Hp ->].
  apply (open_sealed request empty request private_key cert peer_cert false g enc g'
           peer_private pk sk text); [done..|].
  intros s Hs'. congruence.
Qed.

Lemma ParseEncryptedResponse_status {T} `{ProtoJson T} (empty : T) enc_res key status response :
  ParseEncryptedResponse empty enc_res key = Ok (status, response) ->
  status = enc_res.(response_status).
Proof. unfold ParseEncryptedResponse. intros Hp. case_match; inv_ok; congruence. Qed.

(** The protected header of a JWE is parsed and not used: any other header that
    parses gives the same response. *)
Lemma ParseEncryptedResponse_header {T} `{ProtoJson T} (empty : T) status jwe header key :
  (exists bs h, b64url_decode jwe.(jwe_protected_header) = inr bs /\
     JSON2PB (T := JweHeader) (b2s bs) = Ok h) ->
  (exists bs h, b64url_decode header = inr bs /\ JSON2PB (T := JweHeader) (b2s bs) = Ok h) ->
  ParseEncryptedResponse empty (mk_enc_response status jwe) key =
  ParseEncryptedResponse empty (mk_enc_response status
    (mk_jwe header jwe.(jwe_encrypted_key) jwe.(jwe_iv) jwe.(jwe_ciphertext) jwe.(jwe_tag)
       jwe.(jwe_aad))) key.
Proof.
  intros (b1 & h1 & E1 & F1) (b2 & h2 & E2 & F2). unfold ParseEncryptedResponse.
  cbn [response_status response_message jwe_protected_header jwe_encrypted_key jwe_iv
       jwe_ciphertext jwe_tag jwe_aad].
  case_match; [done|]. rewrite E1, E2. cbn [call]. by rewrite !bind_Ok_l, F1, F2.
Qed.
End RoundTrip.

(** ** Witnesses *)

Module EnvelopeWitness.
#[local] Existing Instances sample_cppcodec sample_cppcodec_laws sample_b64url sample_b64url_laws
  sample_rand sample_rand_laws sample_keys sample_keys_laws sample_x509 sample_x509_laws
  sample_gcm sample_gcm_laws.

Definition g0 : @rng sample_rand := tt.
Definition peer_key : @pkey sample_rand sample_keys := "peer".
Definition request : SfStatus := mk_sf_status 7 "request".
Definition header : JwsHeader := mk_jws_header kRs256 [hex_encode (s2b "C")].
Definition jws : Jws :=
  let ph := hex_encode (s2b "H") in
  let payload := hex_encode (s2b "s") in
  mk_jws ph payload (hex_encode (s2b (ph +:+ "." +:+ payload))).

#[local] Instance j1 : ProtoJson SfStatus := sample_json [("s", request)].
#[local] Instance j2 : ProtoJson JweHeader := sample_json [("E", mk_jwe_header kRsaOaep kAes128Gcm)].
#[local] Instance j3 : ProtoJson JwsHeader := sample_json [("H", header)].
#[local] Instance j4 : ProtoJson Jws := sample_json [("J", jws)].
#[local] Instance j1_laws : ProtoJsonLaws SfStatus.
Proof. apply sample_json_laws, NoDup_singleton. Qed.
#[local] Instance j2_laws : ProtoJsonLaws JweHeader.
Proof. apply sample_json_laws, NoDup_singleton. Qed.
#[local] Instance j3_laws : ProtoJsonLaws JwsHeader.
Proof. apply sample_json_laws, NoDup_singleton. Qed.
#[local] Instance j4_laws : ProtoJsonLaws Jws.
Proof. apply sample_json_laws, NoDup_singleton. Qed.

Definition enc (sig : bool) : EncryptedRequest :=
  mk_enc_request sig (mk_jwe (hex_encode (s2b "E")) (hex_encode (zero_bytes 16))
    (hex_encode (zero_bytes 12)) (hex_encode (s2b (if sig then "J" else "s")))
    (hex_encode (zero_bytes 16)) "").

Lemma envelope_run sig : GenEncryptedRequest request "me" "C" "peer" sig g0 = (Ok (enc sig), g0).
Proof. destruct sig; vm_compute; reflexivity. Qed.

Lemma GenEncryptedRequest_opens_witness :
  open_jwe (mk_sf_status 0 "") (enc false) "peer" = Ok request /\
  exists j, open_jwe (mk_jws "" "" "") (enc true) "peer" = Ok j /\ jws_vouches j request "me" "C".
Proof.
  split.
  - apply (GenEncryptedRequest_opens request (mk_sf_status 0 "") (mk_jws "" "" "")
      "me" "C" "peer" false g0 (enc false) g0 "peer" peer_key peer_key);
      [reflexivity|reflexivity|reflexivity|apply envelope_run].
  - apply (GenEncryptedRequest_opens request (mk_sf_status 0 "") (mk_jws "" "" "")
      "me" "C" "peer" true g0 (enc true) g0 "peer" peer_key peer_key);
      [reflexivity|reflexivity|reflexivity|apply envelope_run].
Defined.

Lemma X509CertPemToDer_total_witness : X509CertPemToDer "CERT" = Ok (s2b "CERT").
Proof. exact (X509CertPemToDer_total "CERT"). Defined.
End EnvelopeWitness.
