(* ===== verification/CapsuleManagerClient.v ===== *)
(** * The client of the capsule manager

    [trustflow/proxy/data_capsule_proxy/capsule_manager_client.cc].  The gRPC
    service is a parameter: a call takes the state of the world outside to the
    next one.  Deadlines and message size limits are options of gRPC. *)

From S2P Require Import Prelude CppStd External Common Samples Verifier Dcap Sgx2Verifier TdxVerifier Hygon CsvVerifier VerifierWrapper YaclCrypto Host IntelGenerator CsvGenerator GeneratorWrapper ProxyCommon RaProxy CryptoFile Jose Envelope.

(** ** Messages *)

Record Resource := mk_resource { resource_uri : string; columns : list string; attrs : string }.

Record ResourceRequest := mk_resource_request {
  initiator_party_id : string;
  scope : string;
  op_name : string;
  resources : list Resource;
  env : string;
  global_attrs : string
}.

Record DataKey := mk_data_key { data_key_b64 : string }.

(** A TLS asset, with the two fields the code reads. *)
Class TlsAssets := {
  TlsAsset : Type;
  default_tls_asset : TlsAsset;
  tls_cert : TlsAsset -> string;
  tls_private_key : TlsAsset -> string
}.

Record CmGetRaCertRequest := mk_cm_ra_request { cm_nonce : string }.
Record CmGetRaCertResponse := mk_cm_ra_response {
  cm_status : SfStatus;
  cm_attestation_report : option UnifiedAttestationReport;
  cm_cert : string
}.

Record GetDataKeysRequest := mk_data_keys_request {
  dk_attestation_report : option UnifiedAttestationReport;
  dk_cert : string;
  dk_resource_request : ResourceRequest
}.
Record GetDataKeysResponse := mk_data_keys_response { data_keys : list DataKey }.

Record GetTlsAssetRequest := mk_tls_asset_request {
  ta_attestation_report : option UnifiedAttestationReport;
  ta_cert : string;
  ta_resource_request : ResourceRequest
}.
Record GetTlsAssetResponse `{TlsAssets} := mk_tls_asset_response { tls_asset : TlsAsset }.

Record ResultDataKeyBody := mk_result_key_body {
  body_scope : string;
  body_resource_uri : string;
  body_data_key_b64 : string;
  body_ancestor_uuids : list string
}.
Record CreateResultDataKeyRequest := mk_result_key_request {
  rk_attestation_report : option UnifiedAttestationReport;
  rk_body : ResultDataKeyBody
}.

#[global] Instance Resource_eq_dec : EqDecision Resource.
Proof. solve_decision. Defined.
#[global] Instance ResourceRequest_eq_dec : EqDecision ResourceRequest.
Proof. solve_decision. Defined.
#[global] Instance GetDataKeysRequest_eq_dec : EqDecision GetDataKeysRequest.
Proof. solve_decision. Defined.
#[global] Instance DataKey_eq_dec : EqDecision DataKey.
Proof. solve_decision. Defined.
#[global] Instance GetDataKeysResponse_eq_dec : EqDecision GetDataKeysResponse.
Proof. solve_decision. Defined.
#[global] Instance ResultDataKeyBody_eq_dec : EqDecision ResultDataKeyBody.
Proof. solve_decision. Defined.
#[global] Instance CreateResultDataKeyRequest_eq_dec : EqDecision CreateResultDataKeyRequest.
Proof. solve_decision. Defined.

(** ** The service, as a gRPC stub over a channel to an endpoint *)

(** A channel that [grpc::CreateCustomChannel] makes with the arguments the code
    sets. *)
Record Channel := mk_channel {
  ch_endpoint : string;
  ch_max_receive_message_size : Z;
  ch_grpclb_fallback_timeout : Z
}.

Record GrpcStatus := mk_grpc_status { error_code : Z; error_message : string }.
Definition grpc_ok (s : GrpcStatus) : bool := s.(error_code) =? 0.

(** A call goes over a channel and has a deadline, a time of the system clock. *)
Class CapsuleManagerStub `{Host} := {
  stub_GetRaCert :
    Channel -> Z -> CmGetRaCertRequest -> dev -> (GrpcStatus * CmGetRaCertResponse) * dev;
  stub_GetDataKeys :
    Channel -> Z -> EncryptedRequest -> dev -> (GrpcStatus * EncryptedResponse) * dev;
  stub_GetTlsAsset :
    Channel -> Z -> EncryptedRequest -> dev -> (GrpcStatus * EncryptedResponse) * dev;
  stub_CreateResultDataKey :
    Channel -> Z -> EncryptedRequest -> dev -> (GrpcStatus * EncryptedResponse) * dev
}.

(** ** The client *)

Module CapsuleManagerClient.

Definition kNonceBytes : Z := 16.
Definition kGrpcMaxMsgSizeMb : Z := 1024.
Definition kGrpcTimeoutMs : Z := 5 * 1000.
Definition kTeePlatSim : string := "sim".

(** [capsule_manager_stub_] is its channel. *)
Record Client := mk_client { stub_channel : Channel; capsule_manager_cert_ : string }.

Definition new_channel (capsule_manager_endpoint : string) : Channel :=
  mk_channel capsule_manager_endpoint (u32 (kGrpcMaxMsgSizeMb * 1024 * 1024)) kGrpcTimeoutMs.

Section Model.
Context `{Absl} `{Hashes} `{Cppcodec} `{Base64Url} `{OpensslX509} `{Gcm} `{TlsAssets}.
Context `{ProtoJson DcapReport} `{ProtoJson IntelTdxReport} `{ProtoJson SgxQlQveCollateral}
        `{ProtoJson HygonCsvReport} `{ProtoJson HygonCsvCertChain}.
Context `{ProtoJson JweHeader} `{ProtoJson JwsHeader} `{ProtoJson Jws}.
Context `{ProtoJson GetDataKeysRequest} `{ProtoJson GetDataKeysResponse}
        `{ProtoJson GetTlsAssetRequest} `{ProtoJson GetTlsAssetResponse}
        `{ProtoJson CreateResultDataKeyRequest}.
Context `{ProtoWire ResourceRequest} `{ProtoWire ResultDataKeyBody}.
Context `{Host} `{!CapsuleManagerStub} `{Rand} `{!Keys} `{ReportDataSizes} `{HygonLayout}.

Abbreviation HS := host_state.

(** Code that needs only random bytes. *)
Definition with_rng {A} (m : st rng A) : st HS A := fun h =>
  let '(r, g) := m h.(h_rng) in (r, mk_host h.(h_fds) h.(h_live) h.(h_dev) g).

Definition VerifySfResponseStatus (status : SfStatus) : outcome unit :=
  YACL_ENFORCE (status.(sf_code) =? Code_OK) "Call service failed, error code: {}, message: {}"
    [FInt status.(sf_code); FStr status.(sf_message)].

Definition enforce_grpc (fmt : string) (status : GrpcStatus) : outcome unit :=
  YACL_ENFORCE (grpc_ok status) fmt [FInt status.(error_code); FStr status.(error_message)].

(** [context.set_deadline(system_clock::now() + milliseconds(kGrpcTimeoutMs))]. *)
Definition call_deadline : st HS Z :=
  now ← host_call system_clock_now;
  mret (now + kGrpcTimeoutMs).

(** Returns the certificate and the client with it. *)
Definition GetRaCert (self : Client) : st HS (string * Client) :=
  nonce ← with_rng (rand_bytes kNonceBytes);
  let request := mk_cm_ra_request (b64url_encode nonce) in
  deadline ← call_deadline;
  '(status, response) ← host_call (stub_GetRaCert self.(stub_channel) deadline request);
  _ ← pure (enforce_grpc "Calling GetRaCert failed, error code: {}, message: {}" status);
  _ ← pure (VerifySfResponseStatus response.(cm_status));
  mret (response.(cm_cert), mk_client self.(stub_channel) response.(cm_cert)).

(** The constructor. *)
Definition New (capsule_manager_endpoint : string) : st HS Client :=
  '(_, self) ← GetRaCert (mk_client (new_channel capsule_manager_endpoint) "");
  mret self.

Definition enforce_cert (self : Client) : outcome unit :=
  YACL_ENFORCE (negb (is_empty self.(capsule_manager_cert_)))
    "capsule_manager_cert not found. you should call GetRaCert() before other capsule_manager's interface"
    [].

Definition serialize {T} `{ProtoWire T} (m : T) (failure : string) : outcome string :=
  match SerializeToString m with
  | Some s => Ok s
  | None => Throw (mk_exn EnforceNotMet failure [])
  end.

(** The signed, encrypted request and the answer to it. *)
Definition send_encrypted {T} `{ProtoJson T} (self : Client)
    (stub : Channel -> Z -> EncryptedRequest -> dev -> (GrpcStatus * EncryptedResponse) * dev)
    (failure : string) (request : T) (private_key cert : string) : st HS EncryptedResponse :=
  enc_req ← with_rng (GenEncryptedRequest request private_key cert
                        self.(capsule_manager_cert_) true);
  deadline ← call_deadline;
  '(status, enc_res) ← host_call (stub self.(stub_channel) deadline enc_req);
  _ ← pure (enforce_grpc failure status);
  mret enc_res.

(** The report over the certificate and the resource request, none in
    simulation. *)
Definition resource_report (b : build_flags) (plat cert : string) (resource_req : ResourceRequest)
    : st HS (option UnifiedAttestationReport) :=
  if negb (String.eqb plat kTeePlatSim) then
    serialized ← pure (serialize resource_req "Serializing resource_req failed");
    report ← GenRaReport b (s2b (cert +:+ "." +:+ serialized));
    mret (Some report)
  else mret None.

Definition GetDataKeys (b : build_flags) (self : Client) (plat cert private_key : string)
    (resource_req : ResourceRequest) : st HS (list DataKey) :=
  _ ← pure (enforce_cert self);
  report ← resource_report b plat cert resource_req;
  enc_res ← send_encrypted self stub_GetDataKeys
              "Calling GetDataKeys failed, error code: {}, message: {}"
              (mk_data_keys_request report cert resource_req) private_key cert;
  '(res_status, response) ← pure (ParseEncryptedResponse (mk_data_keys_response []) enc_res
                                    private_key);
  _ ← pure (VerifySfResponseStatus res_status);
  mret response.(data_keys).

Definition GetTlsAsset (b : build_flags) (self : Client) (plat cert private_key : string)
    (resource_req : ResourceRequest) : st HS TlsAsset :=
  _ ← pure (enforce_cert self);
  report ← resource_report b plat cert resource_req;
  enc_res ← send_encrypted self stub_GetTlsAsset
              "Calling GetDataKeys failed, error code: {}, message: {}"
              (mk_tls_asset_request report cert resource_req) private_key cert;
  '(res_status, response) ← pure (ParseEncryptedResponse
                                    (mk_tls_asset_response _ default_tls_asset) enc_res private_key);
  _ ← pure (VerifySfResponseStatus res_status);
  mret response.(tls_asset).

Definition CreateResultDataKey (b : build_flags) (self : Client) (plat cert private_key : string)
    (body : ResultDataKeyBody) : st HS unit :=
  _ ← pure (enforce_cert self);
  report ←
    (if negb (String.eqb plat kTeePlatSim) then
       serialized_body ← pure (serialize body "Serializing CreateResultDataKeyRequest body failed");
       report ← GenRaReport b (s2b serialized_body);
       mret (Some report)
     else mret None);
  enc_res ← send_encrypted self stub_CreateResultDataKey
              "Calling CreateResultDataKey failed, error code: {}, message: {}"
              (mk_result_key_request report body) private_key cert;
  pure (VerifySfResponseStatus enc_res.(response_status)).
End Model.
End CapsuleManagerClient.

(** ** What a call sends and what it returns *)

Section Facts.
Context `{Absl} `{Hashes} `{CL : CppcodecLaws} `{UL : Base64UrlLaws} `{OpensslX509} `{GL : GcmLaws}
        `{TlsAssets}.
Context `{ProtoJson DcapReport} `{ProtoJson IntelTdxReport} `{ProtoJson SgxQlQveCollateral}
        `{ProtoJson HygonCsvReport} `{ProtoJson HygonCsvCertChain}.
Context `{JH : ProtoJsonLaws JweHeader} `{JSH : ProtoJsonLaws JwsHeader} `{JS : ProtoJsonLaws Jws}.
Context `{JK : ProtoJsonLaws GetDataKeysRequest} `{ProtoJson GetDataKeysResponse}
        `{ProtoJson GetTlsAssetRequest} `{ProtoJson GetTlsAssetResponse}
        `{JR : ProtoJsonLaws CreateResultDataKeyRequest}.
Context `{ProtoWire ResourceRequest} `{ProtoWire ResultDataKeyBody}.
Context `{Host} `{!CapsuleManagerStub} `{RaL : RandLaws} `{!Keys} {KL : KeysLaws}
        `{ReportDataSizes} `{HygonLayout}.
Import CapsuleManagerClient.

Lemma with_rng_Ok {A} (m : st rng A) (h : host_state) a h' :
  with_rng m h = (Ok a, h') -> exists g, m h.(h_rng) = (Ok a, g).
Proof. unfold with_rng. destruct (m _) as [r g]. intros [= -> _]. by exists g. Qed.

Lemma host_call_Ok {A} (f : dev -> A * dev) (h : host_state) a h' :
  host_call f h = (Ok a, h') -> exists d', f h.(h_dev) = (a, d').
Proof. unfold host_call. destruct (f _) as [x d]. intros [= -> _]. by exists d. Qed.

Lemma call_deadline_Ok (h : host_state) deadline h' :
  call_deadline h = (Ok deadline, h') ->
  exists now, system_clock_now h.(h_dev) = (now, h'.(h_dev)) /\ deadline = now + kGrpcTimeoutMs.
Proof.
  unfold call_deadline, mbind, st_bind, host_call. destruct (system_clock_now _) as [now d].
  intros [= <- <-]. by exists now.
Qed.

(** The service received, within five seconds of the clock and accepted at the
    transport, a signed envelope that the holder of the key behind
    [capsule_manager_cert_] opens to [request]. *)
Definition delivered {T} `{ProtoJson T} (self : Client)
    (stub : Channel -> Z -> EncryptedRequest -> dev -> (GrpcStatus * EncryptedResponse) * dev)
    (request : T) (private_key cert : string) (enc_res : EncryptedResponse) : Prop :=
  exists enc_req status now d0 d d',
    system_clock_now d0 = (now, d) /\
    stub self.(stub_channel) (now + 5000) enc_req d = ((status, enc_res), d') /\
    grpc_ok status = true /\
    enc_req.(has_signature) = true /\
    forall peer_private pk sk,
      LoadX509CertPublicKeyFromBuf self.(capsule_manager_cert_) = inr pk ->
      LoadPemKey peer_private = inr sk -> key_pair pk sk ->
      exists jws, open_jwe (mk_jws "" "" "") enc_req peer_private = Ok jws /\
        jws_vouches jws request private_key cert.

Lemma send_encrypted_delivers {T} `{ProtoJsonLaws T} self stub failure (request : T) private_key
    cert (h : host_state) enc_res h' :
  send_encrypted self stub failure request private_key cert h = (Ok enc_res, h') ->
  delivered self stub request private_key cert enc_res.
Proof.
  unfold send_encrypted. intros Hs. inv_st.
  match goal with H : (let '(_, _) := ?x in _) _ = _ |- _ => destruct x as [status er] end. inv_st.
  match goal with H : with_rng _ _ = _ |- _ => apply with_rng_Ok in H as [g Hg] end.
  match goal with H : host_call _ _ = _ |- _ => apply host_call_Ok in H as [d' Hd] end.
  match goal with H : enforce_grpc _ _ = Ok _ |- _ => apply YACL_ENFORCE_Ok in H as Hok end.
  match goal with H : call_deadline _ = _ |- _ => apply call_deadline_Ok in H as (now & Hnow & ->) end.
  eexists _, _, now, _, _, _. split; [exact Hnow|]. split; [exact Hd|]. split; [done|].
  split; [by eapply GenEncryptedRequest_has_signature|].
  intros peer_private pk sk Hpk Hsk Hpair. by eapply signed_request_opens.
Qed.

(** The report of a request: none in simulation, otherwise one that
    [GenRaReport] made for [user_data]. *)
Definition report_for (b : build_flags) (plat : string) (user_data : option string)
    (report : option UnifiedAttestationReport) : Prop :=
  if String.eqb plat kTeePlatSim then report = None
  else exists s r (h1 h2 : host_state),
    user_data = Some s /\ GenRaReport b (s2b s) h1 = (Ok r, h2) /\ report = Some r.

Lemma serialize_Ok {T} `{ProtoWire T} (m : T) failure s :
  serialize m failure = Ok s -> SerializeToString m = Some s.
Proof. unfold serialize. case_match; [by intros [= ->]|done]. Qed.

Lemma attested_Ok {T} `{ProtoWire T} b plat (m : T) failure (f : string -> string) (h : host_state) report h' :
  (if negb (String.eqb plat kTeePlatSim) then
     s ← pure (serialize m failure);
     r ← GenRaReport b (s2b (f s));
     mret (Some r)
   else mret None) h = (Ok report, h') ->
  report_for b plat (f <$> SerializeToString m) report.
Proof.
  unfold report_for. destruct (String.eqb plat kTeePlatSim); cbn [negb].
  - by intros [= <- _].
  - intros Hr. inv_st. match goal with H : serialize _ _ = _ |- _ => apply serialize_Ok in H as -> end.
    subst. eexists _, _, _, _. split; [done|]. by split.
Qed.

Lemma VerifySfResponseStatus_Ok status u : VerifySfResponseStatus status = Ok u ->
  status.(sf_code) = Code_OK.
Proof. intros Hs. apply YACL_ENFORCE_Ok in Hs. by apply Z.eqb_eq. Qed.

(** What [GetDataKeys] has done when it returns. *)
Lemma GetDataKeys_exchange b self plat cert private_key (h : host_state) req keys h' :
  GetDataKeys b self plat cert private_key req h = (Ok keys, h') ->
  exists report enc_res response,
    report_for b plat ((fun s => cert +:+ "." +:+ s) <$> SerializeToString req) report /\
    delivered self stub_GetDataKeys (mk_data_keys_request report cert req) private_key cert
      enc_res /\
    enc_res.(response_status).(sf_code) = Code_OK /\
    ParseEncryptedResponse (mk_data_keys_response []) enc_res private_key
      = Ok (enc_res.(response_status), response) /\
    keys = response.(data_keys).
Proof.
  intros Hg. unfold GetDataKeys in Hg. inv_st.
  match goal with H : (let '(_, _) := ?x in _) _ = _ |- _ => destruct x as [rs response] end. inv_st.
  match goal with H : send_encrypted _ _ _ _ _ _ _ = _ |- _ =>
    apply send_encrypted_delivers in H as Hdel end.
  match goal with H : resource_report _ _ _ _ _ = (Ok ?r, _) |- _ => rename r into report;
    rename H into Hrep end.
  match goal with H : ParseEncryptedResponse _ ?e _ = _ |- _ => rename e into enc_res, H into Hp end.
  pose proof (ParseEncryptedResponse_status _ _ _ _ _ Hp) as ->.
  match goal with H : VerifySfResponseStatus _ = _ |- _ => apply VerifySfResponseStatus_Ok in H as Hok end.
  exists report, enc_res, response. split; [|done].
  exact (attested_Ok b plat req _ (fun s => cert +:+ "." +:+ s) _ _ _ Hrep).
Qed.

(** What [CreateResultDataKey] has done when it returns. *)
Lemma CreateResultDataKey_exchange b self plat cert private_key (h : host_state) body h' :
  CreateResultDataKey b self plat cert private_key body h = (Ok tt, h') ->
  exists report enc_res,
    report_for b plat (SerializeToString body) report /\
    delivered self stub_CreateResultDataKey (mk_result_key_request report body) private_key cert
      enc_res /\
    enc_res.(response_status).(sf_code) = Code_OK.
Proof.
  intros Hg. unfold CreateResultDataKey in Hg. inv_st.
  match goal with H : send_encrypted _ _ _ _ _ _ _ = _ |- _ =>
    apply send_encrypted_delivers in H as Hdel end.
  match goal with H : VerifySfResponseStatus _ = _ |- _ => apply VerifySfResponseStatus_Ok in H as Hok end.
  eexists _, _. split; [|by split].
  match goal with H : (if _ then _ else _) _ = _ |- _ => apply (attested_Ok b plat body _ (fun s => s)) in H as Hr end.
  by destruct (SerializeToString body).
Qed.

(** C16. Keys from the capsule manager: [GetDataKeys] returns keys only after
    the service accepted a signed envelope that the holder of the capsule
    manager's key opens to a request with this certificate, this resource
    request and, outside simulation, a report over the SHA-256 of both; the
    keys are those of the response that the own private key decrypts.
    [CreateResultDataKey] returns only after the service answered OK to such an
    envelope with the body and a report over it. *)
Theorem client_exchange b self plat cert private_key (h : host_state) :
  (forall req keys h', GetDataKeys b self plat cert private_key req h = (Ok keys, h') ->
     exists report enc_res response,
       report_for b plat ((fun s => cert +:+ "." +:+ s) <$> SerializeToString req) report /\
       delivered self stub_GetDataKeys (mk_data_keys_request report cert req) private_key cert
         enc_res /\
       enc_res.(response_status).(sf_code) = Code_OK /\
       ParseEncryptedResponse (mk_data_keys_response []) enc_res private_key
         = Ok (enc_res.(response_status), response) /\
       keys = response.(data_keys)) /\
  (forall body h', CreateResultDataKey b self plat cert private_key body h = (Ok tt, h') ->
     exists report enc_res,
       report_for b plat (SerializeToString body) report /\
       delivered self stub_CreateResultDataKey (mk_result_key_request report body) private_key cert
         enc_res /\
       enc_res.(response_status).(sf_code) = Code_OK).
Proof.
  split; intros; [by eapply GetDataKeys_exchange|by eapply CreateResultDataKey_exchange].
Qed.

(** The constructor takes the certificate of any OK answer: the attestation
    report of the answer and the nonce of the request have no part in it. *)
Lemma New_takes_any_report endpoint (h : host_state) bs g now d status response d' :
  RandBytes (Z.to_nat kNonceBytes) false h.(h_rng) = (bs, g) ->
  system_clock_now h.(h_dev) = (now, d) ->
  stub_GetRaCert (new_channel endpoint) (now + kGrpcTimeoutMs) (mk_cm_ra_request (b64url_encode bs)) d
    = ((status, response), d') ->
  grpc_ok status = true -> response.(cm_status).(sf_code) = Code_OK ->
  (New endpoint h).1 = Ok (mk_client (new_channel endpoint) response.(cm_cert)).
Proof.
  intros Hr Hn Hs Hok Hc.
  unfold New, GetRaCert, call_deadline, mbind, st_bind, with_rng, rand_bytes, host_call.
  rewrite Hr. cbn [h_dev stub_channel]. rewrite Hn. unfold mret, st_ret. cbn [h_dev]. rewrite Hs. unfold enforce_grpc, VerifySfResponseStatus, pure.
  by rewrite Hok, Hc.
Qed.
End Facts.

(** ** Witnesses *)

Module ClientWitness.
Import CapsuleManagerClient.
#[local] Existing Instances sample_absl sample_hashes sample_cppcodec sample_cppcodec_laws
  sample_b64url sample_b64url_laws sample_rand sample_rand_laws sample_keys sample_keys_laws
  sample_x509 sample_gcm sample_gcm_laws sample_report_data sample_hygon.
#[local] Instance host : Host := sample_host 0 "".

Definition req : ResourceRequest := mk_resource_request "me" "s" "op" [mk_resource "u" [] ""] "" "".
Definition body : ResultDataKeyBody := mk_result_key_body "s" "u" "a2V5" ["a"].
Definition key : DataKey := mk_data_key "a2V5".
Definition jws_of (payload : string) : Jws :=
  let ph := hex_encode (s2b "H") in
  let payload := hex_encode (s2b payload) in
  mk_jws ph payload (hex_encode (s2b (ph +:+ "." +:+ payload))).

#[local] Instance assets : TlsAssets := {| TlsAsset := unit; default_tls_asset := tt; tls_cert _ := ""; tls_private_key _ := "" |}.
#[local] Instance wire {T} : ProtoWire T := {| SerializeToString _ := None |}.
#[local] Instance j_none {T} : ProtoJson T | 100 :=
  {| MessageToJsonString _ := inl ""; JsonStringToMessage _ := inl "" |}.
#[local] Instance j1 : ProtoJson GetDataKeysRequest :=
  sample_json [("Q", mk_data_keys_request None "C" req)].
#[local] Instance j2 : ProtoJson JweHeader := sample_json [("E", mk_jwe_header kRsaOaep kAes128Gcm)].
#[local] Instance j3 : ProtoJson JwsHeader :=
  sample_json [("H", mk_jws_header kRs256 [hex_encode (s2b "C")])].
#[local] Instance j4 : ProtoJson Jws := sample_json [("J", jws_of "Q"); ("K", jws_of "B")].
#[local] Instance j5 : ProtoJson GetDataKeysResponse :=
  sample_json [("R", mk_data_keys_response [key])].
#[local] Instance j6 : ProtoJson CreateResultDataKeyRequest :=
  sample_json [("B", mk_result_key_request None body)].
#[local] Instance j1_laws : ProtoJsonLaws GetDataKeysRequest.
Proof. apply sample_json_laws, NoDup_singleton. Qed.
#[local] Instance j2_laws : ProtoJsonLaws JweHeader.
Proof. apply sample_json_laws, NoDup_singleton. Qed.
#[local] Instance j3_laws : ProtoJsonLaws JwsHeader.
Proof. apply sample_json_laws, NoDup_singleton. Qed.
#[local] Instance j4_laws : ProtoJsonLaws Jws.
Proof. apply sample_json_laws. cbn. apply (bool_decide_unpack _). by vm_compute. Qed.
#[local] Instance j6_laws : ProtoJsonLaws CreateResultDataKeyRequest.
Proof. apply sample_json_laws, NoDup_singleton. Qed.

(** A service that answers every call with the keys. *)
Definition answer : EncryptedResponse :=
  mk_enc_response (mk_sf_status Code_OK "success")
    (mk_jwe (hex_encode (s2b "E")) (hex_encode (zero_bytes 16)) (hex_encode (zero_bytes 12))
       (hex_encode (s2b "R")) (hex_encode (zero_bytes 16)) "").
#[local] Instance stub : CapsuleManagerStub := {|
  stub_GetRaCert _ _ _ d := ((mk_grpc_status 0 "", mk_cm_ra_response (mk_sf_status 0 "") None "peer"), d);
  stub_GetDataKeys _ _ _ d := ((mk_grpc_status 0 "", answer), d);
  stub_GetTlsAsset _ _ _ d := ((mk_grpc_status 0 "", answer), d);
  stub_CreateResultDataKey _ _ _ d := ((mk_grpc_status 0 "", answer), d)
|}.

Definition flags : build_flags := mk_build_flags true false false.
Definition h0 : host_state := mk_host [] 0 tt tt.
Definition client : Client := mk_client (new_channel "ep") "peer".

Lemma client_run : New "ep" h0 = (Ok client, h0) /\
  GetDataKeys flags client "sim" "C" "me" req h0 = (Ok [key], h0) /\
  CreateResultDataKey flags client "sim" "C" "me" body h0 = (Ok tt, h0).
Proof. split; [|split]; vm_compute; reflexivity. Qed.

Lemma client_exchange_witness :
  (exists enc_res, delivered client stub_GetDataKeys (mk_data_keys_request None "C" req) "me" "C"
     enc_res) /\
  exists enc_res, delivered client stub_CreateResultDataKey (mk_result_key_request None body) "me" "C"
     enc_res.
Proof.
  destruct client_run as (_ & Hk & Hc). split.
  - destruct (proj1 (client_exchange flags client "sim" "C" "me" h0) req [key] h0 Hk)
      as (report & enc_res & response & Hr & Hd & _).
    cbn in Hr. subst report. by exists enc_res.
  - destruct (proj2 (client_exchange flags client "sim" "C" "me" h0) body h0 Hc)
      as (report & enc_res & Hr & Hd & _).
    cbn in Hr. subst report. by exists enc_res.
Defined.
End ClientWitness.
