(* ===== verification/Directory.v ===== *)
(** * Encrypting and decrypting directories

    [EncryptToDir] and [DecryptToDir] of [trustflow/proxy/utils/crypto_util.cc]
    on a file system with directories.  The code starts one [std::async] task
    per encrypted file while it walks the source directory; a schedule says in
    which order the turns of the loop and the operations of the tasks happen. *)

From S2P Require Import Prelude CppStd External Path YaclCrypto Tasks CryptoFile.

Definition kEncSuffix : string := ".enc".

(** ** Files and directories

    A path names a file or a directory by its text: two spellings of a path are
    two names. *)

(** The order in which [recursive_directory_iterator] finds the files and
    directories below a directory, as names relative to it; the walk sees what
    is there when it starts. *)
Class DirWalk := { walk : string -> fsys -> gset string -> list string }.

Class DirWalkLaws `{DirWalk} : Prop := {
  walk_NoDup d fs dirs : NoDup (walk d fs dirs);
  elem_of_walk d fs dirs rel :
    rel ∈ walk d fs dirs <->
    plain_names rel /\ (is_Some (fs !! path_app d rel) \/ path_app d rel ∈ dirs)
}.

Definition filesystem_error (what : string) (paths : list string) : exn :=
  mk_exn (StdException "std::filesystem::filesystem_error") what (FStr <$> paths).

(** The text before every separator of a path but a leading one. *)
Fixpoint prefixes (before s : string) : list string :=
  match s with
  | EmptyString => []
  | String c r =>
      (if Ascii.eqb c sep && negb (String.eqb before "") then [before] else [])
      ++ prefixes (before +:+ String c EmptyString) r
  end.

(** A directory and its ancestors. *)
Definition lineage (p : string) : list string := prefixes "" p ++ [p].

Section FileSystem.
Context `{Rand}.

Definition fs_of (w : world) : fsys := w.(w_fs).

(** The same files with other directories. *)
Definition set_dirs (dirs : gset string) (w : world) : world := mk_world _ w.(w_fs) dirs w.(w_rng).

Definition is_regular_file (p : string) (w : world) : bool := bool_decide (is_Some (fs_of w !! p)).
Definition is_directory (p : string) (w : world) : bool := bool_decide (p ∈ w.(w_dirs)).
Definition path_exists (p : string) (w : world) : bool := is_regular_file p w || is_directory p w.

(** A file among the directories to be made is an error. *)
Definition create_directories (p : string) : st world unit := fun w =>
  if String.eqb p "" || existsb (fun d => is_regular_file d w) (lineage p)
  then (Throw (filesystem_error "cannot create directories" [p]), w)
  else (Ok tt, set_dirs (list_to_set (lineage p) ∪ w.(w_dirs)) w).

Definition write_file (p : string) (c : bytes) (w : world) : world :=
  mk_world _ (<[p := c]> (fs_of w)) w.(w_dirs) w.(w_rng).

(** [copy(from, to, overwrite_existing)] of a regular file; it makes no
    directory. *)
Definition copy_file (from to : string) : st world unit := fun w =>
  let to := if is_directory to w then path_app to (filename from) else to in
  match fs_of w !! from with
  | Some c =>
      if String.eqb from to || negb (bool_decide (in_place w.(w_dirs) to))
      then (Throw (filesystem_error "cannot copy" [from; to]), w)
      else (Ok tt, write_file to c w)
  | None => (Throw (filesystem_error "cannot copy" [from; to]), w)
  end.

(** [p] and what is in it. *)
Definition within (p k : string) : bool :=
  String.eqb k p || String.prefix (path_app p "") k.

(** [remove_all(p)]: nothing happens when there is no such path. *)
Definition remove_all (p : string) : st world unit := fun w =>
  if String.eqb p "" then (Ok tt, w)
  else (Ok tt, mk_world _ (filter (fun kv => within p kv.1 = false) (fs_of w))
                 (filter (fun d => within p d = false) w.(w_dirs)) w.(w_rng)).

(** [if (!exists(p.parent_path())) create_directories(p.parent_path())] *)
Definition ensure_parent (p : string) : st world unit := fun w =>
  if negb (path_exists (parent_path p) w) then create_directories (parent_path p) w
  else (Ok tt, w).
End FileSystem.

(** ** Walks with tasks *)

(** A call of [EncryptFile] or [DecryptFile] for a source and a destination. *)
Abbreviation task := (string * string)%type.

Section Walk.
Context `{Rand}.

(** A task in [futures] is what is left of its program.  [ws_failed] is how the
    loop ended if an item made it throw. *)
Record walk_state := mk_walk {
  ws_todo : list string;
  ws_futures : list (task * prog world unit);
  ws_failed : option (outcome unit)
}.

(** The loop goes on to its next item, or task [i] does its next operation. *)
Inductive event := Visit | Run (i : nat).

Section Run.
Variable visit : string -> st world (option task).
Variable run : task -> prog world unit.

(** An event that cannot happen changes nothing. *)
Definition step (s : walk_state * world) (e : event) : walk_state * world :=
  let '(ws, w) := s in
  match e with
  | Visit =>
      match ws.(ws_todo) with
      | [] => s
      | item :: rest =>
          match visit item w with
          | (Ok (Some t), w) => (mk_walk rest (ws.(ws_futures) ++ [(t, run t)]) ws.(ws_failed), w)
          | (Ok None, w) => (mk_walk rest ws.(ws_futures) ws.(ws_failed), w)
          | (Throw e, w) => (mk_walk [] ws.(ws_futures) (Some (Throw e)), w)
          | (UB u, w) => (mk_walk [] ws.(ws_futures) (Some (UB u)), w)
          end
      end
  | Run i =>
      match ws.(ws_futures) !! i with
      | Some (t, p) =>
          let '(p, w) := prog_step p w in
          (mk_walk ws.(ws_todo) (<[i := (t, p)]> ws.(ws_futures)) ws.(ws_failed), w)
      | None => s
      end
  end.

(** [future.get()] for each task in turn: the first that threw throws. *)
Fixpoint get_all (futures : list (task * prog world unit)) : outcome unit :=
  match futures with
  | [] => Ok tt
  | (_, Ret (Throw e)) :: _ => Throw e
  | (_, Ret (UB u)) :: _ => UB u
  | _ :: rest => get_all rest
  end.

Definition walk_result (ws : walk_state) : outcome unit :=
  match ws.(ws_failed) with Some r => r | None => get_all ws.(ws_futures) end.

(** *** The walk as a program *)

(** An operation whose exception is kept. *)
Definition caught {S A} (m : st S A) : st S (outcome A) := fun w => let '(r, w) := m w in (Ok r, w).

(** What is left when the result of an operation is [r]. *)
Definition goes_on {B} (k : B -> prog world unit) (r : outcome B) : prog world unit :=
  match r with Ok b => k b | Throw e => Ret (Throw e) | UB u => Ret (UB u) end.

(** The state of the walk after a visit. *)
Definition after_visit (ws : walk_state) (rest : list string) (r : outcome (option task)) : walk_state :=
  match r with
  | Ok (Some t) => mk_walk rest (ws.(ws_futures) ++ [(t, run t)]) ws.(ws_failed)
  | Ok None => mk_walk rest ws.(ws_futures) ws.(ws_failed)
  | Throw e => mk_walk [] ws.(ws_futures) (Some (Throw e))
  | UB u => mk_walk [] ws.(ws_futures) (Some (UB u))
  end.

Definition with_future (ws : walk_state) (i : nat) (t : task) (p : prog world unit) : walk_state :=
  mk_walk ws.(ws_todo) (<[i := (t, p)]> ws.(ws_futures)) ws.(ws_failed).

Definition walk_event (ws : walk_state) (e : event) : prog world walk_state :=
  match e with
  | Visit =>
      match ws.(ws_todo) with
      | [] => mret ws
      | item :: rest => r ← op (caught (visit item)); mret (after_visit ws rest r)
      end
  | Run i =>
      match ws.(ws_futures) !! i with
      | Some (t, Op m k) => r ← op (caught m); mret (with_future ws i t (goes_on k r))
      | _ => mret ws
      end
  end.

Fixpoint walk_events (ws : walk_state) (events : list event) : prog world walk_state :=
  match events with
  | [] => mret ws
  | e :: events => ws ← walk_event ws e; walk_events ws events
  end.

(** What is left of a task; an exception is kept in the future. *)
Fixpoint attempt (p : prog world unit) : prog world (outcome unit) :=
  match p with
  | Ret r => mret r
  | Op m k =>
      r ← op (caught m);
      match r with
      | Ok b => attempt (k b)
      | Throw e => mret (Throw e)
      | UB u => mret (UB u)
      end
  end.

(** Task [i] runs to its end. *)
Definition await (ws : walk_state) (i : nat) : prog world walk_state :=
  match ws.(ws_futures) !! i with
  | Some (t, p) =>
      r ← attempt p; mret (with_future ws i t (Ret r))
  | None => mret ws
  end.

Fixpoint await_all (ws : walk_state) (l : list nat) : prog world walk_state :=
  match l with
  | [] => mret ws
  | i :: l => ws ← await ws i; await_all ws l
  end.

(** A walk over [items] with the events of [schedule] first.  What they leave open
    happens in order: the loop ends and every task ends; [get] waits for a task,
    and so does the destructor of a future when the loop throws. *)
Definition walk_prog (items : list string) (schedule : list event) : prog world unit :=
  ws ← walk_events (mk_walk items [] None) schedule;
  ws ← walk_events ws (replicate (length ws.(ws_todo)) Visit);
  ws ← await_all ws (seq 0 (length ws.(ws_futures)));
  now (walk_result ws).

(** *** The walk alone *)

(** Task [i] runs to its end. *)
Definition complete (s : walk_state * world) (i : nat) : walk_state * world :=
  let '(ws, w) := s in
  match ws.(ws_futures) !! i with
  | Some (t, p) =>
      let '(r, w) := perform p w in
      (mk_walk ws.(ws_todo) (<[i := (t, Ret r)]> ws.(ws_futures)) ws.(ws_failed), w)
  | None => s
  end.

(** The loop ends and every task ends. *)
Definition finish (s : walk_state * world) : walk_state * world :=
  let s := foldl step s (replicate (length s.1.(ws_todo)) Visit) in
  foldl complete s (seq 0 (length s.1.(ws_futures))).

Definition run_walk (items : list string) (schedule : list event) : st world unit := fun w =>
  let '(ws, w) := finish (foldl step (mk_walk items [] None, w) schedule) in
  (walk_result ws, w).

Lemma perform_walk_event ws e w :
  perform (walk_event ws e) w = let s := step (ws, w) e in (Ok s.1, s.2).
Proof.
  destruct e as [|i]; cbn [walk_event step].
  - destruct (ws_todo ws) as [|item rest]; [done|].
    rewrite (perform_op_step _ _ w (visit item w).1 (visit item w).2) by (unfold caught; by destruct (visit item w)).
    by destruct (visit item w) as [[[t|]|e|u] w'].
  - destruct (ws_futures ws !! i) as [[t [r|B m k]]|] eqn:Ei; [|..|done].
    + cbn. rewrite list_insert_id by done. by destruct ws, w.
    + rewrite (perform_op_step _ _ w (m w).1 ((m w).2)).
      2: { unfold caught. by destruct (m _). }
      cbn. by destruct (m w) as [[b|e|u] f].
Qed.

Lemma perform_walk_events ws l w :
  perform (walk_events ws l) w = let s := foldl step (ws, w) l in (Ok s.1, s.2).
Proof.
  revert ws w. induction l as [|e l IH]; intros ws w; [done|]. cbn [walk_events foldl].
  rewrite (perform_bind_step _ _ _ _ _ (perform_walk_event ws e w)). by destruct (step (ws, w) e).
Qed.

Lemma perform_attempt p w : perform (attempt p) w = let '(r, w') := perform p w in (Ok r, w').
Proof.
  revert w. induction p as [r|B m k IH]; intros w; [done|]. cbn [attempt].
  rewrite (perform_op_step _ _ w (m w).1 (m w).2) by (unfold caught; by destruct (m w)).
  cbn [perform]. unfold mbind, st_bind. destruct (m w) as [[b|e|u] f]; [apply IH|done|done].
Qed.

Lemma perform_await ws i w : perform (await ws i) w = let s := complete (ws, w) i in (Ok s.1, s.2).
Proof.
  unfold await, complete. destruct (ws_futures ws !! i) as [[t p]|]; [|done].
  rewrite perform_bind. unfold mbind, st_bind. rewrite perform_attempt. by destruct (perform p w).
Qed.

Lemma perform_await_all ws l w :
  perform (await_all ws l) w = let s := foldl complete (ws, w) l in (Ok s.1, s.2).
Proof.
  revert ws w. induction l as [|i l IH]; intros ws w; [done|]. cbn [await_all foldl].
  rewrite (perform_bind_step _ _ _ _ _ (perform_await ws i w)). by destruct (complete (ws, w) i).
Qed.

Lemma perform_walk items schedule w : perform (walk_prog items schedule) w = run_walk items schedule w.
Proof.
  unfold walk_prog, run_walk, finish.
  rewrite (perform_bind_step _ _ _ _ _ (perform_walk_events _ _ w)). destruct (foldl step _ schedule) as [ws1 w1].
  cbn [fst snd]. rewrite (perform_bind_step _ _ _ _ _ (perform_walk_events _ _ w1)).
  destruct (foldl step _ (replicate _ _)) as [ws2 w2]. cbn [fst snd].
  rewrite (perform_bind_step _ _ _ _ _ (perform_await_all _ _ w2)). by destruct (foldl complete _ _).
Qed.
End Run.
End Walk.

(** ** The two operations *)

Section Model.
Context `{FileIO} `{Rand} `{ByteView} `{Gcm} `{DirWalk}.

Definition items_of (dir : string) (w : world) : list string :=
  path_app dir <$> walk dir (fs_of w) w.(w_dirs).

(** The body of the loop of [EncryptToDir]. *)
Definition encrypt_item (src_path dest_path : string) (src_item : string) : st world (option task) :=
  fun w =>
  if is_regular_file src_item w then
    let relative_path := relative src_item src_path in
    let dest_object_path := path_app dest_path relative_path +:+ kEncSuffix in
    (_ ← ensure_parent dest_object_path; mret (Some (src_item, dest_object_path))) w
  else (Ok None, w).

Definition EncryptToDir (schedule : list event) (src_path dest_path : string) (data_key : bytes)
    : prog world unit :=
  found ← look (path_exists src_path);
  _ ← now (YACL_ENFORCE found "src_path {} not exists" [FStr src_path]);
  regular ← look (is_regular_file src_path);
  if regular : bool then
    let dest_object_path := path_app dest_path (filename src_path) +:+ kEncSuffix in
    _ ← op (ensure_parent dest_object_path);
    EncryptFile src_path dest_object_path data_key
  else
    directory ← look (is_directory src_path);
    if directory : bool then
      items ← look (items_of src_path);
      walk_prog (encrypt_item src_path dest_path) (fun t => EncryptFile t.1 t.2 data_key) items schedule
    else now (YACL_THROW "src_path {} is not a file or directory" [FStr src_path]).

(** The body of the loop of [DecryptToDir]: a file without the suffix is copied
    at once. *)
Definition decrypt_item (src_path dest_path : string) (src_item : string) : st world (option task) :=
  fun w =>
  if is_regular_file src_item w then
    let relative_path := relative src_item src_path in
    let dest_object_path := path_app dest_path relative_path in
    (_ ← ensure_parent dest_object_path;
     if String.eqb (extension src_item) kEncSuffix then
       mret (Some (src_item, remove_extension dest_object_path))
     else
       _ ← copy_file src_item dest_object_path;
       mret None) w
  else (Ok None, w).

Definition DecryptToDir (schedule : list event) (src_path dest_path : string) (data_key : bytes)
    : prog world unit :=
  found ← look (path_exists src_path);
  _ ← now (YACL_ENFORCE found "src_path {} not exists" [FStr src_path]);
  regular ← look (is_regular_file src_path);
  if regular : bool then
    let dest_object_path := path_app dest_path (filename src_path) in
    _ ← op (ensure_parent dest_object_path);
    if String.eqb (extension src_path) kEncSuffix then
      DecryptFile src_path (remove_extension dest_object_path) data_key
    else op (copy_file src_path dest_object_path)
  else
    directory ← look (is_directory src_path);
    if directory : bool then
      items ← look (items_of src_path);
      walk_prog (decrypt_item src_path dest_path) (fun t => DecryptFile t.1 t.2 data_key) items schedule
    else now (YACL_THROW "src_path {} is not a file or directory" [FStr src_path]).

(** On a directory, alone. *)
Lemma EncryptToDir_walk schedule src dest key (w : world) :
  is_regular_file src w = false -> is_directory src w = true ->
  perform (EncryptToDir schedule src dest key) w =
    run_walk (encrypt_item src dest) (fun t => EncryptFile t.1 t.2 key) (items_of src w) schedule w.
Proof.
  intros Hf Hd. unfold EncryptToDir. rewrite perform_look. unfold path_exists. rewrite Hf, Hd. cbn [orb].
  rewrite now_enforce, perform_look, Hf, perform_look, Hd, perform_look. apply perform_walk.
Qed.

Lemma DecryptToDir_walk schedule src dest key (w : world) :
  is_regular_file src w = false -> is_directory src w = true ->
  perform (DecryptToDir schedule src dest key) w =
    run_walk (decrypt_item src dest) (fun t => DecryptFile t.1 t.2 key) (items_of src w) schedule w.
Proof.
  intros Hf Hd. unfold DecryptToDir. rewrite perform_look. unfold path_exists. rewrite Hf, Hd. cbn [orb].
  rewrite now_enforce, perform_look, Hf, perform_look, Hd, perform_look. apply perform_walk.
Qed.
End Model.

(** ** Ancestors *)

Lemma elem_of_prefixes before s d :
  d ∈ prefixes before s <-> exists x r, d = before +:+ x /\ d <> "" /\ s = x +:+ String sep r.
Proof.
  revert before. induction s as [|c s IH]; intros before; cbn.
  { rewrite elem_of_nil. split; [done|]. intros (x & r & _ & _ & E). by destruct x. }
  rewrite elem_of_app, IH. split.
  - intros [Hd|(x & r & -> & Hne & ->)].
    + destruct (Ascii.eqb_spec c sep) as [->|]; [|by apply elem_of_nil in Hd].
      destruct (String.eqb_spec before ""); [by apply elem_of_nil in Hd|].
      apply list_elem_of_singleton in Hd as ->. exists "", s. by rewrite string_app_nil_r.
    + exists (String c x), r. by rewrite string_app_assoc in *.
  - intros (x & r & -> & Hne & E). destruct x as [|a x]; string_app.
    + left. injection E as -> ->. rewrite string_app_nil_r in *. cbn.
      rewrite (proj2 (String.eqb_neq before "")) by done. by apply list_elem_of_singleton.
    + right. injection E as -> ->. exists x, r. rewrite string_app_assoc. by string_app.
Qed.

Lemma elem_of_lineage p d :
  d ∈ lineage p <-> d = p \/ (d <> "" /\ exists r, p = d +:+ String sep r).
Proof.
  unfold lineage. rewrite elem_of_app, list_elem_of_singleton, elem_of_prefixes. split.
  - intros [(x & r & -> & ? & ->)|]; [right|by left]. split; [done|by exists r].
  - intros [|(Hne & r & ->)]; [by right|left]. by exists d, r.
Qed.

Lemma lineage_trans p d e : d ∈ lineage p -> e ∈ lineage d -> e ∈ lineage p.
Proof.
  rewrite !elem_of_lineage. intros [->|(Hd & r & ->)]; [done|]. intros [->|(He & r' & ->)]; right.
  - split; [done|by exists r].
  - split; [done|]. exists (r' +:+ String sep r). by rewrite string_app_assoc.
Qed.

(** ** Every schedule *)

Lemma get_all_Ok `{Rand} l : (forall t p, (t, p) ∈ l -> p = Ret (Ok tt)) -> get_all l = Ok tt.
Proof.
  induction l as [|[t r] l IH]; intros Hl; [done|]. cbn. rewrite (Hl t r) by set_solver.
  apply IH. intros t' r' ?. apply (Hl t'). set_solver.
Qed.

Section WalkEnds.
Context `{Rand}.
Variable visit : string -> st world (option task).
Variable run : task -> prog world unit.

Lemma step_todo s e :
  (step visit run s e).1.(ws_todo) =
    match e with
    | Run _ => s.1.(ws_todo)
    | Visit => match s.1.(ws_todo) with
               | [] => []
               | item :: rest => match visit item s.2 with (Ok _, _) => rest | _ => [] end
               end
    end.
Proof.
  destruct s as [ws w]. destruct e as [|i]; cbn.
  - destruct (ws_todo ws) as [|item rest] eqn:E; [done|].
    destruct (visit item w) as [[[t|]|e|u] w']; done.
  - destruct (ws_futures ws !! i) as [[t p]|]; [|done]. by destruct (prog_step p _).
Qed.

Lemma visits_todo n s : (length s.1.(ws_todo) <= n)%nat ->
  (foldl (step visit run) s (replicate n Visit)).1.(ws_todo) = [].
Proof.
  revert s. induction n as [|n IH]; intros s Hn; cbn.
  - by apply nil_length_inv, Nat.le_0_r.
  - apply IH. rewrite step_todo. destruct (ws_todo s.1) as [|item rest]; cbn in *; [lia|].
    destruct (visit item s.2) as [[t|e|u] w']; cbn; lia.
Qed.

(** What the walk and its tasks can reach, in any order. *)
Definition walk_step (s s' : walk_state * world) : Prop := exists e, s' = step visit run s e.

Lemma schedule_reachable s schedule : rtc walk_step s (foldl (step visit run) s schedule).
Proof.
  revert s. induction schedule as [|e l IH]; intros s; [done|].
  eapply rtc_l; [by exists e|apply IH].
Qed.

(** Running a task to its end is a sequence of its operations. *)
Lemma complete_reachable s i : rtc walk_step s (complete s i).
Proof.
  destruct s as [ws w]. unfold complete. destruct (ws_futures ws !! i) as [[t p]|] eqn:Ei; [|done].
  revert ws w Ei. induction p as [r|B m k IH]; intros ws w Ei; cbn.
  { rewrite list_insert_id by done. by destruct ws. }
  unfold mbind, st_bind. destruct (m w) as [r f] eqn:Em.
  set (p' := match r with Ok b => k b | Throw e => Ret (Throw e) | UB u => Ret (UB u) end).
  set (ws' := mk_walk ws.(ws_todo) (<[i := (t, p')]> ws.(ws_futures)) ws.(ws_failed)).
  assert (ws_futures ws' !! i = Some (t, p')) as Ei'
    by (apply list_lookup_insert_eq; by eapply lookup_lt_Some).
  eapply rtc_l with (ws', f).
  { exists (Run i). cbn. rewrite Ei. cbn. rewrite Em. by destruct r. }
  destruct r as [b|e|u]; subst p'; cbn in *.
  - specialize (IH b ws' f Ei'). cbn in IH. destruct (perform (k b) f) as [r f']. by rewrite list_insert_insert_eq in IH.
  - done.
  - done.
Qed.

Lemma completes_reachable s l : rtc walk_step s (foldl complete s l).
Proof.
  revert s. induction l as [|i l IH]; intros s; [done|]. etrans; [apply complete_reachable|apply IH].
Qed.

Lemma finish_reachable s : rtc walk_step s (finish visit run s).
Proof. unfold finish. etrans; [apply schedule_reachable|apply completes_reachable]. Qed.

Lemma reachable_inv (I : walk_state * world -> Prop) s s' :
  (forall s e, I s -> I (step visit run s e)) -> I s -> rtc walk_step s s' -> I s'.
Proof. intros Hs H0. induction 1 as [|s s1 s2 [e ->] _ IH]; [done|]. by apply IH, Hs. Qed.

(** A task that has ended. *)
Definition ended (i : nat) (ws : walk_state) : Prop :=
  exists t r, ws.(ws_futures) !! i = Some (t, Ret r).

(** [ws'] is [ws] with task [i] ended. *)
Definition awaited (ws : walk_state) (i : nat) (ws' : walk_state) : Prop :=
  match ws.(ws_futures) !! i with
  | Some (t, p) => exists r, ws' = with_future ws i t (Ret r)
  | None => ws' = ws
  end.

Fixpoint awaited_all (ws : walk_state) (l : list nat) (ws' : walk_state) : Prop :=
  match l with
  | [] => ws' = ws
  | i :: l => exists ws1, awaited ws i ws1 /\ awaited_all ws1 l ws'
  end.

Lemma awaited_futures ws i ws' : awaited ws i ws' ->
  length ws'.(ws_futures) = length ws.(ws_futures) /\
  ws'.(ws_todo) = ws.(ws_todo) /\
  (forall j, ended j ws -> ended j ws') /\
  ((i < length ws.(ws_futures))%nat -> ended i ws').
Proof.
  unfold awaited, ended. destruct (ws_futures ws !! i) as [[t p]|] eqn:E.
  - intros [r ->]. cbn. rewrite length_insert.
    assert (i < length (ws_futures ws))%nat as Hi by (by eapply lookup_lt_Some).
    split; [done|]. split; [done|]. split; [|intros _; exists t, r; by apply list_lookup_insert_eq].
    intros j (tj & rj & Hj). destruct (decide (i = j)) as [->|Hne].
    + exists t, r. by apply list_lookup_insert_eq.
    + exists tj, rj. by rewrite list_lookup_insert_ne.
  - intros ->. split; [done|]. split; [done|]. split; [done|]. apply lookup_ge_None in E. lia.
Qed.

Lemma awaited_all_ended l ws ws' : awaited_all ws l ws' ->
  length ws'.(ws_futures) = length ws.(ws_futures) /\
  ws'.(ws_todo) = ws.(ws_todo) /\
  forall i, (ended i ws \/ (i ∈ l /\ (i < length ws.(ws_futures))%nat)) -> ended i ws'.
Proof.
  revert ws. induction l as [|j l IH]; intros ws; cbn.
  - intros ->. split; [done|]. split; [done|]. intros i [|[Hi _]]; [done|]. by apply elem_of_nil in Hi.
  - intros (ws1 & (Hl & Ht & Hk & Hr)%awaited_futures & (Hl' & Ht' & Hr')%IH).
    split; [congruence|]. split; [congruence|]. intros i Hi. apply Hr'.
    destruct Hi as [Hi|[[->|Hi]%elem_of_cons Hlt]]; [by auto|by auto|right]. split; [done|lia].
Qed.

(** All tasks have ended when all have been awaited. *)
Lemma awaited_all_done ws ws' : awaited_all ws (seq 0 (length ws.(ws_futures))) ws' ->
  ws'.(ws_todo) = ws.(ws_todo) /\ forall t p, (t, p) ∈ ws'.(ws_futures) -> is_done p = true.
Proof.
  intros (Hl & Ht & Hr)%awaited_all_ended. split; [done|]. intros t p [i Hi]%list_elem_of_lookup.
  assert (i < length ws.(ws_futures))%nat as Hlt by (rewrite <- Hl; by eapply lookup_lt_Some).
  destruct (Hr i) as (t' & r' & E); [right; split; [apply elem_of_seq; lia|done]|].
  rewrite Hi in E. by injection E as <- ->.
Qed.

Lemma completes_awaited l s : awaited_all s.1 l (foldl complete s l).1.
Proof.
  revert s. induction l as [|i l IH]; intros s; [done|]. exists (complete s i).1. split; [|apply IH].
  destruct s as [ws w]. unfold awaited, complete. cbn. destruct (ws_futures ws !! i) as [[t p]|]; [|done].
  destruct (perform p w) as [r w']. by exists r.
Qed.

(** The loop is over and every task has ended. *)
Definition over (s : walk_state * world) : Prop :=
  s.1.(ws_todo) = [] /\ forall t p, (t, p) ∈ s.1.(ws_futures) -> is_done p = true.

Lemma finish_over s : over (finish visit run s).
Proof.
  unfold finish. set (s1 := foldl _ s _).
  assert (s1.1.(ws_todo) = []) as H1 by (by apply visits_todo).
  destruct (awaited_all_done _ _ (completes_awaited (seq 0 (length s1.1.(ws_futures))) s1)) as [Ht Hd].
  split; [by rewrite Ht|done].
Qed.

End WalkEnds.

(** ** What a walk changes

    When the visits and the tasks they start keep to [R], the walk does. *)

Section WalkGuarantee.
Context `{Rand}.
Variable R : world -> world -> Prop.
Context `{!Reflexive R}.
Variable visit : string -> st world (option task).
Variable run : task -> prog world unit.
Variable items : list string.
Hypothesis visit_keeps : forall item w, item ∈ items ->
  R w (visit item w).2 /\ forall t, (visit item w).1 = Ok (Some t) -> all_guarantee R (run t).

Definition confined (ws : walk_state) : Prop :=
  (forall item, item ∈ ws.(ws_todo) -> item ∈ items) /\
  forall t p, (t, p) ∈ ws.(ws_futures) -> all_guarantee R p.

Lemma confined_future ws i t p : confined ws -> all_guarantee R p -> confined (with_future ws i t p).
Proof.
  intros [Ht Hf] Hp. split; [done|]. cbn. intros t' p' [j Hj]%list_elem_of_lookup.
  apply list_lookup_insert_Some in Hj as [(_ & E & _)|[_ Hj]].
  - by injection E as <- <-.
  - by eapply Hf, list_elem_of_lookup_2.
Qed.

Lemma confined_visit ws item rest w : confined ws -> ws.(ws_todo) = item :: rest ->
  confined (after_visit run ws rest (visit item w).1).
Proof.
  intros [Ht Hf] Et. destruct (visit_keeps item w) as [_ Hok]; [apply Ht; rewrite Et; by left|].
  assert (forall i, i ∈ rest -> i ∈ items) as Hrest by (intros i Hi; apply Ht; rewrite Et; by right).
  destruct (visit item w).1 as [[t|]|e|u]; (split; [set_solver|]); [|done..]. cbn.
  intros t' p [Hin|E%list_elem_of_singleton]%elem_of_app; [by eapply Hf|].
  injection E as -> ->. auto.
Qed.

(** An operation of a task. *)
Lemma caught_keeps {B} (m : st world B) k w : all_guarantee R (Op m k) ->
  R w (caught m w).2 /\ forall r w', caught m w = (Ok r, w') -> all_guarantee R (goes_on k r).
Proof.
  intros Hp. destruct (Hp w) as [Hm Hk]. unfold caught. destruct (m w) as [r f]. split; [done|].
  intros r' w' E. injection E as <- <-. destruct r as [b|e|u]; [by apply (Hk b f)|done|done].
Qed.

Lemma walk_event_keeps ws e : confined ws -> guarantees R (walk_event visit run ws e) confined.
Proof.
  intros Hc. unfold walk_event. destruct e as [|i].
  - destruct (ws_todo ws) as [|item rest] eqn:Et; [done|].
    assert (item ∈ items) as Hin by (apply Hc; rewrite Et; by left). apply guarantees_op.
    + intros w. pose proof (proj1 (visit_keeps item w Hin)) as Hn. unfold caught. by destruct (visit item w).
    + intros w r w' E. unfold caught in E. pose proof (confined_visit ws item rest w Hc Et) as Hv.
      destruct (visit item w) as [r' w'']. by injection E as <- <-.
  - destruct (ws_futures ws !! i) as [[t [r|B m k]]|] eqn:Ei; [done| |done].
    assert (all_guarantee R (Op m k)) as Hp by (eapply Hc; by eapply list_elem_of_lookup_2).
    apply guarantees_op; [intros w; by apply (caught_keeps m k)|].
    intros w r w' E. apply confined_future; [done|]. by eapply (caught_keeps m k).
Qed.

Lemma walk_events_keep l ws : confined ws -> guarantees R (walk_events visit run ws l) confined.
Proof.
  revert ws. induction l as [|e l IH]; intros ws Hc; [done|]. cbn [walk_events].
  eapply guarantees_bind; [by apply walk_event_keeps|]. auto.
Qed.

Lemma attempt_keeps p : all_guarantee R p -> all_guarantee R (attempt p).
Proof.
  induction p as [r|B m k IH]; intros Hp; [done|]. cbn [attempt].
  apply guarantees_op; [intros w; by apply (caught_keeps m k)|].
  intros w r w' E. apply (caught_keeps m k w Hp) in E. destruct r as [b|e|u]; [by apply IH|done|done].
Qed.

Lemma await_all_keeps l ws : confined ws -> guarantees R (await_all ws l) confined.
Proof.
  revert ws. induction l as [|i l IH]; intros ws Hc; [done|]. cbn [await_all].
  apply (guarantees_bind _ _ _ confined); [|auto]. unfold await.
  destruct (ws_futures ws !! i) as [[t p]|] eqn:Ei; [|done].
  assert (all_guarantee R p) as Hp by (eapply Hc; by eapply list_elem_of_lookup_2).
  eapply guarantees_bind; [by apply attempt_keeps|]. intros r _.
  apply confined_future; [done|apply all_guarantee_ret].
Qed.

Lemma walk_keeps schedule : all_guarantee R (walk_prog visit run items schedule).
Proof.
  unfold walk_prog. eapply guarantees_bind; [apply walk_events_keep|].
  { split; [done|]. by intros ? ? ?%elem_of_nil. }
  intros ws1 C1. eapply guarantees_bind; [by apply walk_events_keep|].
  intros ws2 C2. eapply guarantees_bind; [by apply await_all_keeps|]. intros ws3 _. apply all_guarantee_ret.
Qed.
End WalkGuarantee.

(** ** Walks whose tasks do not meet

    [target item] is the file made from [item], [Rel item] says how its content
    depends on that of [item], [spawned] holds of the items that get a task, and
    [K] is what else stays true. *)

Section WalkCorrect.
Context `{Rand}.
Variable visit : string -> st world (option task).
Variable run : task -> prog world unit.
Variable items : list string.
Variable fs0 : fsys.
Variable target : string -> string.
Variable Rel : string -> bytes -> bytes -> Prop.
Variable K : world -> Prop.
Variable spawned : string -> Prop.

Definition regular (item : string) : Prop := item ∈ items /\ is_Some (fs0 !! item).

(** Only targets have changed. *)
Definition agrees (w : world) : Prop :=
  forall k, (forall item, regular item -> k <> target item) -> fs_of w !! k = fs0 !! k.

Definition finished (item : string) (w : world) : Prop :=
  exists c c', fs0 !! item = Some c /\ fs_of w !! target item = Some c' /\ Rel item c c'.

Definition writes (item : string) (w w' : world) : Prop :=
  exists c c', fs0 !! item = Some c /\ Rel item c c' /\ fs_of w' = <[target item := c']> (fs_of w).

(** The directory of the target and its ancestors are there. *)
Definition ready (item : string) (w : world) : Prop :=
  forall d, d ∈ lineage (parent_path (target item)) -> d ∈ w.(w_dirs).

(** The result a task for [item] has to reach, and that [p] reaches it. *)
Definition made (item : string) (c : bytes) (r : outcome unit) (o : option bytes) : Prop :=
  r = Ok tt /\ exists c', o = Some c' /\ Rel item c c'.

Definition promised (item : string) (p : prog world unit) (w : world) : Prop :=
  exists c, fs0 !! item = Some c /\
    wp item (target item) c p (made item c) (fs_of w !! target item).

(** No file but the target of [item] has changed. *)
Definition touches (item : string) (w w' : world) : Prop :=
  forall k, k <> target item -> fs_of w' !! k = fs_of w !! k.

(** What the visits and the tasks do. *)
Record walk_spec : Prop := {
  spec_NoDup : NoDup items;
  spec_inj : forall a b, regular a -> regular b -> target a = target b -> a = b;
  spec_apart : forall a b, regular a -> regular b -> a <> target b;
  spec_visit : forall item w, item ∈ items -> agrees w -> K w ->
    exists w', K w' /\ w.(w_dirs) ⊆ w'.(w_dirs) /\
    ((visit item w = (Ok None, w') /\ fs_of w' = fs_of w /\ ~ regular item) \/
     (visit item w = (Ok (Some (item, target item)), w') /\ fs_of w' = fs_of w /\
       regular item /\ spawned item /\ ready item w') \/
     (visit item w = (Ok None, w') /\ writes item w w' /\ regular item /\ ready item w'));
  spec_run : forall item c o, regular item -> spawned item -> fs0 !! item = Some c ->
    wp item (target item) c (run (item, target item)) (made item c) o;
  spec_K : forall item w w', regular item -> K w -> touches item w w' ->
    w'.(w_dirs) = w.(w_dirs) -> K w';
  spec_no_dir : forall item w, regular item -> K w -> target item ∉ w.(w_dirs)
}.

Hypothesis spec : walk_spec.

Definition accounted (s : walk_state * world) (item : string) : Prop :=
  ready item s.2 /\
  ((finished item s.2 /\ forall p, ((item, target item), p) ∉ s.1.(ws_futures)) \/
   exists p, ((item, target item), p) ∈ s.1.(ws_futures)).

Definition entry_ok (w : world) (t : task) (p : prog world unit) : Prop :=
  exists item, regular item /\ spawned item /\ ready item w /\ t = (item, target item) /\
    promised item p w.

Record walk_inv (s : walk_state * world) : Prop := {
  inv_failed : s.1.(ws_failed) = None;
  inv_agrees : agrees s.2;
  inv_K : K s.2;
  inv_visited : exists visited, items = visited ++ s.1.(ws_todo) /\
    (forall item, item ∈ visited -> regular item -> accounted s item) /\
    (forall t p, (t, p) ∈ s.1.(ws_futures) -> t.1 ∈ visited);
  inv_NoDup : NoDup s.1.(ws_futures).*1;
  inv_futures : forall t p, (t, p) ∈ s.1.(ws_futures) -> entry_ok s.2 t p
}.

(** What is ready, finished or promised stays so while others work. *)
Lemma ready_mono item (w w' : world) : w.(w_dirs) ⊆ w'.(w_dirs) -> ready item w -> ready item w'.
Proof. intros Hsub Hr d Hd. by apply Hsub, Hr. Qed.

Definition spares (item : string) (w w' : world) : Prop :=
  fs_of w' !! target item = fs_of w !! target item.

Lemma finished_spared item (w w' : world) : spares item w w' -> finished item w -> finished item w'.
Proof. intros E (c & c' & ? & ? & ?). exists c, c'. by rewrite E. Qed.

Lemma touches_spares item other w w' :
  touches item w w' -> regular item -> regular other -> other <> item -> spares other w w'.
Proof. intros Ht Hi Ho Hne. apply Ht. intros E. by apply Hne, (spec_inj spec). Qed.

Lemma touches_agrees item w w' : regular item -> touches item w w' -> agrees w -> agrees w'.
Proof. intros Hr Ht Ha k Hk. rewrite Ht; [by apply Ha|by apply Hk]. Qed.

Lemma entry_ok_spared (w w' : world) t p : w.(w_dirs) ⊆ w'.(w_dirs) ->
  (forall item, regular item -> item = t.1 -> spares item w w') -> entry_ok w t p -> entry_ok w' t p.
Proof.
  intros Hsub Hsp (item & Hr & Hs & Hrd & -> & c & Hc & Hp). exists item. split; [done|]. split; [done|].
  split; [by eapply ready_mono|]. split; [done|]. exists c. split; [done|]. by rewrite (Hsp item).
Qed.

Lemma writes_touches item w w' : writes item w w' -> touches item w w'.
Proof. intros (c & c' & _ & _ & E) k Hk. by rewrite E, lookup_insert_ne. Qed.

Lemma writes_finished item w w' : writes item w w' -> finished item w'.
Proof. intros (c & c' & Hc & HR & E). exists c, c'. split; [done|]. by rewrite E, lookup_insert_eq. Qed.

(** A visit leaves the targets of the other items alone. *)
Lemma visit_spares item (w w' : world) :
  (fs_of w' = fs_of w \/ (regular item /\ writes item w w')) ->
  (agrees w -> agrees w') /\ forall i, regular i -> i <> item -> spares i w w'.
Proof.
  intros [E|[Hr Hw]].
  - split; [intros Ha k Hk; rewrite E; by apply Ha|]. intros i _ _. unfold spares. by rewrite E.
  - pose proof (writes_touches _ _ _ Hw) as Ht. split; [by apply (touches_agrees item)|].
    intros i Hi Hne. by apply (touches_spares item).
Qed.

(** The visited items and the tasks there were, after a visit of another item. *)
Lemma visited_kept ws ws' (w w' : world) item (visited : list string) :
  item ∉ visited -> w.(w_dirs) ⊆ w'.(w_dirs) ->
  (forall i, regular i -> i <> item -> spares i w w') ->
  (forall t p, t.1 <> item -> (t, p) ∈ ws'.(ws_futures) <-> (t, p) ∈ ws.(ws_futures)) ->
  (forall t p, (t, p) ∈ ws.(ws_futures) -> t.1 ∈ visited) ->
  (forall i, i ∈ visited -> regular i -> accounted (ws, w) i -> accounted (ws', w') i) /\
  (forall t p, (t, p) ∈ ws.(ws_futures) -> entry_ok w t p -> entry_ok w' t p).
Proof.
  intros Hni Hsub Hsp Hfu Hvis. split.
  - intros i Hi Hr [Hrd Hor]. assert (i <> item) as Hne by (by intros ->). split; [by eapply ready_mono|].
    destruct Hor as [[Hf Hno]|[p Hp]]; [left|right].
    + split; [by eapply finished_spared; [apply Hsp|]|]. intros p. cbn in *. rewrite Hfu by done. apply Hno.
    + exists p. cbn in *. by apply Hfu.
  - intros t p Hin. apply entry_ok_spared; [done|]. intros i Hr ->. apply Hsp; [done|].
    intros E. apply Hni. rewrite <- E. by eapply Hvis.
Qed.

Lemma step_visit_inv s : walk_inv s -> walk_inv (step visit run s Visit).
Proof.
  intros Hi. pose proof Hi as [Hfail Hag HK (visited & Hit & Hv & Hvis) Hnd Hfu]. destruct s as [ws w].
  cbn in *. destruct (ws_todo ws) as [|item rest] eqn:Et; [done|].
  assert (item ∈ items) as Hin by (rewrite Hit; set_solver).
  assert (item ∉ visited) as Hni.
  { pose proof (spec_NoDup spec) as Hall. rewrite Hit in Hall. apply NoDup_app in Hall as (_ & Hd & _). intros Hx. apply (Hd _ Hx). by left. }
  assert (items = (visited ++ [item]) ++ rest) as Hit' by (by rewrite <- app_assoc).
  destruct (spec_visit spec item w Hin Hag HK) as (w' & HK' & Hsub & Hcase).
  destruct (visit_spares item w w') as [Hag' Hsp]; [tauto|].
  destruct Hcase as [(-> & _ & Hn)|[(-> & _ & Hr & Hspn & Hrd)|(-> & Hw & Hr & Hrd)]].
  - destruct (visited_kept ws (mk_walk rest ws.(ws_futures) ws.(ws_failed)) w w' item visited)
      as [Hacc Hent]; [done..|].
    split; cbn; [done|auto|done| |done|auto]. exists (visited ++ [item]). split; [done|]. split; [|set_solver].
    intros i [Hi'|Hi'%list_elem_of_singleton]%elem_of_app Hri; [auto|by subst].
  - destruct (visited_kept ws (mk_walk rest (ws.(ws_futures) ++ [((item, target item), run (item, target item))])
      ws.(ws_failed)) w w' item visited) as [Hacc Hent]; [done..| |done|].
    { intros t p Hne. cbn. rewrite elem_of_app, list_elem_of_singleton. split; [|by left].
      intros [|E]; [done|]. injection E as -> _. done. }
    split; cbn; [done|auto|done| | |].
    + exists (visited ++ [item]). split; [done|]. split.
      * intros i [Hi'|Hi'%list_elem_of_singleton]%elem_of_app Hri; [auto|subst i]. split; [done|].
        right. eexists. cbn. apply elem_of_app. right. by apply list_elem_of_singleton.
      * intros t p [Hx|Hx%list_elem_of_singleton]%elem_of_app; [set_solver|]. injection Hx as -> _. set_solver.
    + rewrite fmap_app. apply NoDup_app. split; [done|]. split; [|apply NoDup_singleton].
      intros t ([t' p] & -> & Hx)%list_elem_of_fmap Ht%list_elem_of_singleton. cbn in Ht. subst t'.
      by apply Hni, (Hvis _ _ Hx).
    + intros t p [Hx|Hx%list_elem_of_singleton]%elem_of_app; [auto|]. injection Hx as -> ->.
      exists item. split; [done|]. split; [done|]. split; [done|]. split; [done|].
      destruct Hr as [Hr1 [c Hc]]. exists c. split; [done|]. apply (spec_run spec); [|done|done]. by split; [|exists c].
  - destruct (visited_kept ws (mk_walk rest ws.(ws_futures) ws.(ws_failed)) w w' item visited)
      as [Hacc Hent]; [done..|].
    split; cbn; [done|auto|done| |done|auto]. exists (visited ++ [item]). split; [done|]. split; [|set_solver].
    intros i [Hi'|Hi'%list_elem_of_singleton]%elem_of_app Hri; [auto|subst i]. split; [done|]. left.
    split; [by eapply writes_finished|]. intros p Hx. by apply Hni, (Hvis _ _ Hx).
Qed.

Lemma ready_in_place item (w : world) : regular item -> K w -> ready item w -> in_place w.(w_dirs) (target item).
Proof.
  intros Hr HK Hrd. split; [right; right; apply Hrd, elem_of_lineage; by left|by apply (spec_no_dir spec)].
Qed.

(** The next operation of a task. *)
Lemma promised_step item p (w : world) :
  regular item -> agrees w -> in_place w.(w_dirs) (target item) -> promised item p w ->
  exists p' w', prog_step p w = (p', w') /\ touches item w w' /\ w'.(w_dirs) = w.(w_dirs) /\ promised item p' w'.
Proof.
  intros Hr Ha Hin (c & Hc & Hp).
  destruct (wp_step item (target item) c p (made item c) w) as (p' & o' & g & E & Hp').
  { rewrite <- Hc. apply Ha. intros b Hb. by apply (spec_apart spec). }
  { done. }
  { done. }
  eexists p', _. split; [done|]. split; [|split; [done|]].
  - intros k Hk. cbn. by rewrite lookup_partial_alter_ne.
  - exists c. split; [done|]. cbn. by rewrite lookup_partial_alter_eq.
Qed.

(** A task has gone on: it keeps its promise and has touched its target only. *)
Lemma future_changed_inv ws (w w' : world) i item p p' :
  walk_inv (ws, w) -> ws.(ws_futures) !! i = Some ((item, target item), p) -> regular item ->
  touches item w w' -> w'.(w_dirs) = w.(w_dirs) -> promised item p' w' ->
  walk_inv (with_future ws i (item, target item) p', w').
Proof.
  intros Hi Ei Hr Ht Hdirs Hp'. pose proof Hi as [Hfail Hag HK (visited & Hit & Hv & Hvis) Hnd Hfu]. cbn in *.
  destruct (Hfu (item, target item) p) as (item' & _ & Hsp & Hrd & E' & _); [by eapply list_elem_of_lookup_2|].
  injection E' as <-.
  assert (forall j tj pj, ws_futures ws !! j = Some (tj, pj) -> tj.1 = item -> j = i) as Huniq.
  { intros j tj pj Hj E. destruct (Hfu tj pj) as (b & _ & _ & _ & -> & _); [by eapply list_elem_of_lookup_2|].
    cbn in E. subst b. eapply NoDup_lookup; [exact Hnd|by rewrite list_lookup_fmap, Hj|].
    by rewrite list_lookup_fmap, Ei. }
  assert (forall tj pj, tj.1 <> item ->
            (tj, pj) ∈ <[i := ((item, target item), p')]> ws.(ws_futures) <-> (tj, pj) ∈ ws.(ws_futures)) as Hoth.
  { intros tj pj Hne. rewrite !list_elem_of_lookup. split; intros [j Hj]; exists j.
    - destruct (decide (j = i)) as [->|Hji]; [|by rewrite list_lookup_insert_ne in Hj].
      rewrite list_lookup_insert_eq in Hj by (by eapply lookup_lt_Some). by injection Hj as <- <-.
    - rewrite list_lookup_insert_ne; [done|]. intros <-. rewrite Ei in Hj. by injection Hj as <- <-. }
  assert (((item, target item), p') ∈ <[i := ((item, target item), p')]> ws.(ws_futures)) as Hme.
  { apply (list_elem_of_lookup_2 _ i), list_lookup_insert_eq. by eapply lookup_lt_Some. }
  assert (forall j, ready j w -> ready j w') as Hrdy by (intros j Hj d Hd; rewrite Hdirs; by apply Hj).
  split; cbn; [done|by eapply touches_agrees|by eapply (spec_K spec)| | |].
  - exists visited. split; [done|]. split.
    + intros j Hj Hrj. destruct (decide (j = item)) as [->|Hne]; [split; [auto|right; by eexists]|].
      destruct (Hv j Hj Hrj) as [Hrdj [[Hf Hno]|[q Hq]]]; (split; [auto|]); [left|right; exists q; by apply Hoth].
      split; [by eapply finished_spared; [apply (touches_spares item)|]|]. intros q. by rewrite Hoth.
    + intros tj pj Hx. destruct (decide (tj.1 = item)) as [->|Hne]; [|by eapply Hvis, Hoth].
      apply (Hvis (item, target item) p). by eapply list_elem_of_lookup_2.
  - rewrite list_fmap_insert, list_insert_id; [done|]. by rewrite list_lookup_fmap, Ei.
  - intros tj pj Hx. destruct (decide (tj.1 = item)) as [E|Hne].
    + apply list_elem_of_lookup in Hx as [j Hj]. destruct (decide (j = i)) as [->|Hji].
      * rewrite list_lookup_insert_eq in Hj by (by eapply lookup_lt_Some). injection Hj as <- <-.
        exists item. split; [done|]. split; [done|]. split; [auto|done].
      * rewrite list_lookup_insert_ne in Hj by done. by destruct Hji; eapply Huniq.
    + eapply entry_ok_spared; [| |by apply Hfu, Hoth]; [by rewrite Hdirs|]. intros b Hb ->. by eapply touches_spares.
Qed.

Lemma step_run_inv s i : walk_inv s -> walk_inv (step visit run s (Run i)).
Proof.
  intros Hi. destruct s as [ws w]. cbn. destruct (ws_futures ws !! i) as [[t p]|] eqn:Ei; [|done].
  destruct (inv_futures _ Hi t p) as (item & Hr & _ & Hrd & -> & Hp); [by eapply list_elem_of_lookup_2|].
  destruct (promised_step item p w Hr (inv_agrees _ Hi)) as (p' & w' & -> & Ht & Hd & Hp'); [|done|].
  { apply ready_in_place; [done|apply (inv_K _ Hi)|done]. }
  by apply (future_changed_inv ws w _ i item p p').
Qed.

Lemma start_inv (w : world) : fs_of w = fs0 -> K w -> walk_inv (mk_walk items [] None, w).
Proof.
  intros E0 HK0. split; cbn; [done| |done| |constructor|by intros t r ?%elem_of_nil].
  - intros k _. by rewrite E0.
  - exists []. split; [done|]. split; [by intros ? ?%elem_of_nil|by intros ? ? ?%elem_of_nil].
Qed.

Lemma step_inv s e : walk_inv s -> walk_inv (step visit run s e).
Proof. destruct e; [apply step_visit_inv|apply step_run_inv]. Qed.

(** A task that has ended has made its file. *)
Lemma ended_made s t r : walk_inv s -> (t, Ret r) ∈ s.1.(ws_futures) -> r = Ok tt /\ finished t.1 s.2.
Proof.
  intros Hi Hin. destruct (inv_futures _ Hi _ _ Hin) as (item & _ & _ & _ & -> & c & Hc & -> & c' & Ho & HR).
  split; [done|]. by exists c, c'.
Qed.

(** When the walk is over, it returns and every regular item has its target. *)
Lemma over_correct s : walk_inv s -> over s ->
  walk_result s.1 = Ok tt /\ forall item, regular item -> finished item s.2 /\ ready item s.2.
Proof.
  intros Hi [Ht Hd].
  assert (forall t p, (t, p) ∈ s.1.(ws_futures) -> p = Ret (Ok tt) /\ finished t.1 s.2) as Hall.
  { intros t p Hm. specialize (Hd t p Hm). destruct p as [r|]; [|done].
    by destruct (ended_made _ t r Hi Hm) as [-> ?]. }
  destruct Hi as [Hfail Hag HK (visited & Hit & Hv & _) _ _]. split.
  - unfold walk_result. rewrite Hfail. apply get_all_Ok. intros t p Hm. by apply (Hall t p).
  - intros item Hr. rewrite Ht, app_nil_r in Hit.
    assert (item ∈ visited) as Hin by (rewrite <- Hit; apply Hr).
    destruct (Hv item Hin Hr) as [Hrd [[Hf _]|[p Hm]]]; [done|]. by destruct (Hall _ p Hm).
Qed.

(** The invariant holds in every state the walk can reach; whatever the schedule,
    the walk returns, every regular item has its target, and no other file has
    changed. *)
Lemma run_walk_correct schedule (w : world) :
  fs_of w = fs0 -> K w ->
  (forall s, rtc (walk_step visit run) (mk_walk items [] None, w) s -> walk_inv s) /\
  exists w', run_walk visit run items schedule w = (Ok tt, w') /\ agrees w' /\ K w' /\
    forall item, regular item -> finished item w' /\ ready item w'.
Proof.
  intros E0 HK0.
  assert (forall s, rtc (walk_step visit run) (mk_walk items [] None, w) s -> walk_inv s) as Hreach.
  { intros s Hs. eapply reachable_inv; [|by apply start_inv|exact Hs]. intros; by apply step_inv. }
  split; [done|]. unfold run_walk. set (s := foldl _ _ schedule).
  assert (walk_inv (finish visit run s)) as Hi.
  { apply Hreach. etrans; [apply schedule_reachable|apply finish_reachable]. }
  destruct (over_correct _ Hi (finish_over visit run s)) as [Hres Hall].
  destruct (finish visit run s) as [ws w']. exists w'. cbn in *. rewrite Hres.
  split; [done|]. split; [apply Hi|]. split; [apply Hi|done].
Qed.

(** *** The walk among others

    Others leave the files of [Zf] and the directories of [Zd] alone, which is all
    the walk looks at.  The invariant holds of a shadow of the file system, in
    which only the walk acts. *)

Section Shadow.
Variable Zf Zd : string -> Prop.

Definition same_zone (v w : world) : Prop :=
  (forall k, Zf k -> fs_of w !! k = fs_of v !! k) /\ (forall d, Zd d -> d ∈ w.(w_dirs) <-> d ∈ v.(w_dirs)).

#[local] Instance same_zone_preorder : PreOrder same_zone.
Proof.
  split; [by split|]. intros w1 w2 w3 [F1 D1] [F2 D2].
  split; intros; [rewrite F2, F1|rewrite D2, D1]; done.
Qed.

Hypothesis zone_items : forall item, regular item ->
  Zf item /\ Zf (target item) /\ Zd (parent_path (target item)) /\ Zd (target item).
Hypothesis zone_visit : forall item v w, item ∈ items -> agrees v -> K v -> same_zone v w ->
  (visit item w).1 = (visit item v).1 /\ same_zone (visit item v).2 (visit item w).2.

Definition shadowed (ws : walk_state) (w : world) : Prop :=
  exists v, walk_inv (ws, v) /\ same_zone v w.

Lemma shadowed_visit ws w item rest : ws.(ws_todo) = item :: rest -> shadowed ws w ->
  shadowed (after_visit run ws rest (visit item w).1) (visit item w).2.
Proof.
  intros Et (v & Hi & Hz). assert (item ∈ items) as Hin.
  { destruct (inv_visited _ Hi) as (l & Hit & _). cbn in Hit. rewrite Hit, Et. set_solver. }
  destruct (zone_visit item v w Hin (inv_agrees _ Hi) (inv_K _ Hi) Hz) as [-> Hz'].
  exists (visit item v).2. split; [|done]. apply step_visit_inv in Hi. cbn in Hi. rewrite Et in Hi.
  by destruct (visit item v) as [[[t|]|e|u] v'].
Qed.

(** A task does its next operation. *)
Lemma shadowed_run {B} ws w i t (m : st world B) k : ws.(ws_futures) !! i = Some (t, Op m k) ->
  shadowed ws w ->
  shadowed (with_future ws i t (goes_on k (m w).1)) ((m w).2).
Proof.
  intros Ei (v & Hi & Hzf & Hzd).
  destruct (inv_futures _ Hi t (Op m k)) as (item & Hr & _ & Hrd & -> & c & Hc & Hp);
    [by eapply list_elem_of_lookup_2|].
  destruct (zone_items item Hr) as (Z1 & Z2 & Z3 & Z4). cbn in Hp.
  destruct (Hp w) as (r & o & g & E & Hr').
  { unfold fs_of in Hzf. rewrite Hzf by done. rewrite <- Hc. apply (inv_agrees _ Hi). intros b Hb.
    by apply (spec_apart spec). }
  { by apply Hzf. }
  { destruct (ready_in_place item v Hr (inv_K _ Hi) Hrd) as [Hpar Hno]. split.
    - by rewrite (Hzd _ Z3).
    - by rewrite (Hzd _ Z4). }
  rewrite E. cbn [fst snd]. exists (with_dest (target item) o v g). split.
  - apply (future_changed_inv ws v _ i item (Op m k)); [done|done|done| |done|].
    + intros q Hq. cbn. by rewrite lookup_partial_alter_ne.
    + exists c. split; [done|]. cbn. rewrite lookup_partial_alter_eq. by destruct r.
  - split; [|done]. intros q Hq. unfold fs_of. cbn. destruct (decide (q = target item)) as [->|Hne].
    + by rewrite !lookup_partial_alter_eq.
    + rewrite !lookup_partial_alter_ne by done. by apply Hzf.
Qed.

Variable R : world -> world -> Prop.
Context `{!PreOrder R}.
Hypothesis R_zone : forall w w', R w w' -> same_zone w w'.

Lemma shadowed_stable ws w w' : shadowed ws w -> R w w' -> shadowed ws w'.
Proof. intros (v & Hi & Hz) Hr%R_zone. exists v. split; [done|]. by etrans. Qed.

(** An event: the next state of the walk is that after a step. *)
Lemma walk_event_rely ws e w : shadowed ws w ->
  wp_rely R (walk_event visit run ws e)
    (fun r w' => exists w1, r = Ok (step visit run (ws, w1) e).1 /\ shadowed (step visit run (ws, w1) e).1 w') w.
Proof.
  intros Hs. unfold walk_event, step. destruct e as [|i].
  - destruct (ws_todo ws) as [|item rest] eqn:Et.
    { intros w1 R1. exists w1. split; [done|]. by eapply shadowed_stable. }
    apply wp_rely_op. intros w1 R1. eexists (visit item w1).1, (visit item w1).2.
    split; [unfold caught; by destruct (visit item w1)|]. intros w3 R3. exists w1.
    assert (shadowed (after_visit run ws rest (visit item w1).1) w3) as Hs3.
    { eapply shadowed_stable; [|exact R3]. apply shadowed_visit; [done|]. by eapply shadowed_stable. }
    by destruct (visit item w1) as [[[t|]|e|u] w2].
  - destruct (ws_futures ws !! i) as [[t [r|B m k]]|] eqn:Ei.
    + intros w1 R1. exists w1. cbn. rewrite list_insert_id by done.
      replace (mk_walk _ _ _) with ws by (by destruct ws). split; [done|]. by eapply shadowed_stable.
    + apply wp_rely_op. intros w1 R1. eexists (m w1).1, ((m w1).2).
      split; [unfold caught; by destruct (m w1)|]. intros w3 R3. exists w1.
      assert (shadowed (with_future ws i t (goes_on k (m w1).1)) w3) as Hs3.
      { eapply shadowed_stable; [|exact R3]. apply shadowed_run; [done|]. by eapply shadowed_stable. }
      cbn [prog_step]. by destruct (m w1) as [[b|e|u] f].
    + intros w1 R1. exists w1. split; [done|]. by eapply shadowed_stable.
Qed.

Lemma walk_events_rely (J : walk_state -> list event -> Prop) l ws w :
  (forall ws e l w, J ws (e :: l) -> J (step visit run (ws, w) e).1 l) -> J ws l -> shadowed ws w ->
  wp_rely R (walk_events visit run ws l)
    (fun r w' => exists ws', r = Ok ws' /\ J ws' [] /\ shadowed ws' w') w.
Proof.
  intros HJ. revert ws w. induction l as [|e l IH]; intros ws w Hj Hs; cbn [walk_events].
  - intros w1 R1. exists ws. split; [done|]. split; [done|]. by eapply shadowed_stable.
  - apply wp_rely_bind; [done|]. eapply wp_rely_weaken; [|by apply walk_event_rely].
    intros r w1 (w2 & -> & Hs1). apply IH; [by apply HJ|done].
Qed.

(** What is left of a task. *)
Lemma attempt_rely ws i t p w : ws.(ws_futures) !! i = Some (t, p) -> shadowed ws w ->
  wp_rely R (attempt p) (fun r w' => exists r', r = Ok r' /\ shadowed (with_future ws i t (Ret r')) w') w.
Proof.
  revert ws w. induction p as [r|B m k IH]; intros ws w Ei Hs; cbn [attempt].
  - intros w1 R1. exists r. split; [done|]. unfold with_future. rewrite list_insert_id by done.
    replace (mk_walk _ _ _) with ws by (by destruct ws). by eapply shadowed_stable.
  - apply wp_rely_op. intros w1 R1. eexists (m w1).1, ((m w1).2).
    split; [unfold caught; by destruct (m w1)|].
    assert (shadowed (with_future ws i t (goes_on k (m w1).1)) ((m w1).2)) as Hs2.
    { apply shadowed_run; [done|]. by eapply shadowed_stable. }
    destruct (m w1) as [[b|e|u] f]; cbn [fst snd goes_on] in *.
    + eapply wp_rely_weaken; [|apply (IH b (with_future ws i t (k b))); [|done]].
      * intros r w' (r' & -> & Hs'). exists r'. split; [done|]. unfold with_future in *. cbn in Hs'.
        by rewrite list_insert_insert_eq in Hs'.
      * apply list_lookup_insert_eq. by eapply lookup_lt_Some.
    + intros w3 R3. eexists. split; [done|]. by eapply shadowed_stable.
    + intros w3 R3. eexists. split; [done|]. by eapply shadowed_stable.
Qed.

Lemma await_all_rely l ws w : shadowed ws w ->
  wp_rely R (await_all ws l) (fun r w' => exists ws', r = Ok ws' /\ awaited_all ws l ws' /\ shadowed ws' w') w.
Proof.
  revert ws w. induction l as [|i l IH]; intros ws w Hs; cbn [await_all].
  - intros w1 R1. exists ws. split; [done|]. split; [done|]. by eapply shadowed_stable.
  - apply wp_rely_bind; [done|].
    eapply (wp_rely_weaken _ _ (fun r w' => exists ws', r = Ok ws' /\ awaited ws i ws' /\ shadowed ws' w')).
    + intros r w1 (ws1 & -> & Ha & Hs1). eapply wp_rely_weaken; [|by apply IH].
      intros r w2 (ws2 & -> & Ha2 & Hs2). exists ws2. split; [done|]. split; [|done]. by exists ws1.
    + unfold await, awaited. destruct (ws_futures ws !! i) as [[t p]|] eqn:Ei.
      * apply wp_rely_bind; [done|]. eapply wp_rely_weaken; [|by apply (attempt_rely ws i t)].
        intros r w1 (r' & -> & Hs1) w2 R2. eexists. split; [done|]. split; [by exists r'|].
        by eapply shadowed_stable.
      * intros w1 R1. exists ws. split; [done|]. split; [done|]. by eapply shadowed_stable.
Qed.

(** Among others, too, the walk returns and every regular item has its target. *)
Lemma walk_rely schedule (w : world) : fs_of w = fs0 -> K w ->
  wp_rely R (walk_prog visit run items schedule)
    (fun r w' => r = Ok tt /\ exists v, same_zone v w' /\ agrees v /\ K v /\
       forall item, regular item -> finished item v /\ ready item v) w.
Proof.
  intros E0 HK0. unfold walk_prog. apply wp_rely_bind; [done|].
  eapply wp_rely_weaken; [|apply (walk_events_rely (fun _ _ => True)); [done|done|]].
  2: { exists w. split; [by apply start_inv|done]. }
  intros r w1 (ws1 & -> & _ & Hs1). apply wp_rely_bind; [done|].
  eapply wp_rely_weaken; [|apply (walk_events_rely
    (fun ws l => exists n, l = replicate n Visit /\ (length ws.(ws_todo) <= n)%nat)); [|by eexists|exact Hs1]].
  2: { intros ws e l w' (n & El & Hn). destruct n as [|n]; [done|]. injection El as -> ->. exists n.
       split; [done|]. rewrite step_todo. cbn. destruct (ws_todo ws) as [|item rest]; cbn in *; [lia|].
       destruct (visit item w') as [[?|?|?] ?]; cbn; lia. }
  intros r w2 (ws2 & -> & (n & En & Hn) & Hs2). destruct n; [|done].
  assert (ws_todo ws2 = []) as Ht by (apply nil_length_inv; lia).
  apply wp_rely_bind; [done|]. eapply wp_rely_weaken; [|by apply await_all_rely].
  intros r w3 (ws3 & -> & [Ht3 Hd3]%awaited_all_done & Hs3) w4 R4.
  apply (shadowed_stable _ _ _ Hs3) in R4 as (v & Hi & Hz).
  destruct (over_correct (ws3, v) Hi) as [Hres Hall]; [split; [by cbn; rewrite Ht3|done]|].
  split; [done|]. exists v. split; [done|]. split; [apply Hi|]. split; [apply Hi|done].
Qed.
End Shadow.
End WalkCorrect.

(** ** A concrete walk, for the witnesses *)

Fixpoint suffixes (s : string) : list string :=
  s :: match s with EmptyString => [] | String _ r => suffixes r end.

Lemma suffixes_app s t : t ∈ suffixes (s +:+ t).
Proof. induction s as [|a s IH]; string_app; [destruct t; cbn; set_solver|]. cbn. set_solver. Qed.

Definition below (d : string) (fs : fsys) (dirs : gset string) (rel : string) : Prop :=
  plain_names rel /\ (is_Some (fs !! path_app d rel) \/ path_app d rel ∈ dirs).

#[global] Instance below_dec d fs dirs rel : Decision (below d fs dirs rel).
Proof. unfold below. apply _. Defined.

(** The names below [d], in the order of a set of strings. *)
Definition sample_walk : DirWalk := {|
  walk d fs dirs :=
    elements (C := gset string)
      (list_to_set (filter (below d fs dirs)
         (concat (map suffixes ((map_to_list fs).*1 ++ elements dirs)))))
|}.

Lemma path_app_suffixes d rel : plain_names rel -> rel ∈ suffixes (path_app d rel).
Proof.
  intros Hr. unfold path_app. rewrite plain_names_not_absolute by done.
  destruct (String.eqb d "" || ends_with_sep d); [apply suffixes_app|].
  change (String sep rel) with (String sep EmptyString +:+ rel). rewrite <- string_app_assoc.
  apply suffixes_app.
Qed.

Lemma sample_walk_laws : @DirWalkLaws sample_walk.
Proof.
  split; cbn [walk sample_walk].
  - intros. apply NoDup_elements.
  - intros d fs dirs rel. rewrite elem_of_elements, elem_of_list_to_set, list_elem_of_filter.
    split; [by intros [Hb _]|]. intros Hb. split; [done|]. destruct Hb as [Hr Hb].
    apply list_elem_of_In, in_concat. exists (suffixes (path_app d rel)).
    split; [|by apply list_elem_of_In, path_app_suffixes]. apply in_map, list_elem_of_In, elem_of_app.
    destruct Hb as [[c Hc]|Hd]; [left|right; by apply elem_of_elements].
    apply list_elem_of_fmap. exists (path_app d rel, c). split; [done|]. by apply elem_of_map_to_list.
Qed.
