(* ===== verification/Tree.v ===== *)
(** * Whole trees

    What [EncryptToDir] and [DecryptToDir] make of a directory, for every
    schedule of their tasks, and the round trip of a tree. *)

From S2P Require Import Prelude CppStd External Path YaclCrypto Tasks CryptoFile Footprint Directory.

(** Two directories of which neither lies in the other. *)
Definition apart (d e : string) : Prop := forall r s, d +:+ String sep r <> e +:+ String sep s.

(** ** Directories above a file *)

Lemma strip_seps_plain p : ends_with_sep p = false -> strip_seps p = p.
Proof.
  induction p as [|c p IH]; [done|]. intros He. cbn. destruct p as [|c' p].
  - cbn in *. by rewrite He.
  - rewrite IH by exact He. done.
Qed.

(** A directory is above every file in it. *)
Lemma lineage_parent p rel : plain_dir p -> plain_names rel ->
  p ∈ lineage (parent_path (path_app p rel)).
Proof.
  intros Hp Hr. rewrite path_app_plain by done. unfold parent_path.
  destruct (split_last sep rel) as [[d f]|] eqn:E.
  - apply split_last_some in E as [-> Hw].
    assert (plain_names d) as Hd.
    { unfold plain_names in *. rewrite split_on_app, Forall_app in Hr. tauto. }
    replace (p +:+ String sep (d +:+ String sep f)) with ((p +:+ String sep d) +:+ String sep f)
      by (by rewrite string_app_assoc).
    rewrite split_last_app by done. rewrite strip_seps_plain.
    + destruct p as [|c p]; [by destruct Hp|]. string_app. apply elem_of_lineage. right.
      split; [done|by exists d].
    + by apply ends_below.
  - rewrite split_last_app by done. rewrite strip_seps_plain by apply Hp.
    destruct p; [by destruct Hp|]. apply elem_of_lineage. by left.
Qed.

(** ** Room for the files a walk makes *)

Lemma existsb_ext_in {A} (f g : A -> bool) l : (forall x, x ∈ l -> f x = g x) -> existsb f l = existsb g l.
Proof. induction l as [|x l IH]; intros Hl; [done|]. cbn. rewrite Hl, IH; set_solver. Qed.

Section Room.
Context `{FileIO} `{Rand}.

(** The files [targets] can be made: their directories exist or can be made, and
    are none of [files]. *)
Definition room (w : world) (targets files : string -> Prop) : Prop :=
  forall t, targets t -> permitted t /\ parent_path t <> "" /\ (t ∉ w.(w_dirs)) /\
    forall d, d ∈ lineage (parent_path t) -> fs_of w !! d = None /\ ~ files d.

(** [ensure_parent] succeeds and changes no file. *)
Lemma ensure_parent_ok p (w : world) :
  parent_path p <> "" -> (forall d, d ∈ lineage (parent_path p) -> fs_of w !! d = None) ->
  exists dirs, ensure_parent p w = (Ok tt, set_dirs dirs w) /\
    forall d, d ∈ dirs <-> d ∈ w.(w_dirs) \/
      (d ∈ lineage (parent_path p) /\ path_exists (parent_path p) w = false).
Proof.
  intros Hne Hno. unfold ensure_parent. destruct (path_exists (parent_path p) w); cbn [negb].
  - exists w.(w_dirs). split; [by destruct w|]. intros d. naive_solver.
  - unfold create_directories. rewrite (proj2 (String.eqb_neq _ _)) by done. cbn [orb].
    assert (existsb (fun d => is_regular_file d w) (lineage (parent_path p)) = false) as ->.
    { apply not_true_iff_false. intros (d & Hd & Hr)%existsb_exists. apply list_elem_of_In in Hd.
      apply bool_decide_eq_true in Hr as [c Hc]. by rewrite Hno in Hc. }
    eexists. split; [done|]. intros d. set_solver.
Qed.

(** It looks at the directory it makes and at the files above it. *)
Lemma ensure_parent_same Zf Zd p (v w : world) : same_zone Zf Zd v w ->
  (forall d, d ∈ lineage (parent_path p) -> Zf d) -> Zd (parent_path p) ->
  (ensure_parent p w).1 = (ensure_parent p v).1 /\
  same_zone Zf Zd (ensure_parent p v).2 (ensure_parent p w).2.
Proof.
  intros Hz Hl Hp. pose proof Hz as [Hf Hd].
  assert (forall d, d ∈ lineage (parent_path p) -> is_regular_file d w = is_regular_file d v) as Hreg.
  { intros d Hin. unfold is_regular_file. by rewrite Hf by auto. }
  assert (path_exists (parent_path p) w = path_exists (parent_path p) v) as Hex.
  { unfold path_exists. rewrite Hreg by (apply elem_of_lineage; by left). f_equal. by apply bool_decide_ext, Hd. }
  unfold ensure_parent. rewrite Hex. destruct (negb _); [|done]. unfold create_directories.
  rewrite (existsb_ext_in _ (fun d => is_regular_file d v) _ Hreg).
  destruct (_ || _); [done|]. split; [done|]. split; [done|]. cbn. intros d Hzd.
  rewrite !elem_of_union. by rewrite (Hd d Hzd).
Qed.

(** The ancestors of a directory are directories. *)
Definition dirs_closed (w : world) : Prop :=
  forall d e, d ∈ w.(w_dirs) -> e ∈ lineage d -> e ∈ w.(w_dirs).

(** The directories a walk may leave behind. *)
Definition dirs_grown (w : world) (targets : string -> Prop) (w' : world) : Prop :=
  (forall d, d ∈ w.(w_dirs) -> d ∈ w'.(w_dirs)) /\
  (forall d, d ∈ w'.(w_dirs) -> d ∈ w.(w_dirs) \/
     exists t, targets t /\ d ∈ lineage (parent_path t)) /\
  dirs_closed w'.

(** [ensure_parent] for a target, at any time of a walk that has written only
    targets. *)
Lemma ensure_target (w w1 : world) targets files t :
  room w targets files -> (forall u, targets u -> files u) -> targets t ->
  (forall k, ~ targets k -> fs_of w1 !! k = fs_of w !! k) -> dirs_grown w targets w1 ->
  exists dirs, ensure_parent t w1 = (Ok tt, set_dirs dirs w1) /\
    dirs_grown w targets (set_dirs dirs w1) /\ w1.(w_dirs) ⊆ dirs /\
    forall d, d ∈ lineage (parent_path t) -> d ∈ dirs.
Proof.
  intros Hroom Hsub Ht Hag (Hg1 & Hg2 & Hcl). destruct (Hroom t Ht) as (_ & Hne & _ & Hl).
  assert (forall d, d ∈ lineage (parent_path t) -> fs_of w1 !! d = None) as Hno.
  { intros d Hd. destruct (Hl d Hd) as [Hn Hf]. rewrite Hag; [done|]. by intros Hu%Hsub. }
  destruct (ensure_parent_ok t w1 Hne Hno) as (dirs & E & Hd).
  assert (forall d, d ∈ lineage (parent_path t) -> d ∈ dirs) as Hin.
  { intros d Hin. apply Hd. destruct (path_exists (parent_path t) w1) eqn:Ex; [left|by right].
    apply orb_true_iff in Ex as [Ex|Ex]; apply bool_decide_eq_true in Ex; [|by eapply Hcl].
    rewrite Hno in Ex; [by destruct Ex|]. apply elem_of_lineage. by left. }
  exists dirs. split; [done|]. split; [|split; [intros d ?; apply Hd; by left|done]].
  split; [|split]; cbn.
  - intros d ?. apply Hd. auto.
  - intros d Hdd. apply Hd in Hdd as [Hdd|[Hdd _]]; [by apply Hg2|]. right. by exists t.
  - intros d e Hdd He. apply Hd in Hdd as [Hdd|[Hdd _]]; [apply Hd; left; by eapply Hcl|].
    apply Hin. by eapply lineage_trans.
Qed.

Lemma no_file p (w : world) : fs_of w !! p = None -> is_regular_file p w = false.
Proof. intros E. unfold is_regular_file. rewrite E. by apply bool_decide_eq_false_2; intros []. Qed.

(** A file of the tree under [src], by its name there. *)
Definition file_of (w : world) (src rel : string) : Prop :=
  plain_names rel /\ is_Some (fs_of w !! path_app src rel).

#[global] Instance file_of_dec (w : world) src rel : Decision (file_of w src rel).
Proof. unfold file_of. apply _. Defined.

(** The paths [tgt rel] for the files of the tree. *)
Definition targets_of (w : world) (src : string) (tgt : string -> string) (t : string) : Prop :=
  exists rel, file_of w src rel /\ t = tgt rel.

(** [w1] differs from [w] in targets and their directories only. *)
Definition only_targets (w : world) (targets : string -> Prop) (w1 : world) : Prop :=
  (forall k, ~ targets k -> fs_of w1 !! k = fs_of w !! k) /\ dirs_grown w targets w1.

Lemma only_targets_refl (w : world) targets : dirs_closed w -> only_targets w targets w.
Proof. intros Hc. split; [done|]. split; [done|]. split; [|done]. intros d ?. by left. Qed.

Lemma only_targets_same (w v v' : world) targets :
  (forall k, fs_of v' !! k = fs_of v !! k) -> (forall d, d ∈ v'.(w_dirs) <-> d ∈ v.(w_dirs)) ->
  only_targets w targets v -> only_targets w targets v'.
Proof.
  intros Hf Hd [Hag (Hg1 & Hg2 & Hcl)]. split; [intros k Hk; rewrite Hf; auto|]. split; [|split].
  - intros d Hin. by apply Hd, Hg1.
  - intros d Hin%Hd. by apply Hg2.
  - intros d e Hin%Hd He. apply Hd. by eapply Hcl.
Qed.

(** Changing a target. *)
Lemma only_targets_change (w w1 w2 : world) targets t :
  only_targets w targets w1 -> targets t ->
  (forall k, k <> t -> fs_of w2 !! k = fs_of w1 !! k) ->
  w2.(w_dirs) = w1.(w_dirs) -> only_targets w targets w2.
Proof.
  intros [Hag (Hg1 & Hg2 & Hcl)] Ht Hw Hd. split.
  - intros k Hk. rewrite Hw; [by apply Hag|]. by intros ->.
  - unfold dirs_grown, dirs_closed. by rewrite Hd.
Qed.

Lemma only_targets_write (w w1 w2 : world) targets t c :
  only_targets w targets w1 -> targets t -> fs_of w2 = <[t := c]> (fs_of w1) ->
  w2.(w_dirs) = w1.(w_dirs) -> only_targets w targets w2.
Proof.
  intros Ho Ht Hw. apply (only_targets_change w w1 w2 targets t Ho Ht).
  intros k Hk. by rewrite Hw, lookup_insert_ne.
Qed.

Lemma target_no_dir (w w1 : world) targets files t :
  room w targets files -> (forall u, targets u -> files u) -> targets t ->
  dirs_grown w targets w1 -> t ∉ w1.(w_dirs).
Proof.
  intros Hroom Hsub Ht (_ & Hg & _) Hin.
  destruct (Hg t Hin) as [Hin'|(u & Hu & Hl)].
  - by destruct (Hroom t Ht) as (_ & _ & Hno & _).
  - destruct (Hroom u Hu) as (_ & _ & _ & Hno). destruct (Hno t Hl) as [_ []]. by apply Hsub.
Qed.

(** Decrypting finds room when encrypting left it. *)
Lemma room_after (w w1 : world) targets1 targets2 files :
  room w targets1 files -> room w targets2 files ->
  (forall t, targets1 t \/ targets2 t -> files t) -> only_targets w targets1 w1 ->
  room w1 targets2 files.
Proof.
  intros Hroom1 Hroom2 Hsub [Hag (_ & Hg & _)] t Ht. destruct (Hroom2 t Ht) as (Hwr & Hne & Hd & Hl).
  split; [done|]. split; [done|]. split.
  - intros Hin. destruct (Hg t Hin) as [|(u & Hu & Hlu)]; [done|].
    destruct (Hroom1 u Hu) as (_ & _ & _ & Hno). destruct (Hno t Hlu) as [_ []]. auto.
  - intros d Hin. destruct (Hl d Hin) as [Hno Hf]. split; [|done]. rewrite Hag; [done|]. auto.
Qed.

Lemma room_sub (w : world) (targets files targets' files' : string -> Prop) :
  room w targets files -> (forall t, targets' t -> targets t) -> (forall t, files' t -> files t) ->
  room w targets' files'.
Proof.
  intros Hr Ht Hf t Ht'. destruct (Hr t (Ht t Ht')) as (H1 & H2 & H3 & H4). split; [done|].
  split; [done|]. split; [done|]. intros d Hd. destruct (H4 d Hd) as [? Hn]. split; [done|].
  intros Hd'. by apply Hn, Hf.
Qed.

Lemma only_targets_sub (w w1 : world) (targets targets' : string -> Prop) :
  only_targets w targets w1 -> (forall t, targets t -> targets' t) -> only_targets w targets' w1.
Proof.
  intros [Ha (H1 & H2 & H3)] Ht. split; [intros k Hk; apply Ha; auto|]. split; [done|].
  split; [|done]. intros d Hd. destruct (H2 d Hd) as [|(t & ? & ?)]; [by left|right]. exists t. auto.
Qed.
End Room.

(** ** Well-formed directories

    Whatever the schedule and however they end, the operations keep the
    directories closed. *)

Section Closed.
Context `{FL : FileIOLaws} `{Rand} `{ByteView} `{Gcm} `{DirWalk}.

(** Directories that are closed before are closed after. *)
Definition stays_closed (w w' : world) : Prop := dirs_closed w -> dirs_closed w'.

#[export] Instance stays_closed_preorder : PreOrder stays_closed.
Proof. split; unfold stays_closed; [by intros w|]. intros w1 w2 w3. auto. Qed.

Lemma keeps_guarantee {A} (m : st world A) : keeps dirs_closed m -> all_guarantee stays_closed (op m).
Proof. intros Hm. apply all_guarantee_op. exact Hm. Qed.

Lemma create_directories_closed p : keeps dirs_closed (create_directories p).
Proof.
  intros w Hc. unfold create_directories. destruct (_ || _); [done|]. cbn. intros d e. cbn.
  rewrite !elem_of_union, !elem_of_list_to_set. intros [Hd|Hd] He; [left; by eapply lineage_trans|].
  right. by eapply Hc.
Qed.

Lemma ensure_parent_closed p : keeps dirs_closed (ensure_parent p).
Proof. intros w Hc. unfold ensure_parent. destruct (negb _); [by apply create_directories_closed|done]. Qed.

Lemma copy_file_closed from to : keeps dirs_closed (copy_file from to).
Proof. intros w Hc. unfold copy_file. by repeat case_match. Qed.

#[local] Hint Resolve ensure_parent_closed copy_file_closed : trustflow.

Lemma off_closed t (p : prog world unit) : all_guarantee (off t) p -> all_guarantee stays_closed p.
Proof. apply guarantees_weaken. intros w w' [E _] Hc. unfold dirs_closed. by rewrite E. Qed.

Lemma EncryptFile_closed src dest key : all_guarantee stays_closed (EncryptFile src dest key).
Proof. apply (off_closed dest), EncryptFile_off. Qed.

Lemma DecryptFile_closed src dest key : all_guarantee stays_closed (DecryptFile src dest key).
Proof. apply (off_closed dest), DecryptFile_off. Qed.

#[local] Hint Resolve keeps_guarantee all_guarantee_bind all_guarantee_ret EncryptFile_closed DecryptFile_closed : trustflow.

Lemma encrypt_item_closed src dest item : keeps dirs_closed (encrypt_item src dest item).
Proof.
  intros w Hc. unfold encrypt_item. destruct (is_regular_file item w); [|done].
  revert w Hc. apply keeps_bind; auto with trustflow.
Qed.

Lemma decrypt_item_closed src dest item : keeps dirs_closed (decrypt_item src dest item).
Proof.
  intros w Hc. unfold decrypt_item. destruct (is_regular_file item w); [|done].
  revert w Hc. apply keeps_bind; [auto with trustflow|]. intros _.
  case_match; [auto with trustflow|]. apply keeps_bind; auto with trustflow.
Qed.

Lemma EncryptToDir_closed schedule src dest key : all_guarantee stays_closed (EncryptToDir schedule src dest key).
Proof.
  unfold EncryptToDir. apply all_guarantee_bind; [apply (all_guarantee_look stays_closed)|]. intros found.
  apply all_guarantee_bind; [apply all_guarantee_ret|]. intros _. apply all_guarantee_bind; [apply (all_guarantee_look stays_closed)|]. intros [].
  { apply all_guarantee_bind; auto with trustflow. }
  apply all_guarantee_bind; [apply (all_guarantee_look stays_closed)|]. intros []; [|done].
  apply all_guarantee_bind; [apply (all_guarantee_look stays_closed)|]. intros items. apply walk_keeps; [apply _|].
  intros item w1 _. split; [|intros; apply EncryptFile_closed]. exact (encrypt_item_closed src dest item w1).
Qed.

Lemma DecryptToDir_closed schedule src dest key : all_guarantee stays_closed (DecryptToDir schedule src dest key).
Proof.
  unfold DecryptToDir. apply all_guarantee_bind; [apply (all_guarantee_look stays_closed)|]. intros found.
  apply all_guarantee_bind; [apply all_guarantee_ret|]. intros _. apply all_guarantee_bind; [apply (all_guarantee_look stays_closed)|]. intros [].
  { apply all_guarantee_bind; [auto with trustflow|]. intros _. case_match; auto with trustflow. }
  apply all_guarantee_bind; [apply (all_guarantee_look stays_closed)|]. intros []; [|done].
  apply all_guarantee_bind; [apply (all_guarantee_look stays_closed)|]. intros items. apply walk_keeps; [apply _|].
  intros item w1 _. split; [|intros; apply DecryptFile_closed]. exact (decrypt_item_closed src dest item w1).
Qed.
End Closed.

Section Trees.
Context `{FL : FileIOLaws} `{RaL : RandLaws} `{BL : ByteViewLaws} `{GL : GcmLaws} `{WL : DirWalkLaws}.

Definition enc_target (dest rel : string) : string := path_app dest rel +:+ kEncSuffix.

Lemma elem_of_items (w : world) d item :
  item ∈ items_of d w <->
  exists rel, item = path_app d rel /\ plain_names rel /\
    (is_Some (fs_of w !! path_app d rel) \/ path_app d rel ∈ w.(w_dirs)).
Proof.
  unfold items_of. rewrite list_elem_of_fmap. split.
  - intros (rel & -> & Hr%elem_of_walk). exists rel. tauto.
  - intros (rel & -> & Hr). exists rel. by rewrite elem_of_walk.
Qed.

Lemma NoDup_items (w : world) d : plain_dir d -> NoDup (items_of d w).
Proof.
  intros Hd. apply NoDup_fmap_2_strong; [|apply walk_NoDup].
  intros r r' [Hr _]%elem_of_walk [Hr' _]%elem_of_walk. by apply path_app_inj.
Qed.

Lemma regular_items (w : world) d item :
  regular (items_of d w) (fs_of w) item <->
  exists rel, item = path_app d rel /\ plain_names rel /\ is_Some (fs_of w !! path_app d rel).
Proof.
  unfold regular. rewrite elem_of_items. split.
  - intros [(rel & -> & Hp & _) Hs]. by exists rel.
  - intros (rel & -> & Hp & Hs). split; [exists rel; tauto|done].
Qed.

Lemma item_not_below d e r s t : plain_dir d -> plain_names r -> plain_dir e -> plain_names s ->
  apart d e -> path_app d r <> path_app e s +:+ t.
Proof.
  intros Hd Hr He Hs Ha. rewrite !path_app_plain, string_app_assoc by done. string_app. apply Ha.
Qed.

Lemma enc_target_inj dest r s : plain_dir dest -> plain_names r -> plain_names s ->
  enc_target dest r = enc_target dest s -> r = s.
Proof. intros Hd Hr Hs E%string_app_inj_r. by apply path_app_inj in E. Qed.

(** A state of a walk in which only targets have been written, the loop has not
    thrown and no task that has run has failed. *)
Record sound_state (w : world) (targets : string -> Prop) (s : walk_state * world) : Prop := {
  sound_targets : only_targets w targets s.2;
  sound_loop : s.1.(ws_failed) = None;
  sound_tasks : forall t r, (t, Ret r) ∈ s.1.(ws_futures) -> r = Ok tt
}.

(** A walk over a tree, by the names of its files: [tgt rel] is made from the
    file [rel], by the visit or by a task, with a content that [Rel] describes. *)

Section WalkTree.
Variable visit : string -> st world (option task).
Variable run : task -> prog world unit.
Variable tgt : string -> string.
Variable Rel : string -> bytes -> bytes -> Prop.
Variable spawned : string -> Prop.
Variable src : string.
Variable w : world.

Definition tree_targets : string -> Prop := targets_of w src tgt.

Record tree_walk : Prop := {
  tw_src : plain_dir src;
  tw_closed : dirs_closed w;
  tw_inj : forall r s, file_of w src r -> file_of w src s -> tgt r = tgt s -> r = s;
  tw_apart : forall rel, plain_names rel -> ~ tree_targets (path_app src rel);
  tw_other : forall rel w1, fs_of w1 !! path_app src rel = None ->
    visit (path_app src rel) w1 = (Ok None, w1);
  tw_file : forall rel c w1, file_of w src rel -> fs_of w !! path_app src rel = Some c ->
    fs_of w1 !! path_app src rel = Some c -> only_targets w tree_targets w1 ->
    exists w2, only_targets w tree_targets w2 /\ w1.(w_dirs) ⊆ w2.(w_dirs) /\
      (forall d, d ∈ lineage (parent_path (tgt rel)) -> d ∈ w2.(w_dirs)) /\
      ((visit (path_app src rel) w1 = (Ok (Some (path_app src rel, tgt rel)), w2) /\
        fs_of w2 = fs_of w1 /\ spawned rel) \/
       (exists c', visit (path_app src rel) w1 = (Ok None, w2) /\ Rel rel c c' /\
          fs_of w2 = <[tgt rel := c']> (fs_of w1)));
  tw_task : forall rel c o, file_of w src rel -> spawned rel -> fs_of w !! path_app src rel = Some c ->
    wp (path_app src rel) (tgt rel) c (run (path_app src rel, tgt rel))
      (fun r o => r = Ok tt /\ exists c', o = Some c' /\ Rel rel c c') o;
  tw_no_dir : forall rel w1, file_of w src rel -> only_targets w tree_targets w1 -> tgt rel ∉ w1.(w_dirs)
}.

Hypothesis tree : tree_walk.

Definition tree_target (item : string) : string := tgt (relative item src).

Lemma tree_target_app rel : plain_names rel -> tree_target (path_app src rel) = tgt rel.
Proof. intros Hr. unfold tree_target. by rewrite relative_path_app by (done || apply tree). Qed.

Lemma tree_agrees w1 : agrees (items_of src w) (fs_of w) tree_target w1 ->
  forall k, ~ tree_targets k -> fs_of w1 !! k = fs_of w !! k.
Proof.
  intros Ha k Hk. apply Ha. intros item (rel & -> & Hr & Hsome)%regular_items ->.
  apply Hk. exists rel. by rewrite tree_target_app.
Qed.

Abbreviation spec_of := (walk_spec visit run (items_of src w) (fs_of w) tree_target
  (fun item => Rel (relative item src)) (only_targets w tree_targets) (fun item => spawned (relative item src))).

Lemma tree_spec : spec_of.
Proof.
  destruct tree as [Hs Hcl Hinj Hapart Hv0 Hv1 Hr1 Hnd]. pose proof tree_target_app as Ht. split.
  - by apply NoDup_items.
  - intros a b (r & -> & Hr)%regular_items (r' & -> & Hr')%regular_items.
    rewrite !Ht by tauto. intros E. by rewrite (Hinj r r').
  - intros a b (r & -> & Hr & _)%regular_items (r' & -> & Hr' & Hs')%regular_items E. rewrite Ht in E by done.
    apply (Hapart r Hr). by exists r'.
  - intros item w1 (rel & -> & Hr & _)%elem_of_items Ha HK.
    assert (fs_of w1 !! path_app src rel = fs_of w !! path_app src rel) as E by (by apply tree_agrees, Hapart).
    destruct (fs_of w !! path_app src rel) as [c|] eqn:Ec.
    + assert (file_of w src rel) as Hfile by (split; [done|by rewrite Ec]).
      assert (regular (items_of src w) (fs_of w) (path_app src rel)) as Hreg
        by (apply regular_items; by exists rel; rewrite Ec).
      destruct (Hv1 rel c w1 Hfile Ec E HK) as (w2 & HK2 & Hsub & Hrd & [(Hv & Hw & Hsp)|(c' & Hv & HR & Hw)]);
        exists w2; (split; [done|]; split; [done|right]); unfold ready; rewrite Ht by done.
      * left. by rewrite relative_path_app.
      * right. split; [done|]. split; [|done]. exists c, c'. by rewrite relative_path_app, Ht.
    + exists w1. split; [done|]. split; [done|]. left. split; [by apply Hv0|]. split; [done|].
      intros (rel' & Er & Hr' & Hsome)%regular_items. rewrite <- Er, Ec in Hsome. by destruct Hsome.
  - intros item c o (rel & -> & Hr & Hsome)%regular_items Hsp Hc. rewrite relative_path_app in Hsp by done.
    eapply wp_mono; [|rewrite Ht by done; by apply (Hr1 rel c o)].
    unfold made. by rewrite relative_path_app.
  - intros item w1 w2 (rel & -> & Hr & Hsome)%regular_items HK Htc Hd. unfold touches in Htc.
    rewrite Ht in Htc by done. eapply only_targets_change; [done| |done|done]. by exists rel.
  - intros item w1 (rel & -> & Hr & Hsome)%regular_items HK. rewrite Ht by done. by apply Hnd.
Qed.

(** Every file has its target, with the directories above it. *)
Definition tree_made (w' : world) : Prop :=
  forall rel c, plain_names rel -> fs_of w !! path_app src rel = Some c ->
    exists c', fs_of w' !! tgt rel = Some c' /\ Rel rel c c' /\
      forall d, d ∈ lineage (parent_path (tgt rel)) -> d ∈ w'.(w_dirs).

Lemma finished_made w' :
  (forall item, regular (items_of src w) (fs_of w) item ->
     finished (fs_of w) tree_target (fun item => Rel (relative item src)) item w' /\
     ready tree_target item w') ->
  tree_made w'.
Proof.
  intros Hf rel c Hr Hc. destruct (Hf (path_app src rel)) as [(c0 & c' & Hc0 & Hc' & HR) Hrd].
  { apply regular_items. exists rel. by rewrite Hc. }
  rewrite Hc in Hc0. injection Hc0 as <-. rewrite tree_target_app in Hc' by done.
  unfold ready in Hrd. rewrite tree_target_app in Hrd by done.
  rewrite relative_path_app in HR by (done || apply tree). by exists c'.
Qed.

(** The walk alone, at every moment and at its end. *)
Lemma walk_tree schedule :
  (forall s, rtc (walk_step visit run) (mk_walk (items_of src w) [] None, w) s ->
     sound_state w tree_targets s) /\
  exists w', run_walk visit run (items_of src w) schedule w = (Ok tt, w') /\
    only_targets w tree_targets w' /\ tree_made w'.
Proof.
  destruct (run_walk_correct _ _ _ _ _ _ _ _ tree_spec schedule w) as (Hreach & w' & Hrun & Ha & HK & Hf);
    [done|by apply only_targets_refl, tree|].
  split.
  - intros s Hst%Hreach. pose proof Hst as [Hfail _ HKs _ _ _]. split; [done|done|]. intros t r Hm.
    by destruct (ended_made _ _ _ _ _ _ s t r Hst Hm).
  - exists w'. split; [done|]. split; [done|]. by apply finished_made.
Qed.

(** The walk among others that leave a zone alone. *)
Lemma walk_tree_rely Zf Zd R `{!PreOrder R} schedule :
  (forall rel, file_of w src rel -> Zf (path_app src rel) /\ Zf (tgt rel) /\
     Zd (parent_path (tgt rel)) /\ Zd (tgt rel)) ->
  (forall rel v w', plain_names rel -> same_zone Zf Zd v w' ->
     (visit (path_app src rel) w').1 = (visit (path_app src rel) v).1 /\
     same_zone Zf Zd (visit (path_app src rel) v).2 (visit (path_app src rel) w').2) ->
  (forall w w', R w w' -> same_zone Zf Zd w w') ->
  wp_rely R (walk_prog visit run (items_of src w) schedule)
    (fun r w' => r = Ok tt /\ exists v, same_zone Zf Zd v w' /\ only_targets w tree_targets v /\ tree_made v) w.
Proof.
  intros HZ Hlocal HR.
  eapply wp_rely_weaken; [|apply (walk_rely _ _ _ _ _ _ _ _ tree_spec Zf Zd); [..|done|by apply only_targets_refl, tree]].
  - intros r w' (-> & v & Hz & _ & HK & Hf). split; [done|]. exists v. split; [done|]. split; [done|].
    by apply finished_made.
  - intros item (rel & -> & Hr & Hs)%regular_items. rewrite tree_target_app by done. by apply HZ.
  - intros item v w' (rel & -> & Hr & _)%elem_of_items _ _ Hz. by apply Hlocal.
  - done.
  - done.
Qed.
End WalkTree.

(** ** Encryption *)

(** The loop of [EncryptToDir] and its tasks, for a tree of files that are not
    empty. *)
Definition encrypt_task (key : bytes) (t : task) : prog world unit := EncryptFile t.1 t.2 key.

(** What encrypting the tree under [src] into [dest] needs. *)
Record encryptable (w : world) (src dest : string) (key : bytes) (files : string -> Prop) : Prop := {
  enc_src : plain_dir src;
  enc_dest : plain_dir dest;
  enc_apart : apart src dest;
  enc_src_dir : is_directory src w = true;
  enc_src_file : fs_of w !! src = None;
  enc_closed : dirs_closed w;
  enc_key : exists alg, alg_of_key key = Some alg;
  enc_sizes : forall rel c, plain_names rel -> fs_of w !! path_app src rel = Some c ->
    0 < len c < 2 ^ 62;
  enc_room : room w (targets_of w src (enc_target dest)) files;
  enc_files : forall t, targets_of w src (enc_target dest) t -> files t
}.

(** How an encrypted file is made. *)
Definition encrypts (key : bytes) (rel : string) (c enc : bytes) : Prop :=
  container key enc c /\ len enc < 2 ^ 63.

Lemma encrypt_walk src dest key (w : world) files :
  encryptable w src dest key files ->
  tree_walk (encrypt_item src dest) (encrypt_task key) (enc_target dest) (encrypts key) (fun _ => True) src w.
Proof.
  intros [Hs Hd Hap _ _ Hcl [alg Hkey] Hlen Hroom Hsub]. set (targets := targets_of w src (enc_target dest)).
  assert (forall rel rel', plain_names rel -> file_of w src rel' ->
            path_app src rel <> enc_target dest rel') as Hne
    by (intros rel rel' Hr [Hr' _]; by apply item_not_below).
  split; [done|done| | | | | |].
  - intros r s [Hr _] [Hr' _]. by apply enc_target_inj.
  - intros rel Hr (rel' & Hf & E). by apply (Hne rel rel').
  - intros rel w1 Hno. unfold encrypt_item, is_regular_file. by rewrite Hno, bool_decide_eq_false_2 by (by intros []).
  - intros rel c w1 Hf _ Hc [Hag HK]. assert (targets (enc_target dest rel)) as Ht by (by exists rel).
    destruct (ensure_target w w1 targets files (enc_target dest rel)) as (dirs & E & HK' & Hgrow & Hrd); [done..|].
    exists (set_dirs dirs w1). split; [done|]. split; [done|]. split; [done|]. left. split; [|done].
    unfold encrypt_item, is_regular_file. rewrite Hc, bool_decide_eq_true_2 by done.
    rewrite relative_path_app by (done || apply Hf). fold (enc_target dest rel).
    by rewrite (st_bind_step _ _ _ _ _ E).
  - intros rel c o Hf _ Hc. assert (targets (enc_target dest rel)) as Ht by (by exists rel).
    destruct (Hroom _ Ht) as (Hwr & _). assert (0 < len c < 2 ^ 62) as Hl by (by eapply Hlen; [apply Hf|]).
    unfold encrypt_task. cbn [fst snd].
    eapply wp_mono; [|eapply wp_EncryptFile; [apply Hne; [apply Hf|done]|done|done|lia]].
    intros r o' Hw. pose proof Hw as (? & ? & ? & ? & -> & -> & _). split; [done|]. eexists. split; [done|].
    by apply (file_written_container c key (Ok tt)).
  - intros rel w1 Hf [_ HK]. apply (target_no_dir w w1 targets files); [done|done|by exists rel|done].
Qed.

(** What is made of a tree. *)
Abbreviation tree_encrypted key dest := (tree_made (enc_target dest) (encrypts key)).

(** Whatever the schedule, encrypting a tree of files that are not empty makes
    a container of each of them under [dest] and changes nothing else. *)
Lemma EncryptToDir_tree schedule src dest key (w : world) files :
  encryptable w src dest key files ->
  let targets := targets_of w src (enc_target dest) in
  exists w', perform (EncryptToDir schedule src dest key) w = (Ok tt, w') /\ only_targets w targets w' /\
    tree_encrypted key dest src w w'.
Proof.
  intros He targets. rewrite EncryptToDir_walk; [|apply (no_file src w), He|apply He].
  by apply (walk_tree _ _ _ _ _ _ _ (encrypt_walk src dest key w files He)).
Qed.

(** C7. For a directory whose files have 1 to 2^62 bytes, a key of 16 or 32 bytes,
    a destination apart from the source and room for the files to be made there:
    at every moment of [EncryptToDir], in whatever order its loop and the
    single operations of its tasks go on, no file but those to be made has changed
    (in particular no source file), no task that has ended has failed, and the
    loop has not thrown.  (With an empty file a task fails: see
    [EncryptToDir_empty_file].) *)
Theorem EncryptToDir_invariant src dest key (w : world) files s :
  encryptable w src dest key files ->
  let targets := targets_of w src (enc_target dest) in
  let next := walk_step (encrypt_item src dest) (encrypt_task key) in
  rtc next (mk_walk (items_of src w) [] None, w) s ->
  (forall k, ~ targets k -> fs_of s.2 !! k = fs_of w !! k) /\
  (forall rel, plain_names rel -> fs_of s.2 !! path_app src rel = fs_of w !! path_app src rel) /\
  s.1.(ws_failed) = None /\
  (forall t r, (t, Ret r) ∈ s.1.(ws_futures) -> r = Ok tt).
Proof.
  intros He targets next Hs. destruct (walk_tree _ _ _ _ _ _ _ (encrypt_walk src dest key w files He) []) as [Hreach _].
  destruct (Hreach s Hs) as [[Hag _] Hfail Htasks]. split; [done|]. split; [|done].
  intros rel Hr. apply Hag. intros (r & [Hr' _] & E). revert E.
  pose proof He as [? ? ? _ _ _ _ _ _ _]. by apply item_not_below.
Qed.

(** ** Decryption *)

(** The name of a file without the suffix of encrypted files. *)
Definition dec_name (rel : string) : string :=
  if String.eqb (extension rel) kEncSuffix then remove_extension rel else rel.

Definition dec_target (dest rel : string) : string := dest +:+ String sep (dec_name rel).

Lemma enc_name_split rel : extension rel = kEncSuffix ->
  exists x, rel = x +:+ kEncSuffix /\ remove_extension rel = x /\ filename x <> "".
Proof.
  intros E. destruct (extension_split rel) as (x & e & -> & He & Hd & Hx); [by rewrite E|].
  rewrite E in He. injection He as <-. exists x. split; [done|]. split; [|done].
  unfold remove_extension. rewrite E. cbn [String.eqb kEncSuffix]. by rewrite split_last_app.
Qed.

(** What the loop of [DecryptToDir] computes for an item. *)
Lemma dec_item_target dest rel : plain_dir dest -> plain_names rel ->
  (if String.eqb (extension rel) kEncSuffix then remove_extension (path_app dest rel)
   else path_app dest rel) = dec_target dest rel /\
  parent_path (path_app dest rel) = parent_path (dec_target dest rel).
Proof.
  intros Hd Hr. unfold dec_target, dec_name.
  pose proof (extension_filename _ _ (filename_app_plain dest rel Hd Hr)) as Hext.
  rewrite path_app_plain in * by done. destruct (String.eqb_spec (extension rel) kEncSuffix) as [E|]; [|done].
  destruct (enc_name_split rel E) as (x & -> & Hrem & Hx). rewrite Hrem.
  assert (dest +:+ String sep (x +:+ kEncSuffix) = (dest +:+ String sep x) +:+ kEncSuffix) as Hassoc
    by (by rewrite string_app_assoc).
  rewrite Hassoc in *. split.
  - unfold remove_extension. rewrite Hext, E. unfold kEncSuffix. cbn [String.eqb].
    by rewrite (split_last_app "." _ "enc").
  - apply parent_path_suffix; [|done]. destruct (split_on_suffix sep x "" eq_refl) as (l & y & Hs & _).
    rewrite (filename_split _ (split_on sep dest ++ l) y) by (by rewrite split_on_app, Hs, app_assoc).
    by rewrite <- (filename_split _ _ _ Hs).
Qed.

(** The task of a file with the suffix. *)
Definition decrypt_task (key : bytes) (t : task) : prog world unit := DecryptFile t.1 t.2 key.

(** What decrypting the tree under [src] into [dest] needs: encrypted files that
    are containers, and names that do not meet. *)
Record decryptable (w : world) (src dest : string) (key : bytes) (files : string -> Prop) : Prop := {
  de_src : plain_dir src;
  de_dest : plain_dir dest;
  de_apart : apart src dest;
  de_src_dir : is_directory src w = true;
  de_src_file : fs_of w !! src = None;
  de_closed : dirs_closed w;
  de_containers : forall rel c, plain_names rel -> fs_of w !! path_app src rel = Some c ->
    extension rel = kEncSuffix -> len c < 2 ^ 63 /\ exists p, container key c p;
  de_names : forall r s, file_of w src r -> file_of w src s -> dec_name r = dec_name s -> r = s;
  de_room : room w (targets_of w src (dec_target dest)) files;
  de_files : forall t, targets_of w src (dec_target dest) t -> files t
}.

(** What becomes of a file. *)
Definition decrypts (key : bytes) (rel : string) (c p : bytes) : Prop :=
  if String.eqb (extension rel) kEncSuffix then container key c p else p = c.

Lemma decrypt_walk src dest key (w : world) files :
  decryptable w src dest key files ->
  tree_walk (decrypt_item src dest) (decrypt_task key) (dec_target dest) (decrypts key)
    (fun rel => extension rel = kEncSuffix) src w.
Proof.
  intros [Hs Hd Hap _ _ Hcl Hcon Hinj Hroom Hsub]. set (targets := targets_of w src (dec_target dest)) in *.
  assert (forall rel rel', plain_names rel -> path_app src rel <> dec_target dest rel') as Hne
    by (intros rel rel' Hr; rewrite path_app_plain by done; apply Hap).
  split; [done|done| | | | | |].
  - intros r s Hr Hr' E%string_app_inj_l. injection E as E. by apply Hinj.
  - intros rel Hr (rel' & Hf & E). by apply (Hne rel rel').
  - intros rel w1 Hno. unfold decrypt_item, is_regular_file. by rewrite Hno, bool_decide_eq_false_2 by (by intros []).
  - intros rel c w1 Hf Hc0 Hc [Hag HK]. pose proof Hf as [Hr _].
    assert (targets (dec_target dest rel)) as Ht by (by exists rel).
    destruct (dec_item_target dest rel Hd Hr) as [Htgt Hpar].
    destruct (ensure_target w w1 targets files (dec_target dest rel)) as (dirs & E & HK' & Hgrow & Hrd); [done..|].
    unfold ensure_parent in E. rewrite <- Hpar in E. fold (ensure_parent (path_app dest rel) w1) in E.
    set (w2 := set_dirs dirs w1) in *.
    assert (only_targets w targets w2) as Honly by (by split).
    unfold decrypt_item, decrypts, is_regular_file. rewrite Hc, bool_decide_eq_true_2 by done.
    rewrite relative_path_app by done. rewrite (st_bind_step _ _ _ _ _ E).
    rewrite (extension_filename _ rel) by (by apply filename_app_plain).
    destruct (String.eqb_spec (extension rel) kEncSuffix) as [Hext|Hext].
    + exists w2. split; [done|]. split; [done|]. split; [done|]. left. by rewrite Htgt.
    + exists (write_file (path_app dest rel) c w2). rewrite Htgt. split.
      { by eapply only_targets_write. }
      split; [done|]. split; [done|]. right. exists c. split; [|done]. unfold mbind, st_bind, copy_file.
      assert (dec_target dest rel ∉ w2.(w_dirs)) as Hnd by (by apply (target_no_dir w w2 targets files)).
      assert (in_place w2.(w_dirs) (dec_target dest rel)) as Hin.
      { split; [|done]. right. right. apply Hrd, elem_of_lineage. by left. }
      unfold is_directory. rewrite bool_decide_eq_false_2 by done. change (fs_of w2) with (fs_of w1). rewrite Hc.
      by rewrite (proj2 (String.eqb_neq _ _)), bool_decide_eq_true_2 by (done || by apply Hne).
  - intros rel c o Hf Hext Hc. pose proof Hf as [Hr _].
    assert (targets (dec_target dest rel)) as Ht by (by exists rel).
    destruct (Hroom _ Ht) as (Hwr & _). destruct (Hcon rel c Hr Hc Hext) as [Hlen [p Hp]].
    unfold decrypt_task. cbn [fst snd]. eapply wp_mono; [|apply wp_DecryptFile; [by apply Hne|done|done]].
    intros r o' [(plain & Hpl & -> & ->)|(_ & _ & Hno)]; [|destruct Hno; by exists p].
    split; [done|]. exists plain. split; [done|]. unfold decrypts. by rewrite Hext.
  - intros rel w1 Hf [_ HK]. apply (target_no_dir w w1 targets files); [done|done|by exists rel|done].
Qed.

(** Whatever the schedule, decrypting such a tree makes the plaintext of each
    encrypted file and a copy of each other file, and changes nothing else. *)
Lemma DecryptToDir_tree schedule src dest key (w : world) files :
  decryptable w src dest key files ->
  let targets := targets_of w src (dec_target dest) in
  exists w', perform (DecryptToDir schedule src dest key) w = (Ok tt, w') /\ only_targets w targets w' /\
    tree_made (dec_target dest) (decrypts key) src w w'.
Proof.
  intros He targets. rewrite DecryptToDir_walk; [|apply (no_file src w), He|apply He].
  by apply (walk_tree _ _ _ _ _ _ _ (decrypt_walk src dest key w files He)).
Qed.

(** ** There and back *)

Lemma dec_name_enc rel : plain_names rel ->
  plain_names (rel +:+ kEncSuffix) /\ extension (rel +:+ kEncSuffix) = kEncSuffix /\
  dec_name (rel +:+ kEncSuffix) = rel.
Proof.
  intros Hr. destruct (extension_concat rel "enc") as [He Hrem]; [by apply plain_names_filename|done..|].
  fold kEncSuffix in He, Hrem.
  split; [apply plain_names_suffix; [done|done|cbn; lia]|]. split; [done|].
  unfold dec_name. by rewrite He, Hrem.
Qed.

Lemma enc_target_app dest rel : plain_dir dest -> plain_names rel ->
  enc_target dest rel = path_app dest (rel +:+ kEncSuffix).
Proof. intros Hd Hr. apply path_app_suffix; [done|done|]. by apply dec_name_enc. Qed.

Lemma dec_target_enc dest rel : plain_dir dest -> plain_names rel ->
  dec_target dest (rel +:+ kEncSuffix) = path_app dest rel.
Proof.
  intros Hd Hr. unfold dec_target. destruct (dec_name_enc rel Hr) as (_ & _ & ->).
  by rewrite path_app_plain.
Qed.

(** The tree under [tmp] holds a container of every file of the tree under [src],
    under its name with the suffix, and nothing else. *)
Definition sealed (w : world) (src : string) (key : bytes) (w1 : world) (tmp : string) : Prop :=
  (forall rel c, plain_names rel -> fs_of w !! path_app src rel = Some c ->
     exists enc, fs_of w1 !! path_app tmp (rel +:+ kEncSuffix) = Some enc /\ container key enc c /\
       len enc < 2 ^ 63) /\
  (forall r, file_of w1 tmp r -> exists rel, file_of w src rel /\ r = rel +:+ kEncSuffix).

(** The files of an encrypted tree are those of the tree with the suffix. *)
Lemma file_of_encrypted (names w w1 : world) src tmp r :
  plain_dir tmp -> (forall rel, plain_names rel -> fs_of w !! path_app tmp rel = None) ->
  only_targets w (targets_of names src (enc_target tmp)) w1 -> file_of w1 tmp r ->
  exists rel, file_of names src rel /\ r = rel +:+ kEncSuffix.
Proof.
  intros Ht Hempty [Hag _] [Hr Hsome].
  destruct (fs_of w1 !! path_app tmp r) as [c|] eqn:Hc; [|by destruct Hsome].
  destruct (decide (file_of names src (dec_name r) /\ r = dec_name r +:+ kEncSuffix)) as [[Hf E]|Hno].
  - by exists (dec_name r).
  - rewrite Hag, Hempty in Hc; [done|done|]. intros (rel & [Hrel Hf] & E). apply Hno.
    rewrite enc_target_app in E by done.
    apply path_app_inj in E; [|done|done|by apply dec_name_enc]. subst r.
    by destruct (dec_name_enc rel Hrel) as (_ & _ & ->).
Qed.

(** What the walk of [EncryptToDir] leaves in a directory that was empty or not
    there. *)
Lemma tree_sealed src tmp key (w w1 : world) :
  plain_dir tmp -> (exists rel, file_of w src rel) -> fs_of w !! tmp = None ->
  (forall rel, plain_names rel -> fs_of w !! path_app tmp rel = None) ->
  only_targets w (targets_of w src (enc_target tmp)) w1 -> tree_encrypted key tmp src w w1 ->
  sealed w src key w1 tmp /\ is_directory tmp w1 = true /\ fs_of w1 !! tmp = None.
Proof.
  intros Ht [rel0 [Hr0 [c0 Hc0]]] Hno Hempty O C. split; [split|split].
  - intros rel c Hr Hc. destruct (C rel c Hr Hc) as (enc & Henc & Hcon & _).
    exists enc. by rewrite <- enc_target_app.
  - intros r. by apply (file_of_encrypted w w).
  - apply bool_decide_eq_true_2. destruct (C rel0 c0 Hr0 Hc0) as (enc & _ & _ & Hdirs). apply Hdirs.
    rewrite enc_target_app by done. apply lineage_parent; [done|by apply dec_name_enc].
  - rewrite <- Hno. apply O. intros (rel & [Hr _] & E'). unfold enc_target in E'.
    rewrite path_app_plain, string_app_assoc in E' by done. apply (f_equal String.length) in E'.
    rewrite !string_length_app in E'. cbn in E'. lia.
Qed.

Lemma EncryptToDir_sealed schedule src tmp key (w : world) files :
  encryptable w src tmp key files -> (exists rel, file_of w src rel) -> fs_of w !! tmp = None ->
  (forall rel, plain_names rel -> fs_of w !! path_app tmp rel = None) ->
  exists w1, perform (EncryptToDir schedule src tmp key) w = (Ok tt, w1) /\
    only_targets w (targets_of w src (enc_target tmp)) w1 /\ sealed w src key w1 tmp /\
    is_directory tmp w1 = true /\ fs_of w1 !! tmp = None.
Proof.
  intros He Hex Hno Hempty. destruct (EncryptToDir_tree schedule src tmp key w files He) as (w1 & E & O & C).
  exists w1. split; [done|]. split; [done|]. apply tree_sealed; [apply He|done..].
Qed.

(** A sealed tree can be decrypted, *)
Lemma sealed_decryptable src tmp dst key (w w1 : world) files :
  sealed w src key w1 tmp -> plain_dir tmp -> plain_dir dst -> apart tmp dst ->
  is_directory tmp w1 = true -> fs_of w1 !! tmp = None -> dirs_closed w1 ->
  let made := targets_of w src (path_app dst) in
  room w1 made files -> (forall t, made t -> files t) ->
  decryptable w1 tmp dst key files /\ forall t, targets_of w1 tmp (dec_target dst) t -> made t.
Proof.
  intros [C1 Hfiles] Ht Hd Hap Hdir Hnf Hcl made Hroom Hsub.
  assert (forall t, targets_of w1 tmp (dec_target dst) t -> made t) as Hsub2.
  { intros t (r & Hr & ->). destruct (Hfiles r Hr) as (rel & Hf & ->). exists rel.
    split; [done|]. apply dec_target_enc; [done|apply Hf]. }
  split; [|done]. split; [done|done|done|done|done|done| | | |].
  - intros r c Hr Hc _. destruct (Hfiles r) as (rel & [Hrel [c0 Hc0]] & ->); [split; [done|by rewrite Hc]|].
    destruct (C1 rel c0 Hrel Hc0) as (enc & Henc & Hcon & Hl).
    rewrite Hc in Henc. injection Henc as ->. split; [done|]. by exists c0.
  - intros r r' (rel & [Hr _] & ->)%Hfiles (rel' & [Hr' _] & ->)%Hfiles.
    destruct (dec_name_enc rel Hr) as (_ & _ & ->), (dec_name_enc rel' Hr') as (_ & _ & ->). by intros ->.
  - by eapply room_sub.
  - auto.
Qed.

(** and what is made of it is the tree. *)
Lemma sealed_made src tmp dst key (w w1 w2 : world) : plain_dir dst ->
  sealed w src key w1 tmp -> tree_made (dec_target dst) (decrypts key) tmp w1 w2 ->
  forall rel c, plain_names rel -> fs_of w !! path_app src rel = Some c ->
    fs_of w2 !! path_app dst rel = Some c.
Proof.
  intros Hd [C1 _] C2 rel c Hr Hc. destruct (C1 rel c Hr Hc) as (enc & Henc & Hcon & _).
  destruct (dec_name_enc rel Hr) as (Hp & Hext & _).
  destruct (C2 _ enc Hp Henc) as (p & Hpl & HR & _). rewrite dec_target_enc in Hpl by done.
  unfold decrypts in HR. rewrite Hext, String.eqb_refl in HR. by rewrite (container_unique _ _ _ _ Hcon HR).
Qed.

Lemma DecryptToDir_sealed schedule src tmp dst key (w w1 : world) files :
  sealed w src key w1 tmp -> plain_dir tmp -> plain_dir dst -> apart tmp dst ->
  is_directory tmp w1 = true -> fs_of w1 !! tmp = None -> dirs_closed w1 ->
  let made := targets_of w src (path_app dst) in
  room w1 made files -> (forall t, made t -> files t) ->
  exists w2, perform (DecryptToDir schedule tmp dst key) w1 = (Ok tt, w2) /\ only_targets w1 made w2 /\
    forall rel c, plain_names rel -> fs_of w !! path_app src rel = Some c ->
      fs_of w2 !! path_app dst rel = Some c.
Proof.
  intros Hs Ht Hd Hap Hdir Hnf Hcl made Hroom Hsub.
  destruct (sealed_decryptable src tmp dst key w w1 files) as [He Hmade]; [done..|].
  destruct (DecryptToDir_tree schedule tmp dst key w1 files He) as (w2 & E2 & O2 & C2).
  exists w2. split; [done|]. split; [by eapply only_targets_sub|]. by eapply sealed_made.
Qed.

(** C9. Round trip of a tree: encrypting a directory of files that are not empty
    into a directory without files, or one that does not exist, and decrypting
    that into a third one restores every file under its name, whatever the
    schedules of the tasks of both, provided the three directories do not lie in
    each other and there is room for the files to be made; the files of the
    source stay as they were. *)
Theorem tree_roundtrip s1 s2 src tmp dst key (w : world) :
  let made1 := targets_of w src (enc_target tmp) in
  let made2 := targets_of w src (path_app dst) in
  let made p := made1 p \/ made2 p in
  encryptable w src tmp key made -> plain_dir dst -> apart tmp dst -> apart src dst ->
  (exists rel, file_of w src rel) -> fs_of w !! tmp = None ->
  (forall rel, plain_names rel -> fs_of w !! path_app tmp rel = None) ->
  room w made2 made ->
  exists w1 w2, perform (EncryptToDir s1 src tmp key) w = (Ok tt, w1) /\
    perform (DecryptToDir s2 tmp dst key) w1 = (Ok tt, w2) /\
    forall rel c, plain_names rel -> fs_of w !! path_app src rel = Some c ->
      fs_of w2 !! path_app dst rel = Some c /\ fs_of w2 !! path_app src rel = Some c.
Proof.
  intros made1 made2 made He Hd A2 A3 Hex Ft Hempty R2. pose proof He as [Hs Ht A1 _ _ _ _ _ R1 _].
  destruct (EncryptToDir_sealed s1 src tmp key w made He Hex Ft Hempty) as (w1 & E1 & O1 & S1 & D1 & F1).
  assert (forall rel c, plain_names rel -> fs_of w !! path_app src rel = Some c ->
            fs_of w1 !! path_app src rel = Some c) as Hkeep.
  { intros rel c Hr Hc. rewrite <- Hc. apply O1. intros (r & [Hr' _] & E).
    by apply (item_not_below src tmp rel r kEncSuffix) in E. }
  pose proof (room_after w w1 made1 made2 _ R1 R2 ltac:(by auto) O1) as R2'.
  destruct (DecryptToDir_sealed s2 src tmp dst key w w1 made) as (w2 & E2 & O2 & C2);
    [done..|apply O1|done|by right|].
  exists w1, w2. split; [done|]. split; [done|]. intros rel c Hr Hc. split; [by apply C2|].
  rewrite <- (Hkeep rel c Hr Hc). apply O2. intros (r & [Hr' _] & E). revert E.
  rewrite !path_app_plain by done. apply A3.
Qed.
End Trees.

(** ** The properties on a concrete tree *)

Module TreeWitness.
#[local] Existing Instances sample_rand sample_rand_laws sample_fileio sample_fileio_laws
  sample_byteview sample_byteview_laws sample_gcm sample_gcm_laws sample_walk sample_walk_laws.

Definition key : bytes := zero_bytes 16.
Definition fs0 : fsys := <["/s/a" := s2b "hello"]> (<["/s/sub/b" := s2b "world"]> ∅).
Definition w0 : world := mk_world _ fs0 {["/s"; "/s/sub"; "/t"]} tt.

Lemma w0_files rel c : plain_names rel -> fs_of w0 !! path_app "/s" rel = Some c ->
  (rel = "a" /\ c = s2b "hello") \/ (rel = "sub/b" /\ c = s2b "world").
Proof.
  intros Hr Hc. rewrite path_app_plain in Hc by done.
  change (fs_of w0) with fs0 in Hc. unfold fs0 in Hc. string_app.
  apply lookup_insert_Some in Hc as [[E <-]|[_ Hc]]; [left; by injection E|].
  apply lookup_insert_Some in Hc as [[E <-]|[_ Hc]]; [right; by injection E|].
  by rewrite lookup_empty in Hc.
Qed.

Lemma w0_made tgt t : targets_of w0 "/s" tgt t -> t = tgt "a" \/ t = tgt "sub/b".
Proof. intros (rel & [Hr [c Hc]] & ->). apply w0_files in Hc; [|done]. naive_solver. Qed.

Definition made (p : string) : Prop :=
  targets_of w0 "/s" (enc_target "/t") p \/ targets_of w0 "/s" (path_app "/d") p.

Lemma made_cases p : made p -> p ∈ ["/t/a.enc"; "/t/sub/b.enc"; "/d/a"; "/d/sub/b"].
Proof. intros [[->| ->]%w0_made|[->| ->]%w0_made]; cbn; set_solver. Qed.

(** There is room for a path when its directories are not among the files and
    those to be made. *)
Lemma w0_room t : t ∈ ["/t/a.enc"; "/t/sub/b.enc"; "/d/a"; "/d/sub/b"] ->
  permitted t /\ parent_path t <> "" /\ (t ∉ w0.(w_dirs)) /\
  forall d, d ∈ lineage (parent_path t) -> fs_of w0 !! d = None /\ ~ made d.
Proof.
  intros Ht. split; [done|].
  assert (parent_path t <> "" /\ (t ∉ w0.(w_dirs)) /\
    Forall (fun d => fs_of w0 !! d = None /\ d ∉ ["/t/a.enc"; "/t/sub/b.enc"; "/d/a"; "/d/sub/b"])
      (lineage (parent_path t))) as (H1 & H2 & H3).
  { revert t Ht. apply Forall_forall. apply (bool_decide_unpack _). by vm_compute. }
  split; [done|]. split; [done|]. intros d Hd. rewrite Forall_forall in H3.
  destruct (H3 d Hd) as [Hno Hm]. split; [done|]. by intros ?%made_cases.
Qed.

Lemma w0_closed : dirs_closed w0.
Proof.
  assert (Forall (fun d => Forall (fun e => e ∈ w0.(w_dirs)) (lineage d)) (elements w0.(w_dirs))) as Hall
    by (apply (bool_decide_unpack _); by vm_compute).
  intros d e Hd He. rewrite Forall_forall in Hall. specialize (Hall d).
  rewrite Forall_forall in Hall. apply Hall; [by apply elem_of_elements|done].
Qed.

Lemma w0_encryptable : encryptable w0 "/s" "/t" key made.
Proof.
  split; [done|done| |by vm_compute|by vm_compute|exact w0_closed|by eexists| | |].
  - by intros r s.
  - intros rel c Hr Hc. destruct (w0_files rel c Hr Hc) as [[_ ->]|[_ ->]]; by vm_compute.
  - intros t Ht. apply w0_room. apply made_cases. by left.
  - intros t Ht. by left.
Qed.

Lemma EncryptToDir_invariant_witness :
  fs_of (step (encrypt_item "/s" "/t") (encrypt_task key)
           (mk_walk (items_of "/s" w0) [] None, w0) Visit).2 !! "/s/a" = Some (s2b "hello").
Proof.
  destruct (EncryptToDir_invariant "/s" "/t" key w0 made
    (step (encrypt_item "/s" "/t") (encrypt_task key) (mk_walk (items_of "/s" w0) [] None, w0) Visit)
    w0_encryptable) as (_ & Hs & _).
  - apply rtc_once. by exists Visit.
  - specialize (Hs "a"). cbn in Hs. apply Hs. by repeat constructor.
Defined.

Lemma tree_roundtrip_witness : exists w1 w2,
  perform (EncryptToDir [Visit; Run 0; Visit; Run 1; Run 0] "/s" "/t" key) w0 = (Ok tt, w1) /\
  perform (DecryptToDir [Run 1; Visit; Visit; Run 1] "/t" "/d" key) w1 = (Ok tt, w2) /\
  fs_of w2 !! "/d/sub/b" = Some (s2b "world").
Proof.
  destruct (tree_roundtrip [Visit; Run 0; Visit; Run 1; Run 0] [Run 1; Visit; Visit; Run 1] "/s" "/t" "/d" key w0)
    as (w1 & w2 & E1 & E2 & Hall).
  - exact w0_encryptable.
  - done.
  - by intros r s.
  - by intros r s.
  - exists "a". split; [by apply (bool_decide_unpack _); vm_compute|vm_compute; by eexists].
  - by vm_compute.
  - intros rel Hr. rewrite path_app_plain by done.
    change (fs_of w0) with fs0. unfold fs0. by rewrite !lookup_insert_ne by done.
  - intros t Ht. apply w0_room. apply made_cases. by right.
  - exists w1, w2. split; [done|]. split; [done|].
    apply (Hall "sub/b" (s2b "world")); [by repeat constructor|by vm_compute].
Defined.

(** When [a] and [a.enc] are both in a directory, their targets are the same
    file: what it ends up with depends on the schedule, and it may be neither of
    the two texts. *)
Definition w_race : world :=
  mk_world _ (<["/t/a" := s2b "plain"]> (<["/t/a.enc" :=
    header 1 kBlockBytes ++ packet (zero_bytes 12) (zero_bytes 16) (s2b "xy")]> ∅))
    {["/t"; "/d"]} tt.

Definition race (schedule : list event) : outcome unit * option bytes :=
  let r := perform (DecryptToDir schedule "/t" "/d" key) w_race in (r.1, fs_of r.2 !! "/d/a").

Lemma DecryptToDir_race :
  race ([Visit] ++ replicate 9 (Run 0)) = (Ok tt, Some (s2b "plain")) /\
  race ([Visit] ++ replicate 2 (Run 0) ++ [Visit]) = (Ok tt, Some (s2b "xyain")) /\
  race [Visit; Visit] = (Ok tt, Some (s2b "xy")).
Proof. by vm_compute. Qed.

(** One empty file makes [EncryptToDir] throw, after the other files have been
    encrypted. *)
Definition w_empty : world :=
  mk_world _ (<["/s/empty" := []]> fs0) {["/s"; "/s/sub"; "/t"]} tt.

Lemma EncryptToDir_empty_file :
  (perform (EncryptToDir [] "/s" "/t" key) w_empty).1 = Throw (mk_exn EnforceNotMet "Pack cnt less than 1" []) /\
  is_Some (fs_of (perform (EncryptToDir [] "/s" "/t" key) w_empty).2 !! "/t/sub/b.enc").
Proof. vm_compute. split; [done|]. by eexists. Qed.
End TreeWitness.
