(* ===== verification/OssClient.v ===== *)
(** * The OSS client

    [trustflow/proxy/data_capsule_proxy/oss_client.cc].  The SDK of the object
    store is a parameter: its calls take the state of the store, and the local
    files they read and write, to the next ones. *)

From S2P Require Import Prelude CppStd External Path YaclCrypto Tasks CryptoFile Footprint Directory Tree.

(** ** AlibabaCloud::OSS *)

Record OssError := mk_oss_error { oss_code : string; oss_message : string }.

(** [objects] is the content of a bucket and [granted] says that a client's
    requests for a bucket are answered; they appear only in the laws. *)
Class Oss := {
  cloud : Type;
  OssClient : Type;
  objects : cloud -> string -> gmap string bytes;
  granted : OssClient -> string -> Prop;
  (* endpoint, access key, secret key, without and with a security token *)
  OssClient_new : string -> string -> string -> OssClient;
  OssClient_new_sts : string -> string -> string -> string -> OssClient;
  (* bucket, prefix; the keys of the object summaries *)
  ListObjects : OssClient -> string -> string -> cloud -> (OssError + list string) * cloud;
  (* bucket, key, file; the directories and files there are *)
  ResumableDownloadObject :
    OssClient -> string -> string -> string -> cloud -> gset string -> fsys -> (OssError + unit) * (cloud * fsys);
  ResumableUploadObject :
    OssClient -> string -> string -> string -> cloud -> gset string -> fsys -> (OssError + unit) * (cloud * fsys)
}.

(** An object's key has at least one character and does not begin with a
    separator. *)
Definition valid_key (key : string) : Prop := key <> "" /\ is_absolute key = false.

(** A listing holds keys with the prefix, all of them as long as they fit into
    one answer of 100, the default of [max-keys]; a download makes the file an
    upload was made from; an upload, even one that fails, changes no other object
    and no file. *)
Class OssLaws `{FileIO} `{Oss} : Prop := {
  ListObjects_ok cl bucket prefix c : granted cl bucket ->
    exists keys c', ListObjects cl bucket prefix c = (inr keys, c') /\ objects c' = objects c /\
      NoDup keys /\
      (forall k, k ∈ keys -> is_Some (objects c bucket !! k) /\ String.prefix prefix k = true) /\
      ((size (filter (fun kv => String.prefix prefix kv.1 = true) (objects c bucket)) <= 100)%nat ->
       forall k, is_Some (objects c bucket !! k) -> String.prefix prefix k = true -> k ∈ keys);
  ResumableDownloadObject_ok cl bucket key path c dirs fs v :
    granted cl bucket -> objects c bucket !! key = Some v -> writable dirs path ->
    exists c', ResumableDownloadObject cl bucket key path c dirs fs = (inr tt, (c', <[path := v]> fs)) /\
      objects c' = objects c;
  ResumableUploadObject_ok cl bucket key path c dirs fs v :
    granted cl bucket -> valid_key key -> fs !! path = Some v ->
    exists c', ResumableUploadObject cl bucket key path c dirs fs = (inr tt, (c', fs)) /\
      forall b, objects c' b =
        if String.eqb b bucket then <[key := v]> (objects c bucket) else objects c b;
  ResumableUploadObject_frame cl bucket key path c dirs fs r c' fs' :
    ResumableUploadObject cl bucket key path c dirs fs = (r, (c', fs')) ->
    fs' = fs /\ forall b k, (b <> bucket \/ k <> key) -> objects c' b !! k = objects c b !! k
}.

(** ** The client *)

Record oworld `{Rand} `{Oss} := mk_oworld { o_files : world; o_cloud : cloud }.

Section Model.
Context `{FileIO} `{Rand} `{Oss} `{DirWalk}.

Definition set_files (f : world) (w : oworld) : oworld := mk_oworld _ _ f w.(o_cloud).

Definition in_local {A} (m : st world A) : st oworld A := focus o_files set_files m.

(** A call that lists, and one that moves a file. *)
Definition list_call {A} (f : cloud -> (OssError + A) * cloud) : st oworld (OssError + A) := fun w =>
  let '(r, c) := f w.(o_cloud) in (Ok r, mk_oworld _ _ w.(o_files) c).

Definition object_call {A} (f : cloud -> gset string -> fsys -> (OssError + A) * (cloud * fsys))
    : st oworld (OssError + A) := fun w =>
  let '(r, (c, fs)) := f w.(o_cloud) w.(o_files).(w_dirs) (fs_of w.(o_files)) in
  (Ok r, mk_oworld _ _ (mk_world _ fs w.(o_files).(w_dirs) w.(o_files).(w_rng)) c).

(** [YACL_ENFORCE(res.isSuccess(), fmt, res.error().Code(), res.error().Message())] *)
Definition enforce_success {A} (fmt : string) (res : OssError + A) : outcome A :=
  match res with
  | inr a => Ok a
  | inl e => Throw (mk_exn EnforceNotMet fmt [FStr e.(oss_code); FStr e.(oss_message)])
  end.

Definition GetOssClient (endpoint ak sk sts_token : string) : OssClient :=
  if String.eqb sts_token "" then OssClient_new endpoint ak sk
  else OssClient_new_sts endpoint ak sk sts_token.

(** Where an object goes. *)
Definition download_target (src_path dest_path key : string) : string :=
  let relative_path := relative key src_path in
  if String.eqb relative_path "." then path_app dest_path (filename key)
  else path_app dest_path relative_path.

(** The body of the loop of [DownloadFromOss]. *)
Definition download_object (oss_client : OssClient) (bucket src_path dest_path key : string)
    : prog oworld unit :=
  let dest_object_path := download_target src_path dest_path key in
  _ ← op (in_local (ensure_parent dest_object_path));
  download_res ← op (object_call (ResumableDownloadObject oss_client bucket key dest_object_path));
  now (enforce_success "oss download object failed, error {}: {}" download_res).

Definition DownloadFromOss (endpoint bucket src_path dest_path ak sk sts_token : string)
    : prog oworld unit :=
  let oss_client := GetOssClient endpoint ak sk sts_token in
  list_res ← op (list_call (ListObjects oss_client bucket src_path));
  keys ← now (enforce_success "oss list object failed, error {}: {}" list_res);
  _ ← now (YACL_ENFORCE (0 <? len keys) "no object found in {}" [FStr src_path]);
  each (download_object oss_client bucket src_path dest_path) keys.

Definition upload_file (oss_client : OssClient) (bucket dest_object_path path : string)
    : prog oworld unit :=
  upload_res ← op (object_call (ResumableUploadObject oss_client bucket dest_object_path path));
  now (enforce_success "oss upload object failed, error {}: {}" upload_res).

(** The body of the loop of [UploadToOss]. *)
Definition upload_item (oss_client : OssClient) (bucket src_path dest_path src_item : string)
    : prog oworld unit :=
  regular ← look (fun w => is_regular_file src_item w.(o_files));
  if regular : bool then
    let relative_path := relative src_item src_path in
    upload_file oss_client bucket (path_app dest_path relative_path) src_item
  else mret tt.

Definition UploadToOss (endpoint bucket src_path dest_path ak sk sts_token : string)
    : prog oworld unit :=
  found ← look (fun w => path_exists src_path w.(o_files));
  _ ← now (YACL_ENFORCE found "src_path {} not exists" [FStr src_path]);
  let oss_client := GetOssClient endpoint ak sk sts_token in
  regular ← look (fun w => is_regular_file src_path w.(o_files));
  if regular : bool then
    upload_file oss_client bucket (path_app dest_path (filename src_path)) src_path
  else
    directory ← look (fun w => is_directory src_path w.(o_files));
    if directory : bool then
      items ← look (fun w => items_of src_path w.(o_files));
      each (upload_item oss_client bucket src_path dest_path) items
    else now (YACL_THROW "src_path is not a file or directory" []).
End Model.

(** ** Objects and files *)

Lemma prefix_app s t : String.prefix s (s +:+ t) = true.
Proof.
  induction s as [|a s IH]; [by destruct t|]. string_app. cbn.
  destruct (ascii_dec a a); [done|congruence].
Qed.

Section OssFacts.
Context `{FL : FileIOLaws} `{Rand} `{!Oss} `{!OssLaws} `{WL : DirWalkLaws}.

(** The objects [DownloadFromOss] asks for. *)
Definition listed (c : cloud) (bucket src_path key : string) : Prop :=
  is_Some (objects c bucket !! key) /\ String.prefix src_path key = true.

Lemma map_filter_same {V} (P : string * V -> Prop) `{!forall x, Decision (P x)} (m1 m2 : gmap string V) :
  (forall k v, P (k, v) -> m1 !! k = m2 !! k) -> filter P m1 = filter P m2.
Proof.
  intros Hm. apply map_eq. intros k. apply option_eq. intros v. rewrite !map_lookup_filter_Some.
  split; intros [Hk Hp]; (split; [|done]); [by rewrite <- (Hm k v)|by rewrite (Hm k v)].
Qed.

(** *** A download among others

    Others keep to [R]: they leave the files of [Zf], the directories of [Zd] and
    the objects of [Z] alone.  The invariant is about a shadow of the file system,
    in which only the download acts. *)
Section DownloadRely.
Variable R : oworld -> oworld -> Prop.
Context `{!PreOrder R}.
Variable cl : OssClient.
Variable bucket src dest : string.
Variable Zf Zd : string -> Prop.
Variable Z : string -> string -> Prop.
Hypothesis cl_granted : granted cl bucket.
Hypothesis R_zone : forall w w', R w w' -> same_zone Zf Zd w.(o_files) w'.(o_files).
Hypothesis R_objects : forall w w' b k, R w w' -> Z b k ->
  objects w'.(o_cloud) b !! k = objects w.(o_cloud) b !! k.
Hypothesis Z_src : forall k, String.prefix src k = true -> Z bucket k.

Abbreviation target := (download_target src dest).

(** The world the download starts in. *)
Variable w0 : oworld.
Definition wanted : string -> Prop := listed w0.(o_cloud) bucket src.
Definition download_targets (t : string) : Prop := exists key, wanted key /\ t = target key.

Hypothesis wanted_zone : forall key, wanted key ->
  Zf (target key) /\ Zd (parent_path (target key)) /\ Zd (target key) /\
  forall d, d ∈ lineage (parent_path (target key)) -> Zf d.
Hypothesis wanted_inj : forall k1 k2, wanted k1 -> wanted k2 -> target k1 = target k2 -> k1 = k2.
Hypothesis w0_room : room w0.(o_files) download_targets download_targets.

(** The object has been made a file of the shadow. *)
Definition fetched (v : world) (key : string) : Prop :=
  forall u, objects w0.(o_cloud) bucket !! key = Some u ->
    fs_of v !! target key = Some u /\ forall d, d ∈ lineage (parent_path (target key)) -> d ∈ v.(w_dirs).

Record downloading (visited : list string) (w : oworld) (v : world) : Prop := {
  dl_zone : same_zone Zf Zd v w.(o_files);
  dl_objects : forall b k, Z b k -> objects w.(o_cloud) b !! k = objects w0.(o_cloud) b !! k;
  dl_targets : only_targets w0.(o_files) download_targets v;
  dl_done : forall key, key ∈ visited -> fetched v key
}.

Lemma downloading_stable visited v w w' :
  downloading visited w v -> R w w' -> downloading visited w' v.
Proof.
  intros [[Hf Hd] Ho Ht Hv] HR. destruct (R_zone _ _ HR) as [Hf' Hd']. split; [split|..].
  - intros k Hk. by rewrite Hf', Hf.
  - intros d Hk. by rewrite Hd', Hd.
  - intros b k Hk. by rewrite (R_objects _ _ _ _ HR), Ho.
  - done.
  - done.
Qed.

(** The directory of a file is made. *)
Lemma downloading_parent visited key (w : oworld) v : wanted key -> downloading visited w v ->
  exists w' v', in_local (ensure_parent (target key)) w = (Ok tt, w') /\ downloading visited w' v' /\
    forall d, d ∈ lineage (parent_path (target key)) -> d ∈ v'.(w_dirs).
Proof.
  intros Hkey [Hz Ho Ht Hv]. destruct (wanted_zone key Hkey) as (_ & Zp & _ & Zl). pose proof Ht as [Hag Hgr].
  destruct (ensure_target w0.(o_files) v download_targets download_targets (target key))
    as (dirs & E & Hgr' & Hgrow & Hrd); [done|done|by exists key|done|done|].
  destruct (ensure_parent_same Zf Zd (target key) v w.(o_files) Hz Zl Zp) as [Er Hz'].
  rewrite E in Er, Hz'. cbn [fst snd] in Er, Hz'. destruct (ensure_parent _ w.(o_files)) as [r f] eqn:Ew.
  cbn in Er, Hz'. subst r. exists (set_files f w), (set_dirs dirs v).
  split; [unfold in_local, focus; by rewrite Ew|]. split; [|done]. split; [done|done|by split|].
  intros k Hk u Hu. destruct (Hv k Hk u Hu) as [Hfile Hdirs]. split; [done|]. intros d Hd. by apply Hgrow, Hdirs.
Qed.

(** The object becomes the file. *)
Lemma downloading_file visited key (w : oworld) v : wanted key -> key ∉ visited ->
  (forall k, k ∈ visited -> wanted k) -> downloading visited w v ->
  (forall d, d ∈ lineage (parent_path (target key)) -> d ∈ v.(w_dirs)) ->
  exists w' v', object_call (ResumableDownloadObject cl bucket key (target key)) w = (Ok (inr tt), w') /\
    downloading (visited ++ [key]) w' v'.
Proof.
  intros Hkey Hnew Hvis [[Hf Hd] Ho Ht Hv] Hrd. pose proof Hkey as [[u Hu] Hpre].
  assert (download_targets (target key)) as Htgt by (by exists key). destruct (w0_room _ Htgt) as (Hwr & _).
  destruct (wanted_zone key Hkey) as (_ & Zp & Zt & _).
  destruct (ResumableDownloadObject_ok cl bucket key (target key) w.(o_cloud) w.(o_files).(w_dirs) (fs_of w.(o_files)) u)
    as (c & E & Hc); [done|rewrite Ho; auto| |].
  { split; [done|]. split; [right; right; apply Hd; [done|]; apply Hrd, elem_of_lineage; by left|].
    rewrite (Hd _ Zt). apply (target_no_dir w0.(o_files) v download_targets download_targets); [done|done|done|apply Ht]. }
  eexists _, (write_file (target key) u v). split; [unfold object_call; by rewrite E|].
  split; cbn [o_files o_cloud].
  - split; [|done]. intros k Hk. cbn. destruct (decide (k = target key)) as [->|Hne].
    + by rewrite !lookup_insert_eq.
    + rewrite !lookup_insert_ne by done. by apply Hf.
  - intros b k Hk. rewrite Hc. by apply Ho.
  - by eapply only_targets_write.
  - intros k [Hk|Hk%list_elem_of_singleton]%elem_of_app y Hy; cbn.
    + destruct (Hv k Hk y Hy) as [Hfile Hdirs]. split; [|done]. rewrite lookup_insert_ne; [done|].
      intros Et. apply wanted_inj in Et; [by subst k|done|by apply Hvis].
    + subst k. rewrite lookup_insert_eq. split; [congruence|done].
Qed.

Lemma download_object_rely visited key w : wanted key -> key ∉ visited ->
  (forall k, k ∈ visited -> wanted k) -> (exists v, downloading visited w v) ->
  wp_rely R (download_object cl bucket src dest key)
    (fun r w' => r = Ok tt /\ exists v, downloading (visited ++ [key]) w' v) w.
Proof.
  intros Hkey Hnew Hvis [v Hdl]. unfold download_object. cbn zeta.
  apply wp_rely_op. intros w1 R1. apply (downloading_stable _ _ _ _ Hdl) in R1.
  destruct (downloading_parent visited key w1 v Hkey R1) as (w2 & v2 & E2 & Hdl2 & Hrd).
  exists tt, w2. split; [done|]. apply wp_rely_op. intros w3 R3.
  apply (downloading_stable _ _ _ _ Hdl2) in R3.
  destruct (downloading_file visited key w3 v2) as (w4 & v4 & E4 & Hdl4); [done..|].
  exists (inr tt), w4. split; [done|]. intros w5 R5. split; [done|]. exists v4. by eapply downloading_stable.
Qed.

(** A download of distinct objects to places where there is room returns and
    makes a file of every object. *)
Lemma DownloadFromOss_rely endpoint ak sk sts : GetOssClient endpoint ak sk sts = cl ->
  (exists key, wanted key) ->
  (size (filter (fun kv => String.prefix src kv.1 = true) (objects w0.(o_cloud) bucket)) <= 100)%nat ->
  dirs_closed w0.(o_files) ->
  wp_rely R (DownloadFromOss endpoint bucket src dest ak sk sts)
    (fun r w' => r = Ok tt /\ exists v, same_zone Zf Zd v w'.(o_files) /\
       (forall b k, Z b k -> objects w'.(o_cloud) b !! k = objects w0.(o_cloud) b !! k) /\
       only_targets w0.(o_files) download_targets v /\ forall key, wanted key -> fetched v key) w0.
Proof.
  intros Ecl [key0 Hkey0] Hsize Hcl. unfold DownloadFromOss. rewrite Ecl. cbn zeta.
  apply wp_rely_op. intros w1 R1.
  destruct (ListObjects_ok cl bucket src w1.(o_cloud) cl_granted) as (keys & c1 & El & Ho & Hnd & Hsound & Hall).
  assert (forall k, String.prefix src k = true ->
            objects w1.(o_cloud) bucket !! k = objects w0.(o_cloud) bucket !! k) as Hsame by eauto.
  assert (forall k, k ∈ keys <-> wanted k) as Hk.
  { intros k. split.
    - intros Hin. destruct (Hsound k Hin) as [Hs Hp]. split; [by rewrite <- Hsame|done].
    - intros [Hs Hp]. apply Hall; [|by rewrite Hsame|done].
      etrans; [|exact Hsize]. apply Nat.eq_le_incl. f_equal. apply map_filter_same. intros k' u Hp'. by apply Hsame. }
  exists (inr keys), (mk_oworld _ _ w1.(o_files) c1). split; [unfold list_call; by rewrite El|].
  cbn [enforce_success]. rewrite (now_bind _ _ keys) by done. rewrite (now_bind _ _ tt).
  2: { apply YACL_ENFORCE_true, Z.ltb_lt. apply Hk in Hkey0. destruct keys; [by apply elem_of_nil in Hkey0|].
       unfold len. cbn. lia. }
  eapply wp_rely_weaken;
    [|apply (wp_rely_each R _ (fun visited w => exists v, downloading visited w v))].
  - intros r w' [-> (v & [Hz Hob Ht Hd])]. split; [done|]. exists v. split; [done|]. split; [done|].
    split; [done|]. intros key Hw. by apply Hd, Hk.
  - intros visited w w' [v Hdl] HR. exists v. by eapply downloading_stable.
  - intros visited key todo w Ekeys Hex. apply download_object_rely; [| | |done].
    + apply Hk. rewrite Ekeys. apply elem_of_app. right. by left.
    + rewrite Ekeys in Hnd. apply NoDup_app in Hnd as (_ & Hdis & _). intros Hin. apply (Hdis key Hin). by left.
    + intros k Hin. apply Hk. rewrite Ekeys. apply elem_of_app. by left.
  - exists w0.(o_files). split; cbn [o_files o_cloud].
    + by apply R_zone.
    + intros b k Hz. rewrite Ho. by apply R_objects.
    + by apply only_targets_refl.
    + by intros ? ?%elem_of_nil.
Qed.
End DownloadRely.

(** An upload changes no file, and objects under its destination only. *)
Definition uploads_to (bucket dest : string) (w w' : oworld) : Prop :=
  w'.(o_files) = w.(o_files) /\
  forall b k, (b <> bucket \/ forall x, k <> path_app dest x) ->
    objects w'.(o_cloud) b !! k = objects w.(o_cloud) b !! k.

#[export] Instance uploads_to_preorder bucket dest : PreOrder (uploads_to bucket dest).
Proof.
  split; [by split|]. intros w1 w2 w3 [F1 O1] [F2 O2]. split; [by rewrite F2|].
  intros b k Hbk. by rewrite O2, O1.
Qed.

Lemma object_call_uploads cl bucket dest x path (w : oworld) :
  uploads_to bucket dest w (object_call (ResumableUploadObject cl bucket (path_app dest x) path) w).2.
Proof.
  unfold object_call. destruct (ResumableUploadObject _ _ _ _ _ _ _) as [r [c fs]] eqn:E.
  apply ResumableUploadObject_frame in E as [-> Hc]. split; cbn; [by destruct w as [[]]|].
  intros b k Hbk. rewrite Hc; [done|]. destruct Hbk as [|Hk]; [by left|by right].
Qed.

Lemma upload_file_guarantee cl bucket dest x path :
  all_guarantee (uploads_to bucket dest) (upload_file cl bucket (path_app dest x) path).
Proof.
  apply all_guarantee_bind; [|intros; apply all_guarantee_ret].
  apply all_guarantee_op. intros w. apply object_call_uploads.
Qed.

(** Whatever an upload finds and however it ends. *)
Lemma UploadToOss_guarantee endpoint bucket src dest ak sk sts :
  all_guarantee (uploads_to bucket dest) (UploadToOss endpoint bucket src dest ak sk sts).
Proof.
  unfold UploadToOss. apply guarantees_look; [apply _|]. intros w1. apply guarantees_now. intros _.
  apply guarantees_look; [apply _|]. intros w2. case_match; [apply upload_file_guarantee|].
  apply guarantees_look; [apply _|]. intros w3. case_match; [|done].
  apply guarantees_look; [apply _|]. intros w4. apply all_guarantee_each. intros item _.
  apply guarantees_look; [apply _|]. intros w5. case_match; [apply upload_file_guarantee|done].
Qed.

(** *** An upload among others

    Others keep to [R]: they leave the tree and the objects of [Z] in the bucket
    alone. *)
Section UploadRely.
Variable R : oworld -> oworld -> Prop.
Context `{!PreOrder R}.
Variable cl : OssClient.
Variable bucket src dest : string.
Variable Z : string -> Prop.
Hypothesis cl_granted : granted cl bucket.
Hypothesis src_plain : plain_dir src.
Hypothesis dest_plain : plain_dir dest.
Hypothesis dest_relative : is_absolute dest = false.
Hypothesis R_files : forall w w' rel, R w w' -> plain_names rel ->
  fs_of w'.(o_files) !! path_app src rel = fs_of w.(o_files) !! path_app src rel.
Hypothesis R_dir : forall w w', R w w' -> is_directory src w.(o_files) = true ->
  is_regular_file src w.(o_files) = false ->
  is_directory src w'.(o_files) = true /\ is_regular_file src w'.(o_files) = false.
Hypothesis R_objects : forall w w' k, R w w' -> Z k ->
  objects w'.(o_cloud) bucket !! k = objects w.(o_cloud) bucket !! k.
Hypothesis Z_dest : forall rel, plain_names rel -> Z (path_app dest rel).

Lemma dest_key rel : plain_names rel -> valid_key (path_app dest rel).
Proof.
  intros Hr. rewrite path_app_plain by done. destruct dest_plain as [Hd _]. destruct dest as [|a d]; [done|].
  split; [done|exact dest_relative].
Qed.

(** The files of [w0] among the [visited] items are objects now. *)
Record uploading (w0 : oworld) (visited : list string) (w : oworld) : Prop := {
  up_files : forall rel, plain_names rel ->
    fs_of w.(o_files) !! path_app src rel = fs_of w0.(o_files) !! path_app src rel;
  up_done : forall rel v, plain_names rel -> fs_of w0.(o_files) !! path_app src rel = Some v ->
    path_app src rel ∈ visited -> objects w.(o_cloud) bucket !! path_app dest rel = Some v;
  up_rest : forall k, Z k -> ~ targets_of w0.(o_files) src (path_app dest) k ->
    objects w.(o_cloud) bucket !! k = objects w0.(o_cloud) bucket !! k
}.

Lemma uploading_stable w0 visited w w' : uploading w0 visited w -> R w w' -> uploading w0 visited w'.
Proof.
  intros [Hf Hd Hr] HR. split.
  - intros rel Hrel. by rewrite (R_files _ _ _ HR), Hf.
  - intros rel v Hrel Hv Hin. rewrite (R_objects _ _ _ HR); auto.
  - intros k Hz Hk. rewrite (R_objects _ _ _ HR); auto.
Qed.

(** The object of one file. *)
Lemma uploading_file w0 visited rel v (w : oworld) : plain_names rel ->
  fs_of w0.(o_files) !! path_app src rel = Some v -> uploading w0 visited w ->
  exists w', object_call (ResumableUploadObject cl bucket (path_app dest rel) (path_app src rel)) w
      = (Ok (inr tt), w') /\ uploading w0 (visited ++ [path_app src rel]) w'.
Proof.
  intros Hrel Hv [Hf Hd Hr].
  destruct (ResumableUploadObject_ok cl bucket (path_app dest rel) (path_app src rel) w.(o_cloud)
    w.(o_files).(w_dirs) (fs_of w.(o_files)) v) as (c & E & Hc); [done|by apply dest_key|by rewrite Hf|].
  specialize (Hc bucket). rewrite String.eqb_refl in Hc.
  eexists. split; [unfold object_call; by rewrite E|]. split; cbn [o_files o_cloud]; rewrite ?Hc.
  - done.
  - intros r u Hpr Hu Hin. destruct (decide (r = rel)) as [->|Hne].
    { rewrite lookup_insert_eq. congruence. }
    rewrite lookup_insert_ne by (intros E'%path_app_inj; done).
    apply elem_of_app in Hin as [Hin|Hin%list_elem_of_singleton]; [by apply Hd|]. by apply path_app_inj in Hin.
  - intros k Hz Hk. rewrite lookup_insert_ne; [by apply Hr|]. intros <-. apply Hk. exists rel.
    split; [|done]. split; [done|by rewrite Hv].
Qed.

Lemma upload_item_rely w0 visited rel w : plain_names rel -> uploading w0 visited w ->
  wp_rely R (upload_item cl bucket src dest (path_app src rel))
    (fun r w' => r = Ok tt /\ uploading w0 (visited ++ [path_app src rel]) w') w.
Proof.
  intros Hrel Hu. unfold upload_item. apply wp_rely_look. intros w1 R1.
  apply (uploading_stable _ _ _ _ Hu) in R1 as Hu1. rewrite relative_path_app by done.
  unfold is_regular_file. rewrite (up_files _ _ _ Hu1) by done.
  destruct (fs_of w0.(o_files) !! path_app src rel) as [v|] eqn:Ev.
  - rewrite bool_decide_eq_true_2 by done. apply wp_rely_op. intros w2 R2.
    apply (uploading_stable _ _ _ _ Hu1) in R2.
    destruct (uploading_file w0 visited rel v w2) as (w3 & E & Hu3); [done..|].
    exists (inr tt), w3. split; [done|]. intros w4 R4. split; [done|]. by eapply uploading_stable.
  - rewrite bool_decide_eq_false_2 by (by intros []). intros w2 R2. split; [done|].
    apply (uploading_stable _ _ _ _ Hu1) in R2 as [Hf Hd Hr]. split; [done| |done].
    intros r u Hpr Hu' Hin. apply elem_of_app in Hin as [Hin|Hin%list_elem_of_singleton]; [by apply Hd|].
    apply path_app_inj in Hin; [|done..]. subst r. congruence.
Qed.

(** Every file of the tree becomes an object. *)
Lemma UploadToOss_rely endpoint ak sk sts (w : oworld) : GetOssClient endpoint ak sk sts = cl ->
  is_directory src w.(o_files) = true -> is_regular_file src w.(o_files) = false ->
  wp_rely R (UploadToOss endpoint bucket src dest ak sk sts)
    (fun r w' => r = Ok tt /\
       (forall rel v, plain_names rel -> fs_of w.(o_files) !! path_app src rel = Some v ->
          objects w'.(o_cloud) bucket !! path_app dest rel = Some v) /\
       (forall k, Z k -> ~ targets_of w.(o_files) src (path_app dest) k ->
          objects w'.(o_cloud) bucket !! k = objects w.(o_cloud) bucket !! k)) w.
Proof.
  intros Ecl Hdir Hnf. unfold UploadToOss. rewrite Ecl.
  apply wp_rely_look. intros w1 R1. destruct (R_dir _ _ R1 Hdir Hnf) as [D1 F1].
  unfold path_exists. rewrite D1, orb_true_r, now_enforce.
  apply wp_rely_look. intros w2 R2. destruct (R_dir _ _ R2 D1 F1) as [D2 F2]. rewrite F2.
  apply wp_rely_look. intros w3 R3. destruct (R_dir _ _ R3 D2 F2) as [D3 F3]. rewrite D3.
  apply wp_rely_look. intros w4 R4.
  assert (R w w4) as R04 by (by do 3 (etrans; [eassumption|])).
  eapply wp_rely_weaken; [|apply (wp_rely_each R _ (uploading w)); [by apply uploading_stable|..]].
  - intros r w' [-> [Hf Hd Hr]]. split; [done|]. split; [|done]. intros rel v Hrel Hv.
    apply Hd; [done|done|]. apply elem_of_items. exists rel. split; [done|]. split; [done|].
    left. by rewrite (R_files _ _ _ R04), Hv.
  - intros visited item todo w5 Eitems Hu.
    assert (item ∈ items_of src w4.(o_files)) as (rel & -> & Hrel & _)%elem_of_items
      by (rewrite Eitems; set_solver).
    by apply upload_item_rely.
  - split; [by intros; apply R_files|by intros ? ? _ _ ?%elem_of_nil|by intros; apply R_objects].
Qed.
End UploadRely.

(** An upload of a tree alone returns, makes an object of every file and changes
    no other object and no file. *)
Lemma UploadToOss_objects endpoint bucket src dest ak sk sts (w : oworld) :
  granted (GetOssClient endpoint ak sk sts) bucket ->
  plain_dir src -> plain_dir dest -> is_absolute dest = false ->
  is_directory src w.(o_files) = true -> fs_of w.(o_files) !! src = None ->
  exists c', perform (UploadToOss endpoint bucket src dest ak sk sts) w
      = (Ok tt, mk_oworld _ _ w.(o_files) c') /\
    (forall b, b <> bucket -> objects c' b = objects w.(o_cloud) b) /\
    (forall rel v, plain_names rel -> fs_of w.(o_files) !! path_app src rel = Some v ->
       objects c' bucket !! path_app dest rel = Some v) /\
    (forall key, ~ targets_of w.(o_files) src (path_app dest) key ->
       objects c' bucket !! key = objects w.(o_cloud) bucket !! key).
Proof.
  intros Hg Hs Hd Hrel Hdir Hnf. set (p := UploadToOss endpoint bucket src dest ak sk sts).
  pose proof (UploadToOss_rely eq (GetOssClient endpoint ak sk sts) bucket src dest (fun _ => True) Hg Hs Hd Hrel
    ltac:(by intros ? ? ? ->) ltac:(by intros ? ? ->) ltac:(by intros ? ? ? ->) ltac:(done)
    endpoint ak sk sts w eq_refl Hdir (no_file _ _ Hnf)) as Hp.
  pose proof (wp_rely_perform eq _ _ _ Hp) as (Er & Ho & Hr). fold p in Er, Ho, Hr.
  assert (uploads_to bucket dest w (perform p w).2) as [Hf Hb].
  { apply (guarantees_perform (uploads_to bucket dest) (fun _ => True)), UploadToOss_guarantee. }
  destruct (perform p w) as [r [f c']]. cbn in *. subst f r.
  exists c'. split; [done|]. split; [|split; [done|auto]].
  intros b Hne. apply map_eq. intros k. apply Hb. by left.
Qed.

(** The number of files in a tree. *)
Definition file_count (w : world) (src : string) : nat :=
  length (filter (fun item => is_Some (fs_of w !! item)) (items_of src w)).

(** A tree whose files are named after files of another has no more of them. *)
Lemma file_count_le (w w' : world) d d' (name : string -> string) : plain_dir d -> plain_dir d' ->
  (forall r, file_of w' d' r -> exists rel, file_of w d rel /\ r = name rel) ->
  (file_count w' d' <= file_count w d)%nat.
Proof.
  intros Hd Hd' Hfiles. unfold file_count.
  rewrite <- (length_fmap (fun item => path_app d' (name (relative item d))) (filter _ (items_of d w))).
  apply submseteq_length, NoDup_submseteq.
  - by apply NoDup_filter, NoDup_items.
  - intros item [Hf (r & -> & Hr & _)%elem_of_items]%list_elem_of_filter.
    destruct (Hfiles r) as (rel & [Hrel Hsome] & ->); [by split|].
    apply list_elem_of_fmap. exists (path_app d rel). rewrite relative_path_app by done.
    split; [done|]. apply list_elem_of_filter. split; [done|]. apply elem_of_items. exists rel. by auto.
Qed.

(** The objects under a key prefix are the files of a tree under their names. *)
Definition mirrors (c : cloud) (bucket prefix : string) (w : world) (src : string) : Prop :=
  (forall rel v, plain_names rel -> fs_of w !! path_app src rel = Some v ->
     objects c bucket !! path_app prefix rel = Some v) /\
  (forall key, listed c bucket prefix key -> targets_of w src (path_app prefix) key).

Lemma upload_mirrors (w : world) c c' bucket src dest :
  plain_dir dest -> (forall key, String.prefix dest key = true -> objects c bucket !! key = None) ->
  (forall rel v, plain_names rel -> fs_of w !! path_app src rel = Some v ->
     objects c' bucket !! path_app dest rel = Some v) ->
  (forall key, String.prefix dest key = true -> ~ targets_of w src (path_app dest) key ->
     objects c' bucket !! key = objects c bucket !! key) ->
  mirrors c' bucket dest w src.
Proof.
  intros Hd Hnone Ho Hr. split; [done|]. intros key [Hs Hp].
  destruct (decide (file_of w src (relative key dest) /\ key = path_app dest (relative key dest)))
    as [[Hf E]|Hno]; [by exists (relative key dest)|].
  rewrite Hr, Hnone in Hs; [by destruct Hs|done|done|]. intros (rel & Hf & ->). apply Hno.
  rewrite relative_path_app by (done || apply Hf). done.
Qed.

Lemma mirrors_size (w : world) c bucket prefix src : plain_dir src -> mirrors c bucket prefix w src ->
  (size (filter (fun kv => String.prefix prefix kv.1 = true) (objects c bucket)) <= file_count w src)%nat.
Proof.
  intros Hs [_ Hm]. unfold file_count.
  rewrite <- (length_fmap (fun item => path_app prefix (relative item src))).
  set (m := filter _ (objects c bucket)). rewrite <- length_map_to_list.
  rewrite <- (length_fmap fst (map_to_list m)). apply submseteq_length, NoDup_submseteq.
  - apply NoDup_fst_map_to_list.
  - intros key ([k v] & -> & Hin)%list_elem_of_fmap. cbn.
    apply elem_of_map_to_list, map_lookup_filter_Some in Hin as [Hk Hp].
    destruct (Hm k) as (rel & [Hr Hf] & ->); [split; [by rewrite Hk|done]|].
    apply list_elem_of_fmap. exists (path_app src rel). rewrite relative_path_app by done.
    split; [done|]. apply list_elem_of_filter. split; [done|]. apply elem_of_items. exists rel. by auto.
Qed.

Lemma download_target_below src dest rel : plain_dir src -> plain_names rel ->
  download_target src dest (path_app src rel) = path_app dest rel.
Proof.
  intros Hs Hr. unfold download_target. rewrite relative_path_app by done.
  destruct (String.eqb_spec rel ".") as [->|]; [|done]. by inversion Hr as [|?? (_ & ? & _)].
Qed.

(** Downloading the mirror of a tree among others makes the tree. *)
Lemma mirror_rely R `{!PreOrder R} Zf Zd (Z : string -> string -> Prop) endpoint bucket src dest ak sk sts
    (w : oworld) (w0 : world) src0 :
  granted (GetOssClient endpoint ak sk sts) bucket ->
  (forall w w', R w w' -> same_zone Zf Zd w.(o_files) w'.(o_files)) ->
  (forall w w' b k, R w w' -> Z b k -> objects w'.(o_cloud) b !! k = objects w.(o_cloud) b !! k) ->
  (forall k, String.prefix src k = true -> Z bucket k) ->
  plain_dir src -> plain_dir dest -> plain_dir src0 ->
  mirrors w.(o_cloud) bucket src w0 src0 -> (exists rel, file_of w0 src0 rel) ->
  (file_count w0 src0 <= 100)%nat ->
  (forall rel, plain_names rel -> Zf (path_app dest rel) /\ Zd (parent_path (path_app dest rel)) /\ Zd (path_app dest rel) /\
     forall d, d ∈ lineage (parent_path (path_app dest rel)) -> Zf d) ->
  let targets := targets_of w0 src0 (path_app dest) in
  dirs_closed w.(o_files) -> room w.(o_files) targets targets ->
  wp_rely R (DownloadFromOss endpoint bucket src dest ak sk sts)
    (fun r w' => r = Ok tt /\ exists v, same_zone Zf Zd v w'.(o_files) /\
       (forall b k, Z b k -> objects w'.(o_cloud) b !! k = objects w.(o_cloud) b !! k) /\
       only_targets w.(o_files) targets v /\
       forall rel u, plain_names rel -> fs_of w0 !! path_app src0 rel = Some u ->
         fs_of v !! path_app dest rel = Some u /\
         forall d, d ∈ lineage (parent_path (path_app dest rel)) -> d ∈ v.(w_dirs)) w.
Proof.
  intros Hg HRz HRo HZ Hs Hd Hs0 Hm [rel0 Hf0] Hcount Hzone targets Hcl Hroom. pose proof Hm as [Hm1 Hm2].
  assert (forall rel, file_of w0 src0 rel -> listed w.(o_cloud) bucket src (path_app src rel)) as Hlist.
  { intros rel [Hr [v Hv]]. split; [by rewrite (Hm1 rel v)|]. rewrite path_app_plain by done. apply prefix_app. }
  assert (forall t, download_targets bucket src dest w t -> targets t) as Hsub.
  { intros t (key & (rel & Hf & ->)%Hm2 & ->). exists rel. split; [done|].
    apply download_target_below; [done|apply Hf]. }
  eapply wp_rely_weaken; [|eapply (DownloadFromOss_rely R _ bucket src dest Zf Zd Z Hg HRz HRo HZ w)];
    [..|done| | |done].
  - intros r w' (-> & v & Hz & Ho & Ht & Hf). split; [done|]. exists v. split; [done|]. split; [done|].
    split; [by eapply only_targets_sub|]. intros rel u Hr Hu. rewrite <- (download_target_below src dest rel Hs Hr).
    apply (Hf (path_app src rel)); [|by apply Hm1]. apply Hlist. split; [done|by rewrite Hu].
  - intros key (rel & [Hr _] & ->)%Hm2. rewrite download_target_below by done. by apply Hzone.
  - intros k1 k2 (r1 & Hf1 & ->)%Hm2 (r2 & Hf2 & ->)%Hm2.
    rewrite !download_target_below by (done || apply Hf1 || apply Hf2).
    intros E. apply path_app_inj in E; [by subst|done|apply Hf1|apply Hf2].
  - by eapply room_sub.
  - exists (path_app src rel0). by apply Hlist.
  - etrans; [by apply mirrors_size|done].
Qed.

(** Alone it changes nothing else. *)
Lemma DownloadFromOss_mirror endpoint bucket src dest ak sk sts (w : oworld) (w0 : world) src0 :
  granted (GetOssClient endpoint ak sk sts) bucket ->
  plain_dir src -> plain_dir dest -> plain_dir src0 ->
  mirrors w.(o_cloud) bucket src w0 src0 -> (exists rel, file_of w0 src0 rel) ->
  (file_count w0 src0 <= 100)%nat ->
  let targets := targets_of w0 src0 (path_app dest) in
  dirs_closed w.(o_files) -> room w.(o_files) targets targets ->
  exists w', perform (DownloadFromOss endpoint bucket src dest ak sk sts) w = (Ok tt, w') /\
    only_targets w.(o_files) targets w'.(o_files) /\
    (forall b k, objects w'.(o_cloud) b !! k = objects w.(o_cloud) b !! k) /\
    forall rel v, plain_names rel -> fs_of w0 !! path_app src0 rel = Some v ->
      fs_of w'.(o_files) !! path_app dest rel = Some v /\
      forall d, d ∈ lineage (parent_path (path_app dest rel)) -> d ∈ w'.(o_files).(w_dirs).
Proof.
  intros Hg Hs Hd Hs0 Hm Hex Hcount targets Hcl Hroom.
  pose proof (mirror_rely eq (fun _ => True) (fun _ => True) (fun _ _ => True) endpoint bucket src dest ak sk sts w w0 src0
    Hg ltac:(by intros ? ? ->) ltac:(by intros ? ? ? ? ->) ltac:(done) Hs Hd Hs0 Hm Hex Hcount ltac:(done) Hcl Hroom) as Hp.
  apply wp_rely_perform in Hp as (Er & v & [Hf Hdirs] & Ho & Ht & Hv); [|done].
  destruct (perform _ w) as [r w']. cbn [fst snd] in *. subst r. exists w'. split; [done|]. split; [|split].
  - by apply (only_targets_same _ v); [intros; apply Hf|intros; apply Hdirs|].
  - intros b k. by apply Ho.
  - intros rel u Hr Hu. destruct (Hv rel u Hr Hu) as [Hfile Hl]. split; [by rewrite Hf|].
    intros d Hin. by apply Hdirs, Hl.
Qed.

(** Round trip through the object store: uploading a directory of at most
    100 files to a key prefix that no object has and downloading that prefix
    into another directory returns both times and makes every file again under
    its name; nothing else on the disk changes, and no other object. *)
Theorem oss_roundtrip endpoint bucket src prefix dest ak sk sts (w : oworld) :
  granted (GetOssClient endpoint ak sk sts) bucket ->
  plain_dir src -> plain_dir prefix -> plain_dir dest -> is_absolute prefix = false ->
  is_directory src w.(o_files) = true -> fs_of w.(o_files) !! src = None ->
  (exists rel, file_of w.(o_files) src rel) -> (file_count w.(o_files) src <= 100)%nat ->
  (forall key, String.prefix prefix key = true -> objects w.(o_cloud) bucket !! key = None) ->
  let targets := targets_of w.(o_files) src (path_app dest) in
  dirs_closed w.(o_files) -> room w.(o_files) targets targets ->
  exists w1 w2, perform (UploadToOss endpoint bucket src prefix ak sk sts) w = (Ok tt, w1) /\
    perform (DownloadFromOss endpoint bucket prefix dest ak sk sts) w1 = (Ok tt, w2) /\
    (forall rel v, plain_names rel -> fs_of w.(o_files) !! path_app src rel = Some v ->
       fs_of w2.(o_files) !! path_app dest rel = Some v) /\
    (forall p, ~ targets p -> fs_of w2.(o_files) !! p = fs_of w.(o_files) !! p) /\
    (forall b key, objects w.(o_cloud) b !! key <> None ->
       objects w2.(o_cloud) b !! key = objects w.(o_cloud) b !! key).
Proof.
  intros Hg Hs Hp Hd Hrel Hdir Hnf Hex Hcount Hnone targets Hcl Hroom.
  destruct (UploadToOss_objects endpoint bucket src prefix ak sk sts w) as (c1 & E1 & Hb & Ho & Hr); [done..|].
  pose proof (upload_mirrors _ _ _ _ _ _ Hp Hnone Ho (fun key _ => Hr key)) as Hm.
  destruct (DownloadFromOss_mirror endpoint bucket prefix dest ak sk sts (mk_oworld _ _ w.(o_files) c1)
    w.(o_files) src) as (w2 & E2 & [Hag _] & Hob & Hf); [done..|].
  exists (mk_oworld _ _ w.(o_files) c1), w2. split; [done|]. split; [done|].
  split; [intros rel v Hr' Hv; by apply Hf|]. split; [done|].
  intros b key Hk. rewrite Hob. cbn. destruct (decide (b = bucket)) as [->|Hne]; [|by rewrite Hb].
  apply Hr. intros (rel & [Hrl _] & ->). apply Hk, Hnone. rewrite path_app_plain by done. apply prefix_app.
Qed.

End OssFacts.

(** ** A concrete store, for the witnesses *)

Definition sample_oss : Oss := {|
  cloud := gmap string (gmap string bytes);
  OssClient := unit;
  objects c b := default ∅ (c !! b);
  granted _ _ := True;
  OssClient_new _ _ _ := tt;
  OssClient_new_sts _ _ _ _ := tt;
  ListObjects _ b p c :=
    (inr (take 100 (map_to_list (filter (fun kv => String.prefix p kv.1 = true) (default ∅ (c !! b)))).*1), c);
  ResumableDownloadObject _ b k p c dirs fs :=
    match default ∅ (c !! b) !! k with
    | Some v =>
        if decide (in_place dirs p) then (inr tt, (c, <[p := v]> fs))
        else (inl (mk_oss_error "ClientError" "cannot open file"), (c, fs))
    | None => (inl (mk_oss_error "NoSuchKey" "no such object"), (c, fs))
    end;
  ResumableUploadObject _ b k p c dirs fs :=
    match fs !! p with
    | Some v => (inr tt, (<[b := <[k := v]> (default ∅ (c !! b))]> c, fs))
    | None => (inl (mk_oss_error "ValidateError" "no such file"), (c, fs))
    end
|}.

Lemma sample_oss_laws `{FileIO} : @OssLaws _ sample_oss.
Proof.
  split; cbn.
  - intros cl b p c _. eexists _, c. split; [done|]. split; [done|].
    set (m := filter _ (default ∅ (c !! b))).
    split; [eapply sublist_NoDup; [apply (NoDup_fst_map_to_list m)|apply sublist_take]|].
    assert (forall k, k ∈ (map_to_list m).*1 <-> is_Some (default ∅ (c !! b) !! k) /\ String.prefix p k = true) as Hk.
    { intros k. rewrite list_elem_of_fmap. split.
      - intros ([k' v] & -> & Hin%elem_of_map_to_list). apply map_lookup_filter_Some in Hin as [Hv Hp]. split; [by exists v|done].
      - intros [[v Hv] Hp]. exists (k, v). split; [done|].
        apply elem_of_map_to_list, map_lookup_filter_Some. done. }
    split.
    + intros k Hin. apply Hk. eapply elem_of_sublist; [exact Hin|apply sublist_take].
    + intros Hsize k Hs Hp. rewrite take_ge; [by apply Hk|]. by rewrite length_fmap, length_map_to_list.
  - intros cl b k p c dirs fs v _ -> [_ Hin]. exists c. by rewrite decide_True.
  - intros cl b k p c dirs fs v _ _ ->. eexists. split; [done|]. intros b'.
    destruct (String.eqb_spec b' b) as [->|Hne]; [by rewrite lookup_insert_eq|by rewrite lookup_insert_ne].
  - intros cl b k p c dirs fs r c' fs' E. destruct (fs !! p) as [v|]; injection E as <- <- <-; [|done].
    split; [done|]. intros b' k' Hne. destruct (decide (b' = b)) as [->|]; [|by rewrite lookup_insert_ne].
    destruct Hne as [|Hne]; [done|]. rewrite lookup_insert_eq. cbn. by rewrite lookup_insert_ne.
Qed.

Module OssWitness.
#[local] Existing Instances sample_rand sample_fileio sample_fileio_laws sample_walk sample_walk_laws
  sample_oss sample_oss_laws.
Import TreeWitness.

Definition ow0 : oworld := mk_oworld _ _ w0 ∅.

Lemma oss_roundtrip_witness : exists w1 w2,
  perform (UploadToOss "ep" "bkt" "/s" "out" "ak" "sk" "") ow0 = (Ok tt, w1) /\
  perform (DownloadFromOss "ep" "bkt" "out" "/d" "ak" "sk" "") w1 = (Ok tt, w2) /\
  fs_of w2.(o_files) !! "/d/sub/b" = Some (s2b "world").
Proof.
  destruct (oss_roundtrip "ep" "bkt" "/s" "out" "/d" "ak" "sk" "" ow0) as (w1 & w2 & E1 & E2 & Hf & _).
  - done.
  - done.
  - done.
  - done.
  - done.
  - by vm_compute.
  - by vm_compute.
  - exists "a". split; [by apply (bool_decide_unpack _); vm_compute|vm_compute; by eexists].
  - apply Nat.leb_le. by vm_compute.
  - intros key _. by vm_compute.
  - exact w0_closed.
  - intros t Ht. destruct (w0_room t) as (H1 & H2 & H3 & H4); [apply made_cases; by right|].
    split; [done|]. split; [done|]. split; [done|]. intros d Hd. destruct (H4 d Hd) as [Hno Hm].
    split; [done|]. intros Hd'. apply Hm. by right.
  - exists w1, w2. split; [done|]. split; [done|].
    apply (Hf "sub/b"); [by repeat constructor|by vm_compute].
Defined.

(** A prefix is text: an object next to the one asked for is listed too, and
    its place is outside the destination. *)
Definition neighbours : oworld :=
  mk_oworld _ _ (mk_world _ ∅ {["/d"; "/d/x"; "/d/x/.."]} tt)
    {["bkt" := {["data/ab" := s2b "wanted"; "data/abc" := s2b "other"]} : gmap string bytes]}.

Lemma DownloadFromOss_neighbour :
  let '(r, w) := perform (DownloadFromOss "ep" "bkt" "data/ab" "/d/x" "ak" "sk" "") neighbours in
  r = Ok tt /\ fs_of w.(o_files) !! "/d/x/ab" = Some (s2b "wanted") /\
  fs_of w.(o_files) !! "/d/x/../abc" = Some (s2b "other").
Proof. vm_compute. by auto. Qed.

(** Of 101 objects under a prefix one is left out, and the call returns. *)
Definition crowded : oworld :=
  mk_oworld _ _ (mk_world _ ∅ {["/d"]} tt)
    {["bkt" := list_to_map ((fun n => ("p/" +:+ to_string (Z.of_nat n), s2b "x")) <$> seq 0 101)
       : gmap string bytes]}.

Lemma DownloadFromOss_truncated :
  let '(r, w) := perform (DownloadFromOss "ep" "bkt" "p" "/d" "ak" "sk" "") crowded in
  r = Ok tt /\ size (objects crowded.(o_cloud) "bkt") = 101%nat /\ size (fs_of w.(o_files)) = 100%nat.
Proof. vm_compute. by auto. Qed.
End OssWitness.
