(* ===== verification/DataCapsuleProxy.v ===== *)
(** * The data capsule proxy

    [trustflow/proxy/data_capsule_proxy/data_capsule_proxy.cc]: the two methods
    of the service, over files, the object store and the host.  The work of a call
    is a program: between two of its operations, down to those on single files and
    objects, other calls may act. *)

From S2P Require Import Prelude CppStd External Common Samples Verifier Dcap Sgx2Verifier TdxVerifier Hygon CsvVerifier VerifierWrapper Path YaclCrypto Tasks Host IntelGenerator CsvGenerator GeneratorWrapper ProxyCommon RaProxy CryptoFile Jose Envelope CapsuleManagerClient Directory Tree OssClient.

Definition kTempDir : string := "/tmp".
Definition kResponseContentType : string := "application/json".
Definition kKeyBytes : Z := 16.

(** ** Messages

    A message field that the code asks for with [has_] is an option; one that it
    only reads has its default when it is not set. *)

Record CmResourceConfig := mk_cm_resource_config {
  rc_endpoint : string;
  rc_scope : string;
  rc_op_name : string;
  rc_resource_uri : string;
  rc_columns : list string;
  rc_global_attrs : string
}.

Record CmResultConfig := mk_cm_result_config {
  rr_endpoint : string;
  rr_scope : string;
  rr_resource_uri : string;
  rr_ancestor_uuids : list string
}.

Record S3Config := mk_s3_config {
  s3_endpoint : string;
  s3_bucket : string;
  s3_path : string;
  s3_access_key_id : string;
  s3_access_key_secret : string;
  s3_sts_token : string
}.

(** [s3_config] and [local_fs_config]; the latter is its path. *)
Record GetInputDataRequest := mk_get_input {
  gi_data_key_b64 : option string;
  gi_cm_resource_config : option CmResourceConfig;
  gi_s3_config : option S3Config;
  gi_local_fs_path : option string;
  gi_dest_path : string
}.

Record PutResultDataRequest := mk_put_result {
  pr_source_path : string;
  pr_data_key_b64 : string;
  pr_s3_config : option S3Config;
  pr_local_fs_path : option string;
  pr_cm_result_config : CmResultConfig
}.

Record DataResponse := mk_data_response { dr_status : option SfStatus }.

Record DataCapsuleProxyImpl := mk_proxy {
  dp_cm_endpoint : string;
  dp_plat : string;
  dp_cert : string;
  dp_private_key : string
}.

(** ** The world of the service *)

Record pworld_of (D R C : Type) := mk_pworld {
  p_fs : fsys;
  p_dirs : gset string;
  p_cloud : C;
  p_host : host_state_of D R
}.
Arguments mk_pworld {D R C} _ _ _ _.
Arguments p_fs {D R C} _.
Arguments p_dirs {D R C} _.
Arguments p_cloud {D R C} _.
Arguments p_host {D R C} _.
Abbreviation pworld := (pworld_of dev rng cloud).

Section World.
Context `{Host} `{Rand} `{Oss}.

(** Files, host and store share one random generator. *)
Definition files_of (w : pworld) : world := mk_world _ w.(p_fs) w.(p_dirs) w.(p_host).(h_rng).

Definition set_rng (g : rng) (h : host_state) : host_state :=
  mk_host h.(h_fds) h.(h_live) h.(h_dev) g.

Definition oss_of (w : pworld) : oworld := mk_oworld _ _ (files_of w) w.(p_cloud).

Definition with_oss (o : oworld) (w : pworld) : pworld :=
  mk_pworld (fs_of o.(o_files)) o.(o_files).(w_dirs) o.(o_cloud)
    (set_rng o.(o_files).(w_rng) w.(p_host)).

Definition with_files (d : world) (w : pworld) : pworld := with_oss (mk_oworld _ _ d w.(p_cloud)) w.

(** An operation on the files. *)
Definition on_files {A} (m : st world A) : st pworld A := focus files_of with_files m.

(** A program on the files, and one on files and store, operation by operation. *)
Definition in_files_of {A} (p : prog world A) : prog pworld A := lift files_of with_files p.
Definition in_oss {A} (p : prog oworld A) : prog pworld A := lift oss_of with_oss p.

Definition on_host {A} (m : st host_state A) : st pworld A := fun w =>
  let '(r, h) := m w.(p_host) in (r, mk_pworld w.(p_fs) w.(p_dirs) w.(p_cloud) h).
End World.

(** ** The methods *)

Section Model.
Context `{Fmt} `{Absl} `{Hashes} `{Cppcodec} `{Base64Url} `{Base32} `{OpensslX509} `{Gcm} `{Brpc}.
Context `{ProtoJson DcapReport} `{ProtoJson IntelTdxReport} `{ProtoJson SgxQlQveCollateral}
        `{ProtoJson HygonCsvReport} `{ProtoJson HygonCsvCertChain}.
Context `{ProtoJson JweHeader} `{ProtoJson JwsHeader} `{ProtoJson Jws}.
Context `{ProtoJson GetDataKeysRequest} `{ProtoJson GetDataKeysResponse}
        `{ProtoJson CreateResultDataKeyRequest}.
Context `{ProtoWire ResourceRequest} `{ProtoWire ResultDataKeyBody}.
Context `{Host} `{!CapsuleManagerStub} `{Rand} `{!Keys} `{ReportDataSizes} `{HygonLayout}.
Context `{FileIO} `{ByteView} `{DirWalk} `{Oss}.

Definition GenTempDir (path : string) : string :=
  let path_hash := Sha256 (s2b path) in
  path_app kTempDir (base64_encode path_hash).

Definition GenResourceRequest (cm_resource_config : CmResourceConfig) (cert : string)
    : outcome ResourceRequest :=
  initiator_party_id ← GeneratePartyId cert;
  mret (mk_resource_request initiator_party_id cm_resource_config.(rc_scope)
          cm_resource_config.(rc_op_name)
          [mk_resource cm_resource_config.(rc_resource_uri) cm_resource_config.(rc_columns) ""]
          "" cm_resource_config.(rc_global_attrs)).

(** The endpoint of a request's configuration, or the service's own. *)
Definition endpoint_or (endpoint : string) (self : DataCapsuleProxyImpl) : string :=
  if String.eqb endpoint "" then self.(dp_cm_endpoint) else endpoint.

(** [data_key] of [GetInputData]. *)
Definition input_data_key (b : build_flags) (self : DataCapsuleProxyImpl) (request : GetInputDataRequest)
    : prog pworld bytes :=
  match request.(gi_data_key_b64), request.(gi_cm_resource_config) with
  | Some data_key_b64, _ => now (call (base64_decode data_key_b64))
  | None, Some cm_resource_config =>
      resource_request ← now (GenResourceRequest cm_resource_config self.(dp_cert));
      let cm_endpoint := endpoint_or cm_resource_config.(rc_endpoint) self in
      capsule_manager_client ← op (on_host (CapsuleManagerClient.New cm_endpoint));
      data_keys ← op (on_host (CapsuleManagerClient.GetDataKeys b capsule_manager_client
        self.(dp_plat) self.(dp_cert) self.(dp_private_key) resource_request));
      now (match data_keys with
            | [] => Throw (mk_exn EnforceNotMet "Data keys empty" [])
            | key :: _ => call (base64_decode key.(data_key_b64))
            end)
  | None, None => now (YACL_THROW "Data key config not found in request" [])
  end.

(** The part of [GetInputData] that works on files; [schedule] is that of
    [DecryptToDir]. *)
Definition fetch_input (schedule : list event) (request : GetInputDataRequest) (data_key : bytes)
    : prog pworld unit :=
  let dest_path := request.(gi_dest_path) in
  match request.(gi_s3_config), request.(gi_local_fs_path) with
  | Some s3_config, _ =>
      let download_temp_path := GenTempDir dest_path in
      _ ← op (on_files (remove_all download_temp_path));
      _ ← in_oss (DownloadFromOss s3_config.(s3_endpoint) s3_config.(s3_bucket) s3_config.(s3_path)
                    download_temp_path s3_config.(s3_access_key_id)
                    s3_config.(s3_access_key_secret) s3_config.(s3_sts_token));
      _ ← in_files_of (DecryptToDir schedule download_temp_path dest_path data_key);
      op (on_files (remove_all download_temp_path))
  | None, Some path => in_files_of (DecryptToDir schedule path dest_path data_key)
  | None, None => now (YACL_THROW "Source config not found" [])
  end.

Definition input_data (b : build_flags) (schedule : list event) (self : DataCapsuleProxyImpl)
    (request : GetInputDataRequest) : prog pworld unit :=
  data_key ← input_data_key b self request;
  fetch_input schedule request data_key.

(** [data_key] of [PutResultData]. *)
Definition result_data_key (request : PutResultDataRequest) : prog pworld bytes :=
  if String.eqb request.(pr_data_key_b64) ""
  then op (on_host (CapsuleManagerClient.with_rng (rand_bytes kKeyBytes)))
  else now (call (base64_decode request.(pr_data_key_b64))).

(** Encrypted files under the destination of [PutResultData]. *)
Definition store_result (schedule : list event) (request : PutResultDataRequest) (data_key : bytes)
    : prog pworld unit :=
  let src_path := request.(pr_source_path) in
  match request.(pr_s3_config), request.(pr_local_fs_path) with
  | Some s3_config, _ =>
      let enc_temp_path := GenTempDir src_path in
      _ ← in_files_of (EncryptToDir schedule src_path enc_temp_path data_key);
      _ ← in_oss (UploadToOss s3_config.(s3_endpoint) s3_config.(s3_bucket) enc_temp_path
                    s3_config.(s3_path) s3_config.(s3_access_key_id)
                    s3_config.(s3_access_key_secret) s3_config.(s3_sts_token));
      op (on_files (remove_all enc_temp_path))
  | None, Some path => in_files_of (EncryptToDir schedule src_path path data_key)
  | None, None => now (YACL_THROW "Dest config not found" [])
  end.

(** What the capsule manager is told about a result. *)
Definition result_key_body (cm_result_config : CmResultConfig) (data_key : bytes) : ResultDataKeyBody :=
  mk_result_key_body cm_result_config.(rr_scope) cm_result_config.(rr_resource_uri)
    (base64_encode data_key) cm_result_config.(rr_ancestor_uuids).

Definition register_key (b : build_flags) (self : DataCapsuleProxyImpl)
    (cm_result_config : CmResultConfig) (data_key : bytes) : prog pworld unit :=
  if negb (String.eqb cm_result_config.(rr_resource_uri) "") then
    let cm_endpoint := endpoint_or cm_result_config.(rr_endpoint) self in
    capsule_manager_client ← op (on_host (CapsuleManagerClient.New cm_endpoint));
    _ ← now (YACL_ENFORCE (negb (String.eqb cm_result_config.(rr_scope) "")) "scope can not be empty" []);
    _ ← now (YACL_ENFORCE (negb (String.eqb cm_result_config.(rr_resource_uri) ""))
                "resource_uri can not be empty" []);
    _ ← now (YACL_ENFORCE (0 <? len cm_result_config.(rr_ancestor_uuids))
                "ancestor_uuids can not be empty" []);
    op (on_host (CapsuleManagerClient.CreateResultDataKey b capsule_manager_client self.(dp_plat)
               self.(dp_cert) self.(dp_private_key) (result_key_body cm_result_config data_key)))
  else mret tt.

Definition result_data (b : build_flags) (schedule : list event) (self : DataCapsuleProxyImpl)
    (request : PutResultDataRequest) : prog pworld unit :=
  data_key ← result_data_key request;
  _ ← store_result schedule request data_key;
  register_key b self request.(pr_cm_result_config) data_key.

(** The frame of both methods. *)
Definition answer_with (body : prog pworld unit) : st (rpc_of pworld controller DataResponse) unit :=
  try_catch
    (_ ← upd_cntl (set_content_type kResponseContentType);
     _ ← in_world (perform body);
     upd_resp (fun _ => mk_data_response (Some (mk_sf_status Code_OK "success"))))
    (fun e => upd_cntl (SetFailed (what e))).

Definition GetInputData (b : build_flags) (schedule : list event) (self : DataCapsuleProxyImpl)
    (request : GetInputDataRequest) : st (rpc_of pworld controller DataResponse) unit :=
  answer_with (input_data b schedule self request).

Definition PutResultData (b : build_flags) (schedule : list event) (self : DataCapsuleProxyImpl)
    (request : PutResultDataRequest) : st (rpc_of pworld controller DataResponse) unit :=
  answer_with (result_data b schedule self request).

(** ** Calls at the same time

    Each has a schedule for the tasks of its directory operation. *)
Inductive service_call :=
  | CallGet (schedule : list event) (request : GetInputDataRequest)
  | CallPut (schedule : list event) (request : PutResultDataRequest).

Definition body_of (b : build_flags) (self : DataCapsuleProxyImpl) (c : service_call) : prog pworld unit :=
  match c with
  | CallGet schedule request => input_data b schedule self request
  | CallPut schedule request => result_data b schedule self request
  end.

(** The service has been asked for all [calls]. *)
Definition serving (b : build_flags) (self : DataCapsuleProxyImpl) (calls : list service_call)
    : list (service_call * prog pworld unit) := (fun c => (c, body_of b self c)) <$> calls.
End Model.

(** ** Statements on a part of the world *)

Section WorldFacts.
Context `{Host} `{Rand} `{Oss}.

Lemma files_of_with_oss o (w : pworld) : files_of (with_oss o w) = o.(o_files).
Proof. by destruct o as [[]]. Qed.

Lemma files_of_with_files d (w : pworld) : files_of (with_files d w) = d.
Proof. apply (files_of_with_oss (mk_oworld _ _ d w.(p_cloud))). Qed.

Lemma oss_of_with_oss o (w : pworld) : oss_of (with_oss o w) = o.
Proof. by destruct o as [[]]. Qed.

Lemma with_oss_of (w : pworld) : with_oss (oss_of w) w = w.
Proof. by destruct w as [? ? ? []]. Qed.

Lemma in_oss_run {A} (p : prog oworld A) (w : pworld) r o :
  perform p (oss_of w) = (r, o) -> perform (in_oss p) w = (r, with_oss o w).
Proof.
  intros E. unfold in_oss. rewrite perform_lift; [by apply focus_run|apply oss_of_with_oss|done|apply with_oss_of].
Qed.

Lemma in_files_run {A} (p : prog world A) (w : pworld) r d :
  perform p (files_of w) = (r, d) -> perform (in_files_of p) w = (r, with_files d w).
Proof.
  intros E. unfold in_files_of.
  rewrite perform_lift; [by apply focus_run|apply files_of_with_files|done|apply with_oss_of].
Qed.

Lemma on_files_run {A} (m : st world A) (w : pworld) r d :
  m (files_of w) = (r, d) -> on_files m w = (r, with_files d w).
Proof. apply focus_run. Qed.

(** ** Clearing a directory *)

Definition cleared (p : string) (w : world) : world := (remove_all p w).2.

Lemma remove_all_run p (w : world) : remove_all p w = (Ok tt, cleared p w).
Proof. unfold cleared, remove_all. by destruct (String.eqb p ""). Qed.

Lemma cleared_file p (w : world) k : p <> "" ->
  fs_of (cleared p w) !! k = if within p k then None else fs_of w !! k.
Proof.
  intros Hp. unfold cleared, remove_all. rewrite (proj2 (String.eqb_neq p "")) by done. unfold fs_of at 1. cbn.
  destruct (within p k) eqn:E.
  - apply map_lookup_filter_None_2. right. cbn. by rewrite E.
  - destruct (fs_of w !! k) as [v|] eqn:Ev; [by apply map_lookup_filter_Some_2|].
    apply map_lookup_filter_None_2. by left.
Qed.

Lemma cleared_dir p (w : world) d : p <> "" ->
  d ∈ (cleared p w).(w_dirs) <-> within p d = false /\ d ∈ w.(w_dirs).
Proof.
  intros Hp. unfold cleared, remove_all. rewrite (proj2 (String.eqb_neq p "")) by done. cbn.
  by rewrite elem_of_filter.
Qed.

Lemma prefix_spec s t : String.prefix s t = true <-> exists r, t = s +:+ r.
Proof.
  split; [|intros [r ->]; apply prefix_app]. revert t.
  induction s as [|a s IH]; intros t; [by exists t|]. destruct t as [|b t]; [done|]. cbn.
  destruct (ascii_dec a b) as [->|]; [|done]. intros [r ->]%IH. by exists r.
Qed.

Lemma within_spec p k : plain_dir p ->
  within p k = true <-> k = p \/ exists r, k = p +:+ String sep r.
Proof.
  intros [Hp He]. unfold within. rewrite orb_true_iff, String.eqb_eq, prefix_spec. unfold path_app. cbn [is_absolute].
  rewrite (proj2 (String.eqb_neq p "")), He by done. cbn [orb].
  assert (forall r, (p +:+ String sep "") +:+ r = p +:+ String sep r) as Hr
    by (intros r; by rewrite string_app_assoc).
  split; (intros [|[r ->]]; [by left|right; exists r; by rewrite Hr]).
Qed.

Lemma within_below p rel : plain_dir p -> plain_names rel -> within p (path_app p rel) = true.
Proof. intros Hp Hr. apply within_spec; [done|]. rewrite path_app_plain by done. right. by exists rel. Qed.

Lemma within_apart p q rel : plain_dir p -> plain_dir q -> plain_names rel -> apart p q ->
  within p (path_app q rel) = false.
Proof.
  intros Hp Hq Hr Ha. apply not_true_iff_false. rewrite within_spec, path_app_plain by done.
  intros [E|[r E]]; [|by apply (Ha r rel)].
  apply (Ha "" (rel +:+ String sep "")). rewrite <- E, string_app_assoc. done.
Qed.

(** Clearing a directory keeps the directories closed. *)
Lemma cleared_closed p : keeps dirs_closed (remove_all p).
Proof.
  intros w Hc. destruct (decide (p = "")) as [->|Hp]; [done|]. fold (cleared p w).
  intros d e. rewrite !cleared_dir by done. intros [Hd Hin] He. split; [|by eapply Hc].
  apply not_true_iff_false. intros Hw. apply not_true_iff_false in Hd. apply Hd. unfold within in *.
  apply elem_of_lineage in He as [->|(_ & r & ->)]; [done|].
  apply orb_true_iff. right. apply prefix_spec. apply orb_true_iff in Hw as [->%String.eqb_eq|[r' ->]%prefix_spec].
  - unfold path_app. cbn [is_absolute]. destruct (String.eqb p "" || ends_with_sep p).
    + exists (String sep r). by rewrite string_app_nil_r.
    + exists r. by rewrite string_app_assoc.
  - exists (r' +:+ String sep r). by rewrite string_app_assoc.
Qed.
End WorldFacts.

(** When the base64 text of the hash begins with a separator, the temporary
    directory is not below [/tmp]. *)
Lemma GenTempDir_absolute `{Hashes} `{Cppcodec} path :
  is_absolute (base64_encode (Sha256 (s2b path))) = true ->
  GenTempDir path = base64_encode (Sha256 (s2b path)).
Proof. intros Ha. unfold GenTempDir, path_app. by rewrite Ha. Qed.

(** ** Data through the object store *)

Section StoreFacts.
Context `{FL : FileIOLaws} `{RaL : RandLaws} `{BL : ByteViewLaws} `{GL : GcmLaws} `{WL : DirWalkLaws}
        `{!Oss} `{!OssLaws} `{Host} `{Hashes} `{Cppcodec}.

(** Encrypting does not change the number of files. *)
Lemma sealed_count (w w1 : world) src key tmp : plain_dir src -> plain_dir tmp ->
  sealed w src key w1 tmp -> (file_count w1 tmp <= file_count w src)%nat.
Proof.
  intros Hs Ht [_ Hfiles]. by apply (file_count_le w w1 src tmp (fun rel => rel +:+ kEncSuffix)).
Qed.

(** What [PutResultData] with an object store needs. *)
Record uploadable (w : pworld) (src tmp : string) (s3 : S3Config) (key : bytes) : Prop := {
  up_encryptable : encryptable (files_of w) src tmp key (targets_of (files_of w) src (enc_target tmp));
  up_some : exists rel, file_of (files_of w) src rel;
  up_count : (file_count (files_of w) src <= 100)%nat;
  up_tmp : forall p, within tmp p = true -> w.(p_fs) !! p = None;
  up_granted : granted (GetOssClient s3.(s3_endpoint) s3.(s3_access_key_id) s3.(s3_access_key_secret)
                          s3.(s3_sts_token)) s3.(s3_bucket);
  up_prefix : plain_dir s3.(s3_path);
  up_relative : is_absolute s3.(s3_path) = false;
  up_free : forall k, String.prefix s3.(s3_path) k = true ->
    objects w.(p_cloud) s3.(s3_bucket) !! k = None
}.

(** The objects under the prefix are the files of the tree, encrypted. *)
Definition capsule (c : cloud) (s3 : S3Config) (key : bytes) (w : world) (src : string) : Prop :=
  exists w1 tmp, plain_dir tmp /\ sealed w src key w1 tmp /\
    mirrors c s3.(s3_bucket) s3.(s3_path) w1 tmp.

Lemma store_result_s3 schedule request key (w : pworld) s3 :
  let src := request.(pr_source_path) in
  request.(pr_s3_config) = Some s3 -> uploadable w src (GenTempDir src) s3 key ->
  exists w', perform (store_result schedule request key) w = (Ok tt, w') /\
    capsule w'.(p_cloud) s3 key (files_of w) src /\
    (forall p, within (GenTempDir src) p = true -> w'.(p_fs) !! p = None) /\
    (forall p, within (GenTempDir src) p = false -> w'.(p_fs) !! p = w.(p_fs) !! p).
Proof.
  intros src Hs3 [He Hex Hcount Htmp Hg Hp Habs Hfree]. set (tmp := GenTempDir src) in *.
  pose proof He as [Hs Ht _ _ _ _ _ _ _ _].
  destruct (EncryptToDir_sealed schedule src tmp key (files_of w) _ He Hex)
    as (d1 & E1 & O1 & S1 & D1 & F1).
  { apply Htmp, within_spec; [done|by left]. }
  { intros rel Hr. by apply Htmp, within_below. }
  set (w1 := with_files d1 w).
  destruct (UploadToOss_objects s3.(s3_endpoint) s3.(s3_bucket) tmp s3.(s3_path) s3.(s3_access_key_id)
    s3.(s3_access_key_secret) s3.(s3_sts_token) (oss_of w1))
    as (c2 & E2 & _ & Ho & Hr); [done|done|done|done|unfold oss_of; cbn [o_files]; unfold w1; by rewrite files_of_with_files..|].
  unfold oss_of in E2, Ho, Hr. cbn [o_files o_cloud] in *. set (w2 := with_oss (mk_oworld _ _ (files_of w1) c2) w1).
  assert (files_of w2 = d1) as F2 by (unfold w2; rewrite files_of_with_oss; apply files_of_with_files).
  exists (with_files (cleared tmp d1) w2). split; [|split; [|split]].
  - unfold store_result. rewrite Hs3. fold src tmp. cbn zeta.
    rewrite (perform_bind_step _ _ _ _ _ (in_files_run _ _ _ _ E1)).
    rewrite (perform_bind_step _ _ _ _ _ (in_oss_run _ _ _ _ E2)).
    rewrite perform_op. apply on_files_run. fold w1 w2. rewrite F2. apply remove_all_run.
  - exists d1, tmp. split; [done|]. split; [done|]. cbn.
    unfold w1 in Ho, Hr. rewrite files_of_with_files in Ho, Hr.
    apply (upload_mirrors _ w.(p_cloud)); auto.
  - intros p Hw. cbn. rewrite cleared_file by apply Ht. by rewrite Hw.
  - intros p Hw. cbn. rewrite cleared_file by apply Ht. rewrite Hw. apply O1.
    intros (rel & [Hrel _] & ->). rewrite enc_target_app in Hw by done.
    rewrite within_below in Hw; [done|done|by apply dec_name_enc].
Qed.

(** What [GetInputData] with an object store needs: room for the encrypted files
    in the cleared temporary directory and for the files in the destination. *)
Record downloadable (names : world) (src : string) (w : pworld) (tmp dst : string) (s3 : S3Config)
    : Prop := {
  down_granted : granted (GetOssClient s3.(s3_endpoint) s3.(s3_access_key_id)
                            s3.(s3_access_key_secret) s3.(s3_sts_token)) s3.(s3_bucket);
  down_tmp : plain_dir tmp;
  down_dst : plain_dir dst;
  down_apart : apart tmp dst;
  down_closed : dirs_closed (files_of w);
  down_room : let made p := targets_of names src (enc_target tmp) p \/
                            targets_of names src (path_app dst) p in
    room (cleared tmp (files_of w)) made made
}.

(** The encrypted files of a capsule are fetched to the places of those of the
    tree. *)
Lemma capsule_targets (names d1 : world) src tmp1 tmp key t : plain_dir tmp ->
  sealed names src key d1 tmp1 ->
  targets_of d1 tmp1 (path_app tmp) t <-> targets_of names src (enc_target tmp) t.
Proof.
  intros Ht [C1 Hfiles]. split.
  - intros (r & Hr & ->). destruct (Hfiles r Hr) as (rel & Hf & ->). exists rel. split; [done|].
    symmetry. apply enc_target_app; [done|apply Hf].
  - intros (rel & [Hr [v Hv]] & ->). destruct (C1 rel v Hr Hv) as (enc & Henc & _).
    exists (rel +:+ kEncSuffix). split; [split; [by apply dec_name_enc|by rewrite Henc]|].
    by apply enc_target_app.
Qed.

Lemma capsule_file (names d1 : world) src tmp1 key rel : sealed names src key d1 tmp1 ->
  file_of names src rel -> file_of d1 tmp1 (rel +:+ kEncSuffix).
Proof.
  intros [C1 _] [Hr [v Hv]]. destruct (C1 rel v Hr Hv) as (enc & Henc & _).
  split; [by apply dec_name_enc|by rewrite Henc].
Qed.

(** A copy of a sealed tree in an empty directory is sealed. *)
Lemma capsule_sealed (names w v d1 : world) src tmp1 tmp key : plain_dir tmp ->
  sealed names src key d1 tmp1 -> (exists rel, file_of names src rel) ->
  (forall p, within tmp p = true -> fs_of w !! p = None) ->
  only_targets w (targets_of names src (enc_target tmp)) v ->
  (forall r u, plain_names r -> fs_of d1 !! path_app tmp1 r = Some u ->
     fs_of v !! path_app tmp r = Some u /\
     forall d, d ∈ lineage (parent_path (path_app tmp r)) -> d ∈ v.(w_dirs)) ->
  sealed names src key v tmp /\ is_directory tmp v = true /\ fs_of v !! tmp = None.
Proof.
  intros Ht S1 [rel0 Hf0] Hempty O C. split; [split|split].
  - intros rel u Hr Hu. destruct (proj1 S1 rel u Hr Hu) as (enc & Henc & Hcon & Hl). exists enc.
    split; [|done]. by apply (C (rel +:+ kEncSuffix) enc); [apply dec_name_enc|].
  - intros r. apply (file_of_encrypted names w); [done| |done]. intros rel Hr. by apply Hempty, within_below.
  - apply bool_decide_eq_true_2. destruct (capsule_file _ _ _ _ _ _ S1 Hf0) as [Hr [u Hu]].
    apply (C _ u Hr Hu). by apply lineage_parent.
  - rewrite (proj1 O); [apply Hempty, within_spec; [done|by left]|]. intros (rel & [Hr _] & E').
    apply (f_equal String.length) in E'. unfold enc_target in E'.
    rewrite path_app_plain, !string_length_app in E' by done. cbn in E'. lia.
Qed.

(** The download of a capsule is a sealed tree. *)
Lemma download_capsule (names : world) src (w : world) c tmp s3 key made :
  granted (GetOssClient s3.(s3_endpoint) s3.(s3_access_key_id) s3.(s3_access_key_secret)
             s3.(s3_sts_token)) s3.(s3_bucket) ->
  plain_dir src -> plain_dir s3.(s3_path) -> plain_dir tmp -> dirs_closed w ->
  capsule c s3 key names src -> (exists rel, file_of names src rel) ->
  (file_count names src <= 100)%nat ->
  let made1 := targets_of names src (enc_target tmp) in
  room w made made -> (forall t, made1 t -> made t) ->
  (forall p, within tmp p = true -> fs_of w !! p = None) ->
  exists o, perform (DownloadFromOss s3.(s3_endpoint) s3.(s3_bucket) s3.(s3_path) tmp s3.(s3_access_key_id)
      s3.(s3_access_key_secret) s3.(s3_sts_token)) (mk_oworld _ _ w c) = (Ok tt, o) /\
    only_targets w made1 o.(o_files) /\ sealed names src key o.(o_files) tmp /\
    is_directory tmp o.(o_files) = true /\ fs_of o.(o_files) !! tmp = None.
Proof.
  intros Hg Hs Hp Ht Hcl (d1 & tmp1 & Ht1 & S1 & Hm) [rel0 Hf0] Hcount made1 Hroom Hsub Hempty.
  pose proof (capsule_targets names d1 src tmp1 tmp key) as Htargets.
  destruct (DownloadFromOss_mirror s3.(s3_endpoint) s3.(s3_bucket) s3.(s3_path) tmp s3.(s3_access_key_id)
    s3.(s3_access_key_secret) s3.(s3_sts_token) (mk_oworld _ _ w c) d1 tmp1)
    as (o & E & O & _ & C); [done..| | |done| |].
  - exists (rel0 +:+ kEncSuffix). by eapply capsule_file.
  - etrans; [|exact Hcount]. by apply (sealed_count names d1 src key tmp1).
  - eapply room_sub; [exact Hroom|..]; intros t Hin; by apply Hsub, Htargets.
  - assert (only_targets w made1 o.(o_files)) as O'
      by (eapply only_targets_sub; [exact O|intros t Hin; by apply Htargets]).
    exists o. split; [done|]. split; [done|]. apply (capsule_sealed names w _ d1 src tmp1); eauto.
Qed.
End StoreFacts.

(** ** Well-formed directories *)

Section Closed.
Context `{Fmt} `{Absl} `{Hashes} `{Cppcodec} `{Base64Url} `{Base32} `{OpensslX509} `{Gcm} `{Brpc}.
Context `{ProtoJson DcapReport} `{ProtoJson IntelTdxReport} `{ProtoJson SgxQlQveCollateral}
        `{ProtoJson HygonCsvReport} `{ProtoJson HygonCsvCertChain}.
Context `{ProtoJson JweHeader} `{ProtoJson JwsHeader} `{ProtoJson Jws}.
Context `{ProtoJson GetDataKeysRequest} `{ProtoJson GetDataKeysResponse}
        `{ProtoJson CreateResultDataKeyRequest}.
Context `{ProtoWire ResourceRequest} `{ProtoWire ResultDataKeyBody}.
Context `{Host} `{!CapsuleManagerStub} `{Rand} `{!Keys} `{ReportDataSizes} `{HygonLayout}.
Context `{FileIO} `{ByteView} `{DirWalk} `{Oss}.

Definition oss_closed (w : oworld) : Prop := dirs_closed w.(o_files).

Lemma in_local_closed {A} (m : st world A) : keeps dirs_closed m -> keeps oss_closed (in_local m).
Proof. intros Hm w Hc. unfold in_local, focus. specialize (Hm w.(o_files) Hc). by destruct (m _). Qed.

Lemma list_call_closed {A} (f : cloud -> (OssError + A) * cloud) : keeps oss_closed (list_call f).
Proof. intros w Hc. unfold list_call. by destruct (f _). Qed.

Lemma object_call_closed {A} (f : cloud -> gset string -> fsys -> (OssError + A) * (cloud * fsys)) :
  keeps oss_closed (object_call f).
Proof. intros w Hc. unfold object_call. by destruct (f _ _ _) as [r [c fs]]. Qed.

#[local] Hint Resolve all_ops_op all_ops_bind all_ops_ret all_ops_look all_ops_each : trustflow.
#[local] Hint Extern 1 (all_ops _ (now _)) => apply all_ops_ret : trustflow.
#[local] Hint Extern 1 (all_ops _ (mret _)) => apply all_ops_ret : trustflow.
#[local] Hint Resolve list_call_closed object_call_closed in_local_closed ensure_parent_closed : trustflow.

Lemma DownloadFromOss_closed endpoint bucket src dest ak sk sts :
  all_ops oss_closed (DownloadFromOss endpoint bucket src dest ak sk sts).
Proof. unfold DownloadFromOss, download_object. auto 10 with trustflow. Qed.

End Closed.

(** ** What the service promises *)

Section ProxyFacts.
Context `{Fmt} `{Absl} `{Hashes} `{CL : CppcodecLaws} `{UL : Base64UrlLaws} `{Base32} `{OpensslX509}
        `{BrL : BrpcLaws}.
Context `{ProtoJson DcapReport} `{ProtoJson IntelTdxReport} `{ProtoJson SgxQlQveCollateral}
        `{ProtoJson HygonCsvReport} `{ProtoJson HygonCsvCertChain}.
Context `{JH : ProtoJsonLaws JweHeader} `{JSH : ProtoJsonLaws JwsHeader} `{JS : ProtoJsonLaws Jws}.
Context `{JK : ProtoJsonLaws GetDataKeysRequest} `{ProtoJson GetDataKeysResponse}
        `{JR : ProtoJsonLaws CreateResultDataKeyRequest}.
Context `{ProtoWire ResourceRequest} `{ProtoWire ResultDataKeyBody}.
Context `{Host} `{!CapsuleManagerStub} `{RaL : RandLaws} `{!Keys} {KL : KeysLaws}
        `{ReportDataSizes} `{HygonLayout}.
Context `{FL : FileIOLaws} `{BvL : ByteViewLaws} `{GL : GcmLaws} `{WL : DirWalkLaws}
        `{!Oss} `{!OssLaws}.

Definition success : DataResponse := mk_data_response (Some (mk_sf_status Code_OK "success")).

Lemma answer_with_run body (w : pworld) c r :
  answer_with body (mk_rpc w c r) =
    let cntl := set_content_type kResponseContentType c in
    match perform body w with
    | (Ok _, w') => (Ok tt, mk_rpc w' cntl success)
    | (Throw e, w') => (Ok tt, mk_rpc w' (SetFailed (what e) cntl) r)
    | (UB u, w') => (UB u, mk_rpc w' cntl r)
    end.
Proof.
  unfold answer_with, try_catch, mbind, st_bind, in_world, upd_cntl. cbn [rpc_world rpc_cntl rpc_resp].
  by destruct (perform body w) as [[[]|e|u] w'].
Qed.

(** A method answers success exactly when its work is done. *)
Definition answers (o : outcome unit * rpc_of pworld controller DataResponse) (c : controller)
    (r : DataResponse) (work : outcome unit * pworld) : Prop :=
  defined work.1 ->
  o.1 = Ok tt /\ o.2.(rpc_world) = work.2 /\
  if Failed o.2.(rpc_cntl)
  then o.2.(rpc_resp) = r /\ exists e, work.1 = Throw e /\
       o.2.(rpc_cntl) = SetFailed (what e) (set_content_type kResponseContentType c)
  else o.2.(rpc_resp) = success /\ work.1 = Ok tt.

Lemma answer_with_answers body (w : pworld) c r :
  Failed c = false -> answers (answer_with body (mk_rpc w c r)) c r (perform body w).
Proof.
  intros Hc. unfold answers. rewrite answer_with_run.
  destruct (perform body w) as [[[]|e|u] w']; cbn; intros Hd; [| |done]; (split; [done|]; split; [done|]).
  - by rewrite Failed_set_content_type, Hc.
  - rewrite Failed_SetFailed. split; [done|]. by exists e.
Qed.

(** C38. The data capsule proxy lets no exception out of its methods: a call
    whose steps all return answers OK, a call one of whose steps throws has
    failed with the text of that exception and an untouched response, and what
    the steps did before it stays done. *)
Theorem data_proxy_answers b schedule self (w : pworld) c r :
  Failed c = false ->
  (forall request, answers (GetInputData b schedule self request (mk_rpc w c r)) c r
                     (perform (input_data b schedule self request) w)) /\
  (forall request, answers (PutResultData b schedule self request (mk_rpc w c r)) c r
                     (perform (result_data b schedule self request) w)).
Proof. intros Hc. split; intros request; by apply answer_with_answers. Qed.

Lemma on_host_Ok {A} (m : st host_state A) (w : pworld) a w' :
  on_host m w = (Ok a, w') -> exists h', m w.(p_host) = (Ok a, h').
Proof. unfold on_host. destruct (m _) as [r h]. intros [= -> _]. by exists h. Qed.

(** The files of a capsule arrive in the destination. *)
Lemma input_data_s3 b schedule self request key (names : world) src (w : pworld) s3 :
  let dst := request.(gi_dest_path) in
  let tmp := GenTempDir dst in
  perform (input_data_key b self request) w = (Ok key, w) -> request.(gi_s3_config) = Some s3 ->
  downloadable names src w tmp dst s3 -> plain_dir src -> plain_dir s3.(s3_path) ->
  capsule w.(p_cloud) s3 key names src -> (exists rel, file_of names src rel) ->
  (file_count names src <= 100)%nat ->
  exists w', perform (input_data b schedule self request) w = (Ok tt, w') /\
    (forall rel c, plain_names rel -> fs_of names !! path_app src rel = Some c ->
       w'.(p_fs) !! path_app dst rel = Some c) /\
    (forall p, within tmp p = true -> w'.(p_fs) !! p = None) /\
    (forall p, within tmp p = false -> ~ targets_of names src (path_app dst) p ->
       w'.(p_fs) !! p = w.(p_fs) !! p).
Proof.
  intros dst tmp Hkey Hs3 [Hg Ht Hd Hap Hcl Hroom] Hs Hp Hcap Hex Hcount.
  set (made1 := targets_of names src (enc_target tmp)) in *.
  set (made2 := targets_of names src (path_app dst)) in *. cbn zeta in Hroom.
  set (w1 := with_files (cleared tmp (files_of w)) w).
  assert (files_of w1 = cleared tmp (files_of w)) as F1 by apply files_of_with_files.
  destruct (download_capsule names src (files_of w1) w1.(p_cloud) tmp s3 key (fun p => made1 p \/ made2 p))
    as (o & E2 & O2 & S2 & D2 & N2); [done..|rewrite F1; by apply (cleared_closed tmp)|done|done|done|by rewrite F1|by left| |].
  { intros p Hw. rewrite F1, cleared_file by apply Ht. by rewrite Hw. }
  set (w2 := with_oss o w1). assert (files_of w2 = o.(o_files)) as F2 by apply files_of_with_oss.
  assert (room o.(o_files) made2 (fun p => made1 p \/ made2 p)) as R2.
  { rewrite F1 in O2. eapply (room_after (cleared tmp (files_of w))); [..|exact O2]; [..|done];
      (eapply room_sub; [exact Hroom|cbn; intros t Hmade; first [by left|by right]|done]). }
  destruct (DecryptToDir_sealed schedule src tmp dst key names o.(o_files) (fun p => made1 p \/ made2 p))
    as (d3 & E3 & O3 & C3); [done..|apply O2|done|by right|].
  set (w3 := with_files d3 w2). assert (files_of w3 = d3) as F3 by apply files_of_with_files.
  exists (with_files (cleared tmp d3) w3). split; [|split; [|split]].
  - unfold input_data. rewrite (perform_bind_step _ _ _ _ _ Hkey). unfold fetch_input. rewrite Hs3. fold dst tmp. cbn zeta.
    rewrite (perform_op_step _ _ _ _ _ (on_files_run _ _ _ _ (remove_all_run tmp (files_of w)))).
    rewrite (perform_bind_step _ _ _ _ _ (in_oss_run _ _ _ _ E2)). fold w1 w2.
    rewrite <- F2 in E3. rewrite (perform_bind_step _ _ _ _ _ (in_files_run _ _ _ _ E3)). fold w3.
    rewrite perform_op. apply on_files_run. rewrite F3. apply remove_all_run.
  - intros rel c Hr Hc. cbn. rewrite cleared_file by apply Ht. rewrite within_apart by done. by apply C3.
  - intros p Hw. cbn. rewrite cleared_file by apply Ht. by rewrite Hw.
  - intros p Hw Hn. cbn. rewrite cleared_file, Hw by apply Ht. rewrite (proj1 O3) by done.
    rewrite (proj1 O2), F1, cleared_file, Hw by (apply Ht || (intros (rel & [Hr _] & ->);
      rewrite enc_target_app, within_below in Hw by (done || by apply dec_name_enc); done)). done.
Qed.

End ProxyFacts.

(** ** Witnesses *)

Module ProxyWitness.
Import TreeWitness.
#[local] Existing Instances sample_fmt sample_absl sample_hashes sample_cppcodec sample_cppcodec_laws
  sample_b64url sample_b64url_laws sample_rand sample_rand_laws sample_keys sample_keys_laws
  sample_x509 sample_gcm sample_gcm_laws sample_report_data sample_hygon sample_brpc sample_brpc_laws
  sample_fileio sample_fileio_laws sample_byteview sample_byteview_laws sample_walk sample_walk_laws
  sample_oss sample_oss_laws.
#[local] Instance host : Host := sample_host 0 "".
#[local] Instance base32 : Base32 := {| base32_encode := hex_encode |}.

Definition data_key_text : string := hex_encode key.
Definition resource : CmResourceConfig := mk_cm_resource_config "" "s" "op" "u" ["c"] "".
Definition result : CmResultConfig := mk_cm_result_config "" "s" "u" ["a"].
Definition body : ResultDataKeyBody := result_key_body result key.
Definition req : ResourceRequest :=
  mk_resource_request (match GeneratePartyId "C" with Ok id => id | _ => "" end) "s" "op"
    [mk_resource "u" ["c"] ""] "" "".
Definition jws_of (payload : string) : Jws :=
  let ph := hex_encode (s2b "H") in
  let payload := hex_encode (s2b payload) in
  mk_jws ph payload (hex_encode (s2b (ph +:+ "." +:+ payload))).

#[local] Instance wire {T} : ProtoWire T := {| SerializeToString _ := None |}.
#[local] Instance j_none {T} : ProtoJson T | 100 :=
  {| MessageToJsonString _ := inl ""; JsonStringToMessage _ := inl "" |}.
#[local] Instance j1 : ProtoJson GetDataKeysRequest :=
  sample_json [("Q", mk_data_keys_request None "C" req)].
#[local] Instance j2 : ProtoJson JweHeader := sample_json [("E", mk_jwe_header kRsaOaep kAes128Gcm)].
#[local] Instance j3 : ProtoJson JwsHeader :=
  sample_json [("H", mk_jws_header kRs256 [hex_encode (s2b "C")])].
#[local] Instance j4 : ProtoJson Jws := sample_json [("J", jws_of "Q"); ("K", jws_of "B")].
#[local] Instance j5 : ProtoJson GetDataKeysResponse :=
  sample_json [("R", mk_data_keys_response [mk_data_key data_key_text])].
#[local] Instance j6 : ProtoJson CreateResultDataKeyRequest :=
  sample_json [("B", mk_result_key_request None body)].
#[local] Instance j1_laws : ProtoJsonLaws GetDataKeysRequest.
Proof. apply sample_json_laws, NoDup_singleton. Qed.
#[local] Instance j2_laws : ProtoJsonLaws JweHeader.
Proof. apply sample_json_laws, NoDup_singleton. Qed.
#[local] Instance j3_laws : ProtoJsonLaws JwsHeader.
Proof. apply sample_json_laws, NoDup_singleton. Qed.
#[local] Instance j4_laws : ProtoJsonLaws Jws.
Proof. apply sample_json_laws. cbn. apply (bool_decide_unpack _). by vm_compute. Qed.
#[local] Instance j6_laws : ProtoJsonLaws CreateResultDataKeyRequest.
Proof. apply sample_json_laws, NoDup_singleton. Qed.

Definition answer : EncryptedResponse :=
  mk_enc_response (mk_sf_status Code_OK "success")
    (mk_jwe (hex_encode (s2b "E")) (hex_encode (zero_bytes 16)) (hex_encode (zero_bytes 12))
       (hex_encode (s2b "R")) (hex_encode (zero_bytes 16)) "").
#[local] Instance stub : CapsuleManagerStub := {|
  stub_GetRaCert _ _ _ d := ((mk_grpc_status 0 "", mk_cm_ra_response (mk_sf_status 0 "") None "peer"), d);
  stub_GetDataKeys _ _ _ d := ((mk_grpc_status 0 "", answer), d);
  stub_GetTlsAsset _ _ _ d := ((mk_grpc_status 0 "", answer), d);
  stub_CreateResultDataKey _ _ _ d := ((mk_grpc_status 0 "", answer), d)
|}.

Definition flags : build_flags := mk_build_flags true false false.
Definition self : DataCapsuleProxyImpl := mk_proxy "ep" "sim" "C" "me".
Definition h0 : host_state := mk_host [] 0 tt tt.
Definition c0 : controller := ("", None).
Definition r0 : DataResponse := mk_data_response None.
Definition w1 : pworld := mk_pworld fs0 w0.(w_dirs) ∅ h0.

(** A result for a directory, under a fresh key that is registered. *)
Definition put_local : PutResultDataRequest := mk_put_result "/s" "" None (Some "/t") result.
Definition put_done : outcome unit * rpc_of pworld controller DataResponse :=
  Eval vm_compute in PutResultData flags [Visit; Run 0] self put_local (mk_rpc w1 c0 r0).
(** The same request while another is served that goes to a store. *)
Definition s3 : S3Config := mk_s3_config "oss" "bkt" "out" "ak" "sk" "".
Definition put_s3 : PutResultDataRequest :=
  mk_put_result "/s" data_key_text (Some s3) None (mk_cm_result_config "" "" "" []).
Definition calls : list service_call := [CallPut [Visit; Run 0] put_local; CallPut [] put_s3].
Definition turns : list nat := concat (replicate 80 [0; 1]%nat).
Definition both : list (service_call * prog pworld unit) * pworld :=
  foldl pool_run (serving flags self calls, w1) turns.

Lemma data_proxy_answers_witness :
  answers (PutResultData flags [] self put_local (mk_rpc w1 c0 r0)) c0 r0
    (perform (result_data flags [] self put_local) w1).
Proof. by apply (data_proxy_answers flags [] self w1 c0 r0). Defined.

(** A result that goes to the store and comes back. *)
Definition get_s3 : GetInputDataRequest := mk_get_input (Some data_key_text) None (Some s3) None "/d".
Definition put_s3_done : outcome unit * rpc_of pworld controller DataResponse :=
  Eval vm_compute in PutResultData flags [Visit; Run 0] self put_s3 (mk_rpc w1 c0 r0).
Lemma put_s3_run : PutResultData flags [Visit; Run 0] self put_s3 (mk_rpc w1 c0 r0) = put_s3_done.
Proof. vm_compute. reflexivity. Qed.

(** The other proxy has a file left in its temporary directory. *)
Definition tmp_s : string := Eval vm_compute in GenTempDir "/s".
Definition tmp_d : string := Eval vm_compute in GenTempDir "/d".
Definition w2 : pworld :=
  mk_pworld {[path_app tmp_d "old.enc" := s2b "left"]} {["/tmp"; tmp_d]} put_s3_done.2.(rpc_world).(p_cloud) h0.

Lemma names_cases tgt t : targets_of (files_of w1) "/s" tgt t -> t ∈ [tgt "a"; tgt "sub/b"].
Proof. intros [->| ->]%w0_made; set_solver. Qed.

(** Room for a list of paths, by computation. *)
Lemma room_list (w : world) l (made : string -> Prop) :
  (forall t, made t -> t ∈ l) ->
  Forall (fun t => parent_path t <> "" /\ (t ∉ w.(w_dirs)) /\
    Forall (fun d => fs_of w !! d = None /\ d ∉ l) (lineage (parent_path t))) l ->
  room w made made.
Proof.
  intros Hm Hl t Ht. split; [done|]. rewrite Forall_forall in Hl. destruct (Hl t (Hm t Ht)) as (H1 & H2 & H3).
  split; [done|]. split; [done|]. intros d Hd. rewrite Forall_forall in H3.
  destruct (H3 d Hd) as [Hno Hd']. split; [done|]. intros Hmade. by apply Hd', Hm.
Qed.

Lemma w1_uploadable : uploadable w1 "/s" tmp_s s3 key.
Proof.
  split.
  - split; [done|done| |by vm_compute|by vm_compute|exact w0_closed|by eexists| | |].
    + intros r t. by vm_compute.
    + intros rel c Hr Hc. destruct (w0_files rel c Hr Hc) as [[_ ->]|[_ ->]]; by vm_compute.
    + apply (room_list _ [enc_target tmp_s "a"; enc_target tmp_s "sub/b"]); [apply names_cases|].
      apply (bool_decide_unpack _). by vm_compute.
    + done.
  - exists "a". split; [by apply (bool_decide_unpack _); vm_compute|vm_compute; by eexists].
  - apply Nat.leb_le. by vm_compute.
  - intros p Hp. apply within_spec in Hp as Hp; [|done]. change (p_fs w1) with fs0. unfold fs0.
    rewrite !lookup_insert_ne, lookup_empty; [done|..]; intros <-;
      destruct Hp as [E|[r E]]; unfold tmp_s in E; string_app; discriminate E.
  - done.
  - done.
  - done.
  - intros k _. by vm_compute.
Qed.

Lemma w2_downloadable : downloadable (files_of w1) "/s" w2 tmp_d "/d" s3.
Proof.
  split; [done|done|done| | |].
  - intros r t. unfold tmp_d. string_app. discriminate.
  - assert (Forall (fun d => Forall (fun e => e ∈ w2.(p_dirs)) (lineage d)) (elements w2.(p_dirs))) as Hall
      by (apply (bool_decide_unpack _); by vm_compute).
    intros d e Hd He. rewrite Forall_forall in Hall. specialize (Hall d).
    rewrite Forall_forall in Hall. apply Hall; [by apply elem_of_elements|done].
  - apply (room_list _ [enc_target tmp_d "a"; enc_target tmp_d "sub/b"; path_app "/d" "a"; path_app "/d" "sub/b"]).
    + intros t [Ht%names_cases|Ht%names_cases]; set_solver.
    + apply (bool_decide_unpack _). by vm_compute.
Qed.


(** Files left in the temporary directory are uploaded with the result. *)
Definition w_stale : pworld :=
  mk_pworld (<[path_app tmp_s "old.enc" := s2b "left"]> fs0) ({["/tmp"; tmp_s]} ∪ w0.(w_dirs)) ∅ h0.

Lemma PutResultData_stale :
  let '(r, s) := PutResultData flags [] self put_s3 (mk_rpc w_stale c0 r0) in
  r = Ok tt /\ objects s.(rpc_world).(p_cloud) "bkt" !! "out/old.enc" = Some (s2b "left").
Proof. vm_compute. by auto. Qed.

(** Two results of the same directory at the same time share a temporary
    directory: the first call uploads what the second has encrypted under its
    own key, and returns. *)
Definition key2_text : string := hex_encode (replicate 16 (byte.of_Z 7)).
Definition put_key2 : PutResultDataRequest :=
  mk_put_result "/s" key2_text (Some (mk_s3_config "oss" "bkt" "other" "ak" "sk" "")) None
    (mk_cm_result_config "" "" "" []).
Definition shared : list (service_call * prog pworld unit) * pworld :=
  foldl pool_run (serving flags self [CallPut [] put_s3; CallPut [] put_key2], w1)
    (replicate 41 0 ++ replicate 41 1 ++ replicate 10 0)%nat.

Definition fetch (key_text : string) : outcome unit :=
  (perform (input_data flags [] self (mk_get_input (Some key_text) None (Some s3) None "/d")) shared.2).1.

Lemma PutResultData_mixed_keys :
  shared.1 !! 0%nat = Some (CallPut [] put_s3, Ret (Ok tt)) /\
  is_throw (fetch data_key_text) = true /\ fetch key2_text = Ok tt.
Proof. by vm_compute. Qed.
End ProxyWitness.
