(* ===== verification/Concurrent.v ===== *)
(** * Calls that leave each other alone

    What the parts of a call can change, whatever they find and however they end,
    and what follows for calls of the data capsule proxy that are served at the
    same time: a result that goes to the object store arrives there complete when
    the other calls work elsewhere. *)

From S2P Require Import Prelude CppStd External Common Samples Verifier Dcap Sgx2Verifier TdxVerifier Hygon CsvVerifier VerifierWrapper Path YaclCrypto Tasks Host IntelGenerator CsvGenerator GeneratorWrapper ProxyCommon RaProxy CryptoFile Footprint Jose Envelope CapsuleManagerClient Directory Tree OssClient DataCapsuleProxy.

(** ** Directories *)

(** [p] lies in directory [d], or above it or a path in it. *)
Definition near (d p : string) : Prop := exists r, p ∈ lineage (d +:+ String sep r).

Lemma within_near d p : plain_dir d -> within d p = true -> near d p.
Proof.
  intros Hd [->|[r ->]]%within_spec; [|exists r; apply elem_of_lineage; by left|done].
  exists "". apply elem_of_lineage. right. split; [apply Hd|by exists ""].
Qed.

Lemma lineage_near d p : plain_dir d -> p ∈ lineage d -> near d p.
Proof.
  intros Hd Hp. exists "". eapply lineage_trans; [|exact Hp]. apply elem_of_lineage. right.
  split; [apply Hd|by exists ""].
Qed.

(** What lies in one of two directories apart is not near the other. *)
Lemma near_apart d e p : plain_dir e -> apart d e -> near d p -> within e p = false.
Proof.
  intros He Ha [r Hp]. apply not_true_iff_false. rewrite within_spec by done.
  apply elem_of_lineage in Hp as [->|(_ & s & E)]; intros [Ep|[t Ep]].
  - apply (Ha (r +:+ String sep "") ""). by rewrite <- Ep, string_app_assoc.
  - by apply (Ha r t).
  - apply (Ha r s). by rewrite E, Ep.
  - apply (Ha r (t +:+ String sep s)). by rewrite E, Ep, string_app_assoc.
Qed.

Lemma apart_sym d e : apart d e -> apart e d.
Proof. intros Ha r s E. by apply (Ha s r). Qed.

(** The directories above a file in [d] are near [d]. *)
Lemma parent_near d rel p : plain_dir d -> plain_names rel ->
  p ∈ lineage (parent_path (path_app d rel)) -> near d p.
Proof.
  intros Hd Hr Hp. rewrite path_app_plain in Hp by done. unfold parent_path in Hp.
  destruct (split_last sep rel) as [[x f]|] eqn:E.
  - apply split_last_some in E as [-> Hw].
    assert (plain_names x) as Hx.
    { unfold plain_names in *. rewrite split_on_app, Forall_app in Hr. tauto. }
    replace (d +:+ String sep (x +:+ String sep f)) with ((d +:+ String sep x) +:+ String sep f) in Hp
      by (by rewrite string_app_assoc).
    rewrite split_last_app, strip_seps_plain in Hp; [|by apply (ends_below d x)|done].
    exists x. destruct d as [|c d]; [by destruct Hd|done].
  - rewrite split_last_app, strip_seps_plain in Hp by (done || apply Hd).
    apply lineage_near; [done|]. by destruct d; [destruct Hd|].
Qed.

(** The directory of a file in [d] lies in [d]. *)
Lemma parent_within d rel : plain_dir d -> plain_names rel ->
  within d (parent_path (path_app d rel)) = true.
Proof.
  intros Hd Hr. apply within_spec; [done|].
  destruct (proj1 (elem_of_lineage _ _) (lineage_parent d rel Hd Hr)) as [E|(_ & r & E)]; [by left|right].
  by exists r.
Qed.

(** [w'] differs from [w] in files within [d] and in directories near [d]. *)
Record changes_near `{Rand} (d : string) (w w' : world) : Prop := {
  cn_files : forall p, within d p = false -> fs_of w' !! p = fs_of w !! p;
  cn_dirs : forall p, ~ near d p -> p ∈ w'.(w_dirs) <-> p ∈ w.(w_dirs)
}.

Section Walks.
Context `{FL : FileIOLaws} `{RaL : RandLaws} `{ByteView} `{Gcm} `{WL : DirWalkLaws}.
Variable dest : string.
Hypothesis Hdest : plain_dir dest.

#[local] Instance changes_near_preorder : PreOrder (changes_near dest).
Proof.
  split; [by split|]. intros w1 w2 w3 [F1 D1] [F2 D2]. split.
  - intros p Hp. by rewrite F2, F1.
  - intros p Hp. by rewrite D2, D1.
Qed.

Lemma ensure_parent_near rel (w : world) : plain_names rel ->
  changes_near dest w (ensure_parent (path_app dest rel) w).2.
Proof.
  intros Hr. unfold ensure_parent. destruct (negb _); [|done]. unfold create_directories.
  destruct (_ || _); [done|]. split; [done|]. cbn. intros p Hp.
  rewrite elem_of_union, elem_of_list_to_set. split; [|by right]. intros [Hin|]; [|done].
  destruct Hp. by apply (parent_near dest rel).
Qed.

Lemma write_near w t c : within dest t = true -> changes_near dest w (write_file t c w).
Proof.
  intros Ht. split; [|done]. intros p Hp. cbn.
  rewrite lookup_insert_ne; [done|]. by intros ->; rewrite Ht in Hp.
Qed.

(** A task with its destination in [dest] keeps to [dest]. *)
Lemma task_near t (p : prog world unit) : within dest t = true -> all_guarantee (off t) p ->
  all_guarantee (changes_near dest) p.
Proof.
  intros Ht. apply guarantees_weaken. intros w w' [Hd Hf]. split; [|by rewrite Hd].
  intros p' Hp. apply Hf. intros ->. by rewrite Ht in Hp.
Qed.

Lemma encrypt_target_near rel : plain_names rel ->
  within dest (path_app dest rel +:+ kEncSuffix) = true /\
  forall w, changes_near dest w (ensure_parent (path_app dest rel +:+ kEncSuffix) w).2.
Proof.
  intros Hr. fold (enc_target dest rel). rewrite enc_target_app by done.
  destruct (dec_name_enc rel Hr) as (Hr' & _ & _). split; [by apply within_below|].
  intros w. by apply ensure_parent_near.
Qed.

(** Encrypting a directory, or a file with a plain name. *)
Lemma EncryptToDir_near schedule src key : plain_dir src -> plain_names (filename src) ->
  all_guarantee (changes_near dest) (EncryptToDir schedule src dest key).
Proof.
  intros Hs Hn. unfold EncryptToDir. apply guarantees_look; [apply _|]. intros w1. apply guarantees_now. intros _.
  apply guarantees_look; [apply _|]. intros w2. case_match.
  { destruct (encrypt_target_near (filename src) Hn) as [Ht He]. apply guarantees_op; [done|]. intros _ _ _ _.
    eapply task_near; [exact Ht|apply EncryptFile_off]. }
  apply guarantees_look; [apply _|]. intros w3. case_match; [|done].
  apply guarantees_look; [apply _|]. intros w4. apply walk_keeps; [apply _|].
  intros item w (rel & -> & Hr & _)%elem_of_items. unfold encrypt_item.
  destruct (is_regular_file _ w); [|done]. rewrite relative_path_app by done.
  destruct (encrypt_target_near rel Hr) as [Ht He]. specialize (He w).
  unfold mbind, st_bind. destruct (ensure_parent _ w) as [[[]|e|u] w']; [|done|done].
  split; [done|]. cbn. intros t E. injection E as <-. eapply task_near; [exact Ht|apply EncryptFile_off].
Qed.

Lemma copy_file_near from rel (w : world) : plain_names rel ->
  changes_near dest w (copy_file from (path_app dest rel) w).2.
Proof.
  intros Hr. unfold copy_file. destruct (fs_of w !! from); [|done]. destruct (_ || _); [done|].
  apply write_near. rewrite within_spec by done. right. rewrite path_app_plain by done.
  destruct (is_directory _ w); [|by exists rel]. unfold path_app.
  rewrite without_not_absolute by apply filename_without.
  rewrite (proj2 (String.eqb_neq _ _)) by (by destruct dest; [destruct Hdest|]).
  rewrite ends_below by done. cbn [orb]. rewrite string_app_assoc. by eexists.
Qed.

Lemma decrypt_target_near rel : plain_names rel -> String.eqb (extension rel) kEncSuffix = true ->
  within dest (remove_extension (path_app dest rel)) = true.
Proof.
  intros Hr He. destruct (dec_item_target dest rel Hdest Hr) as [E _]. rewrite He in E. rewrite E.
  apply within_spec; [done|]. right. by eexists.
Qed.

(** Decrypting a directory, or a file with a plain name. *)
Lemma DecryptToDir_near schedule src key : plain_dir src -> plain_names (filename src) ->
  all_guarantee (changes_near dest) (DecryptToDir schedule src dest key).
Proof.
  intros Hs Hn. unfold DecryptToDir. apply guarantees_look; [apply _|]. intros w1. apply guarantees_now. intros _.
  apply guarantees_look; [apply _|]. intros w2. case_match.
  { apply guarantees_op; [intros w; by apply ensure_parent_near|]. intros _ _ _ _.
    destruct (String.eqb _ _) eqn:Ee; [|apply all_guarantee_op; intros w; by apply copy_file_near].
    eapply task_near; [apply decrypt_target_near; [done|]|apply DecryptFile_off].
    by rewrite (extension_filename _ _ (filename_filename src)). }
  apply guarantees_look; [apply _|]. intros w3. case_match; [|done].
  apply guarantees_look; [apply _|]. intros w4. apply walk_keeps; [apply _|].
  intros item w (rel & -> & Hr & _)%elem_of_items. unfold decrypt_item.
  destruct (is_regular_file _ w); [|done]. rewrite relative_path_app by done.
  pose proof (ensure_parent_near rel w Hr) as He.
  unfold mbind, st_bind. destruct (ensure_parent _ w) as [[[]|e|u] w']; [|done|done].
  destruct (String.eqb _ _) eqn:Ee.
  - split; [done|]. intros t E. injection E as <-. cbn [fst snd].
    apply (task_near (remove_extension (path_app dest rel))); [|apply DecryptFile_off].
    apply decrypt_target_near; [done|]. by rewrite (extension_filename _ _ (filename_app_plain src rel Hs Hr)) in Ee.
  - pose proof (copy_file_near (path_app src rel) rel w' Hr) as Hc.
    destruct (copy_file _ _ w') as [[[]|e|u] w'']; (split; [by etrans|done]).
Qed.

Lemma remove_all_near (w : world) : changes_near dest w (remove_all dest w).2.
Proof.
  fold (cleared dest w). split.
  - intros p Hp. rewrite cleared_file by apply Hdest. by rewrite Hp.
  - intros p Hp. rewrite cleared_dir by apply Hdest. split; [by intros []|]. intros Hin. split; [|done].
    apply not_true_iff_false. intros Hw. by apply Hp, within_near.
Qed.
End Walks.

(** ** Encrypting a tree while others work elsewhere *)

Section EncryptRely.
Context `{FL : FileIOLaws} `{RaL : RandLaws} `{BvL : ByteViewLaws} `{GL : GcmLaws} `{WL : DirWalkLaws}.

(** Nothing has changed in and above directory [z]. *)
Definition zone_kept (z : string) (w w' : world) : Prop :=
  (forall p, near z p -> fs_of w' !! p = fs_of w !! p) /\
  (forall d, within z d = true -> d ∈ w'.(w_dirs) <-> d ∈ w.(w_dirs)).

#[export] Instance zone_kept_preorder z : PreOrder (zone_kept z).
Proof.
  split; [by split|]. intros w1 w2 w3 [F1 D1] [F2 D2]. split; intros; [rewrite F2, F1|rewrite D2, D1]; done.
Qed.

(** Others leave both directories alone. *)
Record spared_files (src tmp : string) (w w' : world) : Prop := {
  sf_src : zone_kept src w w';
  sf_tmp : zone_kept tmp w w';
  sf_closed : stays_closed w w'
}.

#[export] Instance spared_files_preorder src tmp : PreOrder (spared_files src tmp).
Proof.
  split; [by split|]. intros w1 w2 w3 [S1 T1 C1] [S2 T2 C2]. split; by etrans.
Qed.

(** Nothing in a directory has changed when nothing near it has. *)
Lemma kept_below z w w' rel : plain_dir z -> zone_kept z w w' -> plain_names rel ->
  fs_of w' !! path_app z rel = fs_of w !! path_app z rel.
Proof. intros Hz [Hf _] Hr. by apply Hf, within_near, within_below. Qed.

Lemma kept_targets z w w' tgt t : plain_dir z -> zone_kept z w w' ->
  targets_of w' z tgt t <-> targets_of w z tgt t.
Proof.
  intros Hz Hk. unfold targets_of, file_of.
  split; intros (rel & [Hr Hs] & ->); exists rel; (split; [split; [done|]|done]); revert Hs;
    by rewrite (kept_below z w w').
Qed.

Lemma kept_self z w w' : plain_dir z -> zone_kept z w w' ->
  is_directory z w' = is_directory z w /\ is_regular_file z w' = is_regular_file z w.
Proof.
  intros Hz [Hf Hd]. assert (within z z = true) as Hself by (apply within_spec; [done|by left]). split.
  - apply bool_decide_ext, Hd, Hself.
  - unfold is_regular_file. by rewrite Hf by (by apply within_near).
Qed.

(** There is room for the encrypted files in an empty directory. *)
Record sealable (w : world) (src tmp : string) (key : bytes) : Prop := {
  sl_encryptable : encryptable w src tmp key (targets_of w src (enc_target tmp));
  sl_some : exists rel, file_of w src rel;
  sl_empty : forall p, within tmp p = true -> fs_of w !! p = None
}.

(** The others do not take it away. *)
Lemma sealable_spared src tmp key w w' :
  sealable w src tmp key -> spared_files src tmp w w' -> sealable w' src tmp key.
Proof.
  intros [[Hs Ht Ha Hdir Hno Hcl Hk Hsz Hroom _] [rel0 [Hr0 Hf0]] Hempty] [Ks Kt Kc].
  pose proof (kept_targets src w w' (enc_target tmp)) as Htg. destruct (kept_self src w w' Hs Ks) as [Ed _].
  split; [split|..]; try done.
  - by rewrite Ed.
  - rewrite (proj1 Ks); [done|]. apply within_near; [done|]. apply within_spec; [done|by left].
  - auto.
  - intros rel c Hr. rewrite (kept_below src w w') by done. by apply Hsz.
  - intros t Ht'. pose proof Ht' as (rel & [Hrel _] & Et). destruct (Hroom t) as (Hwr & Hpar & Hnd & Hl); [by apply Htg|].
    split; [done|]. split; [done|]. rewrite enc_target_app in Et by done. split.
    + intros Hin. apply Hnd. apply (proj2 Kt); [|done]. subst t. by apply within_below, dec_name_enc.
    + intros d Hd. destruct (Hl d Hd) as [Hfile Hnt]. rewrite (Htg d) by done. split; [|done].
      rewrite (proj1 Kt); [done|]. subst t. eapply parent_near; [done|by apply dec_name_enc|done].
  - exists rel0. split; [done|]. by rewrite (kept_below src w w').
  - intros p Hin. rewrite (proj1 Kt); [auto|by apply within_near].
Qed.

(** *** The zone of the walk *)

Definition zone_files (src tmp p : string) : Prop := near src p \/ near tmp p.
Definition zone_dirs (src tmp d : string) : Prop := within src d = true \/ within tmp d = true.

Abbreviation zone src tmp := (same_zone (zone_files src tmp) (zone_dirs src tmp)).

Lemma spared_zone src tmp w w' : spared_files src tmp w w' -> zone src tmp w w'.
Proof. intros [[F1 D1] [F2 D2] _]. split; intros k [|]; auto. Qed.

Lemma zone_tmp src tmp v w : zone src tmp v w -> zone_kept tmp v w.
Proof. intros [Hf Hd]. split; intros; [apply Hf|apply Hd]; by right. Qed.

Lemma zone_src src tmp v w : zone src tmp v w -> zone_kept src v w.
Proof. intros [Hf Hd]. split; intros; [apply Hf|apply Hd]; by left. Qed.

(** Making the directory of a target looks at the zone only. *)
Lemma ensure_parent_zone src tmp rel v w : plain_dir tmp -> plain_names rel -> zone src tmp v w ->
  (ensure_parent (path_app tmp rel) w).1 = (ensure_parent (path_app tmp rel) v).1 /\
  zone src tmp (ensure_parent (path_app tmp rel) v).2 (ensure_parent (path_app tmp rel) w).2.
Proof.
  intros Ht Hr Hz. apply ensure_parent_same; [done|..].
  - intros d Hd. right. by eapply parent_near.
  - right. by apply parent_within.
Qed.

Lemma encrypt_item_zone src tmp rel v w : plain_dir src -> plain_dir tmp -> plain_names rel ->
  zone src tmp v w ->
  (encrypt_item src tmp (path_app src rel) w).1 = (encrypt_item src tmp (path_app src rel) v).1 /\
  zone src tmp (encrypt_item src tmp (path_app src rel) v).2 (encrypt_item src tmp (path_app src rel) w).2.
Proof.
  intros Hs Ht Hr Hz. unfold encrypt_item, is_regular_file.
  rewrite (kept_below src v w rel Hs (zone_src _ _ _ _ Hz) Hr). case_bool_decide; [|done].
  rewrite relative_path_app by done. fold (enc_target tmp rel). rewrite enc_target_app by done.
  destruct (ensure_parent_zone src tmp (rel +:+ kEncSuffix) v w) as [E Hz']; [done|by apply dec_name_enc|done|].
  unfold mbind, st_bind. destruct (ensure_parent _ w) as [r w'], (ensure_parent _ v) as [r' v']. cbn in E, Hz'.
  subst r'. by destruct r as [[]|e|u].
Qed.

(** The encrypted tree that is left in [tmp]. *)
Record sealed_in (names : world) (src : string) (key : bytes) (tmp : string) (w : world) : Prop := {
  si_sealed : sealed names src key w tmp;
  si_dir : is_directory tmp w = true;
  si_file : is_regular_file tmp w = false
}.

Lemma sealed_kept src tmp key w0 w w1 w1' : plain_dir src -> plain_dir tmp ->
  zone_kept src w0 w -> zone_kept tmp w1 w1' -> sealed_in w src key tmp w1 -> sealed_in w0 src key tmp w1'.
Proof.
  intros Hs Ht Ks Kt [[Hc Hf] Hd Hn]. destruct (kept_self tmp w1 w1' Ht Kt) as [Ed Ef].
  split; [split|by rewrite Ed|by rewrite Ef].
  - intros rel c Hr Hv. rewrite (kept_below tmp w1 w1') by (done || by apply dec_name_enc).
    apply Hc; [done|]. by rewrite (kept_below src w0 w).
  - intros r [Hr Hv]. destruct (Hf r) as (rel & [Hrel Hv'] & ->).
    { split; [done|]. by rewrite <- (kept_below tmp w1 w1'). }
    exists rel. split; [|done]. split; [done|]. by rewrite <- (kept_below src w0 w).
Qed.

(** The tree that a walk alone makes is sealed. *)
Lemma made_sealed src tmp key w v : sealable w src tmp key ->
  only_targets w (targets_of w src (enc_target tmp)) v -> tree_made (enc_target tmp) (encrypts key) src w v ->
  sealed_in w src key tmp v.
Proof.
  intros [He Hex Hempty] O C. pose proof (enc_dest _ _ _ _ _ He) as Ht.
  destruct (tree_sealed src tmp key w v) as (Hsl & Hd & Hf); [done|done| | |done|done|].
  - apply Hempty, within_spec; [done|by left].
  - intros rel Hr. by apply Hempty, within_below.
  - split; [done|done|by apply no_file].
Qed.

(** [EncryptToDir] among others, for every schedule of its own tasks. *)
Lemma EncryptToDir_rely schedule src tmp key (w : world) : sealable w src tmp key ->
  wp_rely (spared_files src tmp) (EncryptToDir schedule src tmp key)
    (fun r w' => r = Ok tt /\ sealed_in w src key tmp w') w.
Proof.
  intros Hsl. pose proof Hsl as [[Hs Ht _ Hdir Hno _ _ _ _ _] _ _]. apply no_file in Hno. unfold EncryptToDir.
  assert (forall w', spared_files src tmp w w' ->
            is_directory src w' = true /\ is_regular_file src w' = false) as Hsrc.
  { intros w' [Ks _ _]. destruct (kept_self src w w' Hs Ks) as [-> ->]. done. }
  apply wp_rely_look. intros w1 R1. destruct (Hsrc w1 R1) as [D1 F1]. unfold path_exists. rewrite D1, orb_true_r, now_enforce.
  apply wp_rely_look. intros w2 R2. assert (spared_files src tmp w w2) as R02 by (by etrans).
  destruct (Hsrc w2 R02) as [_ F2]. rewrite F2.
  apply wp_rely_look. intros w3 R3. assert (spared_files src tmp w w3) as R03 by (by etrans).
  destruct (Hsrc w3 R03) as [D3 _]. rewrite D3.
  apply wp_rely_look. intros w4 R4. assert (spared_files src tmp w w4) as R04 by (by etrans).
  pose proof (sealable_spared src tmp key w w4 Hsl R04) as Hsl4.
  pose proof (walk_tree_rely _ _ _ _ _ _ _ (encrypt_walk src tmp key w4 _ (sl_encryptable _ _ _ _ Hsl4))
    (zone_files src tmp) (zone_dirs src tmp) (spared_files src tmp) schedule) as Hwalk.
  eapply wp_rely_weaken; [|apply Hwalk].
  - intros r w' (-> & v & Hz & O & C). split; [done|].
    apply (sealed_kept src tmp key w w4 v w'); [done|done|apply R04|by eapply zone_tmp|]. by apply made_sealed.
  - intros rel [Hr _]. rewrite enc_target_app by done.
    destruct (dec_name_enc rel Hr) as (Hr' & _ & _).
    split; [left; by apply within_near, within_below|]. split; [right; by apply within_near, within_below|].
    split; right; [by apply parent_within|by apply within_below].
  - intros rel v w' Hr. by apply encrypt_item_zone.
  - apply spared_zone.
Qed.
End EncryptRely.

(** ** The service *)

Section Service.
Context `{Fmt} `{Absl} `{Hashes} `{Cppcodec} `{Base64Url} `{Base32} `{OpensslX509} `{Brpc}.
Context `{ProtoJson DcapReport} `{ProtoJson IntelTdxReport} `{ProtoJson SgxQlQveCollateral}
        `{ProtoJson HygonCsvReport} `{ProtoJson HygonCsvCertChain}.
Context `{ProtoJson JweHeader} `{ProtoJson JwsHeader} `{ProtoJson Jws}.
Context `{ProtoJson GetDataKeysRequest} `{ProtoJson GetDataKeysResponse}
        `{ProtoJson CreateResultDataKeyRequest}.
Context `{ProtoWire ResourceRequest} `{ProtoWire ResultDataKeyBody}.
Context `{Host} `{!CapsuleManagerStub} `{RaL : RandLaws} `{!Keys} `{ReportDataSizes} `{HygonLayout}.
Context `{FL : FileIOLaws} `{BvL : ByteViewLaws} `{GL : GcmLaws} `{WL : DirWalkLaws}
        `{!Oss} `{!OssLaws}.

(** What a call that puts the tree under [src] into the store by way of [tmp]
    relies on: others leave both directories and its objects alone. *)
Record spared_oss (src tmp : string) (s3 : S3Config) (w w' : oworld) : Prop := {
  so_files : spared_files src tmp w.(o_files) w'.(o_files);
  so_objects : forall k, String.prefix s3.(s3_path) k = true ->
    objects w'.(o_cloud) s3.(s3_bucket) !! k = objects w.(o_cloud) s3.(s3_bucket) !! k
}.

Definition spared (src tmp : string) (s3 : S3Config) (w w' : pworld) : Prop :=
  spared_oss src tmp s3 (oss_of w) (oss_of w').

#[export] Instance spared_oss_preorder src tmp s3 : PreOrder (spared_oss src tmp s3).
Proof.
  split; [by split|]. intros w1 w2 w3 [F1 O1] [F2 O2]. split; [by etrans|]. intros k Hk. by rewrite O2, O1.
Qed.

#[export] Instance spared_preorder src tmp s3 : PreOrder (spared src tmp s3).
Proof. split; unfold spared; [by intros w|]. intros w1 w2 w3 R1 R2. by etrans. Qed.

(** A call that works elsewhere.  (A download is none: it may write outside its
    destination.) *)
Definition works_at (src tmp d : string) : Prop := plain_dir d /\ apart src d /\ apart tmp d.

Definition other_objects (s3 s3' : S3Config) : Prop :=
  s3'.(s3_bucket) <> s3.(s3_bucket) \/
  forall x, String.prefix s3.(s3_path) (path_app s3'.(s3_path) x) = false.

Definition plain_source (p : string) : Prop := plain_dir p /\ plain_names (filename p).

Definition harmless (src tmp : string) (s3 : S3Config) (c : service_call) : Prop :=
  match c with
  | CallPut _ request =>
      plain_source request.(pr_source_path) /\
      match request.(pr_s3_config), request.(pr_local_fs_path) with
      | Some s3', _ => works_at src tmp (GenTempDir request.(pr_source_path)) /\ other_objects s3 s3'
      | None, Some path => works_at src tmp path
      | None, None => True
      end
  | CallGet _ request =>
      match request.(gi_s3_config), request.(gi_local_fs_path) with
      | Some _, _ => False
      | None, Some path => plain_source path /\ works_at src tmp request.(gi_dest_path)
      | None, None => True
      end
  end.

Lemma changes_zone z d (w w' : world) : plain_dir z -> plain_dir d -> apart z d ->
  changes_near d w w' -> zone_kept z w w'.
Proof.
  intros Hz Hd Ha [Hf Hdirs]. split.
  - intros p Hp. by apply Hf, (near_apart z d).
  - intros p Hp. apply Hdirs. intros Hn. apply (near_apart d z p) in Hn; [congruence|done|by apply apart_sym].
Qed.

Section Others.
Variable src tmp : string.
Variable s3 : S3Config.
Hypothesis Hsrc : plain_dir src.
Hypothesis Htmp : plain_dir tmp.

Lemma on_host_spared {A} (m : st host_state A) (w : pworld) : spared src tmp s3 w (on_host m w).2.
Proof.
  unfold on_host. destruct (m _) as [r h]. split; [|done]. split; [by split|by split|]. intros Hc. exact Hc.
Qed.

Lemma elsewhere_spared d (w : pworld) (w' : world) : works_at src tmp d ->
  changes_near d (files_of w) w' /\ stays_closed (files_of w) w' -> spared src tmp s3 w (with_files w' w).
Proof.
  intros (Hd & Hs & Ht) [Hn Hc]. split; [|done]. unfold oss_of. cbn [o_files]. rewrite files_of_with_files.
  split; [by apply (changes_zone src d)|by apply (changes_zone tmp d)|done].
Qed.

Lemma in_files_of_spared {A} (p : prog world A) d : works_at src tmp d ->
  all_guarantee (changes_near d) p -> all_guarantee stays_closed p ->
  all_guarantee (spared src tmp s3) (in_files_of p).
Proof.
  intros Hw Hn Hc. eapply guarantees_lift; [|by apply (guarantees_and (changes_near d) stays_closed)].
  intros w w'. by apply elsewhere_spared.
Qed.

Lemma remove_all_spared d (w : pworld) : works_at src tmp d ->
  spared src tmp s3 w (on_files (remove_all d) w).2.
Proof.
  intros Hw. rewrite (on_files_run _ _ _ _ (remove_all_run d (files_of w))).
  apply (elsewhere_spared d w _ Hw). split; [by apply remove_all_near, Hw|exact (cleared_closed d (files_of w))].
Qed.

Lemma upload_spared endpoint bucket from dest ak sk sts :
  other_objects s3 (mk_s3_config endpoint bucket dest ak sk sts) ->
  all_guarantee (spared src tmp s3) (in_oss (UploadToOss endpoint bucket from dest ak sk sts)).
Proof.
  intros Ho. eapply guarantees_lift; [|apply UploadToOss_guarantee]. intros w o [Hf Hc].
  unfold spared. rewrite oss_of_with_oss. split; [by rewrite Hf|]. intros k Hk. apply Hc.
  destruct Ho as [Hb|Hp]; [left; by apply not_eq_sym|right]. intros x ->. cbn in Hp. by rewrite Hp in Hk.
Qed.

Lemma on_host_guarantee {A} (m : st host_state A) : all_guarantee (spared src tmp s3) (op (on_host m)).
Proof. apply all_guarantee_op. intros w. apply on_host_spared. Qed.

#[local] Hint Resolve on_host_guarantee all_guarantee_ret upload_spared EncryptToDir_closed
  DecryptToDir_closed EncryptToDir_near DecryptToDir_near : trustflow.
#[local] Hint Extern 1 (all_guarantee _ (now _)) => apply all_guarantee_ret : trustflow.

Lemma register_key_guarantees b self config key :
  all_guarantee (spared src tmp s3) (register_key b self config key).
Proof.
  unfold register_key. destruct (negb _); [|done].
  repeat first [apply all_guarantee_bind; [|intros ?]]; auto with trustflow.
Qed.

(** Every operation of a harmless call leaves the other's things alone. *)
Lemma harmless_guarantees b self c : harmless src tmp s3 c ->
  all_guarantee (spared src tmp s3) (body_of b self c).
Proof.
  destruct c as [schedule request|schedule request]; cbn [harmless body_of].
  - intros Hh. unfold input_data, input_data_key, fetch_input. apply all_guarantee_bind.
    { repeat case_match; repeat first [apply all_guarantee_bind; [|intros ?]]; auto with trustflow. }
    intros key. destruct (gi_s3_config request); [done|]. destruct (gi_local_fs_path request); [|done].
    destruct Hh as [[Hp Hn] Hw]. pose proof Hw as (Hd & _).
    apply (in_files_of_spared _ request.(gi_dest_path)); auto with trustflow.
  - intros [[Hp Hn] Hh]. unfold result_data, result_data_key, store_result.
    apply all_guarantee_bind; [destruct (String.eqb _ _); auto with trustflow|]. intros key.
    apply all_guarantee_bind; [|intros []; apply register_key_guarantees].
    destruct (pr_s3_config request) as [s3'|].
    + destruct Hh as [Hw Ho]. pose proof Hw as (Hd & _).
      apply all_guarantee_bind; [eapply in_files_of_spared; eauto with trustflow|]. intros [].
      apply all_guarantee_bind; [apply upload_spared; by destruct s3'|]. intros [].
      apply all_guarantee_op. intros w. by apply remove_all_spared.
    + destruct (pr_local_fs_path request); [|done]. pose proof Hh as (Hd & _).
      eapply in_files_of_spared; eauto with trustflow.
Qed.

(** A call among harmless ones does what it does while others keep to [spared]. *)
Lemma serving_rely b self calls (w : pworld) s i c Q :
  calls !! i = Some c -> wp_rely (spared src tmp s3) (body_of b self c) Q w ->
  (forall j c, j <> i -> calls !! j = Some c -> harmless src tmp s3 c) ->
  rtc pool_step (serving b self calls, w) s ->
  exists p, s.1 !! i = Some (c, p) /\ forall r, p = Ret r -> Q r s.2.
Proof.
  intros Hi Hw Hoth Hr.
  destruct (pool_rely (spared src tmp s3) Q _ _ i c (body_of b self c) Hr) as (p & Hp & HQ).
  - cbn [fst]. unfold serving. by rewrite list_lookup_fmap, Hi.
  - exact Hw.
  - intros j c' q Hne. unfold serving. cbn. rewrite list_lookup_fmap. destruct (calls !! j) as [c0|] eqn:Ej; [|done].
    intros E. injection E as <- <-. apply harmless_guarantees. by eapply Hoth.
  - exists p. split; [done|]. intros r ->. by apply (HQ s.2).
Qed.
End Others.

(** ** A result among harmless calls *)

Lemma uploadable_sealable w src tmp s3 key : uploadable w src tmp s3 key -> sealable (files_of w) src tmp key.
Proof. intros [He Hex _ Htmp _ _ _ _]. by split. Qed.

Lemma capsule_kept z1 z2 src s3 key names w w' : plain_dir s3.(s3_path) -> spared z1 z2 s3 w w' ->
  capsule w.(p_cloud) s3 key names src -> capsule w'.(p_cloud) s3 key names src.
Proof.
  intros Hp [_ Ko] (w1 & tmp1 & Ht1 & Hsl & Hm1 & Hm2). cbn in Ko.
  exists w1, tmp1. split; [done|]. split; [done|]. split.
  - intros rel v Hr Hv. rewrite Ko; [by apply Hm1|]. rewrite path_app_plain by done. apply prefix_app.
  - intros k [Hk Hpre]. apply Hm2. split; [|done]. by rewrite <- Ko.
Qed.

(** The source is in the store, and the temporary directory is gone. *)
Definition stored (names : world) (src tmp : string) (s3 : S3Config) (key : bytes) (w : pworld) : Prop :=
  capsule w.(p_cloud) s3 key names src /\ forall p, within tmp p = true -> w.(p_fs) !! p = None.

Lemma stored_spared names src tmp s3 key w w' : plain_dir s3.(s3_path) -> plain_dir tmp ->
  spared src tmp s3 w w' -> stored names src tmp s3 key w -> stored names src tmp s3 key w'.
Proof.
  intros Hp Ht Hsp [Hc He]. split; [by eapply capsule_kept|]. intros p Hin.
  destruct Hsp as [[_ [Kf _] _] _]. rewrite <- (He p Hin). by apply Kf, within_near.
Qed.

(** No object under the prefix. *)
Definition prefix_free (s3 : S3Config) (w : pworld) : Prop :=
  forall k, String.prefix s3.(s3_path) k = true -> objects w.(p_cloud) s3.(s3_bucket) !! k = None.

Lemma encrypt_part schedule src tmp s3 key w : uploadable w src tmp s3 key ->
  wp_rely (spared src tmp s3) (in_files_of (EncryptToDir schedule src tmp key))
    (fun r w' => (r = Ok tt /\ sealed_in (files_of w) src key tmp (files_of w')) /\ prefix_free s3 w') w.
Proof.
  intros Hup. pose proof Hup as [_ _ _ _ _ _ _ Hfree].
  apply (wp_rely_lift files_of with_files files_of_with_files (spared_files src tmp) (spared src tmp s3)
    (prefix_free s3) _ (fun r d => r = Ok tt /\ sealed_in (files_of w) src key tmp d)).
  - intros w1 w2 [Hf _]. exact Hf.
  - intros w1 w2 [_ Ko] Hf k Hk. cbn in Ko. rewrite Ko; auto.
  - done.
  - done.
  - by apply EncryptToDir_rely, (uploadable_sealable _ _ _ s3).
Qed.

Lemma upload_part src tmp s3 key names w : plain_dir tmp -> plain_dir s3.(s3_path) ->
  is_absolute s3.(s3_path) = false ->
  granted (GetOssClient s3.(s3_endpoint) s3.(s3_access_key_id) s3.(s3_access_key_secret)
             s3.(s3_sts_token)) s3.(s3_bucket) ->
  sealed_in names src key tmp (files_of w) -> prefix_free s3 w ->
  wp_rely (spared src tmp s3)
    (in_oss (UploadToOss s3.(s3_endpoint) s3.(s3_bucket) tmp s3.(s3_path) s3.(s3_access_key_id)
       s3.(s3_access_key_secret) s3.(s3_sts_token)))
    (fun r w' => r = Ok tt /\ capsule w'.(p_cloud) s3 key names src) w.
Proof.
  intros Ht Hp Habs Hg [Hsl Hd Hf] Hfree.
  pose proof (UploadToOss_rely (spared_oss src tmp s3)
    (GetOssClient s3.(s3_endpoint) s3.(s3_access_key_id) s3.(s3_access_key_secret) s3.(s3_sts_token))
    s3.(s3_bucket) tmp s3.(s3_path) (fun k => String.prefix s3.(s3_path) k = true) Hg Ht Hp Habs) as Hup.
  eapply wp_rely_weaken; [|apply (wp_rely_lift oss_of with_oss oss_of_with_oss (spared_oss src tmp s3)
    (spared src tmp s3) (fun _ => True)); [done|done|done|done|apply Hup; [..|done|done|done]]].
  - intros r w' [(-> & Ho & Hr) _]. split; [done|]. exists (files_of w), tmp. split; [done|]. split; [done|].
    by apply (upload_mirrors _ w.(p_cloud)).
  - intros w1 w2 rel [[_ Kt _] _] Hr. by apply kept_below.
  - intros w1 w2 [[_ Kt _] _] D1 F1. destruct (kept_self tmp _ _ Ht Kt) as [-> ->]. done.
  - intros w1 w2 k [_ Ko]. apply Ko.
  - intros rel Hr. rewrite path_app_plain by done. apply prefix_app.
Qed.

Lemma clear_part tmp (w : pworld) : plain_dir tmp ->
  exists w', on_files (remove_all tmp) w = (Ok tt, w') /\ w'.(p_cloud) = w.(p_cloud) /\
    forall p, within tmp p = true -> w'.(p_fs) !! p = None.
Proof.
  intros Ht. eexists. split; [by apply on_files_run, remove_all_run|]. split; [done|].
  intros p Hin. cbn. rewrite cleared_file by apply Ht. by rewrite Hin.
Qed.

Lemma store_result_rely schedule request key (w : pworld) s3 :
  let src := request.(pr_source_path) in
  let tmp := GenTempDir src in
  request.(pr_s3_config) = Some s3 -> uploadable w src tmp s3 key ->
  wp_rely (spared src tmp s3) (store_result schedule request key)
    (fun r w' => r = Ok tt /\ stored (files_of w) src tmp s3 key w') w.
Proof.
  intros src tmp Hs3 Hup. pose proof Hup as [[Hs Ht _ _ _ _ _ _ _ _] _ _ _ Hg Hp Habs _].
  unfold store_result. rewrite Hs3. fold src tmp. cbn zeta. apply wp_rely_bind; [apply _|].
  eapply wp_rely_weaken; [|by apply encrypt_part]. intros r w1 [[-> Hsl] Hfree].
  apply wp_rely_bind; [apply _|]. eapply wp_rely_weaken; [|by apply (upload_part src tmp s3 key (files_of w))].
  intros r w2 [-> Hcap]. apply wp_rely_last. intros w3 R3.
  destruct (clear_part tmp w3 Ht) as (w4 & E4 & C4 & N4). eexists tt, w4. split; [exact E4|].
  intros w5 R5. split; [done|]. apply (stored_spared _ _ _ _ _ w4); [done|done|done|]. split; [|done].
  rewrite C4. by apply (capsule_kept src tmp src s3 key _ w2).
Qed.

(** C4. A result that goes to the object store arrives whole among other calls.
    The source holds 1 to 100 files of 1 to 2^62 bytes, the temporary directory is
    empty, no object has the prefix and the request has a valid key.  However the
    operations of calls served at the same time are interleaved, when
    the others work in other directories, upload other objects and do not download
    from the store, a call of
    [PutResultData] that has ended has left under its key prefix exactly the files
    of the source, as they were when the calls began, each encrypted under the
    key of the request, and nothing in the temporary directory; and it has
    returned when no key is to be registered. *)
Theorem PutResultData_undisturbed b self calls (w : pworld) s i schedule request s3 key :
  let src := request.(pr_source_path) in
  let tmp := GenTempDir src in
  calls !! i = Some (CallPut schedule request) ->
  request.(pr_s3_config) = Some s3 -> request.(pr_data_key_b64) <> "" ->
  base64_decode request.(pr_data_key_b64) = inr key ->
  uploadable w src tmp s3 key ->
  (forall j c, j <> i -> calls !! j = Some c -> harmless src tmp s3 c) ->
  rtc pool_step (serving b self calls, w) s ->
  exists p, s.1 !! i = Some (CallPut schedule request, p) /\
    forall r, p = Ret r ->
      capsule s.2.(p_cloud) s3 key (files_of w) src /\
      (forall q, within tmp q = true -> s.2.(p_fs) !! q = None) /\
      (request.(pr_cm_result_config).(rr_resource_uri) = "" -> r = Ok tt).
Proof.
  intros src tmp Hi Hs3 Hk Hdec Hup Hoth Hr. pose proof Hup as [[Hs Ht _ _ _ _ _ _ _ _] _ _ _ _ Hp _ _].
  set (Q := fun (r : outcome unit) w' => stored (files_of w) src tmp s3 key w' /\
    (request.(pr_cm_result_config).(rr_resource_uri) = "" -> r = Ok tt)).
  destruct (serving_rely src tmp s3 Hs Ht b self calls w s i _ Q Hi) as (p & Hp' & HQ); [|done|done|].
  - cbn [body_of]. unfold result_data, result_data_key. rewrite (proj2 (String.eqb_neq _ _)), Hdec by done. cbn [call].
    rewrite (now_bind _ _ key) by done. apply wp_rely_bind; [apply _|].
    eapply wp_rely_weaken; [|by apply store_result_rely]. intros r w' [-> Hst].
    destruct (decide (request.(pr_cm_result_config).(rr_resource_uri) = "")) as [Hu|Hu].
    + unfold register_key. rewrite Hu. intros w1 R1. split; [by eapply stored_spared|done].
    + apply wp_rely_guaranteed; [apply _|apply register_key_guarantees|]. intros r w1 R1.
      split; [by eapply stored_spared|done].
  - exists p. split; [done|]. intros r Ep. by destruct (HQ r Ep) as [[Hc He] Hu].
Qed.
(** *** Other moments and other keys *)

Lemma file_count_kept z w w' : plain_dir z -> zone_kept z w w' -> (file_count w' z <= file_count w z)%nat.
Proof.
  intros Hz Hk. apply (file_count_le w w' z z id Hz Hz). intros r [Hr Hs]. exists r. split; [|done].
  split; [done|]. by rewrite <- (kept_below z w w').
Qed.

(** What a result needs is still there when others have worked elsewhere, *)
Lemma uploadable_spared w w' src tmp s3 key :
  uploadable w src tmp s3 key -> spared src tmp s3 w w' -> uploadable w' src tmp s3 key.
Proof.
  intros Hup [Kf Ko]. pose proof Hup as [He _ Hcount _ Hg Hp Habs Hfree].
  destruct (sealable_spared src tmp key (files_of w) (files_of w')) as [He' Hex' Htmp'];
    [by apply (uploadable_sealable _ _ _ s3)|exact Kf|].
  split; [done|done| |done|done|done|done|].
  - etrans; [|exact Hcount]. apply file_count_kept; [apply He|apply Kf].
  - intros k Hk. cbn in Ko. rewrite Ko; auto.
Qed.

(** and for every key of a size the cipher has. *)
Lemma uploadable_key w src tmp s3 key key' alg :
  alg_of_key key' = Some alg -> uploadable w src tmp s3 key -> uploadable w src tmp s3 key'.
Proof. intros Ha [[] ? ? ? ? ? ? ?]. split; [split|..]; eauto. Qed.

(** A capsule of the source at one moment is one of the source at another. *)
Lemma stored_names w w1 w2 src tmp s3 key : plain_dir src -> spared src tmp s3 w w1 ->
  stored (files_of w1) src tmp s3 key w2 -> stored (files_of w) src tmp s3 key w2.
Proof.
  intros Hs [[Ks _ _] _] [(d & t & Ht & [C F] & Hm) He]. split; [|done]. cbn in Ks.
  exists d, t. split; [done|]. split; [split|done].
  - intros rel c Hr Hc. apply C; [done|]. by rewrite (kept_below src (files_of w) (files_of w1)).
  - intros r Hr. destruct (F r Hr) as (rel & [Hrel Hsome] & ->). exists rel. split; [|done]. split; [done|].
    by rewrite <- (kept_below src (files_of w) (files_of w1)).
Qed.

(** The key of a result: that of the request, or 16 random bytes. *)
Definition key_for (request : PutResultDataRequest) (key : bytes) : Prop :=
  if String.eqb request.(pr_data_key_b64) "" then length key = 16%nat
  else base64_decode request.(pr_data_key_b64) = inr key.

Lemma result_data_key_rely request key0 (w : pworld) s3 :
  let src := request.(pr_source_path) in
  let tmp := GenTempDir src in
  uploadable w src tmp s3 key0 ->
  (request.(pr_data_key_b64) <> "" -> base64_decode request.(pr_data_key_b64) = inr key0) ->
  wp_rely (spared src tmp s3) (result_data_key request)
    (fun r w' => exists key, r = Ok key /\ key_for request key /\ spared src tmp s3 w w' /\
       uploadable w' src tmp s3 key) w.
Proof.
  intros src tmp Hup Hk. unfold result_data_key, key_for. destruct (String.eqb_spec request.(pr_data_key_b64) "") as [E|E].
  - apply wp_rely_last. intros w1 R1.
    pose proof (length_RandBytes (Z.to_nat kKeyBytes) false w1.(p_host).(h_rng)) as Hlen.
    pose proof (on_host_spared src tmp s3 (CapsuleManagerClient.with_rng (rand_bytes kKeyBytes)) w1) as Rh.
    unfold on_host, CapsuleManagerClient.with_rng, rand_bytes in *.
    destruct (RandBytes _ _ _) as [key g]. cbn in Hlen, Rh. eexists key, _. split; [done|]. intros w3 R3.
    assert (spared src tmp s3 w w3) as R by (etrans; [exact R1|]; by etrans).
    exists key. split; [done|]. split; [done|]. split; [done|].
    apply (uploadable_key _ _ _ _ key0 key Aes128Gcm); [|by eapply uploadable_spared].
    unfold alg_of_key. by rewrite decide_True.
  - rewrite (Hk E). cbn [call]. intros w1 R1. exists key0. split; [done|]. split; [done|]. split; [done|].
    by eapply uploadable_spared.
Qed.

(** The encrypted result is in the store before its key is registered. *)
Lemma result_data_rely b schedule self request key0 (w : pworld) s3 (P : bytes -> Prop) :
  let src := request.(pr_source_path) in
  let tmp := GenTempDir src in
  request.(pr_s3_config) = Some s3 -> uploadable w src tmp s3 key0 ->
  (request.(pr_data_key_b64) <> "" -> base64_decode request.(pr_data_key_b64) = inr key0) ->
  (forall key, guarantees (spared src tmp s3) (register_key b self request.(pr_cm_result_config) key) (fun _ => P key)) ->
  wp_rely (spared src tmp s3) (result_data b schedule self request)
    (fun r w' => exists key, key_for request key /\ stored (files_of w) src tmp s3 key w' /\ (r = Ok tt -> P key)) w.
Proof.
  intros src tmp Hs3 Hup Hk HP. pose proof Hup as [[Hs Ht _ _ _ _ _ _ _ _] _ _ _ _ Hp _ _].
  unfold result_data. apply wp_rely_bind; [apply _|].
  eapply wp_rely_weaken; [|by apply (result_data_key_rely request key0 w s3)].
  intros r w1 (key & -> & Hkey & R1 & Hup1). apply wp_rely_bind; [apply _|].
  eapply wp_rely_weaken; [|by apply (store_result_rely schedule request key w1 s3)]. intros r w2 [-> Hst].
  eapply wp_rely_weaken; [|apply (wp_rely_returns (spared src tmp s3) (stored (files_of w) src tmp s3 key) _ (fun _ => P key)); [apply HP|..]].
  - intros r w3 [Hst3 Hr]. exists key. split; [done|]. split; [done|]. by intros ->.
  - intros w3 w4 Hst3 R3. by eapply stored_spared.
  - by eapply stored_names.
Qed.
End Service.

(** ** Keys of results *)

Section Registration.
Context `{Fmt} `{Absl} `{Hashes} `{CL : CppcodecLaws} `{UL : Base64UrlLaws} `{Base32} `{OpensslX509} `{Brpc}.
Context `{ProtoJson DcapReport} `{ProtoJson IntelTdxReport} `{ProtoJson SgxQlQveCollateral}
        `{ProtoJson HygonCsvReport} `{ProtoJson HygonCsvCertChain}.
Context `{JH : ProtoJsonLaws JweHeader} `{JSH : ProtoJsonLaws JwsHeader} `{JS : ProtoJsonLaws Jws}.
Context `{JK : ProtoJsonLaws GetDataKeysRequest} `{ProtoJson GetDataKeysResponse}
        `{JR : ProtoJsonLaws CreateResultDataKeyRequest}.
Context `{ProtoWire ResourceRequest} `{ProtoWire ResultDataKeyBody}.
Context `{Host} `{!CapsuleManagerStub} `{RaL : RandLaws} `{!Keys} {KL : KeysLaws}
        `{ReportDataSizes} `{HygonLayout}.
Context `{FL : FileIOLaws} `{BvL : ByteViewLaws} `{GL : GcmLaws} `{WL : DirWalkLaws}
        `{!Oss} `{!OssLaws}.

(** The capsule manager has answered OK to a signed envelope that its key opens to
    a registration of [key], in base64, for the resource of the configuration. *)
Definition registered (b : build_flags) (self : DataCapsuleProxyImpl) (config : CmResultConfig)
    (key : bytes) : Prop :=
  let body := mk_result_key_body config.(rr_scope) config.(rr_resource_uri) (base64_encode key)
                config.(rr_ancestor_uuids) in
  exists client report enc_res (h h' : host_state),
    CapsuleManagerClient.New (endpoint_or config.(rr_endpoint) self) h = (Ok client, h') /\
    report_for b self.(dp_plat) (SerializeToString body) report /\
    delivered client stub_CreateResultDataKey (mk_result_key_request report body)
      self.(dp_private_key) self.(dp_cert) enc_res /\
    enc_res.(response_status).(sf_code) = Code_OK.

Lemma register_key_registers src tmp s3 b self config key : config.(rr_resource_uri) <> "" ->
  guarantees (spared src tmp s3) (register_key b self config key) (fun _ => registered b self config key).
Proof.
  intros Huri. unfold register_key. rewrite (proj2 (String.eqb_neq _ _)) by done. cbn [negb].
  apply guarantees_op; [intros w; apply on_host_spared|]. intros w client w' [h' Hnew]%on_host_Ok.
  do 3 (apply guarantees_now; intros _). intros w1. split; [apply on_host_spared|].
  intros [] w1' [h1' Hc]%on_host_Ok. apply CreateResultDataKey_exchange in Hc as (report & enc_res & Hr & Hd & Hok).
  by exists client, report, enc_res, w.(p_host), h'.
Qed.

(** C10. No result without its key.  However the operations of calls served at the
    same time are interleaved, when the others are harmless and the source, the
    temporary directory and the prefix are as [uploadable] asks, a call of
    [PutResultData] with a resource, whose result goes to the object store, ends
    with one key, that of the request or 16 random bytes: the files under its
    prefix are exactly those of the source, each encrypted under that key, and if
    the call has returned, the capsule manager has answered OK to a registration
    of this very key for the resource. *)
Theorem PutResultData_registers b self calls (w : pworld) s i schedule request s3 key0 :
  let src := request.(pr_source_path) in
  let tmp := GenTempDir src in
  let config := request.(pr_cm_result_config) in
  calls !! i = Some (CallPut schedule request) ->
  request.(pr_s3_config) = Some s3 -> config.(rr_resource_uri) <> "" ->
  (request.(pr_data_key_b64) <> "" -> base64_decode request.(pr_data_key_b64) = inr key0) ->
  uploadable w src tmp s3 key0 ->
  (forall j c, j <> i -> calls !! j = Some c -> harmless src tmp s3 c) ->
  rtc pool_step (serving b self calls, w) s ->
  exists p, s.1 !! i = Some (CallPut schedule request, p) /\
    forall r, p = Ret r ->
      exists key, key_for request key /\ capsule s.2.(p_cloud) s3 key (files_of w) src /\
        (r = Ok tt -> registered b self config key).
Proof.
  intros src tmp config Hi Hs3 Huri Hk Hup Hoth Hr. pose proof Hup as [[Hs Ht _ _ _ _ _ _ _ _] _ _ _ _ _ _ _].
  destruct (serving_rely src tmp s3 Hs Ht b self calls w s i _ _ Hi
    (result_data_rely b schedule self request key0 w s3 (registered b self config) Hs3 Hup Hk
       (fun key => register_key_registers src tmp s3 b self config key Huri)) Hoth Hr) as (p & Hp & HQ).
  exists p. split; [done|]. intros r Ep. destruct (HQ r Ep) as (key & Hkey & [Hc _] & Hreg). by exists key.
Qed.
End Registration.

(** ** Witness *)

Module ConcurrentWitness.
Import TreeWitness ProxyWitness.
#[local] Existing Instances sample_fmt sample_absl sample_hashes sample_cppcodec sample_cppcodec_laws
  sample_b64url sample_b64url_laws sample_rand sample_rand_laws sample_keys sample_keys_laws sample_x509 sample_gcm sample_gcm_laws sample_report_data sample_hygon
  sample_brpc sample_fileio sample_fileio_laws sample_byteview sample_byteview_laws sample_walk
  sample_walk_laws sample_oss sample_oss_laws.
#[local] Existing Instances ProxyWitness.host ProxyWitness.base32 ProxyWitness.wire ProxyWitness.j1
  ProxyWitness.j2 ProxyWitness.j3 ProxyWitness.j4 ProxyWitness.j5 ProxyWitness.j6 ProxyWitness.stub.
#[local] Existing Instances ProxyWitness.j1_laws ProxyWitness.j2_laws ProxyWitness.j3_laws
  ProxyWitness.j4_laws ProxyWitness.j6_laws.
#[local] Existing Instance ProxyWitness.j_none | 100.

(** The same tree goes to the store, to a directory, and is copied to another. *)
Definition get_copy : GetInputDataRequest := mk_get_input (Some data_key_text) None None (Some "/s") "/d".
Definition three : list service_call :=
  [CallPut [Visit; Run 0] put_local; CallPut [] put_s3; CallGet [] get_copy].
Definition served : list (service_call * prog pworld unit) * pworld :=
  foldl pool_run (serving flags self three, w1) (concat (replicate 80 [1; 0; 2]%nat)).

Lemma three_harmless j c : j <> 1%nat -> three !! j = Some c -> harmless "/s" tmp_s s3 c.
Proof.
  assert (apart "/s" "/t" /\ apart tmp_s "/t" /\ apart "/s" "/d" /\ apart tmp_s "/d") as (A1 & A2 & A3 & A4).
  { repeat split; intros r t; unfold tmp_s; string_app; discriminate. }
  assert (plain_source "/s") as Hs by (by apply (bool_decide_unpack _); vm_compute).
  destruct j as [|[|[|j]]]; [|done| |done]; intros _ E; injection E as <-; (split; [done|]);
    by split; [|split].
Qed.

Lemma PutResultData_undisturbed_witness :
  capsule served.2.(p_cloud) s3 key (files_of w1) "/s" /\
  served.1 !! 1%nat = Some (CallPut [] put_s3, Ret (Ok tt)).
Proof.
  destruct (PutResultData_undisturbed flags self three w1 served 1 [] put_s3 s3 key)
    as (p & Hp & Hend).
  - done.
  - done.
  - done.
  - by vm_compute.
  - exact w1_uploadable.
  - exact three_harmless.
  - apply pool_schedule.
  - assert (served.1 !! 1%nat = Some (CallPut [] put_s3, Ret (Ok tt))) as E by (by vm_compute).
    rewrite E in Hp. injection Hp as <-. split; [|done]. by apply (Hend (Ok tt)).
Defined.

(** The result goes to the store under a fresh key, which is registered. *)
Definition put_fresh : PutResultDataRequest := mk_put_result "/s" "" (Some s3) None result.
Definition three_fresh : list service_call :=
  [CallPut [Visit; Run 0] put_local; CallPut [] put_fresh; CallGet [] get_copy].
Definition served_fresh : list (service_call * prog pworld unit) * pworld :=
  foldl pool_run (serving flags self three_fresh, w1) (concat (replicate 80 [1; 0; 2]%nat)).

Lemma fresh_harmless j c : j <> 1%nat -> three_fresh !! j = Some c -> harmless "/s" tmp_s s3 c.
Proof.
  intros Hj Hc. apply (three_harmless j c Hj). destruct j as [|[|j]]; [exact Hc|done|exact Hc].
Qed.

Lemma PutResultData_registers_witness : exists k,
  length k = 16%nat /\ capsule served_fresh.2.(p_cloud) s3 k (files_of w1) "/s" /\ registered flags self result k.
Proof.
  destruct (PutResultData_registers flags self three_fresh w1 served_fresh 1 [] put_fresh s3 key)
    as (p & Hp & Hend).
  - done.
  - done.
  - done.
  - done.
  - exact w1_uploadable.
  - exact fresh_harmless.
  - apply pool_schedule.
  - assert (served_fresh.1 !! 1%nat = Some (CallPut [] put_fresh, Ret (Ok tt))) as E by (by vm_compute).
    rewrite E in Hp. injection Hp as <-. destruct (Hend (Ok tt) eq_refl) as (k & Hk & Hc & Hr).
    exists k. split; [exact Hk|]. split; [exact Hc|by apply Hr].
Defined.
End ConcurrentWitness.
