(* ===== verification/ConcurrentInput.v ===== *)
(** * Inputs that arrive among other calls

    The counterpart of [Concurrent] for [GetInputData]: a capsule is fetched from
    the object store and decrypted while other calls work elsewhere. *)

From S2P Require Import Prelude CppStd External Common Samples Verifier Dcap Sgx2Verifier TdxVerifier Hygon CsvVerifier VerifierWrapper Path YaclCrypto Tasks Host IntelGenerator CsvGenerator GeneratorWrapper ProxyCommon RaProxy CryptoFile Footprint Jose Envelope CapsuleManagerClient Directory Tree OssClient DataCapsuleProxy Concurrent.

(** ** What does not change when a directory is left alone *)

Section Kept.
Context `{FileIO} `{Rand}.

(** Room for files in directories that are left alone. *)
Lemma room_kept (w w' : world) targets files :
  (forall t, targets t -> exists z rel, plain_dir z /\ plain_names rel /\ zone_kept z w w' /\ t = path_app z rel) ->
  room w targets files -> room w' targets files.
Proof.
  intros Hz Hroom t Ht. destruct (Hroom t Ht) as (Hwr & Hpar & Hnd & Hl).
  destruct (Hz t Ht) as (z & rel & Hp & Hr & [Kf Kd] & ->). split; [done|]. split; [done|]. split.
  - intros Hin. apply Hnd, Kd; [by apply within_below|done].
  - intros d Hd. destruct (Hl d Hd) as [Hno Hf]. split; [|done]. rewrite Kf; [done|]. by eapply parent_near.
Qed.

(** Clearing a directory on both sides. *)
Lemma zone_kept_cleared z p (w w' : world) : p <> "" -> zone_kept z w w' ->
  zone_kept z (cleared p w) (cleared p w').
Proof.
  intros Hp [Kf Kd]. split.
  - intros k Hk. rewrite !cleared_file by done. destruct (within p k); [done|by apply Kf].
  - intros d Hd. rewrite !cleared_dir by done. by rewrite Kd.
Qed.
End Kept.

(** ** Decrypting a tree while others work elsewhere *)

Section DecryptRely.
Context `{FL : FileIOLaws} `{RaL : RandLaws} `{BvL : ByteViewLaws} `{GL : GcmLaws} `{WL : DirWalkLaws}.

Abbreviation zone src dst := (same_zone (zone_files src dst) (zone_dirs src dst)).

(** Copying a file looks at the two directories only. *)
Lemma copy_file_zone src dst rel v w : plain_dir src -> plain_dir dst -> plain_names rel -> zone src dst v w ->
  let copy := copy_file (path_app src rel) (path_app dst rel) in
  (copy w).1 = (copy v).1 /\ zone src dst (copy v).2 (copy w).2.
Proof.
  intros Hs Hd Hr Hz copy. pose proof Hz as [Hf Hdirs]. unfold copy, copy_file.
  assert (is_directory (path_app dst rel) w = is_directory (path_app dst rel) v) as ->.
  { apply bool_decide_ext, Hdirs. right. by apply within_below. }
  rewrite (kept_below src v w rel Hs (zone_src _ _ _ _ Hz) Hr).
  destruct (fs_of v !! path_app src rel) as [c|]; [|done]. set (to := if is_directory _ _ then _ else _).
  assert (exists r, plain_names r /\ to = path_app dst r) as (r & Hr' & Et).
  { unfold to. rewrite filename_app_plain by done. destruct (is_directory _ _); [|by exists rel].
    destruct (path_app_filename dst rel Hd Hr) as [Hp ->]. by eexists. }
  assert (bool_decide (in_place w.(w_dirs) to) = bool_decide (in_place v.(w_dirs) to)) as ->.
  { apply bool_decide_ext. unfold in_place.
    by rewrite !Hdirs by (right; rewrite Et; (by apply parent_within) || by apply within_below). }
  destruct (_ || _); [done|]. split; [done|]. split; [|done]. intros k Hk. cbn.
  destruct (decide (k = to)) as [->|Hne]; [by rewrite !lookup_insert_eq|].
  rewrite !lookup_insert_ne by done. by apply Hf.
Qed.

Lemma decrypt_item_zone src dst rel v w : plain_dir src -> plain_dir dst -> plain_names rel ->
  zone src dst v w ->
  (decrypt_item src dst (path_app src rel) w).1 = (decrypt_item src dst (path_app src rel) v).1 /\
  zone src dst (decrypt_item src dst (path_app src rel) v).2 (decrypt_item src dst (path_app src rel) w).2.
Proof.
  intros Hs Hd Hr Hz. unfold decrypt_item, is_regular_file.
  rewrite (kept_below src v w rel Hs (zone_src _ _ _ _ Hz) Hr). case_bool_decide; [|done].
  rewrite relative_path_app by done. destruct (ensure_parent_zone src dst rel v w) as [E Hz']; [done..|].
  unfold mbind, st_bind. destruct (ensure_parent _ w) as [r w'], (ensure_parent _ v) as [r' v'].
  cbn in E, Hz'. subst r'. destruct r as [[]|e|u]; [|done|done]. destruct (String.eqb _ _); [done|].
  destruct (copy_file_zone src dst rel v' w') as [Ec Hc]; [done..|].
  destruct (copy_file _ _ w') as [r w''], (copy_file _ _ v') as [r' v'']. cbn in Ec, Hc. subst r'.
  by destruct r.
Qed.

(** A sealed tree in [tmp] and room for its files in [dst]. *)
Record openable (names : world) (src : string) (key : bytes) (tmp dst : string) (w : world) : Prop := {
  op_tmp : plain_dir tmp;
  op_dst : plain_dir dst;
  op_apart : apart tmp dst;
  op_sealed : sealed_in names src key tmp w;
  op_closed : dirs_closed w;
  op_room : room w (targets_of names src (path_app dst)) (targets_of names src (path_app dst))
}.

(** The others do not take it away. *)
Lemma openable_spared names src key tmp dst w w' : plain_dir src ->
  openable names src key tmp dst w -> spared_files tmp dst w w' -> openable names src key tmp dst w'.
Proof.
  intros Hs [Ht Hd Ha Hse Hcl Hroom] [Kt Kd Kc]. split; [done|done|done| |auto|].
  - by apply (sealed_kept src tmp key names names w w').
  - eapply room_kept; [|done]. intros t (rel & [Hr _] & ->). by exists dst, rel.
Qed.

(** [DecryptToDir] among others, for every schedule of its own tasks. *)
Lemma DecryptToDir_rely schedule names src tmp dst key (w : world) : plain_dir src ->
  openable names src key tmp dst w ->
  wp_rely (spared_files tmp dst) (DecryptToDir schedule tmp dst key)
    (fun r w' => r = Ok tt /\ forall rel c, plain_names rel -> fs_of names !! path_app src rel = Some c ->
       fs_of w' !! path_app dst rel = Some c) w.
Proof.
  intros Hs Hop. unfold DecryptToDir.
  assert (forall w', openable names src key tmp dst w' ->
            is_directory tmp w' = true /\ is_regular_file tmp w' = false) as Htmp.
  { intros w' [_ _ _ [_ Hdir Hno] _ _]. done. }
  apply wp_rely_look. intros w1 R1. apply (openable_spared _ _ _ _ _ _ _ Hs Hop) in R1 as P1.
  destruct (Htmp w1 P1) as [D1 F1]. unfold path_exists. rewrite D1, orb_true_r, now_enforce.
  apply wp_rely_look. intros w2 R2. apply (openable_spared _ _ _ _ _ _ _ Hs P1) in R2 as P2.
  destruct (Htmp w2 P2) as [_ F2]. rewrite F2.
  apply wp_rely_look. intros w3 R3. apply (openable_spared _ _ _ _ _ _ _ Hs P2) in R3 as P3.
  destruct (Htmp w3 P3) as [D3 _]. rewrite D3.
  apply wp_rely_look. intros w4 R4. apply (openable_spared _ _ _ _ _ _ _ Hs P3) in R4 as P4.
  destruct P4 as [Ht Hd Ha [Hse Hdir Hno] Hcl Hroom].
  destruct (sealed_decryptable src tmp dst key names w4 (targets_of names src (path_app dst)))
    as [Hdec _]; [done..| |done|done|done|].
  { unfold is_regular_file in Hno. apply bool_decide_eq_false in Hno. by apply eq_None_not_Some. }
  pose proof (walk_tree_rely _ _ _ _ _ _ _ (decrypt_walk tmp dst key w4 _ Hdec)
    (zone_files tmp dst) (zone_dirs tmp dst) (spared_files tmp dst) schedule) as Hwalk.
  eapply wp_rely_weaken; [|apply Hwalk].
  - intros r w' (-> & v & Hz & _ & C). split; [done|]. intros rel c Hr Hc.
    rewrite (kept_below dst v w' rel Hd (zone_tmp _ _ _ _ Hz) Hr). by eapply sealed_made.
  - intros rel [Hr Hf]. split; [left; by apply within_near, within_below|].
    destruct (proj2 Hse rel) as (rel' & [Hr' _] & ->); [by split|]. rewrite dec_target_enc by done.
    split; [right; by apply within_near, within_below|]. split; right; [by apply parent_within|by apply within_below].
  - intros rel v w' Hr. by apply decrypt_item_zone.
  - apply spared_zone.
Qed.
End DecryptRely.

(** ** The service *)

Section Service.
Context `{Fmt} `{Absl} `{Hashes} `{Cppcodec} `{Base64Url} `{Base32} `{OpensslX509} `{Brpc}.
Context `{ProtoJson DcapReport} `{ProtoJson IntelTdxReport} `{ProtoJson SgxQlQveCollateral}
        `{ProtoJson HygonCsvReport} `{ProtoJson HygonCsvCertChain}.
Context `{ProtoJson JweHeader} `{ProtoJson JwsHeader} `{ProtoJson Jws}.
Context `{ProtoJson GetDataKeysRequest} `{ProtoJson GetDataKeysResponse}
        `{ProtoJson CreateResultDataKeyRequest}.
Context `{ProtoWire ResourceRequest} `{ProtoWire ResultDataKeyBody}.
Context `{Host} `{!CapsuleManagerStub} `{RaL : RandLaws} `{!Keys} `{ReportDataSizes} `{HygonLayout}.
Context `{FL : FileIOLaws} `{BvL : ByteViewLaws} `{GL : GcmLaws} `{WL : DirWalkLaws}
        `{!Oss} `{!OssLaws}.

(** The download of a capsule into the empty directory [tmp], with room for its
    files in [dst]. *)
Lemma download_rely names src tmp dst s3 key (w : oworld) :
  granted (GetOssClient s3.(s3_endpoint) s3.(s3_access_key_id) s3.(s3_access_key_secret)
             s3.(s3_sts_token)) s3.(s3_bucket) ->
  plain_dir src -> plain_dir s3.(s3_path) -> plain_dir tmp -> plain_dir dst -> apart tmp dst ->
  dirs_closed w.(o_files) -> capsule w.(o_cloud) s3 key names src -> (exists rel, file_of names src rel) ->
  (file_count names src <= 100)%nat ->
  let made p := targets_of names src (enc_target tmp) p \/ targets_of names src (path_app dst) p in
  room w.(o_files) made made -> (forall p, within tmp p = true -> fs_of w.(o_files) !! p = None) ->
  wp_rely (spared_oss tmp dst s3)
    (DownloadFromOss s3.(s3_endpoint) s3.(s3_bucket) s3.(s3_path) tmp s3.(s3_access_key_id)
       s3.(s3_access_key_secret) s3.(s3_sts_token))
    (fun r w' => r = Ok tt /\ openable names src key tmp dst w'.(o_files)) w.
Proof.
  intros Hg Hs Hp Ht Hd Ha Hcl (d1 & tmp1 & Ht1 & S1 & Hm) Hex Hcount made Hroom Hempty.
  pose proof (capsule_targets names d1 src tmp1 tmp key) as Htargets. pose proof Hex as [rel0 Hf0].
  eapply wp_rely_weaken; [|apply (wp_rely_kept _ oss_closed); [|apply DownloadFromOss_closed|exact Hcl|
    apply (mirror_rely (spared_oss tmp dst s3) (zone_files tmp dst) (zone_dirs tmp dst)
      (fun b k => b = s3.(s3_bucket) /\ String.prefix s3.(s3_path) k = true)
      s3.(s3_endpoint) s3.(s3_bucket) s3.(s3_path) tmp s3.(s3_access_key_id) s3.(s3_access_key_secret)
      s3.(s3_sts_token) w d1 tmp1)]].
  - intros r o [(-> & v & Hz & _ & O & C) Hc]. split; [done|].
    apply (only_targets_sub _ _ _ (targets_of names src (enc_target tmp))) in O;
      [|intros t Hin; by apply Htargets].
    destruct (capsule_sealed names w.(o_files) v d1 src tmp1 tmp key) as (Sv & Dv & Fv); [done..|].
    split; [done|done|done| |done|].
    + apply (sealed_kept src tmp key names names v); [done|done|done|by eapply zone_src|].
      split; [done|done|by apply no_file].
    + apply (room_kept v); [intros t (rel & [Hr _] & ->); exists dst, rel; by eapply zone_tmp in Hz|].
      assert (room v (targets_of names src (path_app dst)) made) as Hrv.
      { eapply (room_after w.(o_files)); [..|exact O]; [..|done];
          (eapply room_sub; [exact Hroom|cbn; intros t Hin; first [by left|by right]|done]). }
      eapply room_sub; [exact Hrv|done|]. by right.
  - intros w1 w2 [[_ _ Kc] _]. exact Kc.
  - done.
  - intros w1 w2 [Kf _]. by apply spared_zone.
  - intros w1 w2 b k [_ Ko] [-> Hk]. by apply Ko.
  - done.
  - done.
  - done.
  - done.
  - done.
  - exists (rel0 +:+ kEncSuffix). by eapply capsule_file.
  - etrans; [|exact Hcount]. by apply (sealed_count names d1 src key tmp1).
  - intros rel Hr. split; [left; by apply within_near, within_below|]. split; [left; by apply parent_within|].
    split; [left; by apply within_below|]. intros d Hin. left. by eapply parent_near.
  - done.
  - eapply room_sub; [exact Hroom|..]; intros t Hin; left; by apply Htargets.
Qed.

(** The tree is in [dst], and the temporary directory is gone. *)
Definition arrived (names : world) (src tmp dst : string) (w : pworld) : Prop :=
  (forall rel c, plain_names rel -> fs_of names !! path_app src rel = Some c ->
     w.(p_fs) !! path_app dst rel = Some c) /\
  forall p, within tmp p = true -> w.(p_fs) !! p = None.

Lemma arrived_spared names src tmp dst s3 w w' : plain_dir tmp -> plain_dir dst ->
  spared tmp dst s3 w w' -> arrived names src tmp dst w -> arrived names src tmp dst w'.
Proof.
  intros Ht Hd [[[Kt _] Kd _] _] [Hf He]. split.
  - intros rel c Hr Hc. rewrite <- (Hf rel c Hr Hc). by apply (kept_below dst (files_of w) (files_of w')).
  - intros p Hin. rewrite <- (He p Hin). by apply Kt, within_near.
Qed.

(** The files of a capsule arrive, among others that leave both directories and
    the objects alone. *)
Record fetchable (request : GetInputDataRequest) (s3 : S3Config) (w : pworld) (key : bytes)
    (names : world) (src : string) : Prop := {
  ft_downloadable :
    let dst := request.(gi_dest_path) in downloadable names src w (GenTempDir dst) dst s3;
  ft_src : plain_dir src;
  ft_prefix : plain_dir s3.(s3_path);
  ft_capsule : capsule w.(p_cloud) s3 key names src;
  ft_some : exists rel, file_of names src rel;
  ft_count : (file_count names src <= 100)%nat
}.

Lemma fetch_input_rely schedule request key names src (w : pworld) s3 :
  let dst := request.(gi_dest_path) in
  let tmp := GenTempDir dst in
  request.(gi_s3_config) = Some s3 -> fetchable request s3 w key names src ->
  wp_rely (spared tmp dst s3) (fetch_input schedule request key)
    (fun r w' => r = Ok tt /\ arrived names src tmp dst w') w.
Proof.
  intros dst tmp Hs3 [Hdown Hs Hp Hcap Hex Hcount]. cbn zeta in Hdown. fold dst tmp in Hdown.
  destruct Hdown as [Hg Ht Hd Ha Hcl Hroom]. unfold fetch_input. rewrite Hs3.
  fold dst tmp. cbn zeta. apply wp_rely_op. intros w1 R1.
  eexists tt, (with_files (cleared tmp (files_of w1)) w1). split; [by apply on_files_run, remove_all_run|].
  apply wp_rely_bind; [apply _|]. eapply wp_rely_weaken; [|apply (wp_rely_lift oss_of with_oss oss_of_with_oss
    (spared_oss tmp dst s3) (spared tmp dst s3) (fun _ => True)); [done|done|done|done|]].
  2: { unfold oss_of. rewrite files_of_with_files.
       pose proof R1 as [[Kt Kd Kc] _]. apply (download_rely names src tmp dst s3 key);
         cbn [o_files o_cloud with_files with_oss p_cloud]; [done..| | |done|done| |].
       - apply (cleared_closed tmp), Kc, Hcl.
       - by apply (capsule_kept tmp dst src s3 key names w w1).
       - eapply room_kept; [|exact Hroom]. pose proof (proj1 Ht) as Hne.
         intros t [(rel & [Hr _] & ->)|(rel & [Hr _] & ->)].
         + exists tmp, (rel +:+ kEncSuffix). rewrite enc_target_app by done.
           split; [done|]. split; [by apply dec_name_enc|]. split; [by apply zone_kept_cleared|done].
         + exists dst, rel. split; [done|]. split; [done|]. split; [by apply zone_kept_cleared|done].
       - intros p Hin. rewrite cleared_file by apply Ht. by rewrite Hin. }
  intros r w2 [[-> Hop] _]. apply wp_rely_bind; [apply _|].
  eapply wp_rely_weaken; [|apply (wp_rely_lift files_of with_files files_of_with_files (spared_files tmp dst)
    (spared tmp dst s3) (fun _ => True)); [by intros ? ? [] |done|done|done|by apply (DecryptToDir_rely schedule names src)]].
  intros r w3 [[-> Hf] _]. apply wp_rely_last. intros w4 R4.
  destruct (clear_part tmp w4 Ht) as (w5 & E5 & _ & N5). exists tt, w5. split; [done|]. intros w6 R6.
  split; [done|]. apply (arrived_spared names src tmp dst s3 w5); [done|done|done|]. split; [|done].
  intros rel c Hr Hc. rewrite (on_files_run _ _ _ _ (remove_all_run tmp (files_of w4))) in E5.
  injection E5 as <-. cbn. rewrite cleared_file by apply Ht. rewrite within_apart by done.
  destruct R4 as [[_ Kd _] _]. rewrite (kept_below dst (files_of w3) (files_of w4)) by done. by apply Hf.
Qed.

(** C5. An input arrives whole among other calls.  However the operations of calls
    served at the same time are interleaved, when the others work in other
    directories, upload other objects and download none, a call of [GetInputData]
    for a capsule of at most 100 files in the object store, with its key in the
    request, returns when it ends; every file of the tree in the capsule is then in
    the destination under its name, and nothing is left in the temporary
    directory. *)
Theorem GetInputData_undisturbed b self calls (w : pworld) s i schedule request s3 key_text key names src :
  let dst := request.(gi_dest_path) in
  let tmp := GenTempDir dst in
  calls !! i = Some (CallGet schedule request) ->
  request.(gi_s3_config) = Some s3 -> request.(gi_data_key_b64) = Some key_text ->
  base64_decode key_text = inr key ->
  downloadable names src w tmp dst s3 -> plain_dir src -> plain_dir s3.(s3_path) ->
  capsule w.(p_cloud) s3 key names src -> (exists rel, file_of names src rel) ->
  (file_count names src <= 100)%nat ->
  (forall j c, j <> i -> calls !! j = Some c -> harmless tmp dst s3 c) ->
  rtc pool_step (serving b self calls, w) s ->
  exists p, s.1 !! i = Some (CallGet schedule request, p) /\
    forall r, p = Ret r ->
      r = Ok tt /\
      (forall rel c, plain_names rel -> fs_of names !! path_app src rel = Some c ->
         s.2.(p_fs) !! path_app dst rel = Some c) /\
      (forall q, within tmp q = true -> s.2.(p_fs) !! q = None).
Proof.
  intros dst tmp Hi Hs3 Hk Hdec Hdown Hs Hp Hcap Hex Hcount Hoth Hr. pose proof Hdown as [_ Ht Hd _ _ _].
  destruct (serving_rely tmp dst s3 Ht Hd b self calls w s i _
    (fun r w' => r = Ok tt /\ arrived names src tmp dst w') Hi) as (p & Hp' & HQ); [|done|done|].
  - cbn [body_of]. unfold input_data, input_data_key. rewrite Hk, Hdec. cbn [call].
    rewrite (now_bind _ _ key) by done. by apply fetch_input_rely.
  - exists p. split; [done|]. intros r Ep. by destruct (HQ r Ep) as [-> [Hf He]].
Qed.
End Service.

(** ** Keys of inputs *)

Section Keys.
Context `{Fmt} `{Absl} `{Hashes} `{CL : CppcodecLaws} `{UL : Base64UrlLaws} `{Base32} `{OpensslX509} `{Brpc}.
Context `{ProtoJson DcapReport} `{ProtoJson IntelTdxReport} `{ProtoJson SgxQlQveCollateral}
        `{ProtoJson HygonCsvReport} `{ProtoJson HygonCsvCertChain}.
Context `{JH : ProtoJsonLaws JweHeader} `{JSH : ProtoJsonLaws JwsHeader} `{JS : ProtoJsonLaws Jws}.
Context `{JK : ProtoJsonLaws GetDataKeysRequest} `{ProtoJson GetDataKeysResponse}
        `{JR : ProtoJsonLaws CreateResultDataKeyRequest}.
Context `{ProtoWire ResourceRequest} `{ProtoWire ResultDataKeyBody}.
Context `{Host} `{!CapsuleManagerStub} `{RaL : RandLaws} `{!Keys} {KL : KeysLaws}
        `{ReportDataSizes} `{HygonLayout}.
Context `{FL : FileIOLaws} `{BvL : ByteViewLaws} `{GL : GcmLaws} `{WL : DirWalkLaws}
        `{!Oss} `{!OssLaws}.

(** The capsule manager has answered OK to a signed envelope that asks for the
    resource of the configuration on behalf of the service's certificate, and
    [key] is the first one of the response, which the service's private key
    opens. *)
Definition key_fetched (b : build_flags) (self : DataCapsuleProxyImpl) (config : CmResourceConfig)
    (key : bytes) : Prop :=
  exists req client report enc_res first rest (h h' : host_state),
    GenResourceRequest config self.(dp_cert) = Ok req /\
    CapsuleManagerClient.New (endpoint_or config.(rc_endpoint) self) h = (Ok client, h') /\
    report_for b self.(dp_plat) ((fun t => self.(dp_cert) +:+ "." +:+ t) <$> SerializeToString req) report /\
    delivered client stub_GetDataKeys (mk_data_keys_request report self.(dp_cert) req)
      self.(dp_private_key) self.(dp_cert) enc_res /\
    ParseEncryptedResponse (mk_data_keys_response []) enc_res self.(dp_private_key)
      = Ok (enc_res.(response_status), mk_data_keys_response (first :: rest)) /\
    enc_res.(response_status).(sf_code) = Code_OK /\
    base64_decode first.(data_key_b64) = inr key.

Lemma input_data_key_fetches src tmp s3 b self request config :
  request.(gi_data_key_b64) = None -> request.(gi_cm_resource_config) = Some config ->
  guarantees (spared src tmp s3) (input_data_key b self request) (key_fetched b self config).
Proof.
  intros Hno Hc. unfold input_data_key. rewrite Hno, Hc. cbn zeta.
  destruct (GenResourceRequest config self.(dp_cert)) as [req|e|u] eqn:Hreq; [|done|done].
  rewrite (now_bind _ _ req) by done. apply guarantees_op; [intros w; apply on_host_spared|].
  intros w client w' [h' Hnew]%on_host_Ok. apply guarantees_op; [intros w1; apply on_host_spared|].
  intros w1 keys w1' [h1 Hk]%on_host_Ok.
  apply GetDataKeys_exchange in Hk as (report & enc_res & [ks] & Hrep & Hdel & Hcode & Hparse & ->). cbn [data_keys].
  destruct ks as [|first rest]; [done|]. destruct (base64_decode first.(data_key_b64)) as [e|key] eqn:Hdec; [done|].
  by exists req, client, report, enc_res, first, rest, w.(p_host), h'.
Qed.

(** C11. Keys of inputs.  However the operations of calls served at the same time
    are interleaved, when the others are harmless, a call of [GetInputData] from
    the object store, for a resource and without a key of its own, either ends
    because no key could be had, or there is a key that the capsule manager has
    given for the resource (the first of an OK response to a signed envelope that
    asks for it on behalf of the service's certificate), and the capsule in the
    store is opened with this key: if it holds a tree of at most 100 files
    encrypted under it, the call returns, every file of the tree is in the
    destination under its name, and nothing is left in the temporary directory. *)
Theorem GetInputData_keys b self calls (w : pworld) s i schedule request s3 config :
  let dst := request.(gi_dest_path) in
  let tmp := GenTempDir dst in
  calls !! i = Some (CallGet schedule request) ->
  request.(gi_s3_config) = Some s3 -> request.(gi_data_key_b64) = None ->
  request.(gi_cm_resource_config) = Some config -> plain_dir tmp -> plain_dir dst ->
  (forall j c, j <> i -> calls !! j = Some c -> harmless tmp dst s3 c) ->
  rtc pool_step (serving b self calls, w) s ->
  exists p, s.1 !! i = Some (CallGet schedule request, p) /\
    forall r, p = Ret r ->
      may_fail (input_data_key b self request) r \/
      exists key, key_fetched b self config key /\
        forall names src, fetchable request s3 w key names src ->
          r = Ok tt /\
          (forall rel c, plain_names rel -> fs_of names !! path_app src rel = Some c ->
             s.2.(p_fs) !! path_app dst rel = Some c) /\
          (forall q, within tmp q = true -> s.2.(p_fs) !! q = None).
Proof.
  intros dst tmp Hi Hs3 Hk Hc Ht Hd Hoth Hr.
  set (Q := fun (r : outcome unit) (w' : pworld) => may_fail (input_data_key b self request) r \/
    exists key, key_fetched b self config key /\
      forall x, fetchable request s3 w key x.1 x.2 -> r = Ok tt /\ arrived x.1 x.2 tmp dst w').
  destruct (serving_rely tmp dst s3 Ht Hd b self calls w s i _ Q Hi) as (p & Hp' & HQ); [|done|done|].
  - cbn [body_of]. unfold input_data. apply wp_rely_bind; [apply _|].
    eapply wp_rely_weaken; [|apply (wp_rely_returns (spared tmp dst s3) (spared tmp dst s3 w));
      [by apply input_data_key_fetches|by intros; etrans|done]].
    intros r w1 [R1 Hr1]. destruct r as [key|e|u]; [|by left|by left].
    eapply wp_rely_mono; [apply _| |exact R1].
    eapply wp_rely_weaken; [|apply (wp_rely_forall _ _ (fun x => fetchable request s3 w key x.1 x.2)
      (fun x r w' => r = Ok tt /\ arrived x.1 x.2 tmp dst w'));
      intros [names src] Hf; by apply (fetch_input_rely schedule request key names src)].
    intros r w2 Hall. right. exists key. split; [done|]. exact Hall.
  - exists p. split; [done|]. intros r Ep. destruct (HQ r Ep) as [|(key & Hkey & Hall)]; [by left|right].
    exists key. split; [done|]. intros names src Hf. by destruct (Hall (names, src) Hf) as [-> [? ?]].
Qed.
End Keys.

(** ** Witness *)

Module ConcurrentInputWitness.
Import TreeWitness ProxyWitness.
#[local] Existing Instances sample_fmt sample_absl sample_hashes sample_cppcodec sample_cppcodec_laws
  sample_b64url sample_b64url_laws sample_rand sample_rand_laws sample_keys sample_keys_laws sample_x509 sample_gcm sample_gcm_laws sample_report_data sample_hygon
  sample_brpc sample_fileio sample_fileio_laws sample_byteview sample_byteview_laws sample_walk
  sample_walk_laws sample_oss sample_oss_laws.
#[local] Existing Instances ProxyWitness.host ProxyWitness.base32 ProxyWitness.wire ProxyWitness.j1
  ProxyWitness.j2 ProxyWitness.j3 ProxyWitness.j4 ProxyWitness.j5 ProxyWitness.j6 ProxyWitness.stub.
#[local] Existing Instances ProxyWitness.j1_laws ProxyWitness.j2_laws ProxyWitness.j3_laws
  ProxyWitness.j4_laws ProxyWitness.j6_laws.
#[local] Existing Instance ProxyWitness.j_none | 100.

(** A result has gone to the store. *)
Definition stored_cloud : cloud :=
  Eval vm_compute in (perform (store_result [Visit; Run 0] put_s3 key) w1).2.(p_cloud).

Lemma stored_capsule : capsule stored_cloud s3 key (files_of w1) "/s".
Proof.
  destruct (store_result_s3 [Visit; Run 0] put_s3 key w1 s3) as (w & E & Hc & _); [done|exact w1_uploadable|].
  replace stored_cloud with w.(p_cloud); [exact Hc|]. apply (f_equal snd) in E. cbn [snd] in E.
  rewrite <- E. by vm_compute.
Qed.

(** It is fetched to another directory, where an old file is left in the temporary
    directory, while the source is encrypted to a third one. *)
Definition w3 : pworld :=
  mk_pworld (<[path_app tmp_d "old.enc" := s2b "left"]> fs0) ({["/tmp"; tmp_d]} ∪ w0.(w_dirs)) stored_cloud h0.
Definition two : list service_call := [CallPut [Visit; Run 0] put_local; CallGet [Visit] get_s3].
Definition fetched_both : list (service_call * prog pworld unit) * pworld :=
  foldl pool_run (serving flags self two, w3) (concat (replicate 80 [1; 0]%nat)).

Lemma w3_downloadable : downloadable (files_of w1) "/s" w3 tmp_d "/d" s3.
Proof.
  split; [done|done|done| | |].
  - intros r t. unfold tmp_d. string_app. discriminate.
  - assert (Forall (fun d => Forall (fun e => e ∈ w3.(p_dirs)) (lineage d)) (elements w3.(p_dirs))) as Hall
      by (apply (bool_decide_unpack _); by vm_compute).
    intros d e Hd He. rewrite Forall_forall in Hall. specialize (Hall d).
    rewrite Forall_forall in Hall. apply Hall; [by apply elem_of_elements|done].
  - apply (room_list _ [enc_target tmp_d "a"; enc_target tmp_d "sub/b"; path_app "/d" "a"; path_app "/d" "sub/b"]).
    + intros t [Ht%names_cases|Ht%names_cases]; set_solver.
    + apply (bool_decide_unpack _). by vm_compute.
Qed.

Lemma two_harmless j c : j <> 1%nat -> two !! j = Some c -> harmless tmp_d "/d" s3 c.
Proof.
  assert (apart tmp_d "/t" /\ apart "/d" "/t") as [A1 A2].
  { split; intros r t; unfold tmp_d; string_app; discriminate. }
  assert (plain_source "/s") as Hs by (by apply (bool_decide_unpack _); vm_compute).
  destruct j as [|[|j]]; [|done|done]. intros _ E. injection E as <-. by split; [|split].
Qed.

Lemma GetInputData_undisturbed_witness :
  fetched_both.2.(p_fs) !! "/d/sub/b" = Some (s2b "world") /\
  fetched_both.2.(p_fs) !! path_app tmp_d "old.enc" = None /\
  fetched_both.1 !! 1%nat = Some (CallGet [Visit] get_s3, Ret (Ok tt)).
Proof.
  destruct (GetInputData_undisturbed flags self two w3 fetched_both 1 [Visit] get_s3 s3 data_key_text key
    (files_of w1) "/s") as (p & Hp & Hend).
  - done.
  - done.
  - done.
  - by vm_compute.
  - exact w3_downloadable.
  - done.
  - done.
  - exact stored_capsule.
  - exists "a". split; [by apply (bool_decide_unpack _); vm_compute|vm_compute; by eexists].
  - apply Nat.leb_le. by vm_compute.
  - exact two_harmless.
  - apply pool_schedule.
  - assert (fetched_both.1 !! 1%nat = Some (CallGet [Visit] get_s3, Ret (Ok tt))) as E by (by vm_compute).
    rewrite E in Hp. injection Hp as <-. destruct (Hend (Ok tt)) as (_ & Hf & He); [done|].
    split; [|split; [|done]].
    + apply (Hf "sub/b"); [by repeat constructor|by vm_compute].
    + apply He. by vm_compute.
Defined.

(** The same with the key from the capsule manager. *)
Definition get_named : GetInputDataRequest := mk_get_input None (Some resource) (Some s3) None "/d".
Definition two_named : list service_call := [CallPut [Visit; Run 0] put_local; CallGet [Visit] get_named].
Definition fetched_named : list (service_call * prog pworld unit) * pworld :=
  foldl pool_run (serving flags self two_named, w3) (concat (replicate 80 [1; 0]%nat)).

Lemma named_harmless j c : j <> 1%nat -> two_named !! j = Some c -> harmless tmp_d "/d" s3 c.
Proof. intros Hj Hc. apply (two_harmless j c Hj). destruct j as [|[|j]]; [exact Hc|done|exact Hc]. Qed.

(** The only key the sample capsule manager gives. *)
Lemma sample_key k : key_fetched flags self resource k -> k = key.
Proof.
  intros (req' & client & report & enc_res & first & rest & h & h' & _ & _ & _ & Hd & Hp & _ & Hk).
  destruct Hd as (enc_req & status & t & d0 & d & d' & _ & Hs & _). cbn in Hs. injection Hs as _ <- _.
  assert (ParseEncryptedResponse (mk_data_keys_response []) answer self.(dp_private_key)
    = Ok (answer.(response_status), mk_data_keys_response [mk_data_key data_key_text])) as E by (by vm_compute).
  pose proof (eq_trans (eq_sym E) Hp) as E'. injection E' as <- _.
  assert (base64_decode data_key_text = inr key) as Ek by (by vm_compute).
  pose proof (eq_trans (eq_sym Ek) Hk) as E''. by injection E''.
Qed.

Lemma w3_fetchable : fetchable get_named s3 w3 key (files_of w1) "/s".
Proof.
  split; [exact w3_downloadable|done|done|exact stored_capsule| |apply Nat.leb_le; by vm_compute].
  exists "a". split; [by apply (bool_decide_unpack _); vm_compute|vm_compute; by eexists].
Qed.

Lemma GetInputData_keys_witness :
  fetched_named.2.(p_fs) !! "/d/sub/b" = Some (s2b "world") /\ exists k, key_fetched flags self resource k.
Proof.
  destruct (GetInputData_keys flags self two_named w3 fetched_named 1 [Visit] get_named s3 resource)
    as (p & Hp & Hend).
  - done.
  - done.
  - done.
  - done.
  - done.
  - done.
  - exact named_harmless.
  - apply pool_schedule.
  - assert (fetched_named.1 !! 1%nat = Some (CallGet [Visit] get_named, Ret (Ok tt))) as E by (by vm_compute).
    rewrite E in Hp. injection Hp as <-. destruct (Hend (Ok tt) eq_refl) as [Hno|(k & Hk & Hall)].
    + destruct (may_fail_Ok _ _ Hno).
    + pose proof (sample_key k Hk) as ->. destruct (Hall _ _ w3_fetchable) as (_ & Hf & _).
      split; [|by exists key]. apply (Hf "sub/b"); [by repeat constructor|by vm_compute].
Defined.
End ConcurrentInputWitness.
