(* ===== verification/Utils.v ===== *)
(** * Files and logs of the proxies

    [trustflow/proxy/utils/io_util.cc] and [log.cc].  spdlog is a parameter. *)

From S2P Require Import Prelude CppStd External Samples YaclCrypto CryptoFile.

(** ** io_util.cc *)

Section IoUtil.
Context `{FileIO} `{Rand}.

Definition ReadFile (file_path : string) : st world string :=
  inp ← open_in file_path;
  '(content, inp) ← read inp (Z.to_nat (GetLength inp));
  _ ← close_in inp;
  mret (b2s content).

Definition WriteFile (file_path : string) (content : bytes) : st world unit :=
  out ← open_out file_path;
  out ← write out content;
  close_out out.
End IoUtil.

(** ** log.cc *)

Definition kFormatPattern : string := "%Y-%m-%d %H:%M:%S.%e [%l] [%s:%!:%#] %v".
Definition kMaxLogFileSize : Z := 500 * 1024 * 1024.
Definition kMaxLogFileCount : Z := 10.
Definition kMonitorLog : string := "monitor_log".
Definition kAppLog : string := "app_log".

(** [spdlog::level::level_enum] *)
Inductive level_enum := trace | debug | info | warn | err | critical | off.

#[global] Instance level_enum_eq_dec : EqDecision level_enum.
Proof. solve_decision. Defined.

Record LogOptions := mk_log_options {
  app_log_path : string;
  monitor_log_path : string;
  log_level : string;
  enable_console_logger : bool
}.

(** A logger as the code sets it up. *)
Record logger_of (S : Type) := mk_logger {
  lg_name : string;
  lg_sinks : list S;
  lg_flush_on : level_enum;
  lg_level : level_enum;
  lg_pattern : string
}.
Arguments mk_logger {S} _ _ _ _ _.
Arguments lg_name {S} _.
Arguments lg_sinks {S} _.
Arguments lg_flush_on {S} _.
Arguments lg_level {S} _.
Arguments lg_pattern {S} _.

(** [logs] is the state of the library: its registry and the files behind its
    sinks.  [spd_get name] says whether [spdlog::get(name)] finds a logger. *)
Class Spdlog := {
  sink : Type;
  logs : Type;
  spd_get : string -> logs -> option (logger_of sink);
  rotating_file_sink : string -> Z -> Z -> logs -> result sink * logs;
  stdout_color_sink : logs -> sink * logs;
  set_default_logger : logger_of sink -> logs -> logs;
  register_logger : logger_of sink -> logs -> result unit * logs;
  spd_shutdown : logs -> logs
}.

Abbreviation logger := (logger_of sink).

(** Making a sink does not touch the registry; the default logger is registered
    too; registering fails for a name that is taken; shutting down empties the
    registry. *)
Class SpdlogLaws `{Spdlog} : Prop := {
  rotating_file_sink_get name path size count s :
    spd_get name (rotating_file_sink path size count s).2 = spd_get name s;
  stdout_color_sink_get name s : spd_get name (stdout_color_sink s).2 = spd_get name s;
  set_default_logger_get l s : spd_get l.(lg_name) (set_default_logger l s) = Some l;
  set_default_logger_none name l s :
    name <> l.(lg_name) -> spd_get name s = None -> spd_get name (set_default_logger l s) = None;
  register_logger_ok l s : spd_get l.(lg_name) s = None ->
    exists s', register_logger l s = (inr tt, s') /\ spd_get l.(lg_name) s' = Some l /\
      forall name, name <> l.(lg_name) -> spd_get name s' = spd_get name s;
  spd_shutdown_get name s : spd_get name (spd_shutdown s) = None
}.

Section Log.
Context `{Fmt} `{Spdlog}.

Definition kLevelMap : list (string * level_enum) :=
  [("trace", trace); ("debug", debug); ("info", info); ("warn", warn); ("err", err);
   ("critical", critical); ("off", off)].

Definition LogLevelFromString (level : string) : outcome level_enum :=
  match List.find (fun p => String.eqb p.1 level) kLevelMap with
  | Some (_, l) => Ok l
  | None => YACL_THROW (fmt_format "None exist log Level [{}]" [FStr level]) []
  end.

Definition make_file_sink (log_path : string) : st logs sink := fun s =>
  let '(r, s) := rotating_file_sink log_path kMaxLogFileSize kMaxLogFileCount s in (call r, s).

Definition make_console_sink : st logs sink := fun s =>
  let '(k, s) := stdout_color_sink s in (Ok k, s).

Definition register (l : logger) : st logs unit := fun s =>
  let '(r, s) := register_logger l s in (call r, s).

Definition set_default (l : logger) : st logs unit := fun s => (Ok tt, set_default_logger l s).

Definition SetupLogger (log_name log_path log_level : string) (enable_console_logger : bool)
    : st logs unit := fun s =>
  match spd_get log_name s with
  | Some _ => (Ok tt, s)
  | None =>
      (file_sink ← make_file_sink log_path;
       log_sinks ← (if enable_console_logger then
                      console_sink ← make_console_sink;
                      mret [file_sink; console_sink]
                    else mret [file_sink]);
       level ← pure (LogLevelFromString log_level);
       let logger := mk_logger log_name log_sinks level level kFormatPattern in
       if String.eqb log_name kAppLog then set_default logger
       else if String.eqb log_name kMonitorLog then register logger
       else pure (YACL_THROW "Unsupported logger type: {}." [FStr log_name])) s
  end.

Definition LogSetup (opts : LogOptions) : st logs unit :=
  _ ← SetupLogger kAppLog opts.(app_log_path) opts.(log_level) opts.(enable_console_logger);
  SetupLogger kMonitorLog opts.(monitor_log_path) opts.(log_level) opts.(enable_console_logger).

Definition LogShutdown : st logs unit := fun s => (Ok tt, spd_shutdown s).
End Log.

(** ** Facts *)

Section IoFacts.
Context `{FL : FileIOLaws} `{Rand}.

Lemma ReadFile_content path (w : world) c :
  w.(w_fs) !! path = Some c -> ReadFile path w = (Ok (b2s c), w).
Proof.
  intros Hc. destruct (FileInputStream_ok _ _ _ Hc) as (inp & Ho & [Hpa Hp] & Hl). unfold ReadFile.
  rewrite (st_bind_step _ _ _ inp w) by (unfold open_in; by rewrite Ho).
  rewrite Hl. unfold len. rewrite Nat2Z.id.
  destruct (Read_ok inp (length c) w.(w_fs) c) as (inp' & Hr & _); [by rewrite Hpa|by rewrite Hp|].
  rewrite Hp, slice_all in Hr by done.
  rewrite (st_bind_step _ _ _ (c, inp') w) by (unfold read; by rewrite Hr).
  unfold close_in. rewrite (pure_bind_step _ _ _ tt) by (by rewrite CloseIn_ok). done.
Qed.

Lemma WriteFile_content path content (w : world) : writable w.(w_dirs) path ->
  WriteFile path content w = (Ok tt, mk_world _ (<[path := content]> w.(w_fs)) w.(w_dirs) w.(w_rng)).
Proof.
  intros Hw. destruct (FileOutputStream_ok w.(w_dirs) w.(w_fs) path Hw) as (out & Ho & [Hp Hq]). unfold WriteFile.
  rewrite (st_bind_step _ _ _ out (mk_world _ (<[path := []]> w.(w_fs)) w.(w_dirs) w.(w_rng)))
    by (unfold open_out; by rewrite Ho).
  destruct (Write_ok out content (<[path := []]> w.(w_fs)) []) as (out' & Hwr & _);
    [rewrite Hp; apply lookup_insert_eq|done|].
  rewrite (st_bind_step _ _ _ out' (mk_world _ (<[path := content]> w.(w_fs)) w.(w_dirs) w.(w_rng))).
  - unfold close_out. by rewrite Close_ok.
  - unfold write. cbn [w_fs]. rewrite Hwr, Hp, insert_insert_eq. done.
Qed.
End IoFacts.

Section LogFacts.
Context `{Fmt} `{SL : SpdlogLaws}.

Lemma LogLevelFromString_total level :
  (exists l, (level, l) ∈ kLevelMap /\ LogLevelFromString level = Ok l) \/
  ((forall l, (level, l) ∉ kLevelMap) /\ is_throw (LogLevelFromString level) = true).
Proof.
  unfold LogLevelFromString. destruct (List.find _ kLevelMap) as [[n l]|] eqn:E.
  - left. apply List.find_some in E as [Hin Hn%String.eqb_eq]. cbn in Hn. subst n.
    exists l. split; [by apply list_elem_of_In|done].
  - right. split; [|done]. intros l Hin%list_elem_of_In. eapply List.find_none in E; [|exact Hin].
    cbn in E. by rewrite String.eqb_refl in E.
Qed.

(** The sinks of a logger, when the file can be opened. *)
Definition opens_files : Prop :=
  forall path s, exists k, (rotating_file_sink path kMaxLogFileSize kMaxLogFileCount s).1 = inr k.

Lemma SetupLogger_new name path level console s l :
  opens_files -> spd_get name s = None -> LogLevelFromString level = Ok l ->
  (name = kAppLog \/ name = kMonitorLog) ->
  exists sinks s', SetupLogger name path level console s = (Ok tt, s') /\
    spd_get name s' = Some (mk_logger name sinks l l kFormatPattern) /\
    length sinks = (if console then 2 else 1)%nat /\
    forall other, other <> name -> spd_get other s = None \/ name = kMonitorLog ->
      spd_get other s' = spd_get other s.
Proof.
  intros Hopen Hnone Hl Hname. unfold SetupLogger. rewrite Hnone.
  destruct (Hopen path s) as [k Hk]. pose proof (fun n => rotating_file_sink_get n path kMaxLogFileSize kMaxLogFileCount s) as G1.
  destruct (rotating_file_sink _ _ _ s) as [rk s1] eqn:E1. cbn in Hk, G1. subst rk.
  rewrite (st_bind_step _ _ _ k s1) by (unfold make_file_sink; by rewrite E1).
  set (mk := if console then _ else _).
  assert (exists sinks s2, mk s1 = (Ok sinks, s2) /\ length sinks = (if console then 2 else 1)%nat /\
    forall n, spd_get n s2 = spd_get n s) as (sinks & s2 & E2 & Hlen & G2).
  { unfold mk. destruct console; [|by exists [k], s1].
    pose proof (fun n => stdout_color_sink_get n s1) as G. unfold mbind, st_bind, make_console_sink.
    destruct (stdout_color_sink s1) as [kc s2]. exists [k; kc], s2. split; [done|]. split; [done|].
    intros n. by rewrite <- G1, <- G. }
  rewrite (st_bind_step _ _ _ _ _ E2), (pure_bind_step _ _ _ l) by done. cbn zeta.
  set (lg := mk_logger name sinks l l kFormatPattern). exists sinks.
  destruct Hname as [->| ->]; cbn [String.eqb kAppLog kMonitorLog].
  - eexists. split; [done|]. split; [apply (set_default_logger_get lg)|]. split; [done|].
    intros other Hne [Ho|]; [|done]. rewrite Ho. apply set_default_logger_none; [done|]. by rewrite G2.
  - destruct (register_logger_ok lg s2) as (s3 & E3 & Hg & Ho); [cbn; by rewrite G2|].
    exists s3. split; [cbn; unfold register; by rewrite E3|]. split; [done|]. split; [done|].
    intros other Hne _. rewrite Ho by done. by rewrite G2.
Qed.

Lemma SetupLogger_again name path level console s l :
  spd_get name s = Some l -> SetupLogger name path level console s = (Ok tt, s).
Proof. intros Hl. unfold SetupLogger. by rewrite Hl. Qed.

(** An unknown level is an error, and no logger is set up. *)
Lemma SetupLogger_bad_level name path level console s :
  spd_get name s = None -> is_throw (LogLevelFromString level) = true ->
  is_throw (SetupLogger name path level console s).1 = true /\
  forall n, spd_get n (SetupLogger name path level console s).2 = spd_get n s.
Proof.
  intros Hnone Hl. unfold SetupLogger. rewrite Hnone. unfold mbind, st_bind, make_file_sink, pure.
  pose proof (fun n => rotating_file_sink_get n path kMaxLogFileSize kMaxLogFileCount s) as G1.
  destruct (rotating_file_sink _ _ _ s) as [[e|k] s1]; cbn in *; [done|].
  destruct console; cbn.
  - unfold make_console_sink. pose proof (fun n => stdout_color_sink_get n s1) as G.
    destruct (stdout_color_sink s1) as [kc s2]. cbn in *.
    destruct (LogLevelFromString level); [done| |done]. split; [done|]. intros n. by rewrite G.
  - by destruct (LogLevelFromString level).
Qed.

Lemma LogLevelFromString_known level l : (level, l) ∈ kLevelMap -> LogLevelFromString level = Ok l.
Proof.
  intros Hin. unfold kLevelMap in Hin.
  repeat (apply elem_of_cons in Hin as [[= -> ->]|Hin]; [done|]). by apply elem_of_nil in Hin.
Qed.

Lemma LogLevelFromString_unknown level :
  (forall l, (level, l) ∉ kLevelMap) -> is_throw (LogLevelFromString level) = true.
Proof. intros Hno. destruct (LogLevelFromString_total level) as [(l & Hin & _)|[_ ?]]; [by destruct (Hno l)|done]. Qed.

(** Setting up the logs of a program that has none: with a known level both
    loggers exist afterwards and write and flush from that level on, and setting
    them up again changes nothing; with an unknown level the call throws and
    there is still no logger. *)
Theorem LogSetup_configures opts s :
  opens_files -> spd_get kAppLog s = None -> spd_get kMonitorLog s = None ->
  (forall l, (opts.(log_level), l) ∈ kLevelMap ->
     exists s', LogSetup opts s = (Ok tt, s') /\ LogSetup opts s' = (Ok tt, s') /\
       forall name, name = kAppLog \/ name = kMonitorLog ->
         exists sinks, spd_get name s' = Some (mk_logger name sinks l l kFormatPattern)) /\
  ((forall l, (opts.(log_level), l) ∉ kLevelMap) ->
     is_throw (LogSetup opts s).1 = true /\
     spd_get kAppLog (LogSetup opts s).2 = None /\ spd_get kMonitorLog (LogSetup opts s).2 = None).
Proof.
  intros Hopen Ha Hm. split.
  - intros l Hl%LogLevelFromString_known.
    destruct (SetupLogger_new kAppLog opts.(app_log_path) _ opts.(enable_console_logger) s l Hopen Ha Hl)
      as (sinks & s1 & E1 & G1 & _ & O1); [by left|].
    assert (spd_get kMonitorLog s1 = None) as Hm1 by (rewrite O1; [done|done|by left]).
    destruct (SetupLogger_new kMonitorLog opts.(monitor_log_path) _ opts.(enable_console_logger) s1 l Hopen Hm1 Hl)
      as (sinks2 & s2 & E2 & G2 & _ & O2); [by right|].
    assert (spd_get kAppLog s2 = Some (mk_logger kAppLog sinks l l kFormatPattern)) as G1'
      by (rewrite O2; [done|done|by right]).
    exists s2. unfold LogSetup. split; [by rewrite (st_bind_step _ _ _ _ _ E1)|]. split.
    + rewrite (st_bind_step _ _ _ tt s2) by (by eapply SetupLogger_again). by eapply SetupLogger_again.
    + intros name [->| ->]; eauto.
  - intros Hno%LogLevelFromString_unknown. unfold LogSetup, mbind, st_bind.
    destruct (SetupLogger_bad_level kAppLog opts.(app_log_path) _ opts.(enable_console_logger) s Ha Hno)
      as [Ht Hg].
    destruct (SetupLogger kAppLog _ _ _ s) as [[[]|e|u] s1]; [done| |done]. cbn in *. by rewrite !Hg.
Qed.
End LogFacts.

Definition sample_spdlog : Spdlog := {|
  sink := unit;
  logs := gmap string (logger_of unit);
  spd_get name s := s !! name;
  rotating_file_sink _ _ _ s := (inr tt, s);
  stdout_color_sink s := (tt, s);
  set_default_logger l s := <[l.(lg_name) := l]> s;
  register_logger l s :=
    match s !! l.(lg_name) with
    | Some _ => (inl (mk_exn (StdException "spdlog::spdlog_ex") "logger exists" []), s)
    | None => (inr tt, <[l.(lg_name) := l]> s)
    end;
  spd_shutdown _ := ∅
|}.

Lemma sample_spdlog_laws : @SpdlogLaws sample_spdlog.
Proof.
  split; cbn; try done.
  - intros l s. apply lookup_insert_eq.
  - intros name l s Hne Hs. by rewrite lookup_insert_ne.
  - intros l s ->. eexists. split; [done|]. split; [apply lookup_insert_eq|].
    intros name Hne. by rewrite lookup_insert_ne.
Qed.

Module UtilsWitness.
#[local] Existing Instances sample_fmt sample_spdlog sample_spdlog_laws.

Lemma LogSetup_configures_witness : exists s',
  LogSetup (mk_log_options "a.log" "m.log" "warn" true) ∅ = (Ok tt, s') /\
  exists sinks, spd_get kMonitorLog s' = Some (mk_logger kMonitorLog sinks warn warn kFormatPattern).
Proof.
  destruct (proj1 (LogSetup_configures (mk_log_options "a.log" "m.log" "warn" true) ∅
    ltac:(intros path s; by exists tt) ltac:(by vm_compute) ltac:(by vm_compute)) warn) as (s' & E & _ & Hl).
  - cbn. set_solver.
  - exists s'. split; [done|]. apply Hl. by right.
Defined.
End UtilsWitness.
