(* ===== verification/Programs.v ===== *)
(** * The programs

    [main] of the remote attestation proxy and of the data capsule proxy.  The
    parsed command line is an argument; yaml-cpp and [brpc::Server] are
    parameters: the server says which calls arrive and in which order their
    operations happen, and what they do is what the methods do. *)

From S2P Require Import Prelude CppStd External Common Samples Verifier Dcap Sgx2Verifier TdxVerifier Hygon CsvVerifier VerifierWrapper Path YaclCrypto Tasks Host IntelGenerator CsvGenerator GeneratorWrapper ProxyCommon RaProxy CryptoFile Jose Envelope CapsuleManagerClient Directory Tree OssClient DataCapsuleProxy Utils.

(** ** Libraries *)

(** yaml-cpp: [node_at] is [operator[]], [node_items] what a range-for over a
    node visits. *)
Class Yaml := {
  node : Type;
  LoadFile : fsys -> string -> result node;
  node_at : node -> string -> result node;
  as_string : node -> result string;
  IsSequence : node -> result bool;
  node_items : node -> list node
}.

Inductive service :=
  | SRaProxy (s : RaProxy.RaProxyImpl)
  | SDataCapsuleProxy (s : DataCapsuleProxyImpl).

(** [brpc::Server]: adding a service, starting on a port with an idle timeout,
    and running until the process is asked to quit.  [data_calls] and [ra_calls]
    are the calls that arrive in that time and the order in which their operations
    happen, a number for the call that goes on next. *)
Class BrpcServer `{Brpc} := {
  net : Type;
  AddService : service -> net -> Z * net;
  Start : Z -> Z -> net -> Z * net;
  data_calls : net -> list service_call * list nat;
  ra_calls : net -> list (RaProxy.GetRaCertRequest * controller) * list nat;
  Quit : net -> net
}.

(** ** The state of a process *)

Record process_of (D R C L N : Type) := mk_process {
  m_world : pworld_of D R C;
  m_logs : L;
  m_net : N
}.
Arguments mk_process {D R C L N} _ _ _.
Arguments m_world {D R C L N} _.
Arguments m_logs {D R C L N} _.
Arguments m_net {D R C L N} _.
Abbreviation process := (process_of dev rng cloud logs net).

(** The command line flags. *)
Record Flags := mk_flags {
  FLAGS_plat : string;
  FLAGS_port : Z;
  FLAGS_idle_timeout_s : Z;
  FLAGS_cert_path : string;
  FLAGS_private_key_path : string;
  FLAGS_cm_endpoint : string;
  FLAGS_cm_init_config : string;
  FLAGS_log_path : string;
  FLAGS_monitor_log_path : string;
  FLAGS_log_level : string;
  FLAGS_enable_console_logger : bool
}.

(** The flags of the programs when the command line sets none; [ra_proxy] has
    no private key and no capsule manager. *)
Definition ra_proxy_flags : Flags :=
  mk_flags "sim" 8010 (-1) "app.crt" "" "" "" "ra_proxy.log" "ra_proxy_monitor.log" "info" false.
Definition data_capsule_proxy_flags : Flags :=
  mk_flags "sim" 8010 (-1) "app.crt" "app.key" "127.0.0.1:8888" "" "data_capsule_proxy.log"
    "data_capsule_proxy_monitor.log" "info" false.

(** The keys of the start-up configuration. *)
Definition kScope : string := "scope".
Definition kOpName : string := "op_name".
Definition kResource : string := "resource".
Definition kResourceUri : string := "resource_uri".
Definition kColumns : string := "columns".
Definition kAtrs : string := "attrs".
Definition kEnv : string := "env".
Definition kGlobalAttrs : string := "global_attrs".
Definition kTlsCertPath : string := "tls_cert_path".
Definition kTlsKeyPath : string := "tls_key_path".

Section Model.
Context `{Fmt} `{Absl} `{Hashes} `{Cppcodec} `{Base64Url} `{Base32} `{OpensslX509} `{Gcm} `{TlsAssets}.
Context `{ProtoJson DcapReport} `{ProtoJson IntelTdxReport} `{ProtoJson SgxQlQveCollateral}
        `{ProtoJson HygonCsvReport} `{ProtoJson HygonCsvCertChain}.
Context `{ProtoJson JweHeader} `{ProtoJson JwsHeader} `{ProtoJson Jws}.
Context `{ProtoJson GetTlsAssetRequest} `{ProtoJson GetTlsAssetResponse}.
Context `{ProtoJson GetDataKeysRequest} `{ProtoJson GetDataKeysResponse}
        `{ProtoJson CreateResultDataKeyRequest}.
Context `{ProtoWire ResourceRequest} `{ProtoWire ResultDataKeyBody}.
Context `{Host} `{!CapsuleManagerStub} `{Rand} `{!Keys} `{ReportDataSizes} `{HygonLayout}.
Context `{FileIO} `{ByteView} `{DirWalk} `{!Oss} `{Spdlog} `{Yaml} `{Brpc} `{!BrpcServer}.

Definition on_world {A} (m : st pworld A) : st process A := fun s =>
  let '(r, w) := m s.(m_world) in (r, mk_process w s.(m_logs) s.(m_net)).

Definition on_disk {A} (m : st world A) : st process A := on_world (on_files m).

Definition on_device {A} (m : st host_state A) : st process A := on_world (on_host m).

Definition on_logs {A} (m : st logs A) : st process A := fun s =>
  let '(r, l) := m s.(m_logs) in (r, mk_process s.(m_world) l s.(m_net)).

Definition on_net {A} (f : net -> A * net) : st process A := fun s =>
  let '(a, n) := f s.(m_net) in (Ok a, mk_process s.(m_world) s.(m_logs) n).

(** [try { body } catch (const std::exception& e) { return -1; }] *)
Definition exit_code (body : st process Z) : st process Z := fun s =>
  match body s with
  | (Throw _, s') => (Ok (-1), s')
  | r => r
  end.

Definition log_options (f : Flags) : LogOptions :=
  mk_log_options f.(FLAGS_log_path) f.(FLAGS_monitor_log_path) f.(FLAGS_log_level)
    f.(FLAGS_enable_console_logger).

(** ** Serving *)

(** A call of the remote attestation service, with a new response. *)
Definition ra_call (b : build_flags) (self : RaProxy.RaProxyImpl)
    (c : RaProxy.GetRaCertRequest * controller) : st host_state unit := fun h =>
  let '(r, s) := RaProxy.GetRaCert b self c.1 (mk_rpc h c.2 (RaProxy.mk_ra_response None None "")) in
  (r, s.(rpc_world)).

Definition ra_serving (b : build_flags) (self : RaProxy.RaProxyImpl)
    (calls : list (RaProxy.GetRaCertRequest * controller))
    : list ((RaProxy.GetRaCertRequest * controller) * prog pworld unit) :=
  (fun c => (c, op (on_host (ra_call b self c)))) <$> calls.

(** The methods catch exceptions; undefined behaviour of one is that of the
    process. *)
Fixpoint all_defined {X} (ps : list (X * prog pworld unit)) : outcome unit :=
  match ps with
  | [] => Ok tt
  | (_, Ret (UB u)) :: _ => UB u
  | _ :: ps => all_defined ps
  end.

(** The programs [ps] run: the operations of [turns] first, and what is left of
    them before the server stops. *)
Definition run_calls {X} (ps : list (X * prog pworld unit)) (turns : list nat) : st process unit := fun s =>
  let '(ps, w) := pool_finish (foldl pool_run (ps, s.(m_world)) turns) in
  (all_defined ps, mk_process w s.(m_logs) s.(m_net)).

Definition RunUntilAskedToQuit (b : build_flags) (sv : service) : st process unit := fun s =>
  (_ ← match sv with
       | SRaProxy self =>
           let '(calls, turns) := ra_calls s.(m_net) in run_calls (ra_serving b self calls) turns
       | SDataCapsuleProxy self =>
           let '(calls, turns) := data_calls s.(m_net) in run_calls (serving b self calls) turns
       end;
   on_net (fun n => (tt, Quit n))) s.

(** The end of both programs, from [AddService] on. *)
Definition serve (b : build_flags) (f : Flags) (s : service) : st process Z :=
  added ← on_net (AddService s);
  if negb (added =? 0) then mret (-1)
  else
    started ← on_net (Start f.(FLAGS_port) f.(FLAGS_idle_timeout_s));
    if negb (started =? 0) then mret (-1)
    else
      _ ← RunUntilAskedToQuit b s;
      mret 0.

(** ** ra_proxy/main.cc *)

Definition ra_proxy_main (b : build_flags) (f : Flags) : st process Z :=
  exit_code
    (_ ← on_logs (LogSetup (log_options f));
     cert ← on_disk (ReadFile f.(FLAGS_cert_path));
     serve b f (SRaProxy (RaProxy.mk_ra_proxy f.(FLAGS_plat) cert))).

(** ** data_capsule_proxy/main.cc *)

(** [config[key].as<std::string>()] *)
Definition text_at (config : node) (key : string) : outcome string :=
  child ← call (node_at config key);
  call (as_string child).

Fixpoint texts (l : list node) : outcome (list string) :=
  match l with
  | [] => mret []
  | n :: l => t ← call (as_string n); r ← texts l; mret (t :: r)
  end.

Definition resource_of (resource_conf : node) : outcome Resource :=
  uri ← text_at resource_conf kResourceUri;
  column_nodes ← call (node_at resource_conf kColumns);
  columns ← texts (node_items column_nodes);
  attrs ← text_at resource_conf kAtrs;
  mret (mk_resource uri columns attrs).

Fixpoint resources_of (l : list node) : outcome (list Resource) :=
  match l with
  | [] => mret []
  | n :: l => x ← resource_of n; r ← resources_of l; mret (x :: r)
  end.

Definition config_resource_request (config : node) (cert : string) : outcome ResourceRequest :=
  party_id ← GeneratePartyId cert;
  scope ← text_at config kScope;
  op_name ← text_at config kOpName;
  resource ← call (node_at config kResource);
  is_sequence ← call (IsSequence resource);
  _ ← YACL_ENFORCE is_sequence "resource must be a sequence" [];
  resources ← resources_of (node_items resource);
  env ← text_at config kEnv;
  global_attrs ← text_at config kGlobalAttrs;
  mret (mk_resource_request party_id scope op_name resources env global_attrs).

(** The TLS asset of the start-up configuration, if there is one. *)
Definition init_tls_asset (b : build_flags) (f : Flags) (cert private_key : string) : st process unit :=
  if negb (String.eqb f.(FLAGS_cm_init_config) "") then
    config ← (fun s => (call (LoadFile s.(m_world).(p_fs) f.(FLAGS_cm_init_config)), s));
    capsule_manager_client ← on_device (CapsuleManagerClient.New f.(FLAGS_cm_endpoint));
    resource_request ← pure (config_resource_request config cert);
    tls_asset ← on_device (CapsuleManagerClient.GetTlsAsset b capsule_manager_client f.(FLAGS_plat)
                             cert private_key resource_request);
    cert_path ← pure (text_at config kTlsCertPath);
    _ ← on_disk (WriteFile cert_path (s2b (tls_cert tls_asset)));
    key_path ← pure (text_at config kTlsKeyPath);
    on_disk (WriteFile key_path (s2b (tls_private_key tls_asset)))
  else mret tt.

Definition data_capsule_proxy_main (b : build_flags) (f : Flags) : st process Z :=
  exit_code
    (_ ← on_logs (LogSetup (log_options f));
     cert ← on_disk (ReadFile f.(FLAGS_cert_path));
     private_key ← on_disk (ReadFile f.(FLAGS_private_key_path));
     _ ← init_tls_asset b f cert private_key;
     serve b f (SDataCapsuleProxy (mk_proxy f.(FLAGS_cm_endpoint) f.(FLAGS_plat) cert private_key))).
End Model.

(** ** What a program has done when it ends *)

Section Facts.
Context `{Fmt} `{Absl} `{Hashes} `{Cppcodec} `{Base64Url} `{Base32} `{OpensslX509} `{Gcm} `{TlsAssets}.
Context `{ProtoJson DcapReport} `{ProtoJson IntelTdxReport} `{ProtoJson SgxQlQveCollateral}
        `{ProtoJson HygonCsvReport} `{ProtoJson HygonCsvCertChain}.
Context `{ProtoJson JweHeader} `{ProtoJson JwsHeader} `{ProtoJson Jws}.
Context `{ProtoJson GetTlsAssetRequest} `{ProtoJson GetTlsAssetResponse}.
Context `{ProtoJson GetDataKeysRequest} `{ProtoJson GetDataKeysResponse}
        `{ProtoJson CreateResultDataKeyRequest}.
Context `{ProtoWire ResourceRequest} `{ProtoWire ResultDataKeyBody}.
Context `{Host} `{!CapsuleManagerStub} `{Rand} `{!Keys} `{ReportDataSizes} `{HygonLayout}.
Context `{FL : FileIOLaws} `{ByteView} `{DirWalk} `{!Oss} `{Spdlog} `{Yaml} `{Brpc} `{!BrpcServer}.

Lemma ReadFile_Ok path (w w' : world) t :
  ReadFile path w = (Ok t, w') -> exists c, w.(w_fs) !! path = Some c /\ t = b2s c /\ w' = w.
Proof.
  intros Hr. destruct (w.(w_fs) !! path) as [c|] eqn:Hc.
  - rewrite (ReadFile_content _ _ _ Hc) in Hr. injection Hr as <- <-. by exists c.
  - unfold ReadFile in Hr. inv_st. unfold open_in in *.
    match goal with H : (call _, _) = _ |- _ => injection H as Ho _; apply call_Ok in Ho as Ho end.
    apply FileInputStream_some in Ho as [c Hs]. by rewrite Hc in Hs.
Qed.

Lemma WriteFile_Ok path content (w w' : world) :
  WriteFile path content w = (Ok tt, w') ->
  in_place w.(w_dirs) path /\ w' = mk_world _ (<[path := content]> w.(w_fs)) w.(w_dirs) w.(w_rng).
Proof.
  unfold WriteFile, mbind, st_bind, open_out, write, close_out.
  destruct (FileOutputStream (w_dirs w) (w_fs w) path) as [e|[out fs1]] eqn:Ho; [done|].
  apply FileOutputStream_some in Ho as (Hin & -> & Hp & Hq). cbn [w_fs w_rng].
  destruct (Write_ok out content (<[path := []]> w.(w_fs)) []) as (out' & -> & _);
    [rewrite Hp; apply lookup_insert_eq|done|].
  rewrite Close_ok, Hp, insert_insert_eq. cbn. by intros [= <-].
Qed.

Lemma on_world_Ok {A} (m : st pworld A) (s s' : process) a :
  on_world m s = (Ok a, s') ->
  m s.(m_world) = (Ok a, s'.(m_world)) /\ s'.(m_net) = s.(m_net).
Proof. unfold on_world. destruct (m _) as [r w]. by intros [= -> <-]. Qed.

Lemma read_disk_Ok path (s s' : process) t :
  on_disk (ReadFile path) s = (Ok t, s') ->
  (exists c, s.(m_world).(p_fs) !! path = Some c /\ t = b2s c) /\
  s'.(m_world) = s.(m_world) /\ s'.(m_net) = s.(m_net).
Proof.
  intros [Hr Hn]%on_world_Ok. unfold on_files in Hr. apply focus_Ok in Hr as (d & Hr & Hw).
  apply ReadFile_Ok in Hr as (c & Hc & -> & ->). split; [by exists c|]. split; [|done].
  rewrite Hw. apply with_oss_of.
Qed.

(** The file is in the world of the process, and nothing else has changed. *)
Definition written (path : string) (content : bytes) (w : pworld) : pworld :=
  mk_pworld (<[path := content]> w.(p_fs)) w.(p_dirs) w.(p_cloud) w.(p_host).

Lemma write_disk_Ok path content (s s' : process) :
  on_disk (WriteFile path content) s = (Ok tt, s') ->
  s'.(m_world) = written path content s.(m_world) /\ s'.(m_net) = s.(m_net).
Proof.
  intros [Hr Hn]%on_world_Ok. split; [|done]. unfold on_files in Hr. apply focus_Ok in Hr as (d & Hr & ->).
  apply WriteFile_Ok in Hr as [_ ->]. by destruct (m_world s) as [? ? ? []].
Qed.

Lemma on_logs_Ok {A} (m : st logs A) (s s' : process) a :
  on_logs m s = (Ok a, s') -> s'.(m_world) = s.(m_world) /\ s'.(m_net) = s.(m_net).
Proof. unfold on_logs. destruct (m _) as [r l]. by intros [= _ <-]. Qed.

Lemma on_device_Ok {A} (m : st host_state A) (s s' : process) a :
  on_device m s = (Ok a, s') ->
  exists h, m s.(m_world).(p_host) = (Ok a, h) /\ s'.(m_net) = s.(m_net) /\
    s'.(m_world) = mk_pworld s.(m_world).(p_fs) s.(m_world).(p_dirs) s.(m_world).(p_cloud) h.
Proof.
  intros [Hr Hn]%on_world_Ok. unfold on_host in Hr. destruct (m _) as [r h]. injection Hr as -> Hw. by exists h.
Qed.

(** ** Serving *)

Lemma all_defined_ended {X} (ps : list (X * prog pworld unit)) x r :
  all_defined ps = Ok tt -> (x, Ret r) ∈ ps -> defined r.
Proof.
  induction ps as [|[y q] ps IH]; [by intros _ ?%elem_of_nil|]. intros Ha [E|Hin]%elem_of_cons.
  - injection E as <- <-. by destruct r.
  - apply IH; [|done]. by destruct q as [[]|].
Qed.

Lemma all_defined_cases {X} (ps : list (X * prog pworld unit)) :
  all_defined ps = Ok tt \/ exists u, all_defined ps = UB u.
Proof. induction ps as [|[y [[]|]] ps IH]; cbn; eauto. Qed.

(** [calls] with the programs [body] were served from [w] on: in [w'], which an
    interleaving of their operations reaches, all of them have ended. *)
Definition all_served {X} (body : X -> prog pworld unit) (calls : list X) (w w' : pworld) : Prop :=
  exists ps, rtc pool_step ((fun c => (c, body c)) <$> calls, w) (ps, w') /\
    forall i c, calls !! i = Some c -> exists r, ps !! i = Some (c, Ret r) /\ defined r.

Lemma run_calls_served {X} (body : X -> prog pworld unit) calls turns (s : process) :
  let '(r, s') := run_calls ((fun c => (c, body c)) <$> calls) turns s in
  s'.(m_net) = s.(m_net) /\
  ((exists u, r = UB u) \/ r = Ok tt /\ all_served body calls s.(m_world) s'.(m_world)).
Proof.
  unfold run_calls. set (ps0 := _ <$> calls). set (s1 := foldl pool_run (ps0, s.(m_world)) turns).
  assert (rtc pool_step (ps0, s.(m_world)) s1) as R1 by apply pool_schedule.
  pose proof (pool_finish_reachable s1) as R2.
  assert (forall i c, calls !! i = Some c -> exists r, (pool_finish s1).1 !! i = Some (c, Ret r)) as Hend.
  { intros i c Hi. destruct (pool_label _ _ i c (body c) R1) as [p Hp].
    { cbn. unfold ps0. by rewrite list_lookup_fmap, Hi. }
    by eapply pool_finish_ended. }
  destruct (pool_finish s1) as [ps w']. cbn in *. split; [done|].
  destruct (all_defined_cases ps) as [E|[u E]]; [right|left; by exists u]. split; [done|].
  exists ps. split; [by etrans|]. intros i c Hi. destruct (Hend i c Hi) as [r Hr]. exists r. split; [done|].
  eapply all_defined_ended; [done|by eapply list_elem_of_lookup_2].
Qed.

(** What a service does between the start of the server and its end. *)
Definition serves (b : build_flags) (sv : service) (n : net) (w w' : pworld) : Prop :=
  match sv with
  | SRaProxy self => all_served (fun c => op (on_host (ra_call b self c))) (ra_calls n).1 w w'
  | SDataCapsuleProxy self => all_served (body_of b self) (data_calls n).1 w w'
  end.

Lemma RunUntilAskedToQuit_serves b sv (s : process) :
  let '(r, s') := RunUntilAskedToQuit b sv s in
  (exists u, r = UB u) \/
  (r = Ok tt /\ s'.(m_net) = Quit s.(m_net) /\ serves b sv s.(m_net) s.(m_world) s'.(m_world)).
Proof.
  unfold RunUntilAskedToQuit, mbind, st_bind, on_net. destruct sv as [self|self]; cbn [serves].
  - destruct (ra_calls s.(m_net)) as [calls turns]. cbn [fst].
    pose proof (run_calls_served (fun c => op (on_host (ra_call b self c))) calls turns s) as Hs.
    unfold ra_serving. destruct (run_calls _ turns s) as [r s1]. destruct Hs as [Hn [[u ->]|[-> Hs]]].
    + left. by exists u.
    + right. by rewrite Hn.
  - destruct (data_calls s.(m_net)) as [calls turns]. cbn [fst].
    pose proof (run_calls_served (body_of b self) calls turns s) as Hs. unfold serving.
    destruct (run_calls _ turns s) as [r s1]. destruct Hs as [Hn [[u ->]|[-> Hs]]].
    + left. by exists u.
    + right. by rewrite Hn.
Qed.

(** The service was added, the server was started, served the calls that arrived
    and ended. *)
Definition served_until_quit (b : build_flags) (f : Flags) (sv : service) (n n' : net) (w w' : pworld) : Prop :=
  exists n1 n2, AddService sv n = (0, n1) /\
    Start f.(FLAGS_port) f.(FLAGS_idle_timeout_s) n1 = (0, n2) /\
    serves b sv n2 w w' /\ n' = Quit n2.

Lemma serve_cases b f sv (s : process) :
  let '(r, s') := serve b f sv s in
  (exists u, r = UB u) \/ r = Ok (-1) \/
  (r = Ok 0 /\ served_until_quit b f sv s.(m_net) s'.(m_net) s.(m_world) s'.(m_world)).
Proof.
  unfold serve, mbind, st_bind, on_net.
  destruct (AddService sv s.(m_net)) as [a n1] eqn:Ea. cbn [m_net m_world m_logs].
  destruct (Z.eqb_spec a 0) as [->|]; cbn [negb m_net m_world m_logs]; [|right; by left].
  destruct (Start f.(FLAGS_port) f.(FLAGS_idle_timeout_s) n1) as [a n2] eqn:Eb. cbn [m_net m_world m_logs].
  destruct (Z.eqb_spec a 0) as [->|]; cbn [negb m_net m_world m_logs]; [|right; by left].
  pose proof (RunUntilAskedToQuit_serves b sv (mk_process s.(m_world) s.(m_logs) n2)) as Hq.
  destruct (RunUntilAskedToQuit b sv _) as [r s']. cbn in Hq. destruct Hq as [[u ->]|(-> & Hn & Hs)].
  - left. by exists u.
  - right. right. split; [done|]. by exists n1, n2.
Qed.

Lemma serve_Ok b f sv (s s' : process) : serve b f sv s = (Ok 0, s') ->
  served_until_quit b f sv s.(m_net) s'.(m_net) s.(m_world) s'.(m_world).
Proof. intros Hs. pose proof (serve_cases b f sv s) as Hc. rewrite Hs in Hc. by destruct Hc as [[]|[|[_ ?]]]. Qed.

Lemma exit_code_cases body (s s' : process) r :
  (forall c s1, body s = (Ok c, s1) -> c = 0 \/ c = -1) ->
  exit_code body s = (r, s') -> defined r ->
  (r = Ok 0 /\ body s = (Ok 0, s')) \/ r = Ok (-1).
Proof.
  intros Hc. unfold exit_code. destruct (body s) as [[c|e|u] s1] eqn:E; intros [= <- <-] Hd; [|by right|done].
  destruct (Hc c s1 eq_refl) as [->| ->]; [by left|by right].
Qed.

Lemma serve_code b f sv (s s' : process) c : serve b f sv s = (Ok c, s') -> c = 0 \/ c = -1.
Proof.
  intros Hs. pose proof (serve_cases b f sv s) as Hc. rewrite Hs in Hc.
  destruct Hc as [[]|[E|[E _]]]; [done| |]; injection E as ->; auto.
Qed.

(** The remote attestation proxy ends with 0 or -1 and lets no exception
    out; with 0 it has served, with the content of the certificate file as its
    certificate, every call that arrived until it was asked to quit. *)
Theorem ra_proxy_main_serves b f (s s' : process) r :
  ra_proxy_main b f s = (r, s') -> defined r ->
  r = Ok (-1) \/
  (r = Ok 0 /\ exists cert, s.(m_world).(p_fs) !! f.(FLAGS_cert_path) = Some cert /\
     served_until_quit b f (SRaProxy (RaProxy.mk_ra_proxy f.(FLAGS_plat) (b2s cert))) s.(m_net) s'.(m_net)
       s.(m_world) s'.(m_world)).
Proof.
  intros Hm Hd. eapply exit_code_cases in Hm as [[-> Hb]|]; [|by left| |done].
  2: { intros c s1 Hb. inv_st. by eapply serve_code. }
  right. split; [done|]. inv_st.
  match goal with H : on_logs _ _ = _ |- _ => apply on_logs_Ok in H as [F1 N1] end.
  match goal with H : on_disk (ReadFile _) _ = _ |- _ => apply read_disk_Ok in H as ((cert & Hc & ->) & F2 & N2) end.
  match goal with H : serve _ _ _ _ = _ |- _ => apply serve_Ok in H as N3 end.
  exists cert. rewrite F1 in Hc. split; [done|]. by rewrite F2, F1, N2, N1 in N3.
Qed.

(** [w'] is [w] after the start-up configuration: the TLS asset the capsule manager
    gave for the resources the configuration names is in the two files it names,
    in directories that were there, and nothing else but the host has changed. *)
Definition tls_installed (b : build_flags) (f : Flags) (cert private_key : string) (w w' : pworld) : Prop :=
  exists config req client asset h1 h2 cert_path key_path,
    LoadFile w.(p_fs) f.(FLAGS_cm_init_config) = inr config /\
    config_resource_request config cert = Ok req /\
    CapsuleManagerClient.New f.(FLAGS_cm_endpoint) w.(p_host) = (Ok client, h1) /\
    CapsuleManagerClient.GetTlsAsset b client f.(FLAGS_plat) cert private_key req h1 = (Ok asset, h2) /\
    text_at config kTlsCertPath = Ok cert_path /\ text_at config kTlsKeyPath = Ok key_path /\
    w' = written key_path (s2b (tls_private_key asset)) (written cert_path (s2b (tls_cert asset))
           (mk_pworld w.(p_fs) w.(p_dirs) w.(p_cloud) h2)).

Lemma init_tls_asset_Ok b f cert private_key (s s' : process) :
  init_tls_asset b f cert private_key s = (Ok tt, s') ->
  s'.(m_net) = s.(m_net) /\
  if String.eqb f.(FLAGS_cm_init_config) "" then s'.(m_world) = s.(m_world)
  else tls_installed b f cert private_key s.(m_world) s'.(m_world).
Proof.
  unfold init_tls_asset. destruct (String.eqb _ ""); cbn [negb]; [by intros [= <-]|].
  intros Hi. inv_st.
  match goal with H : (call (LoadFile _ _), _) = (Ok ?c, _) |- _ => injection H as Hl <-;
    apply call_Ok in Hl; rename c into config end.
  repeat match goal with u : unit |- _ => destruct u end.
  match goal with H : on_device (CapsuleManagerClient.New _) _ = _ |- _ =>
    apply on_device_Ok in H as (h1 & Hnew & N1 & W1) end.
  match goal with H : on_device (CapsuleManagerClient.GetTlsAsset _ _ _ _ _ _) _ = _ |- _ =>
    apply on_device_Ok in H as (h2 & Hget & N2 & W2) end.
  repeat match goal with H : on_disk (WriteFile _ _) _ = _ |- _ => apply write_disk_Ok in H as [? ?] end.
  split; [congruence|]. rewrite W1 in Hget, W2. cbn in Hget, W2.
  eexists config, _, _, _, h1, h2, _, _. repeat (split; [eassumption|]). congruence.
Qed.

End Facts.

(** ** Witnesses *)

Module ProgramsWitness.
#[local] Existing Instances sample_fmt sample_absl sample_hashes sample_cppcodec
  sample_b64url sample_rand sample_keys sample_x509 sample_gcm sample_report_data sample_hygon
  sample_fileio sample_fileio_laws sample_byteview sample_walk sample_oss sample_brpc sample_spdlog.
#[local] Instance host : Host := sample_host 0 "".
#[local] Instance base32 : Base32 := {| base32_encode := hex_encode |}.

Inductive ynode := YText (s : string) | YMap (m : list (string * ynode)) | YSeq (l : list ynode).

Definition config : ynode :=
  YMap [("scope", YText "s"); ("op_name", YText "op");
        ("resource", YSeq [YMap [("resource_uri", YText "u"); ("columns", YSeq [YText "c"]); ("attrs", YText "")]]);
        ("env", YText ""); ("global_attrs", YText "");
        ("tls_cert_path", YText "tls.crt"); ("tls_key_path", YText "tls.key")].

Definition bad_node : exn := mk_exn (StdException "YAML::Exception") "bad node" [].

#[local] Instance yaml : Yaml := {|
  node := ynode;
  LoadFile fs p := match fs !! p with Some _ => inr config | None => inl bad_node end;
  node_at n k :=
    match n with
    | YMap m => match List.find (fun p => String.eqb p.1 k) m with Some (_, c) => inr c | None => inl bad_node end
    | _ => inl bad_node
    end;
  as_string n := match n with YText t => inr t | _ => inl bad_node end;
  IsSequence n := inr (match n with YSeq _ => true | _ => false end);
  node_items n := match n with YSeq l => l | _ => [] end
|}.

(** One result for a directory, under the key of the request, and one request for
    a certificate. *)
Definition put : PutResultDataRequest :=
  mk_put_result "/s" (hex_encode (zero_bytes 16)) None (Some "/t") (mk_cm_result_config "" "" "" []).
Definition ask : RaProxy.GetRaCertRequest * controller := (RaProxy.mk_ra_request "n", ("", None)).

#[local] Instance server : BrpcServer := {|
  net := list string;
  AddService _ n := (0, n ++ ["add"]);
  Start _ _ n := (0, n ++ ["start"]);
  data_calls _ := ([CallPut [Visit] put], replicate 3 0%nat);
  ra_calls _ := ([ask], []);
  Quit n := n ++ ["quit"]
|}.

#[local] Instance assets : TlsAssets := {|
  TlsAsset := string * string; default_tls_asset := ("", ""); tls_cert := fst; tls_private_key := snd
|}.

Definition req : ResourceRequest :=
  mk_resource_request (match GeneratePartyId "C" with Ok id => id | _ => "" end) "s" "op"
    [mk_resource "u" ["c"] ""] "" "".
Definition jws : Jws :=
  let ph := hex_encode (s2b "H") in
  let payload := hex_encode (s2b "Q") in
  mk_jws ph payload (hex_encode (s2b (ph +:+ "." +:+ payload))).

#[local] Instance wire {T} : ProtoWire T := {| SerializeToString _ := None |}.
#[local] Instance j_none {T} : ProtoJson T | 100 :=
  {| MessageToJsonString _ := inl ""; JsonStringToMessage _ := inl "" |}.
#[local] Instance j1 : ProtoJson GetTlsAssetRequest :=
  {| MessageToJsonString _ := inr "Q"; JsonStringToMessage _ := inl "" |}.
#[local] Instance j2 : ProtoJson JweHeader := sample_json [("E", mk_jwe_header kRsaOaep kAes128Gcm)].
#[local] Instance j3 : ProtoJson JwsHeader :=
  sample_json [("H", mk_jws_header kRs256 [hex_encode (s2b "C")])].
#[local] Instance j4 : ProtoJson Jws := sample_json [("J", jws)].
#[local] Instance j5 : ProtoJson GetTlsAssetResponse :=
  {| MessageToJsonString _ := inl ""; JsonStringToMessage _ := inr (mk_tls_asset_response _ ("tc", "tk")) |}.

Definition answer : EncryptedResponse :=
  mk_enc_response (mk_sf_status Code_OK "success")
    (mk_jwe (hex_encode (s2b "E")) (hex_encode (zero_bytes 16)) (hex_encode (zero_bytes 12))
       (hex_encode (s2b "R")) (hex_encode (zero_bytes 16)) "").
#[local] Instance stub : CapsuleManagerStub := {|
  stub_GetRaCert _ _ _ d := ((mk_grpc_status 0 "", mk_cm_ra_response (mk_sf_status 0 "") None "peer"), d);
  stub_GetDataKeys _ _ _ d := ((mk_grpc_status 0 "", answer), d);
  stub_GetTlsAsset _ _ _ d := ((mk_grpc_status 0 "", answer), d);
  stub_CreateResultDataKey _ _ _ d := ((mk_grpc_status 0 "", answer), d)
|}.

Definition flags : Flags :=
  mk_flags "sim" 8010 (-1) "app.crt" "app.key" "ep" "init.yml" "a.log" "m.log" "info" false.
Definition p0 : process :=
  mk_process
    (mk_pworld (<["app.crt" := s2b "C"]> (<["app.key" := s2b "me"]> (<["init.yml" := []]>
                  (<["/s/a" := s2b "hello"]> ∅))))
       {["/s"]} ∅ (mk_host [] 0 tt tt)) ∅ [].
Definition build : build_flags := mk_build_flags true false false.

Definition main_done : outcome Z * process := Eval vm_compute in data_capsule_proxy_main build flags p0.


Definition ra_done : outcome Z * process := Eval vm_compute in ra_proxy_main build ra_proxy_flags p0.

Lemma ra_proxy_main_serves_witness : exists cert,
  served_until_quit build ra_proxy_flags (SRaProxy (RaProxy.mk_ra_proxy "sim" (b2s cert))) p0.(m_net)
    ra_done.2.(m_net) p0.(m_world) ra_done.2.(m_world).
Proof.
  destruct (ra_proxy_main_serves build ra_proxy_flags p0 ra_done.2 ra_done.1) as [Hr|(_ & cert & _ & Hs)].
  - vm_compute. reflexivity.
  - vm_compute. exact I.
  - vm_compute in Hr. discriminate Hr.
  - by exists cert.
Defined.
End ProgramsWitness.
